(* ===== verification/_CoqProject ===== *)
-Q . S2P
Prelude.v
Rip.v
Netip.v
Ipv4Header.v
Netstack.v
Utils.v
Pq.v
Config.v
Node.v
Routing.v
RipProto.v
LnxConfig.v
Packets.v
TcpTypes.v
TcpSegments.v
TcpRing.v
TcpReceiver.v
TcpReassembly.v
TcpStack.v
TcpClose.v
TcpSender.v
TcpFaults.v
TcpTimer.v
TcpWindow.v
TcpSliding.v
TcpStream.v
TcpWindowFaults.v
FileTransfer.v
Printing.v
Repl.v
TcpExamples.v
