(* ===== verification/Prelude.v ===== *)
(** * Verification of a user-space IP/TCP stack

    The program is a virtual IP router and host with RIP and TCP, in Go.  Its
    packages, and the files of this library that model them:

    - [pkg/rip/rip.go] (RIP message codec): [Rip].
    - [pkg/iptcp-headers/ipv4header.go] (IPv4 header codec): [Ipv4Header].
    - [pkg/iptcp_utils/iptcp_utils.go] (checksums, TCP header): [Utils].
    - [pkg/pq/pq.go] (queue of early TCP segments): [Pq].
    - [pkg/lnxconfig/lnxconfig.go]: the data of a configuration, [Config], and its
      parser, [LnxConfig].
    - [pkg/node/node.go] (the IP node: delivery, forwarding, RIP): [Node] holds
      every operation; [Routing] (longest-prefix match, table invariants),
      [RipProto] (RIP) and [Packets] (life of a packet) hold its theorems.
    - [pkg/tcpstack/tcpstack.go] (TCP): [TcpTypes] (data, segments), [TcpStack]
      (tables, demultiplexing, handshake), [TcpRing] ([VRead], receive ring),
      [TcpReceiver] ([ReceiverThread]), [TcpSender] (the send ring: what a round of
      [VWrite] writes, what [SenderThread] cuts), [TcpClose] ([VClose] and closing),
      [TcpTimer] ([recomputeRTO]), [TcpWindow] ([slidingWindow], [retransThread]),
      [TcpStream] ([VWrite] and [SenderThread] with the calls of [slidingWindow] they
      lead to), [FileTransfer] ([SendFile], [ReceiveFile]), with theorems also in
      [TcpSegments], [TcpReassembly], [TcpFaults], [TcpSliding] and
      [TcpWindowFaults]; [TcpExamples] instantiates them on concrete connections.
    - [pkg/repl/repl.go], [cmd/vhost/vhost.go], [cmd/vrouter/vrouter.go] (command
      line and programs): [Repl]; the tables it prints: [Printing].

    This file holds what they share: the outcome of a Go call, fixed-width
    integers, big-endian bytes, lists indexed by [Z], Go slices, automation.

    ** How the parts interact

    A datagram enters through [interface_recv], is checked and dispatched by
    [handlePackets], and is forwarded ([forwardPacket]) or handed to a protocol
    handler ([call_handler]): RIP updates the forwarding table ([protocol200]),
    TCP segments go to the stack ([protocol6], event [ETCP]).  There [dispatch]
    chooses the socket and [ReceiverThread] processes the segment.  Everything
    TCP sends passes through [send_segment], i.e. [HandleSend] on the node.  A
    record per Go struct carries the state; an operation maps the old state and
    its input to the new state and the list of its effects.

    On the sending side [VWrite] fills the send ring ([write_round]), the sender
    cuts a payload out of it ([take_payload]) and starts [slidingWindow] on it, whose
    steps ([sw_advance], and [thread_retransmit] for the goroutine it starts)
    interleave with the receiver through the socket's [ackChan] and its numbers, and
    with further rounds of [VWrite]; [wstep] is that whole interleaving, and the ring's
    [UNA] and [NXT] move in it only as [slidingWindow] moves them.
    [ReceiveFile]'s loop ([rf_step]) reads while [ReceiverThread] stores.  A program
    ([start]) parses its configuration, initialises the node and, on a host, the
    stack, and passes each typed line to [REPL].

    Two interfaces separate the program from code that is not part of it:
    [Netstack]/[NetstackLaws] for the netstack header package (file [Netstack],
    with a concrete instance), and [MapIter]/[MapIterLaws] for the unspecified
    order of Go's map iteration (file [Node]); [Netip] models the part of the
    standard library's [net/netip] and [net.CIDRMask] that is used, for IPv4.

    ** What the theorems show

    - Codecs: marshalling and parsing are inverse for RIP messages, IPv4 headers
      and TCP segments; every error and panic of the parsers is characterised.
    - Checksums: which headers pass, and that word errors are detected.
    - Packets: delivery with intact payload, forwarding through any number of
      routers, a bound on every forwarding chain, the sending side.
    - Routing: the lookup is a longest match and independent of map order; RIP
      updates refine a distance-vector rule per destination, keep the table
      well-formed on every reachable node, relax costs, poison routes back to
      their next hop, and expired routes are collected.
    - TCP: handshake, demultiplexing, reassembly of segments in any order, the
      receive ring as a FIFO of bytes, the closing states and which operation takes
      which edge, the orderly close and when it is lost, and the timeout: a number
      within its bounds after any history, exactly doubled on expiry.
    - Send stream ([TcpStream]): for a peer that keeps its window open, the bytes cut
      from the ring and the segments sent are the message's bytes in order under every
      interleaving, across calls of [slidingWindow]; a schedule sends them all.
    - Sliding window: for the payloads of [VWrite] and a peer that keeps its window
      open, consecutive pieces of the payload are sent and the call ends only when
      all is acknowledged, under every interleaving; a schedule ends it.
    - File transfer: the segments of a file, delivered in any order while the
      reading loop runs, give exactly the file ([file_transfer], which composes the
      sliding window, the receiver, the ring and the loop); what [SendFile] sends.
    - Configuration: the parser reads back the printed text of every consistent
      configuration, gives only configurations of the type the node assumes, and
      when it panics.
    - Command line and programs: what a typed message becomes, what every line does
      to the stack, exactly which lines panic, that the accepting goroutine serves
      every client, what each of the two programs starts.
    - Faults: inputs on which the program panics, deadlocks, loops or loses data
      ([TcpFaults], [TcpWindowFaults], the last theorems of [RipProto] and
      [Packets], [TcpStream.vwrite_livelock], [FileTransfer.fin_truncates_file]).

    ** Modelling choices

    - Integers are [Z]; values of a fixed width wrap where Go wraps ([u8], [u16],
      [u32]).  Go's [int] is unbounded here.
    - Calls return an [outcome]: [Ret], [Panic] (which stops the program) or
      [Block] (the goroutine waits and takes no further step).  A blocked call has
      no successor state; what it changed before blocking is not visible, except
      in [ReceiverThread_body], whose [StuckFin] result carries the state because
      other goroutines depend on it.
    - A handler that holds its lock from start to end is one step, and so is a round
      of [VWrite] and an iteration of [ReceiverThread] (which takes several locks in
      turn) and [protocol200] (which takes its lock once per entry).  Elsewhere, where
      goroutines interleave inside a call, the call is split where it takes or releases
      a mutex or reads shared fields under none ([wstep], [sw_step], [rf_step] with
      [VRead_test] and [VRead_locked], [closer_delete], [closer_finish]), and mutexes a
      path can leave locked are part of the state.  [VRead] is the composition of its
      parts, for a caller that nothing interrupts.
    - Loops with a counter recurse on it; [copy_loop] has fuel one per byte and
      each round stores at least one; [drain_early] has fuel one per queued packet
      and each round pops one; [popcount_loop] has 32 rounds for a 32-bit value.
      Waiting loops consume a list of inputs ([connect_loop], [wait_flag],
      [accept_loop], which uses up two messages per round); [doScanf] consumes a
      verb of its format per round, and [shrink] moves the head one node per round.
    - Messages are shorter than 2^32 bytes, so [uint32(len(message))] is the length.
    - Capacities of [normalChan], [listenChan] and of the interface channels, the
      128-bit addresses and UDP errors are left out; an IPv6 literal in a
      configuration or a command counts as a bad address, and text is ASCII.
    - A retransmission thread that outlives its call of [slidingWindow] is not part
      of the next call's steps; [packetDoneChan], which it may still have to empty,
      is.
    - [wstep] has one [VWrite] at a time, as the command line and [SendFile] make them;
      it may start while the sender is still busy with an earlier message.
    - When [VAccept] waits for ever, [accept_loop] ends in that [Block] and the
      half-open socket and the SYN/ACK sent before are not visible.
    - Results of the operating system (files, terminal lines, random ports, times)
      are arguments.  Sleeps only allow other goroutines to run, which every
      interleaving covers.

    ** Not modelled

    [IPv4Header.String], [TCPFlagsAsString] and [TCPFieldsToString] format headers
    for debugging and nothing calls them; [lnxconfig.LnxConfig] is test data nothing
    uses.  A line of the configuration longer than the scanner's buffer, which ends
    the file silently, is outside the model: a file is the list of its lines.

    Next: the sliding window for calls on a closed window (zero-window probing
    beyond the faults shown here), and the node's goroutines as one step relation
    with the channels' capacities. *)
From Stdlib Require Export ZArith Lia.
From Stdlib Require Import Strings.Byte.
From stdpp Require Export base list gmap strings numbers option.

#[global] Open Scope Z_scope.

(** * Outcomes of Go code

    A call returns, panics (slice out of range, nil dereference, failed
    type assertion, [log.Fatalln], [netip.MustParseAddr]) or blocks for ever
    (nil channel, a mutex that nobody unlocks).  Go's [error] results are
    values and are kept as such in the returned data. *)
Inductive outcome (A : Type) : Type :=
  | Ret (a : A)
  | Panic (why : string)
  | Block (why : string).
Arguments Ret {A} a.
Arguments Panic {A} why.
Arguments Block {A} why.

#[global] Instance outcome_ret : MRet outcome := fun A a => Ret a.
#[global] Instance outcome_bind : MBind outcome := fun A B f m =>
  match m with
  | Ret a => f a
  | Panic w => Panic w
  | Block w => Block w
  end.

(** * Fixed-width integers *)
Definition u8 (z : Z) : Z := z mod 2 ^ 8.
Definition u16 (z : Z) : Z := z mod 2 ^ 16.
Definition u32 (z : Z) : Z := z mod 2 ^ 32.

(** * Bytes *)
Abbreviation byte := Byte.byte.

(** The numeric value of a byte, and Go's conversion [byte(z)]. *)
Definition byteZ (b : byte) : Z := Z.of_N (Byte.to_N b).
Definition Zbyte (z : Z) : byte :=
  match Byte.of_N (Z.to_N (z mod 256)) with
  | Some b => b
  | None => Byte.x00
  end.

Lemma byteZ_range b : 0 <= byteZ b < 256.
Proof. unfold byteZ. pose proof (Byte.to_N_bounded b). lia. Qed.

Lemma Zbyte_byteZ b : Zbyte (byteZ b) = b.
Proof.
  unfold Zbyte. rewrite Z.mod_small by apply byteZ_range.
  unfold byteZ. by rewrite N2Z.id, Byte.of_to_N.
Qed.

Lemma byteZ_Zbyte z : byteZ (Zbyte z) = z mod 256.
Proof.
  unfold Zbyte, byteZ.
  pose proof (Z.mod_pos_bound z 256 ltac:(lia)) as Hz.
  destruct (Byte.of_N _) as [b|] eqn:E.
  - apply Byte.to_of_N in E. rewrite E. lia.
  - apply Byte.of_N_None_iff in E. lia.
Qed.

Lemma byteZ_inj b1 b2 : byteZ b1 = byteZ b2 -> b1 = b2.
Proof. intros H. by rewrite <- (Zbyte_byteZ b1), H, Zbyte_byteZ. Qed.

#[global] Instance byte_eq_dec : EqDecision byte.
Proof. intros x y. apply Byte.byte_eq_dec. Defined.

#[global] Instance byte_inhabited : Inhabited byte := populate Byte.x00.

Lemma u8_range z : 0 <= u8 z < 2 ^ 8.
Proof. apply Z.mod_pos_bound; lia. Qed.
Lemma u16_range z : 0 <= u16 z < 2 ^ 16.
Proof. apply Z.mod_pos_bound; lia. Qed.
Lemma u32_range z : 0 <= u32 z < 2 ^ 32.
Proof. apply Z.mod_pos_bound; lia. Qed.
Lemma u8_small z : 0 <= z < 2 ^ 8 -> u8 z = z.
Proof. apply Z.mod_small. Qed.
Lemma u16_small z : 0 <= z < 2 ^ 16 -> u16 z = z.
Proof. apply Z.mod_small. Qed.
Lemma u32_small z : 0 <= z < 2 ^ 32 -> u32 z = z.
Proof. apply Z.mod_small. Qed.

(** * Big-endian words ([encoding/binary])

    [be_encode n z] is what [PutUint16]/[PutUint32]/[binary.Write] store for
    the low [n] bytes of [z]; [be_decode] is what [Uint16]/[Uint32] read. *)
Fixpoint be_encode (n : nat) (z : Z) : list byte :=
  match n with
  | O => []
  | S n' => Zbyte (Z.shiftr z (8 * Z.of_nat n')) :: be_encode n' z
  end.

Fixpoint be_decode (bs : list byte) : Z :=
  match bs with
  | [] => 0
  | b :: bs' => Z.shiftl (byteZ b) (8 * Z.of_nat (length bs')) + be_decode bs'
  end.

Lemma length_be_encode n z : length (be_encode n z) = n.
Proof. induction n as [|n IH]; simpl; congruence. Qed.

Lemma pow256 (n : nat) : 2 ^ (8 * Z.of_nat n) = 256 ^ Z.of_nat n.
Proof. change 256 with (2 ^ 8). rewrite <- Z.pow_mul_r by lia. done. Qed.

Lemma pow256_S (n : nat) : 256 ^ Z.of_nat (S n) = 256 * 256 ^ Z.of_nat n.
Proof. rewrite Nat2Z.inj_succ, Z.pow_succ_r by lia. done. Qed.

Lemma pow256_pos (n : nat) : 0 < 256 ^ Z.of_nat n.
Proof. apply Z.pow_pos_nonneg; lia. Qed.

Lemma be_decode_bound bs : 0 <= be_decode bs < 256 ^ Z.of_nat (length bs).
Proof.
  induction bs as [|b bs IH]; [simpl; lia|].
  change (length (b :: bs)) with (S (length bs)).
  cbn [be_decode]. rewrite pow256_S.
  rewrite Z.shiftl_mul_pow2, pow256 by lia.
  pose proof (byteZ_range b). nia.
Qed.

Lemma be_decode_encode n z : be_decode (be_encode n z) = z mod 256 ^ Z.of_nat n.
Proof.
  revert z; induction n as [|n IH]; intros z.
  { simpl. by rewrite Z.mod_1_r. }
  cbn [be_encode be_decode].
  rewrite length_be_encode, IH, byteZ_Zbyte, pow256_S.
  rewrite Z.shiftl_mul_pow2, Z.shiftr_div_pow2, pow256 by lia.
  pose proof (pow256_pos n).
  rewrite (Z.mul_comm 256), Z.rem_mul_r by lia. lia.
Qed.

(** Only the low [n] bytes of the encoded number matter. *)
Lemma be_encode_add_high n z k :
  be_encode n (k * 256 ^ Z.of_nat n + z) = be_encode n z.
Proof.
  revert k z; induction n as [|n IH]; intros k z; [done|].
  cbn [be_encode]. f_equal.
  - apply byteZ_inj. rewrite !byteZ_Zbyte, !Z.shiftr_div_pow2, pow256, pow256_S by lia.
    pose proof (pow256_pos n).
    replace (k * (256 * 256 ^ Z.of_nat n) + z)
      with (z + (k * 256) * 256 ^ Z.of_nat n) by ring.
    rewrite Z.div_add by lia. by rewrite Z.mod_add by lia.
  - rewrite pow256_S.
    replace (k * (256 * 256 ^ Z.of_nat n)) with (k * 256 * 256 ^ Z.of_nat n) by ring.
    apply IH.
Qed.

Lemma be_encode_mod n z : be_encode n (z mod 256 ^ Z.of_nat n) = be_encode n z.
Proof.
  rewrite <- (be_encode_add_high n (z mod _) (z / 256 ^ Z.of_nat n)).
  f_equal. pose proof (Z.div_mod z (256 ^ Z.of_nat n)).
  pose proof (pow256_pos n). lia.
Qed.

Lemma be_encode_decode bs : be_encode (length bs) (be_decode bs) = bs.
Proof.
  induction bs as [|b bs IH]; [done|].
  change (length (b :: bs)) with (S (length bs)). cbn [be_encode be_decode].
  rewrite Z.shiftl_mul_pow2, pow256 by lia.
  pose proof (be_decode_bound bs) as Hb. pose proof (pow256_pos (length bs)).
  f_equal.
  - apply byteZ_inj. rewrite byteZ_Zbyte, Z.shiftr_div_pow2, pow256 by lia.
    rewrite Z.div_add_l, (Z.div_small (be_decode bs)), Z.add_0_r by lia.
    apply Z.mod_small, byteZ_range.
  - by rewrite be_encode_add_high.
Qed.

Lemma be_encode_decode_len n bs : length bs = n -> be_encode n (be_decode bs) = bs.
Proof. intros <-. apply be_encode_decode. Qed.

Abbreviation be16 := (be_encode 2).
Abbreviation be32 := (be_encode 4).

Lemma be_decode16 z : be_decode (be16 z) = u16 z.
Proof. apply (be_decode_encode 2). Qed.
Lemma be_decode32 z : be_decode (be32 z) = u32 z.
Proof. apply (be_decode_encode 4). Qed.

(** * Lists with integer positions *)
Definition zlen {A} (l : list A) : Z := Z.of_nat (length l).
Definition ztake {A} (n : Z) (l : list A) : list A := take (Z.to_nat n) l.
Definition zdrop {A} (n : Z) (l : list A) : list A := drop (Z.to_nat n) l.
(** [l[lo:hi]] for bounds that are in range. *)
Definition zsub {A} (lo hi : Z) (l : list A) : list A := ztake (hi - lo) (zdrop lo l).

(** Go's [copy(dst[off:], src)] when [src] fits: the bytes of [dst] at
    [off .. off+len(src)-1] are replaced. *)
Definition zcopy {A} (dst : list A) (off : Z) (src : list A) : list A :=
  ztake off dst ++ src ++ zdrop (off + zlen src) dst.

Section zlist.
Context {A : Type}.
Implicit Types l : list A.

Lemma zlen_nonneg l : 0 <= zlen l.
Proof. unfold zlen; lia. Qed.

Lemma zlen_app l1 l2 : zlen (l1 ++ l2) = zlen l1 + zlen l2.
Proof. unfold zlen. rewrite length_app. lia. Qed.

Lemma zlen_ztake n l : 0 <= n <= zlen l -> zlen (ztake n l) = n.
Proof. unfold zlen, ztake. intros. rewrite length_take. lia. Qed.

Lemma zlen_zdrop n l : 0 <= n <= zlen l -> zlen (zdrop n l) = zlen l - n.
Proof. unfold zlen, zdrop. intros. rewrite length_drop. lia. Qed.

Lemma zlen_zsub lo hi l : 0 <= lo <= hi -> hi <= zlen l -> zlen (zsub lo hi l) = hi - lo.
Proof.
  intros. unfold zsub. apply zlen_ztake. rewrite zlen_zdrop by lia. lia.
Qed.

Lemma zlen_zcopy dst off (src : list A) :
  0 <= off -> off + zlen src <= zlen dst -> zlen (zcopy dst off src) = zlen dst.
Proof.
  intros. pose proof (zlen_nonneg src). unfold zcopy.
  rewrite !zlen_app, zlen_ztake, zlen_zdrop by lia. lia.
Qed.

Lemma ztake_zdrop n l : ztake n l ++ zdrop n l = l.
Proof. apply take_drop. Qed.

Lemma ztake_all n l : zlen l <= n -> ztake n l = l.
Proof. unfold zlen, ztake. intros. apply take_ge. lia. Qed.

Lemma ztake_nil_nonpos n l : n <= 0 -> ztake n l = [].
Proof. unfold ztake. intros. by replace (Z.to_nat n) with O by lia. Qed.

Lemma zdrop_nonpos n l : n <= 0 -> zdrop n l = l.
Proof. unfold zdrop. intros. by replace (Z.to_nat n) with O by lia. Qed.

Lemma zdrop_all n l : zlen l <= n -> zdrop n l = [].
Proof. unfold zlen, zdrop. intros. apply drop_ge. lia. Qed.

Lemma ztake_app_exact n l1 l2 : n = zlen l1 -> ztake n (l1 ++ l2) = l1.
Proof. intros ->. unfold ztake, zlen. rewrite Nat2Z.id. apply take_app_length. Qed.

Lemma zdrop_app_exact n l1 l2 : n = zlen l1 -> zdrop n (l1 ++ l2) = l2.
Proof. intros ->. unfold zdrop, zlen. rewrite Nat2Z.id. apply drop_app_length. Qed.

Lemma zsub_app_exact lo hi l1 l2 l3 :
  lo = zlen l1 -> hi = lo + zlen l2 -> zsub lo hi (l1 ++ l2 ++ l3) = l2.
Proof.
  intros -> ->. unfold zsub. rewrite zdrop_app_exact by done.
  apply ztake_app_exact. lia.
Qed.

Lemma zsub_0_app hi l2 l3 : hi = zlen l2 -> zsub 0 hi (l2 ++ l3) = l2.
Proof. intros ->. by apply (zsub_app_exact 0 (zlen l2) [] l2 l3). Qed.

Lemma zsub_split lo mid hi l :
  0 <= lo <= mid -> mid <= hi -> zsub lo hi l = zsub lo mid l ++ zsub mid hi l.
Proof.
  intros. unfold zsub, ztake, zdrop.
  replace (Z.to_nat (hi - lo)) with (Z.to_nat (mid - lo) + Z.to_nat (hi - mid))%nat by lia.
  rewrite <- take_take_drop, drop_drop. repeat f_equal. lia.
Qed.

Lemma ztake_zsub n l : ztake n l = zsub 0 n l.
Proof. unfold zsub. rewrite zdrop_nonpos by lia. f_equal. lia. Qed.

Lemma zdrop_zdrop m n l : 0 <= m -> 0 <= n -> zdrop m (zdrop n l) = zdrop (n + m) l.
Proof. intros. unfold zdrop. rewrite drop_drop. f_equal. lia. Qed.

Lemma zlen_replicate n (x : A) : 0 <= n -> zlen (replicate (Z.to_nat n) x) = n.
Proof. intros. unfold zlen. rewrite length_replicate. lia. Qed.

(** Pointwise reading. *)
Definition zget l (i : Z) : option A := if decide (0 <= i) then l !! Z.to_nat i else None.

Lemma zget_is_Some l i : 0 <= i < zlen l -> is_Some (zget l i).
Proof.
  unfold zget, zlen. intros. rewrite decide_True by lia.
  apply lookup_lt_is_Some. lia.
Qed.

Lemma zget_None l i : zlen l <= i -> zget l i = None.
Proof.
  unfold zget, zlen. intros. rewrite decide_True by lia.
  apply lookup_ge_None. lia.
Qed.

Lemma zget_ext l1 l2 :
  zlen l1 = zlen l2 -> (forall i, 0 <= i < zlen l1 -> zget l1 i = zget l2 i) -> l1 = l2.
Proof.
  unfold zlen, zget. intros Hl H. apply list_eq. intros i.
  destruct (decide (i < length l1)%nat) as [Hi|Hi].
  - specialize (H (Z.of_nat i) ltac:(lia)).
    rewrite !decide_True in H by lia. by rewrite Nat2Z.id in H.
  - rewrite !lookup_ge_None_2 by lia. done.
Qed.

Lemma zget_app l1 l2 i :
  zget (l1 ++ l2) i = if decide (i < zlen l1) then zget l1 i else zget l2 (i - zlen l1).
Proof.
  unfold zget, zlen. repeat case_decide; try lia; try done.
  - by rewrite lookup_app_l by lia.
  - rewrite lookup_app_r by lia. f_equal. lia.
Qed.

Lemma zget_zsub_pair l i x y :
  zget l i = Some x -> zget l (i + 1) = Some y -> 0 <= i -> zsub i (i + 2) l = [x; y].
Proof.
  unfold zget. intros Hx Hy Hi. rewrite decide_True in Hx by lia. rewrite decide_True in Hy by lia.
  unfold zsub, ztake, zdrop. replace (Z.to_nat (i + 2 - i)) with 2%nat by lia.
  rewrite (drop_S _ x) by done. replace (S (Z.to_nat i)) with (Z.to_nat (i + 1)) by lia.
  by rewrite (drop_S _ y).
Qed.

Lemma zget_ztake n l i : 0 <= i < n -> zget (ztake n l) i = zget l i.
Proof.
  intros. unfold zget, ztake. rewrite !decide_True by lia.
  apply lookup_take_lt. lia.
Qed.

Lemma zget_zdrop n l i : 0 <= n -> 0 <= i -> zget (zdrop n l) i = zget l (n + i).
Proof.
  intros. unfold zget, zdrop. rewrite !decide_True by lia.
  rewrite lookup_drop. f_equal. lia.
Qed.

Lemma zget_zsub lo hi l i : 0 <= lo -> 0 <= i < hi - lo -> zget (zsub lo hi l) i = zget l (lo + i).
Proof. intros. unfold zsub. rewrite zget_ztake by lia. apply zget_zdrop; lia. Qed.

Lemma zget_zcopy dst off (src : list A) i :
  0 <= off -> off + zlen src <= zlen dst -> 0 <= i ->
  zget (zcopy dst off src) i =
    if decide (off <= i < off + zlen src) then zget src (i - off) else zget dst i.
Proof.
  intros Hoff Hfit Hi. pose proof (zlen_nonneg src). unfold zcopy.
  rewrite zget_app, zlen_ztake by lia.
  case_decide; [rewrite decide_False by lia; apply zget_ztake; lia|].
  rewrite zget_app. case_decide.
  - by rewrite decide_True by lia.
  - rewrite decide_False by lia. rewrite zget_zdrop by lia. f_equal. lia.
Qed.
End zlist.

(** Induction two elements at a time. *)
Lemma list_pair_ind {A} (P : list A -> Prop) :
  P [] -> (forall x, P [x]) -> (forall x y l, P l -> P (x :: y :: l)) -> forall l, P l.
Proof.
  intros H0 H1 H2 l. assert (H : P l /\ forall x, P (x :: l)); [|apply H].
  induction l as [|y l [IH1 IH2]]; split; auto.
Qed.

#[global] Opaque be_encode be_decode.
#[global] Arguments zlen : simpl never.
#[global] Arguments ztake : simpl never.
#[global] Arguments zdrop : simpl never.
#[global] Arguments zget : simpl never.

Lemma zlen_be_encode n z : zlen (be_encode n z) = Z.of_nat n.
Proof. unfold zlen. by rewrite length_be_encode. Qed.

(** * Go slices

    A slice sees [s_len] bytes of the array that starts at its first element;
    [s_arr] is that array up to the slice's capacity.  [s[lo:hi]] is checked
    against the capacity, [s[lo:]] takes [hi = len(s)]. *)
Record Slice := mkSlice { s_arr : list byte; s_len : Z }.

Definition slice_of (bs : list byte) : Slice := mkSlice bs (zlen bs).
Definition slice_bytes (s : Slice) : list byte := ztake (s_len s) (s_arr s).
Definition slice_cap (s : Slice) : Z := zlen (s_arr s).
Definition slice_wf (s : Slice) : Prop := 0 <= s_len s <= slice_cap s.

Definition slice_range (s : Slice) (lo hi : Z) : outcome Slice :=
  if bool_decide (0 <= lo /\ lo <= hi /\ hi <= slice_cap s)
  then Ret (mkSlice (zdrop lo (s_arr s)) (hi - lo))
  else Panic "slice bounds out of range".

Definition slice_from (s : Slice) (lo : Z) : outcome Slice := slice_range s lo (s_len s).

(** [binary.BigEndian.UintN(s)], which reads the first [n] bytes of [s]. *)
Definition slice_uint (n : nat) (s : Slice) : outcome Z :=
  if bool_decide (Z.of_nat n <= s_len s)
  then Ret (be_decode (ztake (Z.of_nat n) (slice_bytes s)))
  else Panic "index out of range".

Lemma slice_range_ok s lo hi :
  0 <= lo <= hi -> hi <= slice_cap s ->
  slice_range s lo hi = Ret (mkSlice (zdrop lo (s_arr s)) (hi - lo)).
Proof. intros. unfold slice_range. by rewrite bool_decide_true by lia. Qed.

Lemma slice_range_panic s lo hi :
  0 <= lo <= hi -> slice_cap s < hi -> slice_range s lo hi = Panic "slice bounds out of range".
Proof. intros. unfold slice_range. by rewrite bool_decide_false by lia. Qed.

Lemma slice_range_inv s lo hi s' :
  slice_range s lo hi = Ret s' ->
  0 <= lo <= hi /\ hi <= slice_cap s /\ s' = mkSlice (zdrop lo (s_arr s)) (hi - lo).
Proof. unfold slice_range. case_bool_decide; [|done]. intros [= <-]. repeat split; lia. Qed.

Lemma slice_cap_nonneg s : 0 <= slice_cap s.
Proof. apply zlen_nonneg. Qed.

Lemma slice_wf_of bs : slice_wf (slice_of bs).
Proof. unfold slice_wf, slice_cap. simpl. pose proof (zlen_nonneg bs). lia. Qed.

Lemma slice_bytes_of bs : slice_bytes (slice_of bs) = bs.
Proof. unfold slice_bytes. simpl. apply ztake_all. lia. Qed.

(** Reading the [n]-byte word [s[lo:hi]] when it lies within the capacity,
    and when it does not. *)
Lemma slice_uint_range_ok (n : nat) s lo hi :
  hi = lo + Z.of_nat n -> 0 <= lo -> hi <= slice_cap s ->
  (s' ← slice_range s lo hi; slice_uint n s') = Ret (be_decode (zsub lo hi (s_arr s))).
Proof.
  intros -> Hlo Hcap. rewrite slice_range_ok by lia. cbn -[slice_uint].
  unfold slice_uint. cbn [s_len]. rewrite bool_decide_true by lia.
  unfold slice_bytes, zsub. cbn [s_len s_arr].
  replace (lo + Z.of_nat n - lo) with (Z.of_nat n) by lia.
  do 2 f_equal. unfold ztake. rewrite take_take. f_equal. lia.
Qed.

Lemma slice_uint_range_panic (n : nat) s lo hi :
  0 <= lo <= hi -> slice_cap s < hi ->
  (s' ← slice_range s lo hi; slice_uint n s') = Panic "slice bounds out of range".
Proof. intros. by rewrite slice_range_panic by lia. Qed.

Lemma outcome_bind_assoc {A B C} (m : outcome A) (f : A -> outcome B) (g : B -> outcome C) :
  mbind g (mbind f m) = mbind (fun a => mbind g (f a)) m.
Proof. by destruct m. Qed.

Lemma bind_Ret_inv {A B} (m : outcome A) (f : A -> outcome B) b :
  mbind f m = Ret b -> exists a, m = Ret a /\ f a = Ret b.
Proof. destruct m; simpl; intros H; try discriminate. by eexists. Qed.

(** * Automation *)
(** Lengths are non-negative: one fact per length that occurs. *)
Ltac zlen_fact l :=
  lazymatch goal with
  | _ : 0 <= zlen l |- _ => fail
  | _ => pose proof (zlen_nonneg l)
  end.
Ltac zlen_facts :=
  repeat match goal with
  | |- context [zlen ?l] => zlen_fact l
  | _ : context [zlen ?l] |- _ => zlen_fact l
  end.

(** Linear arithmetic over lengths. *)
Ltac zlia := zlen_facts; lia.

Create HintDb go.
Create Rewrite HintDb zlen.
#[export] Hint Resolve u8_range u16_range u32_range byteZ_range zlen_nonneg slice_cap_nonneg slice_wf_of : go.
#[export] Hint Rewrite @zlen_app @zlen_be_encode : zlen.

(** * Notation for [uint32] addition *)
Declare Scope go_scope.
Delimit Scope go_scope with go.
Notation "a ⊕ b" := (u32 (a + b)) (at level 50, left associativity) : go_scope.
