(* ===== verification/Rip.v ===== *)
(** * The RIP message codec ([pkg/rip/rip.go])

    [MarshalRIP] writes the command, the entry count and the entries in network
    byte order; [ExtractRIP] reads them back from the payload slice of an IP
    packet.  The slice is kept with its capacity: [message[lo:hi]] is checked
    against the capacity of the receive buffer, not against the length of the
    datagram.  [binary.Write] into a [bytes.Buffer] does not fail, so the error
    result of [MarshalRIP] is always [nil] and is left out. *)
From S2P Require Import Prelude.

Record RipUpdate := mkRipUpdate { Cost : Z; Address : Z; Mask : Z }.
Record RipPacket := mkRipPacket {
  Command : Z;
  Num_entries : Z;
  Entries : list RipUpdate
}.

#[global] Instance RipUpdate_eq_dec : EqDecision RipUpdate.
Proof. solve_decision. Defined.

Definition marshal_entry (e : RipUpdate) : list byte :=
  be32 (Cost e) ++ be32 (Address e) ++ be32 (Mask e).

Definition MarshalRIP (packet : RipPacket) : list byte :=
  be16 (Command packet) ++ be16 (Num_entries packet) ++
  concat (map marshal_entry (Entries packet)).

(** The [n] remaining rounds of the loop, from offset [iter]. *)
Fixpoint extract_entries (message : Slice) (iter : Z) (n : nat) : outcome (list RipUpdate) :=
  match n with
  | O => Ret []
  | S n' =>
      cost ← (s ← slice_range message iter (iter + 4); slice_uint 4 s);
      address ← (s ← slice_range message (iter + 4) (iter + 8); slice_uint 4 s);
      mask ← (s ← slice_range message (iter + 8) (iter + 12); slice_uint 4 s);
      entries ← extract_entries message (iter + 12) n';
      Ret (mkRipUpdate cost address mask :: entries)
  end.

Definition ExtractRIP (message : Slice) : outcome RipPacket :=
  command ← (s ← slice_range message 0 2; slice_uint 2 s);
  num_entries ← (s ← slice_range message 2 4; slice_uint 2 s);
  entries ← extract_entries message 4 (Z.to_nat num_entries);
  Ret (mkRipPacket command num_entries entries).

(** ** Well-formed messages: every field at its width. *)
Definition RipUpdate_wf (e : RipUpdate) : Prop :=
  0 <= Cost e < 2 ^ 32 /\ 0 <= Address e < 2 ^ 32 /\ 0 <= Mask e < 2 ^ 32.

Definition RipPacket_wf (p : RipPacket) : Prop :=
  0 <= Command p < 2 ^ 16 /\ Num_entries p = zlen (Entries p) /\
  zlen (Entries p) < 2 ^ 16 /\ Forall RipUpdate_wf (Entries p).

(** ** Lemmas on the entry loop *)
Definition entry_at (arr : list byte) (off : Z) : RipUpdate :=
  mkRipUpdate (be_decode (zsub off (off + 4) arr))
              (be_decode (zsub (off + 4) (off + 8) arr))
              (be_decode (zsub (off + 8) (off + 12) arr)).

Fixpoint entries_at (arr : list byte) (off : Z) (n : nat) : list RipUpdate :=
  match n with
  | O => []
  | S n' => entry_at arr off :: entries_at arr (off + 12) n'
  end.

Lemma extract_entries_ok s iter n :
  0 <= iter -> iter + 12 * Z.of_nat n <= slice_cap s ->
  extract_entries s iter n = Ret (entries_at (s_arr s) iter n).
Proof.
  revert iter; induction n as [|n IH]; intros iter Hi Hcap; [done|].
  cbn [extract_entries entries_at].
  do 3 (rewrite slice_uint_range_ok by lia; cbn -[slice_range slice_uint]).
  rewrite IH by lia. done.
Qed.

Lemma extract_entries_panic s iter n :
  0 <= iter <= slice_cap s -> slice_cap s < iter + 12 * Z.of_nat n ->
  extract_entries s iter n = Panic "slice bounds out of range".
Proof.
  revert iter; induction n as [|n IH]; intros iter Hi Hcap; [lia|].
  cbn [extract_entries].
  destruct (decide (slice_cap s < iter + 4)).
  { by rewrite (slice_uint_range_panic 4 s iter) by lia. }
  rewrite (slice_uint_range_ok 4 s iter) by lia. cbn -[slice_range slice_uint].
  destruct (decide (slice_cap s < iter + 8)).
  { by rewrite (slice_uint_range_panic 4 s (iter + 4)) by lia. }
  rewrite (slice_uint_range_ok 4 s (iter + 4)) by lia. cbn -[slice_range slice_uint].
  destruct (decide (slice_cap s < iter + 12)).
  { by rewrite (slice_uint_range_panic 4 s (iter + 8)) by lia. }
  rewrite (slice_uint_range_ok 4 s (iter + 8)) by lia. cbn -[slice_range slice_uint].
  rewrite IH by lia. done.
Qed.

Lemma length_entries_at arr off n : length (entries_at arr off n) = n.
Proof. revert off; induction n; intros; simpl; f_equal; auto. Qed.

(** What [ExtractRIP] returns on every slice. *)
Lemma ExtractRIP_spec s :
  ExtractRIP s =
    let n := be_decode (zsub 2 4 (s_arr s)) in
    if bool_decide (4 <= slice_cap s /\ 4 + 12 * n <= slice_cap s)
    then Ret (mkRipPacket (be_decode (zsub 0 2 (s_arr s))) n
                (entries_at (s_arr s) 4 (Z.to_nat n)))
    else Panic "slice bounds out of range".
Proof.
  unfold ExtractRIP. cbv zeta.
  destruct (decide (slice_cap s < 2)).
  { rewrite (slice_uint_range_panic 2 s 0 2) by lia. simpl.
    rewrite bool_decide_false by lia. done. }
  rewrite (slice_uint_range_ok 2 s 0 2) by lia. simpl.
  destruct (decide (slice_cap s < 4)).
  { rewrite (slice_uint_range_panic 2 s 2 4) by lia. simpl.
    rewrite bool_decide_false by lia. done. }
  rewrite (slice_uint_range_ok 2 s 2 4) by lia. simpl.
  pose proof (be_decode_bound (zsub 2 4 (s_arr s))) as Hb.
  case_bool_decide.
  - rewrite extract_entries_ok by lia. done.
  - rewrite extract_entries_panic by lia. done.
Qed.

Lemma be_decode_word arr lo hi : hi - lo <= 4 -> 0 <= be_decode (zsub lo hi arr) < 2 ^ 32.
Proof.
  intros H. pose proof (be_decode_bound (zsub lo hi arr)) as Hb.
  assert (Z.of_nat (length (zsub lo hi arr)) <= 4).
  { unfold zsub, ztake. rewrite length_take. lia. }
  pose proof (Z.pow_le_mono_r 256 (Z.of_nat (length (zsub lo hi arr))) 4). lia.
Qed.

Lemma entries_at_wf arr off n : Forall RipUpdate_wf (entries_at arr off n).
Proof.
  revert off; induction n as [|n IH]; intros off; constructor; [|apply IH].
  unfold RipUpdate_wf, entry_at. cbn [Cost Address Mask].
  repeat split; apply be_decode_word; lia.
Qed.

Lemma ExtractRIP_wf s p : ExtractRIP s = Ret p -> Forall RipUpdate_wf (Entries p).
Proof.
  rewrite ExtractRIP_spec. cbv zeta. case_bool_decide; [|done]. intros [= <-]. apply entries_at_wf.
Qed.

Lemma zlen_marshal_entry e : zlen (marshal_entry e) = 12.
Proof. unfold marshal_entry. by rewrite !zlen_app, !zlen_be_encode. Qed.

Lemma entry_at_marshal pre e post :
  RipUpdate_wf e -> entry_at (pre ++ marshal_entry e ++ post) (zlen pre) = e.
Proof.
  intros (Hc & Ha & Hm). unfold entry_at, marshal_entry.
  destruct e as [c a m]; simpl in *. rewrite <- !app_assoc. f_equal.
  - rewrite zsub_app_exact by (rewrite ?zlen_be_encode; lia).
    rewrite be_decode32. by apply u32_small.
  - rewrite (app_assoc pre), zsub_app_exact by (rewrite ?zlen_app, ?zlen_be_encode; lia).
    rewrite be_decode32. by apply u32_small.
  - rewrite (app_assoc pre), (app_assoc (pre ++ _)), zsub_app_exact
      by (rewrite ?zlen_app, ?zlen_be_encode; lia).
    rewrite be_decode32. by apply u32_small.
Qed.

Lemma entries_at_marshal pre es post :
  Forall RipUpdate_wf es ->
  entries_at (pre ++ concat (map marshal_entry es) ++ post) (zlen pre) (length es) = es.
Proof.
  revert pre; induction es as [|e es IH]; intros pre Hwf; [done|].
  apply Forall_cons_1 in Hwf as [He Hes]. cbn [map concat length entries_at].
  rewrite <- app_assoc. f_equal; [by apply entry_at_marshal|].
  rewrite app_assoc.
  replace (zlen pre + 12) with (zlen (pre ++ marshal_entry e)); [by apply IH|].
  by rewrite zlen_app, zlen_marshal_entry.
Qed.

Lemma zlen_concat_marshal es : zlen (concat (map marshal_entry es)) = 12 * zlen es.
Proof.
  induction es as [|e es IH]; [done|]. cbn [map concat].
  rewrite zlen_app, zlen_marshal_entry, IH. unfold zlen. simpl length. lia.
Qed.

Lemma zlen_MarshalRIP p : zlen (MarshalRIP p) = 4 + 12 * zlen (Entries p).
Proof.
  unfold MarshalRIP. rewrite !zlen_app, !zlen_be_encode, zlen_concat_marshal. lia.
Qed.

(** ** Properties *)

(** C26. A well-formed RIP message survives the wire: whatever slice holds the
    bytes [MarshalRIP] produced (with any spare capacity behind them),
    [ExtractRIP] returns the message that was marshalled. *)
Theorem rip_roundtrip (p : RipPacket) (message : Slice) :
  RipPacket_wf p -> slice_wf message -> slice_bytes message = MarshalRIP p ->
  ExtractRIP message = Ret p.
Proof.
  intros (Hcmd & Hn & Hlt & Hes) Hwf Hb.
  set (rest := zdrop (s_len message) (s_arr message)).
  assert (Harr : s_arr message = MarshalRIP p ++ rest).
  { rewrite <- Hb. symmetry. apply ztake_zdrop. }
  assert (Hcap : slice_cap message = 4 + 12 * zlen (Entries p) + zlen rest).
  { unfold slice_cap. by rewrite Harr, zlen_app, zlen_MarshalRIP. }
  zlen_facts. 
  rewrite ExtractRIP_spec, Harr. unfold MarshalRIP. rewrite <- !app_assoc.
  rewrite (zsub_app_exact 2 4) by (by rewrite zlen_be_encode).
  rewrite be_decode16, u16_small by lia. cbv zeta.
  rewrite bool_decide_true by lia.
  rewrite (zsub_0_app 2) by (by rewrite zlen_be_encode).
  rewrite be_decode16, u16_small by lia.
  rewrite (app_assoc (be16 (Command p))).
  replace (Z.to_nat (Num_entries p)) with (length (Entries p))
    by (rewrite Hn; unfold zlen; lia).
  rewrite (entries_at_marshal (be16 (Command p) ++ be16 (Num_entries p))) by done.
  by destruct p.
Qed.

Lemma rip_roundtrip_witness :
  ExtractRIP (slice_of (MarshalRIP (mkRipPacket 2 1 [mkRipUpdate 3 167837696 4294967040])))
  = Ret (mkRipPacket 2 1 [mkRipUpdate 3 167837696 4294967040]).
Proof.
  apply rip_roundtrip.
  - repeat split; simpl; try lia. repeat constructor; simpl; lia.
  - apply slice_wf_of.
  - apply slice_bytes_of.
Defined.

(** [ExtractRIP] returns exactly when the capacity of the receive buffer
    covers the header and the number of entries the header announces, and
    panics (slice bounds) otherwise; the length of the datagram is never
    consulted.  A peer that announces more entries than the buffer can hold
    crashes the node. *)
Theorem ExtractRIP_panics_iff (message : Slice) :
  let n := be_decode (zsub 2 4 (s_arr message)) in
  (4 <= slice_cap message /\ 4 + 12 * n <= slice_cap message ->
     exists p, ExtractRIP message = Ret p /\ Num_entries p = n /\ zlen (Entries p) = n) /\
  (~ (4 <= slice_cap message /\ 4 + 12 * n <= slice_cap message) ->
     ExtractRIP message = Panic "slice bounds out of range").
Proof.
  cbv zeta. rewrite ExtractRIP_spec. cbv zeta. split; intros H.
  - rewrite bool_decide_true by done. eexists; split; [done|]. simpl. split; [done|].
    unfold zlen. rewrite length_entries_at.
    pose proof (be_decode_bound (zsub 2 4 (s_arr message))). lia.
  - by rewrite bool_decide_false.
Qed.
