(* ===== verification/Netip.v ===== *)
(** * Addresses and prefixes (the parts of [net/netip] and [net] the code uses)

    The virtual network is IPv4: an [Addr] is the zero value or a 4-byte
    address, kept as its 32-bit number.  IPv6 literals do not occur in the
    packets (the header parser builds addresses from 4-byte slices) and are not
    modelled.  Text is kept because [makePacket] goes through
    [netip.MustParseAddr(a.String())] and the RIP handler through
    [netip.ParsePrefix(fmt.Sprintf(...))]. *)
From S2P Require Import Prelude.
From stdpp Require Import pretty.
From Stdlib Require Import Strings.Ascii.
Local Open Scope Z_scope.
#[local] Arguments String.append : simpl nomatch.

Inductive Addr : Type :=
  | AddrZero
  | Addr4 (a : Z).

(** [netip.Prefix]: an address and a length; [Bits()] of the zero prefix is -1. *)
Record Prefix := mkPrefix { pAddr : Addr; pBits : Z }.

Record AddrPort := mkAddrPort { apAddr : Addr; apPort : Z }.

#[global] Instance Addr_eq_dec : EqDecision Addr.
Proof. solve_decision. Defined.
#[global] Instance Prefix_eq_dec : EqDecision Prefix.
Proof. solve_decision. Defined.
#[global] Instance AddrPort_eq_dec : EqDecision AddrPort.
Proof. solve_decision. Defined.

#[global] Instance Addr_countable : Countable Addr.
Proof.
  refine (inj_countable' (fun a => match a with AddrZero => None | Addr4 z => Some z end)
            (fun o => match o with None => AddrZero | Some z => Addr4 z end) _).
  by intros [].
Defined.
#[global] Instance Prefix_countable : Countable Prefix.
Proof.
  refine (inj_countable' (fun p => (pAddr p, pBits p)) (fun q => mkPrefix q.1 q.2) _).
  by intros [].
Defined.

Definition zeroPrefix : Prefix := mkPrefix AddrZero (-1).
Definition zeroAddrPort : AddrPort := mkAddrPort AddrZero 0.

Definition Addr_wf (a : Addr) : Prop :=
  match a with AddrZero => False | Addr4 z => 0 <= z < 2 ^ 32 end.

Definition Is4 (a : Addr) : bool := match a with AddrZero => false | Addr4 _ => true end.

(** [AsSlice]: nil for the zero address. *)
Definition AsSlice (a : Addr) : list byte :=
  match a with AddrZero => [] | Addr4 z => be32 z end.

(** [AddrFromSlice] on a 4-byte slice; any other length here gives the zero address. *)
Definition AddrFromSlice (bs : list byte) : Addr :=
  if bool_decide (length bs = 4%nat) then Addr4 (be_decode bs) else AddrZero.

(** [As4] panics on the zero address. *)
Definition As4 (a : Addr) : outcome (list byte) :=
  match a with AddrZero => Panic "As4 called on IP zero value" | Addr4 z => Ret (be32 z) end.

Definition Prefix_wf (p : Prefix) : Prop := Addr_wf (pAddr p) /\ 0 <= pBits p <= 32.

(** [Contains]: the bits above [32 - Bits] agree. *)
Definition Contains (p : Prefix) (ip : Addr) : bool :=
  match pAddr p, ip with
  | Addr4 pa, Addr4 a =>
      bool_decide (0 <= pBits p <= 32) &&
      bool_decide (Z.shiftr (Z.lxor a pa) (32 - pBits p) = 0)
  | _, _ => false
  end.

(** [net.CIDRMask(ones, 32)] read as a big-endian word; nil (and then a panic in
    [Uint32]) for a length out of range. *)
Definition cidr_mask (ones : Z) : Z := Z.shiftl (Z.ones ones) (32 - ones).
Definition CIDRMask (ones : Z) : outcome Z :=
  if bool_decide (0 <= ones <= 32) then Ret (cidr_mask ones)
  else Panic "index out of range".

(** [Masked] zeroes the host bits. *)
Definition Masked (p : Prefix) : Prefix :=
  match pAddr p with
  | AddrZero => zeroPrefix
  | Addr4 z =>
      if bool_decide (0 <= pBits p <= 32)
      then mkPrefix (Addr4 (Z.land z (cidr_mask (pBits p)))) (pBits p)
      else zeroPrefix
  end.

(** ** Text *)
Definition octet (z : Z) (i : Z) : Z := Z.land (Z.shiftr z (8 * i)) 255.

(** [fmt.Sprintf] with verb [%d] of a non-negative integer. *)
Definition fmt_d (z : Z) : string := pretty (Z.to_N z).

Definition dotted (z : Z) : string :=
  (fmt_d (octet z 3) +:+ "." +:+ fmt_d (octet z 2) +:+ "." +:+
   fmt_d (octet z 1) +:+ "." +:+ fmt_d (octet z 0))%string.

(** [Addr.String]. *)
Definition Addr_String (a : Addr) : string :=
  match a with AddrZero => "invalid IP" | Addr4 z => dotted z end.

Definition digit_val (c : ascii) : option Z :=
  let n := Z.of_N (N_of_ascii c) in
  if bool_decide (48 <= n <= 57) then Some (n - 48) else None.

(** The scan of [parseIPv4]: [fields] are the octets read so far, [val] and
    [digLen] describe the current one. *)
Fixpoint parseIPv4_loop (s : string) (fields : list Z) (val digLen : Z) : option (list Z * Z * Z) :=
  match s with
  | EmptyString => Some (fields, val, digLen)
  | String c s' =>
      match digit_val c with
      | Some d =>
          if bool_decide (digLen = 1 /\ val = 0) then None
          else
            let val' := val * 10 + d in
            if bool_decide (255 < val') then None
            else parseIPv4_loop s' fields val' (digLen + 1)
      | None =>
          if bool_decide (c = "."%char) then
            if bool_decide (digLen = 0 \/ s' = EmptyString \/ length fields = 3%nat) then None
            else parseIPv4_loop s' (fields ++ [val]) 0 0
          else None
      end
  end.

Definition of_octets (l : list Z) : Z := foldl (fun acc o => acc * 256 + o) 0 l.

Definition parseIPv4 (s : string) : option Addr :=
  match parseIPv4_loop s [] 0 0 with
  | Some (fields, val, digLen) =>
      if bool_decide (length fields = 3%nat) then Some (Addr4 (of_octets (fields ++ [val])))
      else None
  | None => None
  end.

(** [ParseAddr] on text without ':' and '%'. *)
Definition ParseAddr (s : string) : option Addr := parseIPv4 s.

Definition MustParseAddr (s : string) : outcome Addr :=
  match ParseAddr s with
  | Some a => Ret a
  | None => Panic "ParseAddr: unable to parse IP"
  end.

(** The split at the last ['/'] of [ParsePrefix]. *)
Fixpoint split_last_slash (s : string) : option (string * string) :=
  match s with
  | EmptyString => None
  | String c s' =>
      match split_last_slash s' with
      | Some (a, b) => Some (String c a, b)
      | None => if bool_decide (c = "/"%char) then Some (EmptyString, s') else None
      end
  end.

(** [strconv.Atoi] on text without a sign. *)
Fixpoint atoi_loop (s : string) (acc : Z) : option Z :=
  match s with
  | EmptyString => Some acc
  | String c s' =>
      match digit_val c with
      | Some d => atoi_loop s' (acc * 10 + d)
      | None => None
      end
  end.

(** The bits after the slash: no sign, no leading zero, at most 32. *)
Definition parse_bits (s : string) : option Z :=
  match s with
  | EmptyString => None
  | String c s' =>
      if bool_decide (s' <> EmptyString /\ digit_val c = Some 0) then None
      else match atoi_loop s 0 with
           | Some n => if bool_decide (n <= 32) then Some n else None
           | None => None
           end
  end.

Definition ParsePrefix (s : string) : option Prefix :=
  match split_last_slash s with
  | None => None
  | Some (a, b) =>
      match ParseAddr a with
      | None => None
      | Some ip =>
          match parse_bits b with
          | Some bits => Some (mkPrefix ip bits)
          | None => None
          end
      end
  end.

(** ** Octets *)
Lemma octet_div z i : 0 <= i -> octet z i = z / 256 ^ i mod 256.
Proof.
  intros. unfold octet. change 255 with (Z.ones 8).
  rewrite Z.land_ones, Z.shiftr_div_pow2 by lia.
  by rewrite (Z.pow_mul_r 2 8 i) by lia.
Qed.

Lemma octet_range z i : 0 <= i -> 0 <= octet z i < 256.
Proof. intros. rewrite octet_div by done. apply Z.mod_pos_bound. lia. Qed.

Lemma of_octets_octets z :
  0 <= z < 2 ^ 32 -> of_octets [octet z 3; octet z 2; octet z 1; octet z 0] = z.
Proof.
  intros. unfold of_octets. simpl. rewrite !octet_div by lia.
  change (256 ^ 3) with 16777216. change (256 ^ 2) with 65536.
  change (256 ^ 1) with 256. change (256 ^ 0) with 1.
  Z.div_mod_to_equations. lia.
Qed.

(** ** Text round trips *)
Fixpoint all_digits (s : string) : bool :=
  match s with
  | EmptyString => true
  | String c s' => match digit_val c with Some _ => all_digits s' | None => false end
  end.

(** Digits only move [val] and [digLen]. *)
Lemma parseIPv4_loop_digits s1 v d v' d' :
  all_digits s1 = true -> parseIPv4_loop s1 [] v d = Some ([], v', d') ->
  forall fields s2, parseIPv4_loop (s1 +:+ s2) fields v d = parseIPv4_loop s2 fields v' d'.
Proof.
  revert v d; induction s1 as [|c s1 IH]; intros v d Hd Hl fields s2; simpl in *.
  - by injection Hl as -> ->.
  - destruct (digit_val c) as [x|]; [|done].
    case_bool_decide; [done|]. case_bool_decide; [done|]. by apply IH.
Qed.

Definition octet_text_ok (o : Z) : bool :=
  all_digits (fmt_d o) &&
  match parseIPv4_loop (fmt_d o) [] 0 0 with
  | Some ([], v, dl) => bool_decide (v = o) && bool_decide (dl <> 0)
  | _ => false
  end.

Lemma octet_texts_ok : forallb octet_text_ok (seqZ 0 256) = true.
Proof. vm_compute. reflexivity. Qed.

Lemma octet_step o fields s :
  0 <= o < 256 ->
  exists dl, dl <> 0 /\
    parseIPv4_loop (fmt_d o +:+ s) fields 0 0 = parseIPv4_loop s fields o dl.
Proof.
  intros Ho. pose proof octet_texts_ok as H. rewrite forallb_forall in H.
  specialize (H o). rewrite <- list_elem_of_In, elem_of_seqZ in H.
  specialize (H ltac:(lia)). unfold octet_text_ok in H.
  apply andb_true_iff in H as [Hd H].
  destruct (parseIPv4_loop (fmt_d o) [] 0 0) as [[[[|] v] dl]|] eqn:E; try done.
  apply andb_true_iff in H as [->%bool_decide_eq_true Hdl%bool_decide_eq_true].
  exists dl. split; [done|]. by apply parseIPv4_loop_digits.
Qed.

Lemma string_app_assoc (a b c : string) : (a +:+ b) +:+ c = a +:+ (b +:+ c).
Proof. induction a as [|x a IH]; simpl; congruence. Qed.

(** One octet followed by a dot. *)
Lemma octet_dot_step o fields s :
  0 <= o < 256 -> s <> EmptyString -> length fields <> 3%nat ->
  parseIPv4_loop (fmt_d o +:+ ("." +:+ s)) fields 0 0 = parseIPv4_loop s (fields ++ [o]) 0 0.
Proof.
  intros Ho Hs Hf. destruct (octet_step o fields ("." +:+ s) Ho) as (dl & Hdl & ->).
  simpl. rewrite bool_decide_false; [done|]. by intros [?|[?|?]].
Qed.

Lemma fmt_d_nonempty o : 0 <= o < 256 -> fmt_d o <> EmptyString.
Proof.
  intros Ho E. destruct (octet_step o [] "" Ho) as (dl & Hdl & H).
  rewrite E in H. simpl in H. injection H as <- <-. done.
Qed.

Lemma parseIPv4_dotted z : 0 <= z < 2 ^ 32 -> parseIPv4 (dotted z) = Some (Addr4 z).
Proof.
  intros Hz. unfold parseIPv4, dotted.
  pose proof (octet_range z 3 ltac:(lia)). pose proof (octet_range z 2 ltac:(lia)).
  pose proof (octet_range z 1 ltac:(lia)). pose proof (octet_range z 0 ltac:(lia)).
  assert (Hne : forall o s, 0 <= o < 256 -> fmt_d o +:+ s <> EmptyString).
  { intros o s Ho E. apply (fmt_d_nonempty o Ho). by destruct (fmt_d o). }
  rewrite !octet_dot_step by (auto; done || apply fmt_d_nonempty; done).
  destruct (octet_step (octet z 0) ([] ++ [octet z 3] ++ [octet z 2] ++ [octet z 1]) "")
    as (dl & Hdl & E); [done|].
  assert (Hnil : forall s : string, s +:+ "" = s) by (induction s; simpl; congruence).
  rewrite Hnil in E. cbn [app] in E |- *. rewrite E. simpl.
  do 2 f_equal. by apply of_octets_octets.
Qed.

Lemma MustParseAddr_String a : Addr_wf a -> MustParseAddr (Addr_String a) = Ret a.
Proof.
  destruct a as [|z]; simpl; [done|]. intros.
  unfold MustParseAddr, ParseAddr. by rewrite parseIPv4_dotted.
Qed.

Lemma split_last_slash_app a b :
  split_last_slash b = None -> split_last_slash (a +:+ ("/" +:+ b)) = Some (a, b).
Proof.
  intros Hb. induction a as [|c a IH]; simpl.
  - by rewrite Hb.
  - simpl in IH. by rewrite IH.
Qed.

Definition bits_text_ok (m : Z) : bool :=
  bool_decide (split_last_slash (fmt_d m) = None) &&
  bool_decide (parse_bits (fmt_d m) = Some m).

Lemma bits_texts_ok : forallb bits_text_ok (seqZ 0 33) = true.
Proof. vm_compute. reflexivity. Qed.

Lemma ParsePrefix_text z m :
  0 <= z < 2 ^ 32 -> 0 <= m <= 32 ->
  ParsePrefix (dotted z +:+ ("/" +:+ fmt_d m)) = Some (mkPrefix (Addr4 z) m).
Proof.
  intros Hz Hm. pose proof bits_texts_ok as H. rewrite forallb_forall in H.
  specialize (H m). rewrite <- list_elem_of_In, elem_of_seqZ in H.
  specialize (H ltac:(lia)). apply andb_true_iff in H as [H1 H2].
  apply bool_decide_eq_true in H1, H2.
  unfold ParsePrefix. rewrite split_last_slash_app by done.
  unfold ParseAddr. by rewrite parseIPv4_dotted, H2.
Qed.

(** ** Masks and containment *)
Lemma cidr_mask_testbit n i :
  0 <= n <= 32 -> 0 <= i -> Z.testbit (cidr_mask n) i = bool_decide (32 - n <= i < 32).
Proof.
  intros. unfold cidr_mask. rewrite Z.shiftl_spec by lia.
  destruct (decide (i < 32 - n)).
  - rewrite Z.testbit_neg_r by lia. by rewrite bool_decide_false by lia.
  - rewrite Z.testbit_ones_nonneg by lia.
    destruct (Z.ltb_spec (i - (32 - n)) n).
    + by rewrite bool_decide_true by lia.
    + by rewrite bool_decide_false by lia.
Qed.

Lemma cidr_mask_range n : 0 <= n <= 32 -> 0 <= cidr_mask n < 2 ^ 32.
Proof.
  intros. unfold cidr_mask. rewrite Z.shiftl_mul_pow2, Z.ones_equiv by lia.
  assert (2 ^ 32 = 2 ^ n * 2 ^ (32 - n)) as -> by (rewrite <- Z.pow_add_r by lia; f_equal; lia).
  pose proof (Z.pow_pos_nonneg 2 n). pose proof (Z.pow_pos_nonneg 2 (32 - n)). nia.
Qed.

Lemma testbit_high z n i : 0 <= z < 2 ^ n -> n <= i -> Z.testbit z i = false.
Proof.
  intros Hz Hi. destruct (decide (z = 0)) as [->|]; [apply Z.bits_0|].
  apply Z.bits_above_log2; [lia|]. apply Z.log2_lt_pow2; [lia|].
  eapply Z.lt_le_trans; [apply Hz|]. apply Z.pow_le_mono_r; lia.
Qed.

Lemma land_range z m n : 0 <= n -> 0 <= z -> 0 <= m < 2 ^ n -> 0 <= Z.land z m < 2 ^ n.
Proof.
  intros Hn Hz Hm. split; [by apply Z.land_nonneg; left|].
  pose proof (Z.land_nonneg z m) as Hnn.
  destruct (decide (Z.land z m = 0)) as [->|]; [lia|].
  apply Z.log2_lt_pow2; [lia|].
  eapply Z.le_lt_trans; [apply Z.log2_land; lia|].
  apply Z.min_lt_iff. right. destruct (decide (m = 0)) as [->|].
  - by rewrite Z.land_0_r in *.
  - apply Z.log2_lt_pow2; lia.
Qed.

Lemma land_idemp_mask z m : Z.land (Z.land z m) m = Z.land z m.
Proof. rewrite <- Z.land_assoc. by rewrite Z.land_diag. Qed.

Lemma Contains_iff pa b a :
  0 <= pa < 2 ^ 32 -> 0 <= a < 2 ^ 32 -> 0 <= b <= 32 ->
  Contains (mkPrefix (Addr4 pa) b) (Addr4 a) = true <->
  Z.land a (cidr_mask b) = Z.land pa (cidr_mask b).
Proof.
  intros Hpa Ha Hb. unfold Contains. simpl. rewrite bool_decide_true by done. simpl.
  rewrite bool_decide_eq_true. split; intros H.
  - apply Z.bits_inj'. intros i Hi. rewrite !Z.land_spec, cidr_mask_testbit by lia.
    case_bool_decide; [|by rewrite !andb_false_r]. rewrite !andb_true_r.
    assert (Hx : Z.testbit (Z.shiftr (Z.lxor a pa) (32 - b)) (i - (32 - b)) = false)
      by (rewrite H; apply Z.bits_0).
    rewrite Z.shiftr_spec, Z.lxor_spec in Hx by lia.
    replace (i - (32 - b) + (32 - b)) with i in Hx by lia.
    by destruct (Z.testbit a i), (Z.testbit pa i).
  - apply Z.bits_inj'. intros i Hi. rewrite Z.bits_0, Z.shiftr_spec, Z.lxor_spec by lia.
    destruct (decide (i + (32 - b) < 32)).
    + assert (Hx : Z.testbit (Z.land a (cidr_mask b)) (i + (32 - b)) =
                   Z.testbit (Z.land pa (cidr_mask b)) (i + (32 - b))) by (by rewrite H).
      rewrite !Z.land_spec, cidr_mask_testbit, bool_decide_true, !andb_true_r in Hx by lia.
      rewrite Hx. apply xorb_nilpotent.
    + by rewrite !(testbit_high _ 32) by lia.
Qed.

(** A prefix in canonical form: its host bits are zero. *)
Definition is_masked (p : Prefix) : Prop := Prefix_wf p /\ Masked p = p.

Lemma is_masked_inv p :
  is_masked p -> exists z, p = mkPrefix (Addr4 z) (pBits p) /\ 0 <= z < 2 ^ 32 /\
    0 <= pBits p <= 32 /\ z = Z.land z (cidr_mask (pBits p)).
Proof.
  destruct p as [[|z] b]; intros [[Hw Hb] Hm]; simpl in *; [done|].
  exists z. repeat split; try lia. unfold Masked in Hm. simpl in Hm.
  rewrite bool_decide_true in Hm by done. by injection Hm.
Qed.

Lemma Masked_is_masked p : Prefix_wf p -> is_masked (Masked p).
Proof.
  destruct p as [[|z] b]; intros [Hw Hb]; simpl in *; [done|].
  unfold is_masked, Masked, Prefix_wf. simpl. rewrite !bool_decide_true by done. simpl.
  pose proof (cidr_mask_range b Hb).
  rewrite land_idemp_mask. repeat split; try lia.
  - apply (land_range _ _ 32); lia.
  - apply (land_range _ _ 32); lia.
Qed.

(** Two canonical prefixes of the same length that contain one address are equal. *)
Lemma masked_contains_unique p q a :
  is_masked p -> is_masked q -> Addr_wf a ->
  Contains p a = true -> Contains q a = true -> pBits p = pBits q -> p = q.
Proof.
  intros (zp & Ep & Hzp & Hbp & Mp)%is_masked_inv (zq & Eq & Hzq & Hbq & Mq)%is_masked_inv Ha Hp Hq Hb.
  destruct a as [|a]; [done|]. rewrite Ep in Hp. rewrite Eq in Hq.
  apply Contains_iff in Hp; [|done..]. apply Contains_iff in Hq; [|done..].
  rewrite Ep, Eq. rewrite Hb in *. congruence.
Qed.
