(* ===== verification/Ipv4Header.v ===== *)
(** * The IPv4 header codec ([pkg/iptcp-headers/ipv4header.go])

    [Marshal] writes the fixed 20 bytes and the options; [Parse] checks the
    lengths and reads every field back.  The [int] fields are unbounded here;
    [Marshal] truncates them to the width of their slot as the Go conversions
    do.  [fmt]-printing ([String]) is left out. *)
From S2P Require Import Prelude Netip.
Local Open Scope Z_scope.

Definition Version : Z := 4.
Definition HeaderLen : Z := 20.

Inductive header_error : Type :=
  | errMissingAddress
  | errNilHeader
  | errHeaderTooShort
  | errExtHeaderTooShort.

Record IPv4Header := mkHeader {
  h_Version : Z;
  h_Len : Z;
  h_TOS : Z;
  h_TotalLen : Z;
  h_ID : Z;
  h_Flags : Z;
  h_FragOff : Z;
  h_TTL : Z;
  h_Protocol : Z;
  h_Checksum : Z;
  h_Src : Addr;
  h_Dst : Addr;
  h_Options : list byte
}.

(** [new(IPv4Header)]. *)
Definition zeroHeader : IPv4Header := mkHeader 0 0 0 0 0 0 0 0 0 0 AddrZero AddrZero [].

Definition set_TTL (h : IPv4Header) (v : Z) : IPv4Header :=
  mkHeader (h_Version h) (h_Len h) (h_TOS h) (h_TotalLen h) (h_ID h) (h_Flags h) (h_FragOff h)
    v (h_Protocol h) (h_Checksum h) (h_Src h) (h_Dst h) (h_Options h).
Definition set_Checksum (h : IPv4Header) (v : Z) : IPv4Header :=
  mkHeader (h_Version h) (h_Len h) (h_TOS h) (h_TotalLen h) (h_ID h) (h_Flags h) (h_FragOff h)
    (h_TTL h) (h_Protocol h) v (h_Src h) (h_Dst h) (h_Options h).

Definition first_byte (hdrlen : Z) : Z :=
  Z.lor (Z.shiftl Version 4) (Z.land (Z.shiftr hdrlen 2) 15).

Definition flagsAndFragOff (h : IPv4Header) : Z :=
  Z.lor (Z.land (h_FragOff h) 8191) (Z.shiftl (h_Flags h) 13).

(** The bytes of the header once both addresses are settled. *)
Definition header_bytes (h : IPv4Header) (src dst : list byte) : list byte :=
  [Zbyte (first_byte (HeaderLen + zlen (h_Options h))); Zbyte (h_TOS h)] ++
  be16 (h_TotalLen h) ++ be16 (h_ID h) ++ be16 (flagsAndFragOff h) ++
  [Zbyte (h_TTL h); Zbyte (h_Protocol h)] ++ be16 (h_Checksum h) ++
  src ++ dst ++ h_Options h.

(** [IPv4Header.Marshal]; [None] is the nil pointer. *)
Definition Marshal (h : option IPv4Header) : list byte + header_error :=
  match h with
  | None => inr errNilHeader
  | Some h =>
      if bool_decide (h_Len h < HeaderLen) then inr errHeaderTooShort
      else
        let src := if Is4 (h_Src h) then AsSlice (h_Src h) else replicate 4 Byte.x00 in
        if Is4 (h_Dst h) then inl (header_bytes h src (AsSlice (h_Dst h)))
        else inr errMissingAddress
  end.

(** The byte at a position that is in range. *)
Definition byte_at (b : list byte) (i : Z) : Z := byteZ (default Byte.x00 (zget b i)).
Definition word_at (b : list byte) (i : Z) : Z := be_decode (zsub i (i + 2) b).

Definition header_len (b : list byte) : Z := Z.shiftl (Z.land (byte_at b 0) 15) 2.

(** [IPv4Header.Parse]; [None] is a nil receiver or a nil slice. The options
    of a reused header survive when the packet carries none. *)
Definition Parse (h : option IPv4Header) (b : option (list byte)) : IPv4Header + header_error :=
  match h, b with
  | None, _ | _, None => inr errNilHeader
  | Some h, Some b =>
      if bool_decide (zlen b < HeaderLen) then inr errHeaderTooShort
      else
        let hdrlen := header_len b in
        if bool_decide (zlen b < hdrlen) then inr errExtHeaderTooShort
        else
          let fragoff := word_at b 6 in
          let optlen := hdrlen - HeaderLen in
          inl (mkHeader
            (Z.shiftr (byte_at b 0) 4)
            hdrlen
            (byte_at b 1)
            (word_at b 2)
            (word_at b 4)
            (Z.shiftr (Z.land fragoff 57344) 13)
            (Z.land fragoff 8191)
            (byte_at b 8)
            (byte_at b 9)
            (word_at b 10)
            (AddrFromSlice (zsub 12 16 b))
            (AddrFromSlice (zsub 16 20 b))
            (if bool_decide (0 < optlen /\ hdrlen <= zlen b)
             then zsub HeaderLen hdrlen b else h_Options h))
  end.

Definition ParseHeader (b : option (list byte)) : IPv4Header + header_error :=
  Parse (Some zeroHeader) b.

(** ** Headers whose fields fit their slots *)
Definition Header_wf (h : IPv4Header) : Prop :=
  h_Version h = 4 /\ h_Len h = HeaderLen + zlen (h_Options h) /\
  zlen (h_Options h) mod 4 = 0 /\ zlen (h_Options h) <= 40 /\
  0 <= h_TOS h < 256 /\ 0 <= h_TotalLen h < 2 ^ 16 /\ 0 <= h_ID h < 2 ^ 16 /\
  0 <= h_Flags h < 8 /\ 0 <= h_FragOff h < 2 ^ 13 /\ 0 <= h_TTL h < 256 /\
  0 <= h_Protocol h < 256 /\ 0 <= h_Checksum h < 2 ^ 16 /\
  Addr_wf (h_Src h) /\ Addr_wf (h_Dst h).

(** ** Where [header_bytes] puts each field *)
Section layout.
#[local] Transparent be_encode.
Context (h : IPv4Header) (s0 s1 s2 s3 d0 d1 d2 d3 : byte) (rest : list byte).
Let b := header_bytes h [s0; s1; s2; s3] [d0; d1; d2; d3] ++ rest.

Lemma layout_words :
  byte_at b 0 = byteZ (Zbyte (first_byte (HeaderLen + zlen (h_Options h)))) /\
  byte_at b 1 = byteZ (Zbyte (h_TOS h)) /\
  zsub 2 (2 + 2) b = be16 (h_TotalLen h) /\
  zsub 4 (4 + 2) b = be16 (h_ID h) /\
  zsub 6 (6 + 2) b = be16 (flagsAndFragOff h) /\
  byte_at b 8 = byteZ (Zbyte (h_TTL h)) /\
  byte_at b 9 = byteZ (Zbyte (h_Protocol h)) /\
  zsub 10 (10 + 2) b = be16 (h_Checksum h) /\
  zsub 12 16 b = [s0; s1; s2; s3] /\
  zsub 16 20 b = [d0; d1; d2; d3] /\
  zdrop 20 b = h_Options h ++ rest.
Proof. repeat split; reflexivity. Qed.
End layout.

Lemma be32_4 z : exists b0 b1 b2 b3, be32 z = [b0; b1; b2; b3].
Proof.
  pose proof (length_be_encode 4 z) as H.
  destruct (be32 z) as [|b0 [|b1 [|b2 [|b3 [|]]]]]; try discriminate. eauto.
Qed.

Lemma zlen_header_bytes h src dst :
  length src = 4%nat -> length dst = 4%nat ->
  zlen (header_bytes h src dst) = HeaderLen + zlen (h_Options h).
Proof.
  intros Hs Hd. unfold header_bytes. rewrite !zlen_app, !zlen_be_encode.
  unfold zlen. rewrite Hs, Hd. simpl length. unfold HeaderLen. lia.
Qed.

(** ** Bit-field arithmetic of the first byte and of the fragment word *)
Lemma first_byte_arith n : 5 <= n < 16 -> first_byte (4 * n) = 64 + n.
Proof.
  intros. assert (n = 5 \/ n = 6 \/ n = 7 \/ n = 8 \/ n = 9 \/ n = 10 \/ n = 11 \/ n = 12 \/
    n = 13 \/ n = 14 \/ n = 15) as H1 by lia.
  repeat destruct H1 as [->|H1]; try reflexivity. subst. reflexivity.
Qed.

Lemma lor_disjoint_add f k : 0 <= f < 2 ^ 13 -> Z.lor f (Z.shiftl k 13) = f + k * 2 ^ 13.
Proof.
  intros Hf.
  assert (H : Z.land f (Z.shiftl k 13) = 0).
  { apply Z.bits_inj'; intros i Hi; rewrite Z.land_spec, Z.bits_0, Z.shiftl_spec by lia.
    destruct (decide (i < 13)); [rewrite (Z.testbit_neg_r k) by lia; apply andb_false_r|].
    by rewrite (testbit_high f 13) by lia. }
  rewrite <- Z.shiftl_mul_pow2 by lia.
  rewrite Z.add_nocarry_lxor by done. symmetry. by apply Z.lxor_lor.
Qed.

Lemma fragword_fields f k :
  0 <= f < 2 ^ 13 -> 0 <= k < 8 ->
  let w := Z.lor (Z.land f 8191) (Z.shiftl k 13) in
  0 <= w < 2 ^ 16 /\ Z.shiftr (Z.land w 57344) 13 = k /\ Z.land w 8191 = f.
Proof.
  intros Hf Hk. cbv zeta. change 8191 with (Z.ones 13).
  rewrite (Z.land_ones f), (Z.mod_small f) by lia.
  rewrite lor_disjoint_add by lia. repeat split; try lia.
  - rewrite Z.shiftr_land. change (Z.shiftr 57344 13) with (Z.ones 3).
    rewrite Z.land_ones, Z.shiftr_div_pow2, Z.div_add, (Z.div_small f) by lia.
    apply Z.mod_small. lia.
  - rewrite Z.land_ones, Z.mod_add by lia. by apply Z.mod_small.
Qed.

Lemma word_at_be16 b i z :
  zsub i (i + 2) b = be16 z -> 0 <= z < 2 ^ 16 -> word_at b i = z.
Proof. intros E Hz. unfold word_at. rewrite E, be_decode16. by apply u16_small. Qed.

Lemma byteZ_Zbyte_small z : 0 <= z < 256 -> byteZ (Zbyte z) = z.
Proof. intros. rewrite byteZ_Zbyte. by apply Z.mod_small. Qed.

Lemma AddrFromSlice_AsSlice a : Addr_wf a -> AddrFromSlice (AsSlice a) = a.
Proof.
  destruct a as [|z]; simpl; [done|]. intros. unfold AddrFromSlice.
  rewrite length_be_encode, bool_decide_true by done.
  rewrite be_decode32. by rewrite u32_small.
Qed.

Lemma Marshal_wf h :
  Header_wf h -> Marshal (Some h) = inl (header_bytes h (AsSlice (h_Src h)) (AsSlice (h_Dst h))).
Proof.
  intros (_ & HL & _ & _ & _ & _ & _ & _ & _ & _ & _ & _ & Hs & Hd).
  unfold Marshal. zlen_facts.
  rewrite bool_decide_false by lia.
  destruct (h_Src h), (h_Dst h); simpl in *; done.
Qed.

Lemma AsSlice_4 a : Addr_wf a -> exists b0 b1 b2 b3, AsSlice a = [b0; b1; b2; b3].
Proof. destruct a as [|z]; [done|]. intros _. apply be32_4. Qed.

(** The first byte determines the header length. *)
Lemma header_len_first b n :
  0 <= n < 16 -> byte_at b 0 = 64 + n -> header_len b = 4 * n /\ Z.shiftr (byte_at b 0) 4 = 4.
Proof.
  intros Hn B0. unfold header_len. rewrite B0. change 15 with (Z.ones 4).
  rewrite Z.land_ones, Z.shiftl_mul_pow2, Z.shiftr_div_pow2 by lia.
  split; Z.div_mod_to_equations; lia.
Qed.

Lemma Header_wf_words h :
  Header_wf h -> exists n, HeaderLen + zlen (h_Options h) = 4 * n /\ 5 <= n < 16.
Proof.
  intros (_ & _ & Hm4 & Hle & _). exists ((HeaderLen + zlen (h_Options h)) / 4).
  zlen_facts. unfold HeaderLen. Z.div_mod_to_equations. lia.
Qed.

Lemma ParseHeader_header_bytes h rest :
  Header_wf h ->
  ParseHeader (Some (header_bytes h (AsSlice (h_Src h)) (AsSlice (h_Dst h)) ++ rest)) = inl h.
Proof.
  intros Hwf. destruct (Header_wf_words h Hwf) as (n & Hn & Hn5).
  destruct Hwf as (HV & HL & _ & _ & HT & HTL & HID & HF & HFO & HTTL & HP & HC & Hs & Hd).
  pose proof (AddrFromSlice_AsSlice _ Hs) as Es. pose proof (AddrFromSlice_AsSlice _ Hd) as Ed.
  destruct (AsSlice_4 _ Hs) as (s0 & s1 & s2 & s3 & Hss).
  destruct (AsSlice_4 _ Hd) as (d0 & d1 & d2 & d3 & Hdd).
  rewrite Hss, Hdd in *. set (b := header_bytes h _ _ ++ rest).
  destruct (layout_words h s0 s1 s2 s3 d0 d1 d2 d3 rest)
    as (L0 & L1 & L2 & L4 & L6 & L8 & L9 & L10 & L12 & L16 & L20).
  fold b in L0, L1, L2, L4, L6, L8, L9, L10, L12, L16, L20.
  assert (Hzb : zlen b = 4 * n + zlen rest).
  { subst b. rewrite zlen_app, zlen_header_bytes by done. lia. }
  rewrite Hn, first_byte_arith, byteZ_Zbyte_small in L0 by lia.
  destruct (header_len_first b n ltac:(lia) L0) as [HB HV4].
  destruct (fragword_fields _ _ HFO HF) as (W1 & W2 & W3).
  fold (flagsAndFragOff h) in W1, W2, W3.
  rewrite byteZ_Zbyte_small in L1, L8, L9 by lia.
  zlen_facts. unfold HeaderLen in *.
  assert (Hopt : zsub 20 (4 * n) b = h_Options h).
  { unfold zsub. rewrite L20. apply ztake_app_exact. lia. }
  unfold ParseHeader, Parse. rewrite HB. unfold HeaderLen.
  rewrite !bool_decide_false by lia.
  rewrite (word_at_be16 _ _ _ L2), (word_at_be16 _ _ _ L4), (word_at_be16 _ _ _ L6),
    (word_at_be16 _ _ _ L10) by done.
  rewrite L1, L8, L9, L12, L16, Es, Ed, W2, W3, HV4, Hopt, <- Hn, <- HL, <- HV. f_equal.
  case_bool_decide as Ho; [by destruct h|].
  change (h_Options zeroHeader) with (@nil byte).
  replace (@nil byte) with (h_Options h); [by destruct h|].
  apply length_zero_iff_nil. unfold zlen in *. lia.
Qed.

Lemma byte_at_range b i : 0 <= byte_at b i < 256.
Proof. apply byteZ_range. Qed.

Lemma word_at_range b i : 0 <= word_at b i < 2 ^ 16.
Proof.
  unfold word_at. pose proof (be_decode_bound (zsub i (i + 2) b)) as H.
  assert (Z.of_nat (length (zsub i (i + 2) b)) <= 2).
  { unfold zsub, ztake. rewrite length_take. lia. }
  pose proof (Z.pow_le_mono_r 256 (Z.of_nat (length (zsub i (i + 2) b))) 2). lia.
Qed.

Lemma header_len_range b : 0 <= header_len b <= 60 /\ header_len b mod 4 = 0.
Proof.
  unfold header_len. change 15 with (Z.ones 4).
  rewrite Z.land_ones, Z.shiftl_mul_pow2 by lia.
  pose proof (Z.mod_pos_bound (byte_at b 0) (2 ^ 4)). Z.div_mod_to_equations. lia.
Qed.

(** A byte is its two nibbles, a fragment word its flags and offset. *)
Lemma first_byte_rebuild x :
  0 <= x < 256 -> Z.shiftr x 4 = 4 -> 20 <= Z.shiftl (Z.land x 15) 2 ->
  first_byte (Z.shiftl (Z.land x 15) 2) = x.
Proof.
  intros Hx Hv. change 15 with (Z.ones 4).
  rewrite Z.land_ones, Z.shiftl_mul_pow2, Z.shiftr_div_pow2 in * by lia. intros H5.
  rewrite Z.mul_comm, first_byte_arith.
  all: Z.div_mod_to_equations; lia.
Qed.

Lemma fragword_rebuild w :
  0 <= w < 2 ^ 16 ->
  Z.lor (Z.land (Z.land w 8191) 8191) (Z.shiftl (Z.shiftr (Z.land w 57344) 13) 13) = w.
Proof.
  intros Hw. rewrite land_idemp_mask. change 8191 with (Z.ones 13).
  rewrite (Z.land_ones w) by lia.
  rewrite lor_disjoint_add by (apply Z.mod_pos_bound; lia).
  rewrite Z.shiftr_land. change (Z.shiftr 57344 13) with (Z.ones 3).
  rewrite Z.land_ones, Z.shiftr_div_pow2 by lia.
  change (2 ^ 13) with 8192. change (2 ^ 3) with 8. change (2 ^ 16) with 65536 in Hw.
  Z.div_mod_to_equations. lia.
Qed.

Lemma be16_word_at b i : 0 <= i -> i + 2 <= zlen b -> be16 (word_at b i) = zsub i (i + 2) b.
Proof.
  intros. apply be_encode_decode_len.
  pose proof (zlen_zsub i (i + 2) b). unfold zlen in *. lia.
Qed.

Lemma pair_bytes b i :
  0 <= i -> i + 2 <= zlen b -> [Zbyte (byte_at b i); Zbyte (byte_at b (i + 1))] = zsub i (i + 2) b.
Proof.
  intros. unfold byte_at.
  destruct (zget_is_Some b i) as [x Hx]; [lia|].
  destruct (zget_is_Some b (i + 1)) as [y Hy]; [lia|].
  rewrite Hx, Hy, (zget_zsub_pair b i x y) by done. simpl. by rewrite !Zbyte_byteZ.
Qed.

Lemma AddrFromSlice_zsub b i :
  0 <= i -> i + 4 <= zlen b ->
  Is4 (AddrFromSlice (zsub i (i + 4) b)) = true /\
  AsSlice (AddrFromSlice (zsub i (i + 4) b)) = zsub i (i + 4) b.
Proof.
  intros. pose proof (zlen_zsub i (i + 4) b) as Hl. unfold AddrFromSlice.
  rewrite bool_decide_true by (unfold zlen in *; lia). split; [done|].
  apply be_encode_decode_len. unfold zlen in *. lia.
Qed.

(** ** Properties *)

(** C17. Marshalling a header whose fields fit their slots gives [h_Len] bytes
    from which [ParseHeader], whatever payload follows, reads back the same
    header, options included. *)
Theorem header_roundtrip (h : IPv4Header) :
  Header_wf h ->
  exists b, Marshal (Some h) = inl b /\ zlen b = h_Len h /\
    forall payload, ParseHeader (Some (b ++ payload)) = inl h.
Proof.
  intros Hwf. exists (header_bytes h (AsSlice (h_Src h)) (AsSlice (h_Dst h))).
  split; [by apply Marshal_wf|]. split.
  - destruct Hwf as (_ & -> & _ & _ & _ & _ & _ & _ & _ & _ & _ & _ & Hs & Hd).
    apply zlen_header_bytes; [destruct (h_Src h)|destruct (h_Dst h)]; simpl in *; try done;
      apply length_be_encode.
  - intros payload. by apply ParseHeader_header_bytes.
Qed.

Definition header_example : IPv4Header :=
  mkHeader 4 24 0 30 7 2 11 16 6 4660 (Addr4 167772161) (Addr4 167772162) (be32 258).

Lemma header_roundtrip_witness :
  exists b, Marshal (Some header_example) = inl b /\ zlen b = h_Len header_example /\
    forall payload, ParseHeader (Some (b ++ payload)) = inl header_example.
Proof.
  apply header_roundtrip. unfold Header_wf, header_example, HeaderLen.
  cbn [h_Version h_Len h_TOS h_TotalLen h_ID h_Flags h_FragOff h_TTL h_Protocol h_Checksum
       h_Src h_Dst h_Options Addr_wf].
  rewrite zlen_be_encode. repeat split; try lia; reflexivity.
Defined.

(** C18. Conversely, re-marshalling what [ParseHeader] read from a version-4
    packet whose header length is at least the fixed 20 bytes (IHL at least 5, as in
    any valid packet) reproduces the header bytes of the packet exactly. *)
Theorem parse_marshal_identity (b : list byte) (h : IPv4Header) :
  ParseHeader (Some b) = inl h -> h_Version h = 4 -> HeaderLen <= h_Len h ->
  Marshal (Some h) = inl (ztake (h_Len h) b).
Proof.
  unfold ParseHeader, Parse, HeaderLen. case_bool_decide as H20; [done|].
  case_bool_decide as Hext; [done|]. intros [= <-] HV HL. cbn [h_Version h_Len] in HV, HL.
  pose proof (first_byte_rebuild _ (byte_at_range b 0) HV HL) as Hb0. fold (header_len b) in Hb0.
  set (hl := header_len b) in *.
  destruct (AddrFromSlice_zsub b 12) as [Hs1 Hs2]; [lia..|].
  destruct (AddrFromSlice_zsub b 16) as [Hd1 Hd2]; [lia..|].
  change (12 + 4) with 16 in *. change (16 + 4) with 20 in *.
  set (opts := if bool_decide _ then _ else _).
  assert (Hopt : opts = zsub 20 hl b).
  { subst opts. case_bool_decide; [done|]. unfold zsub. by rewrite ztake_nil_nonpos by lia. }
  unfold Marshal. cbn [h_Len h_Src h_Dst]. rewrite bool_decide_false by (unfold HeaderLen; lia).
  rewrite Hs1, Hd1, Hs2, Hd2. f_equal. unfold header_bytes, flagsAndFragOff.
  cbn [h_Options h_TOS h_TotalLen h_ID h_FragOff h_Flags h_TTL h_Protocol h_Checksum].
  rewrite Hopt, zlen_zsub, fragword_rebuild by (apply word_at_range || lia).
  replace (HeaderLen + (hl - 20)) with hl by (unfold HeaderLen; lia).
  rewrite Hb0, !be16_word_at by lia.
  change 1 with (0 + 1) at 1. change 9 with (8 + 1).
  rewrite (pair_bytes b 0), (pair_bytes b 8) by lia.
  rewrite ztake_zsub, (zsub_split 0 2 hl), (zsub_split 2 4 hl), (zsub_split 4 6 hl),
    (zsub_split 6 8 hl), (zsub_split 8 10 hl), (zsub_split 10 12 hl), (zsub_split 12 16 hl),
    (zsub_split 16 20 hl) by lia.
  done.
Qed.

Lemma parse_marshal_identity_witness :
  let b := header_bytes header_example (be32 167772161) (be32 167772162) in
  Marshal (Some header_example) = inl (ztake 24 b).
Proof.
  apply (parse_marshal_identity
    (header_bytes header_example (be32 167772161) (be32 167772162)) header_example);
    vm_compute; done.
Defined.

Lemma ParseHeader_bounds (b : list byte) :
  ParseHeader None = inr errNilHeader /\
  (zlen b < 20 -> ParseHeader (Some b) = inr errHeaderTooShort) /\
  (20 <= zlen b < header_len b -> ParseHeader (Some b) = inr errExtHeaderTooShort) /\
  (20 <= zlen b -> header_len b <= zlen b ->
     exists h, ParseHeader (Some b) = inl h /\ h_Len h = header_len b /\
       0 <= h_Len h <= 60 /\ h_Len h mod 4 = 0 /\ 0 <= h_Version h < 16 /\
       0 <= h_TTL h < 256 /\ 0 <= h_Protocol h < 256 /\ 0 <= h_Checksum h < 2 ^ 16 /\
       0 <= h_TotalLen h < 2 ^ 16 /\ Addr_wf (h_Src h) /\ Addr_wf (h_Dst h)).
Proof.
  unfold ParseHeader, Parse, HeaderLen. split; [done|]. repeat split; intros.
  - by rewrite bool_decide_true.
  - rewrite bool_decide_false, bool_decide_true by lia. done.
  - rewrite !bool_decide_false by lia. eexists; split; [done|].
    cbn [h_Len h_Version h_TTL h_Protocol h_Checksum h_TotalLen h_Src h_Dst].
    pose proof (header_len_range b) as [? ?].
    assert (Haddr : forall i, 0 <= i -> i + 4 <= zlen b -> Addr_wf (AddrFromSlice (zsub i (i + 4) b))).
    { intros i Hi Hl. unfold AddrFromSlice. pose proof (zlen_zsub i (i + 4) b) as Hz.
      rewrite bool_decide_true by (unfold zlen in *; lia).
      pose proof (be_decode_bound (zsub i (i + 4) b)) as Hb. simpl.
      replace (length (zsub i (i + 4) b)) with 4%nat in Hb by (unfold zlen in *; lia). lia. }
    pose proof (byte_at_range b 0).
    pose proof (Haddr 12 ltac:(lia) ltac:(lia)). pose proof (Haddr 16 ltac:(lia) ltac:(lia)).
    rewrite Z.shiftr_div_pow2 by lia.
    repeat split; try apply byte_at_range; try apply word_at_range; try done; try lia.
    all: Z.div_mod_to_equations; lia.
Qed.

(** Words in decimal places, and the bits of the flags word. *)
Lemma be_decode_pair x y : be_decode [x; y] = 256 * byteZ x + byteZ y.
Proof. cbn [be_decode length]. rewrite !Z.shiftl_mul_pow2 by lia. change (2 ^ (8 * Z.of_nat 1)) with 256.
  change (2 ^ (8 * Z.of_nat 0)) with 1. lia. Qed.

Lemma be_decode_quad x y z t : be_decode [x; y; z; t] = 256 * (256 * (256 * byteZ x + byteZ y) + byteZ z) + byteZ t.
Proof.
  cbn [be_decode length]. rewrite !Z.shiftl_mul_pow2 by lia.
  change (2 ^ (8 * Z.of_nat 3)) with 16777216. change (2 ^ (8 * Z.of_nat 2)) with 65536.
  change (2 ^ (8 * Z.of_nat 1)) with 256. change (2 ^ (8 * Z.of_nat 0)) with 1. lia.
Qed.

Lemma flags_bits x : 0 <= x < 2 ^ 16 -> Z.shiftr (Z.land x 57344) 13 = x / 8192.
Proof.
  intros Hx. rewrite Z.shiftr_land. change (Z.shiftr 57344 13) with (Z.ones 3).
  rewrite Z.land_ones, Z.shiftr_div_pow2 by lia. apply Z.mod_small. change (2 ^ 13) with 8192. change (2 ^ 3) with 8.
  Z.div_mod_to_equations. lia.
Qed.

Lemma offset_bits x : Z.land x 8191 = x mod 8192.
Proof. change 8191 with (Z.ones 13). by rewrite Z.land_ones. Qed.

(** C36. [ParseHeader]'s result on every input, byte by byte; it never panics.  A missing
    slice and one shorter than 20 bytes are errors; of any other the first byte gives
    the version and, in words of four bytes, the length of the header, which must be
    there, and then every field is read from its place in the RFC 791 layout (type of
    service, total length, identification, flags and fragment offset, time to live,
    protocol, checksum, source and destination, all big-endian), and what lies between
    the fixed part and the end of the header is the options. *)
Theorem ParseHeader_total :
  ParseHeader None = inr errNilHeader /\
  (forall b, zlen b < 20 -> ParseHeader (Some b) = inr errHeaderTooShort) /\
  forall b0 b1 b2 b3 b4 b5 b6 b7 b8 b9 b10 b11 b12 b13 b14 b15 b16 b17 b18 b19 rest,
    let word x y := 256 * byteZ x + byteZ y in
    let len := 4 * (byteZ b0 mod 16) in
    ParseHeader (Some ([b0; b1; b2; b3; b4; b5; b6; b7; b8; b9; b10; b11; b12; b13; b14; b15; b16; b17; b18; b19] ++ rest)) =
      if bool_decide (20 + zlen rest < len) then inr errExtHeaderTooShort
      else inl {|
        h_Version := byteZ b0 / 16;
        h_Len := len;
        h_TOS := byteZ b1;
        h_TotalLen := word b2 b3;
        h_ID := word b4 b5;
        h_Flags := word b6 b7 / 8192;
        h_FragOff := word b6 b7 mod 8192;
        h_TTL := byteZ b8;
        h_Protocol := byteZ b9;
        h_Checksum := word b10 b11;
        h_Src := Addr4 (256 * (256 * word b12 b13 + byteZ b14) + byteZ b15);
        h_Dst := Addr4 (256 * (256 * word b16 b17 + byteZ b18) + byteZ b19);
        h_Options := ztake (len - 20) rest
      |}.
Proof.
  split; [done|]. split; [intros b Hb; by apply (ParseHeader_bounds b)|].
  intros. set (b := [b0; b1; b2; b3; b4; b5; b6; b7; b8; b9; b10; b11; b12; b13; b14; b15; b16; b17; b18; b19] ++ rest).
  assert (Hlen : zlen b = 20 + zlen rest) by (unfold b; rewrite zlen_app; done).
  assert (Hh : header_len b = len).
  { unfold header_len. change (byte_at b 0) with (byteZ b0). change 15 with (Z.ones 4).
    rewrite Z.land_ones, Z.shiftl_mul_pow2 by lia. unfold len. change (2 ^ 4) with 16. change (2 ^ 2) with 4. lia. }
  assert (Hw : 0 <= word b6 b7 < 2 ^ 16) by (unfold word; pose proof (byteZ_range b6); pose proof (byteZ_range b7); lia).
  unfold ParseHeader, Parse. zlen_facts. rewrite Hlen, Hh, bool_decide_false by (unfold HeaderLen; lia).
  cbv zeta. case_bool_decide as Hl; [done|]. f_equal.
  change (byte_at b 0) with (byteZ b0). change (byte_at b 1) with (byteZ b1). change (byte_at b 8) with (byteZ b8).
  change (byte_at b 9) with (byteZ b9). change (word_at b 2) with (be_decode [b2; b3]).
  change (word_at b 4) with (be_decode [b4; b5]). change (word_at b 6) with (be_decode [b6; b7]).
  change (word_at b 10) with (be_decode [b10; b11]).
  change (AddrFromSlice (zsub 12 16 b)) with (Addr4 (be_decode [b12; b13; b14; b15])).
  change (AddrFromSlice (zsub 16 20 b)) with (Addr4 (be_decode [b16; b17; b18; b19])).
  rewrite !be_decode_pair, !be_decode_quad. fold (word b6 b7). rewrite flags_bits, offset_bits by done.
  rewrite Z.shiftr_div_pow2 by lia. change (zsub HeaderLen len b) with (ztake (len - HeaderLen) rest).
  unfold HeaderLen in *. change (2 ^ 4) with 16. f_equal.
  case_bool_decide as Ho; [done|]. cbn [zeroHeader h_Options]. symmetry. apply ztake_nil_nonpos. lia.
Qed.
