(* ===== verification/Netstack.v ===== *)
(** * The interface of [github.com/google/netstack/tcpip/header]

    The package is a dependency of the program and not part of its sources, so
    its functions are the operations of a class, and what the program relies on
    (the documented behaviour) are the laws of a second class.  Every theorem
    about code that calls the package is proved against this interface;
    [ref_netstack] is a concrete instance that satisfies the laws. *)
From S2P Require Import Prelude.
Local Open Scope Z_scope.

(** TCP constants, RFC 9293 bit positions and sizes. *)
Definition TCPMinimumSize : Z := 20.
Definition TCPProtocolNumber : Z := 6.
Definition TCPFlagFin : Z := 1.
Definition TCPFlagSyn : Z := 2.
Definition TCPFlagRst : Z := 4.
Definition TCPFlagPsh : Z := 8.
Definition TCPFlagAck : Z := 16.
Definition TCPFlagUrg : Z := 32.

Record TCPFields := mkTCPFields {
  f_SrcPort : Z;
  f_DstPort : Z;
  f_SeqNum : Z;
  f_AckNum : Z;
  f_DataOffset : Z;
  f_Flags : Z;
  f_WindowSize : Z;
  f_Checksum : Z;
  f_UrgentPointer : Z
}.

Definition set_f_Checksum (f : TCPFields) (c : Z) : TCPFields :=
  mkTCPFields (f_SrcPort f) (f_DstPort f) (f_SeqNum f) (f_AckNum f) (f_DataOffset f)
    (f_Flags f) (f_WindowSize f) c (f_UrgentPointer f).

Class Netstack := {
  (** [header.Checksum(buf, initial)] *)
  ns_Checksum : list byte -> Z -> Z;
  (** [TCP(make([]byte, TCPMinimumSize)).Encode(f)]: the buffer afterwards *)
  ns_Encode : TCPFields -> list byte;
  (** the field readers of [header.TCP], which may panic on a short slice *)
  ns_SourcePort : list byte -> outcome Z;
  ns_DestinationPort : list byte -> outcome Z;
  ns_SequenceNumber : list byte -> outcome Z;
  ns_AckNumber : list byte -> outcome Z;
  ns_DataOffset : list byte -> outcome Z;
  ns_Flags : list byte -> outcome Z;
  ns_WindowSize : list byte -> outcome Z;
  ns_ChecksumField : list byte -> outcome Z
}.

(** ** RFC 1071: the one's-complement sum of big-endian 16-bit words *)
Fixpoint words16 (b : list byte) : list Z :=
  match b with
  | [] => []
  | [x] => [byteZ x * 256]
  | x :: y :: t => (byteZ x * 256 + byteZ y) :: words16 t
  end.

Definition oc_add (a b : Z) : Z := (a + b) mod 65536 + (a + b) / 65536.
Definition rfc1071 (b : list byte) (initial : Z) : Z := foldl oc_add initial (words16 b).

Definition TCPFields_wf (f : TCPFields) : Prop :=
  0 <= f_SrcPort f < 2 ^ 16 /\ 0 <= f_DstPort f < 2 ^ 16 /\
  0 <= f_SeqNum f < 2 ^ 32 /\ 0 <= f_AckNum f < 2 ^ 32 /\
  f_DataOffset f = 20 /\ 0 <= f_Flags f < 2 ^ 8 /\
  0 <= f_WindowSize f < 2 ^ 16 /\ 0 <= f_Checksum f < 2 ^ 16.

Class NetstackLaws `{Netstack} : Prop := {
  checksum_rfc1071 : forall b i, 0 <= i < 2 ^ 16 -> ns_Checksum b i = rfc1071 b i;
  encode_length : forall f, zlen (ns_Encode f) = TCPMinimumSize;
  encode_SourcePort : forall f p, TCPFields_wf f ->
    ns_SourcePort (ns_Encode f ++ p) = Ret (f_SrcPort f);
  encode_DestinationPort : forall f p, TCPFields_wf f ->
    ns_DestinationPort (ns_Encode f ++ p) = Ret (f_DstPort f);
  encode_SequenceNumber : forall f p, TCPFields_wf f ->
    ns_SequenceNumber (ns_Encode f ++ p) = Ret (f_SeqNum f);
  encode_AckNumber : forall f p, TCPFields_wf f ->
    ns_AckNumber (ns_Encode f ++ p) = Ret (f_AckNum f);
  encode_DataOffset : forall f p, TCPFields_wf f ->
    ns_DataOffset (ns_Encode f ++ p) = Ret (f_DataOffset f);
  encode_Flags : forall f p, TCPFields_wf f ->
    ns_Flags (ns_Encode f ++ p) = Ret (f_Flags f);
  encode_WindowSize : forall f p, TCPFields_wf f ->
    ns_WindowSize (ns_Encode f ++ p) = Ret (f_WindowSize f);
  encode_Checksum : forall f p, TCPFields_wf f ->
    ns_ChecksumField (ns_Encode f ++ p) = Ret (f_Checksum f)
}.

(** ** One's-complement arithmetic *)
Definition sumZ (l : list Z) : Z := foldr Z.add 0 l.
Definition word_sum (b : list byte) : Z := sumZ (words16 b).

Lemma words16_range b : Forall (fun w => 0 <= w < 65536) (words16 b).
Proof.
  induction b as [| x | x y t IH] using list_pair_ind; simpl; constructor; auto.
  - pose proof (byteZ_range x). lia.
  - pose proof (byteZ_range x). pose proof (byteZ_range y). lia.
Qed.

Lemma words16_app b1 b2 :
  Nat.Even (length b1) -> words16 (b1 ++ b2) = words16 b1 ++ words16 b2.
Proof.
  induction b1 as [| x | x y t IH] using list_pair_ind; intros He; [done| |].
  - destruct He as [k Hk]. simpl in Hk. lia.
  - simpl. f_equal. apply IH. destruct He as [k Hk]. exists (k - 1)%nat. simpl in Hk. lia.
Qed.

Lemma sumZ_app l1 l2 : sumZ (l1 ++ l2) = sumZ l1 + sumZ l2.
Proof. unfold sumZ. induction l1 as [|x l1 IH]; simpl; lia. Qed.

Lemma word_sum_app b1 b2 :
  Nat.Even (length b1) -> word_sum (b1 ++ b2) = word_sum b1 + word_sum b2.
Proof. intros. unfold word_sum. by rewrite words16_app, sumZ_app. Qed.

#[local] Transparent be_encode be_decode.

Lemma word_sum_be16 z : word_sum (be16 z) = u16 z.
Proof.
  rewrite <- be_decode16. pose proof (length_be_encode 2 z) as H.
  destruct (be16 z) as [|x [|y [|]]]; try discriminate.
  unfold word_sum, sumZ. simpl.
  rewrite Z.shiftl_mul_pow2 by lia. change (2 ^ (8 * Z.of_nat 1)) with 256.
  rewrite Z.shiftl_0_r. lia.
Qed.

Lemma word_sum_nonneg b : 0 <= word_sum b.
Proof.
  unfold word_sum, sumZ. pose proof (words16_range b) as H.
  induction H; simpl; lia.
Qed.

Lemma oc_add_spec a b :
  0 <= a < 65536 -> 0 <= b < 65536 ->
  0 <= oc_add a b < 65536 /\ oc_add a b mod 65535 = (a + b) mod 65535 /\
  (oc_add a b = 0 <-> a = 0 /\ b = 0).
Proof.
  intros. unfold oc_add.
  assert ((a + b < 65536 /\ (a + b) / 65536 = 0 /\ (a + b) mod 65536 = a + b) \/
          (65536 <= a + b /\ (a + b) / 65536 = 1 /\ (a + b) mod 65536 = a + b - 65536))
    as [(? & -> & ->)|(? & -> & ->)] by (Z.div_mod_to_equations; lia).
  - rewrite Z.add_0_r. repeat split; lia.
  - replace (a + b - 65536 + 1) with (a + b + (-1) * 65535) by lia.
    rewrite Z.mod_add by lia. repeat split; lia.
Qed.

(** The one's-complement sum is determined by its residue modulo 65535, and is
    zero only for an all-zero input. *)
Lemma foldl_oc_add l i :
  0 <= i < 65536 -> Forall (fun w => 0 <= w < 65536) l ->
  let r := foldl oc_add i l in
  0 <= r < 65536 /\ r mod 65535 = (i + sumZ l) mod 65535 /\ (r = 0 <-> i = 0 /\ sumZ l = 0).
Proof.
  intros Hi Hl. revert i Hi. induction Hl as [|w l Hw Hl IH]; intros i Hi; simpl.
  - rewrite Z.add_0_r. repeat split; lia.
  - destruct (oc_add_spec i w) as (Hr & Hm & Hz); [lia..|].
    destruct (IH _ Hr) as (Hr' & Hm' & Hz'). split; [done|].
    assert (0 <= sumZ l) by (clear -Hl; induction Hl; simpl; lia).
    unfold sumZ in *. split.
    + rewrite Hm', Z.add_assoc, <- (Z.add_mod_idemp_l (oc_add i w)), Hm, Z.add_mod_idemp_l by lia.
      done.
    + rewrite Hz', Hz. lia.
Qed.

Lemma rfc1071_spec b i :
  0 <= i < 65536 ->
  0 <= rfc1071 b i < 65536 /\ rfc1071 b i mod 65535 = (i + word_sum b) mod 65535 /\
  (rfc1071 b i = 0 <-> i = 0 /\ word_sum b = 0).
Proof. intros. apply foldl_oc_add; [done|]. apply words16_range. Qed.

(** ** A concrete instance *)
Definition ref_encode (f : TCPFields) : list byte :=
  be16 (f_SrcPort f) ++ be16 (f_DstPort f) ++ be32 (f_SeqNum f) ++ be32 (f_AckNum f) ++
  [Zbyte (f_DataOffset f / 4 * 16); Zbyte (f_Flags f)] ++ be16 (f_WindowSize f) ++
  be16 (f_Checksum f) ++ be16 (f_UrgentPointer f).

Definition ref_read (lo hi : Z) (b : list byte) : outcome Z :=
  if bool_decide (hi <= zlen b) then Ret (be_decode (zsub lo hi b)) else Panic "index out of range".

#[local] Instance ref_netstack : Netstack := {|
  ns_Checksum := rfc1071;
  ns_Encode := ref_encode;
  ns_SourcePort := ref_read 0 2;
  ns_DestinationPort := ref_read 2 4;
  ns_SequenceNumber := ref_read 4 8;
  ns_AckNumber := ref_read 8 12;
  ns_DataOffset := fun b => v ← ref_read 12 13 b; Ret (v / 16 * 4);
  ns_Flags := ref_read 13 14;
  ns_WindowSize := ref_read 14 16;
  ns_ChecksumField := ref_read 16 18
|}.

Lemma ref_encode_length f : zlen (ref_encode f) = TCPMinimumSize.
Proof. unfold ref_encode. by rewrite !zlen_app, !zlen_be_encode. Qed.

Lemma ref_encode_layout f p :
  let b := ref_encode f ++ p in
  zsub 0 2 b = be16 (f_SrcPort f) /\ zsub 2 4 b = be16 (f_DstPort f) /\
  zsub 4 8 b = be32 (f_SeqNum f) /\ zsub 8 12 b = be32 (f_AckNum f) /\
  zsub 12 13 b = [Zbyte (f_DataOffset f / 4 * 16)] /\ zsub 13 14 b = [Zbyte (f_Flags f)] /\
  zsub 14 16 b = be16 (f_WindowSize f) /\ zsub 16 18 b = be16 (f_Checksum f).
Proof. repeat split; reflexivity. Qed.

Lemma ref_read_ok f p lo hi : hi <= 20 ->
  ref_read lo hi (ref_encode f ++ p) = Ret (be_decode (zsub lo hi (ref_encode f ++ p))).
Proof.
  intros. unfold ref_read. rewrite bool_decide_true; [done|].
  rewrite zlen_app, ref_encode_length. pose proof (zlen_nonneg p). unfold TCPMinimumSize. lia.
Qed.

Lemma be_decode_single b : be_decode [b] = byteZ b.
Proof. simpl. rewrite Z.shiftl_0_r. lia. Qed.

#[local] Instance ref_netstack_laws : NetstackLaws.
Proof.
  split; try (intros f p (H1 & H2 & H3 & H4 & H5 & H6 & H7 & H8);
    destruct (ref_encode_layout f p) as (L1 & L2 & L3 & L4 & L5 & L6 & L7 & L8);
    cbn [ns_SourcePort ns_DestinationPort ns_SequenceNumber ns_AckNumber ns_DataOffset ns_Flags
         ns_WindowSize ns_ChecksumField ns_Encode ref_netstack];
    rewrite ref_read_ok by lia;
    rewrite ?L1, ?L2, ?L3, ?L4, ?L5, ?L6, ?L7, ?L8, ?be_decode16, ?be_decode32,
      ?be_decode_single, ?byteZ_Zbyte, ?H5, ?u16_small, ?u32_small by lia; try done).
  - done.
  - apply ref_encode_length.
  - by rewrite Z.mod_small by lia.
Qed.
