(* ===== verification/Utils.v ===== *)
(** * Checksums and TCP header parsing ([pkg/iptcp_utils/iptcp_utils.go])

    The functions call the netstack package through the class of [Netstack].
    [pkg/node] has its own copies [ValidateChecksum] and [ComputeChecksum] of
    the IP checksum functions.  [TCPFlagsAsString] and [TCPFieldsToString] only
    format text and are left out. *)
From S2P Require Import Prelude Netip Netstack.
Local Open Scope Z_scope.

Definition TcpHeaderLen : Z := TCPMinimumSize.
Definition TcpPseudoHeaderLen : Z := 12.
Definition IpProtoTcp : Z := TCPProtocolNumber.
Definition MaxVirtualPacketSize : Z := 1400.

Section Utils.
Context `{NS : Netstack}.

(** [td := header.TCP(b)] and the eight readers, in the order of the literal;
    [UrgentPointer] is left at its zero value. *)
Definition ParseTCPHeader (b : list byte) : outcome TCPFields :=
  srcPort ← ns_SourcePort b;
  dstPort ← ns_DestinationPort b;
  seqNum ← ns_SequenceNumber b;
  ackNum ← ns_AckNumber b;
  dataOffset ← ns_DataOffset b;
  flags ← ns_Flags b;
  windowSize ← ns_WindowSize b;
  checksum ← ns_ChecksumField b;
  Ret (mkTCPFields srcPort dstPort seqNum ackNum dataOffset flags windowSize checksum 0).

(** [copy(pseudoHeaderBytes[i:i+4], ip.AsSlice())] on zeroed bytes. *)
Definition copy_ip (ip : Addr) : list byte :=
  match ip with AddrZero => replicate 4 Byte.x00 | Addr4 _ => AsSlice ip end.

Definition pseudo_header (sourceIP destIP : Addr) (payload : list byte) : list byte :=
  copy_ip sourceIP ++ copy_ip destIP ++ [Zbyte 0; Zbyte IpProtoTcp] ++
  be16 (u16 (TcpHeaderLen + zlen payload)).

Definition ComputeTCPChecksum (tcpHdr : TCPFields) (sourceIP destIP : Addr)
    (payload : list byte) : Z :=
  let pseudoHeaderChecksum := ns_Checksum (pseudo_header sourceIP destIP payload) 0 in
  let headerChecksum := ns_Checksum (ns_Encode tcpHdr) pseudoHeaderChecksum in
  let fullChecksum := ns_Checksum payload headerChecksum in
  Z.lxor fullChecksum 65535.

Definition ComputeIPChecksum (b : list byte) : Z := Z.lxor (ns_Checksum b 0) 65535.
Definition ValidateIPChecksum (b : list byte) (fromHeader : Z) : Z := ns_Checksum b fromHeader.

(** The copies in [pkg/node/node.go]. *)
Definition ComputeChecksum (b : list byte) : Z := Z.lxor (ns_Checksum b 0) 65535.
Definition ValidateChecksum (b : list byte) (fromHeader : Z) : Z := ns_Checksum b fromHeader.

Context `{!NetstackLaws}.

Lemma lxor_ffff x : 0 <= x < 65536 -> Z.lxor x 65535 = 65535 - x.
Proof.
  intros Hx. change 65535 with (Z.ones 16). rewrite Z.sub_nocarry_ldiff.
  - apply Z.bits_inj'. intros i Hi. rewrite Z.lxor_spec, Z.ldiff_spec.
    destruct (decide (i < 16)).
    + rewrite Z.ones_spec_low by lia. by destruct (Z.testbit x i).
    + rewrite Z.ones_spec_high, (testbit_high x 16) by lia. done.
  - apply Z.bits_inj'. intros i Hi. rewrite Z.ldiff_spec, Z.bits_0.
    destruct (decide (i < 16)).
    + rewrite Z.ones_spec_low by lia. apply andb_false_r.
    + by rewrite (testbit_high x 16) by lia.
Qed.

Lemma ValidateChecksum_spec b c :
  0 <= c < 2 ^ 16 ->
  ValidateChecksum b c = c <->
  (c <> 0 /\ word_sum b mod 65535 = 0) \/ (c = 0 /\ word_sum b = 0).
Proof.
  intros Hc. unfold ValidateChecksum. rewrite checksum_rfc1071 by done.
  destruct (rfc1071_spec b c) as (Hr & Hm & Hz); [lia|].
  pose proof (word_sum_nonneg b). set (r := rfc1071 b c) in *. set (w := word_sum b) in *.
  change (2 ^ 16) with 65536 in Hc. split.
  - intros E. rewrite E in *. destruct (decide (c = 0)); [lia|]. left. split; [done|].
    Z.div_mod_to_equations. lia.
  - intros [[Hc0 Hw]|[-> Hw]]; [|lia].
    assert (r <> 0) by lia. Z.div_mod_to_equations. lia.
Qed.

Lemma ComputeChecksum_range b : 0 <= ComputeChecksum b < 2 ^ 16.
Proof.
  unfold ComputeChecksum. rewrite checksum_rfc1071 by lia.
  destruct (rfc1071_spec b 0) as (Hr & _); [lia|]. rewrite lxor_ffff by lia. lia.
Qed.

(** Adding the computed checksum to a non-zero block makes its sum vanish. *)
Lemma ComputeChecksum_sum b :
  (word_sum b + ComputeChecksum b) mod 65535 = 0.
Proof.
  unfold ComputeChecksum. rewrite checksum_rfc1071 by lia.
  destruct (rfc1071_spec b 0) as (Hr & Hm & _); [lia|]. rewrite lxor_ffff by lia.
  simpl in Hm. Z.div_mod_to_equations. lia.
Qed.

(** ** Properties *)

(** The receiver's check [ValidateChecksum(hdr, c) == c] accepts exactly the
    headers whose 16-bit words sum to zero in one's-complement arithmetic and
    that carry a non-zero checksum; with checksum field [c = 0] nothing but an
    all-zero header passes.  A valid header whose checksum happens to be zero
    is therefore refused. *)
Theorem checksum_accepts_iff (b : list byte) (c : Z) :
  0 <= c < 2 ^ 16 ->
  ValidateChecksum b c = c <->
  (c <> 0 /\ word_sum b mod 65535 = 0) \/ (c = 0 /\ word_sum b = 0).
Proof. apply ValidateChecksum_spec. Qed.

(** No single corrupted word gets through: if a header is accepted, then the
    same header with one 16-bit word replaced by a value of another residue
    class modulo 65535 (with the checksum field re-read from it) is refused. *)
Theorem checksum_detects_word_error (pre post : list byte) (w w' c c' : Z) :
  Nat.Even (length pre) -> 0 <= w < 2 ^ 16 -> 0 <= w' < 2 ^ 16 ->
  0 <= c < 2 ^ 16 -> 0 <= c' < 2 ^ 16 -> w mod 65535 <> w' mod 65535 -> c <> 0 ->
  ValidateChecksum (pre ++ be16 w ++ post) c = c ->
  ValidateChecksum (pre ++ be16 w' ++ post) c' <> c'.
Proof.
  intros He Hw Hw' Hc Hc' Hne Hc0 Hv Hv'.
  assert (Hsum : forall x, 0 <= x < 2 ^ 16 ->
    word_sum (pre ++ be16 x ++ post) = word_sum pre + x + word_sum post).
  { intros x Hx. rewrite !word_sum_app; [|by exists 1%nat|done].
    rewrite word_sum_be16, u16_small by done. lia. }
  apply ValidateChecksum_spec in Hv; [|done]. apply ValidateChecksum_spec in Hv'; [|done].
  rewrite Hsum in Hv by done. rewrite Hsum in Hv' by done.
  assert ((word_sum pre + w + word_sum post) mod 65535 = 0) as H1 by (destruct Hv as [[_ H1]|[H1 _]]; [done|lia]).
  assert ((word_sum pre + w' + word_sum post) mod 65535 = 0) as H2.
  { destruct Hv' as [[_ H2]|[_ H2]]; [done|]. by rewrite H2. }
  apply Hne. Z.div_mod_to_equations. lia.
Qed.

End Utils.

Lemma checksum_accepts_iff_witness :
  @ValidateChecksum ref_netstack (be16 17664 ++ be16 47871) 47871 = 47871.
Proof.
  apply (@checksum_accepts_iff ref_netstack ref_netstack_laws); [lia|].
  left. split; [lia|]. vm_compute. reflexivity.
Defined.

Lemma checksum_detects_word_error_witness :
  @ValidateChecksum ref_netstack (be16 17664 ++ be16 1 ++ []) 1 <> 1.
Proof.
  apply (@checksum_detects_word_error ref_netstack ref_netstack_laws (be16 17664) [] 47871 1 47871 1);
    try lia.
  - by exists 1%nat.
  - vm_compute. discriminate.
  - vm_compute. reflexivity.
Defined.
