(* ===== verification/Pq.v ===== *)
(** * The early-arrival priority queue ([pkg/pq/pq.go])

    The queue implements [container/heap]'s interface; [up], [down], [heap_Push]
    and [heap_Pop] are that package's functions on it.  The Go queue holds
    pointers; each packet is in the queue once and is not referenced elsewhere,
    so the list holds the packets themselves. *)
From Equations Require Import Equations.
From Stdlib Require Import Sorting.Sorted.
From S2P Require Import Prelude.
Local Open Scope Z_scope.

Record EarlyPacket := mkEarly {
  Priority : Z;
  Index : Z;
  PFlags : Z;
  PPayload : list byte
}.

Definition EarlyPriorityQueue : Type := list EarlyPacket.

Definition set_Index (p : EarlyPacket) (i : Z) : EarlyPacket :=
  mkEarly (Priority p) i (PFlags p) (PPayload p).

Definition Len (pq : list EarlyPacket) : nat := length pq.

(** Priorities by position; [container/heap] only asks for positions in range. *)
Definition prio (pq : list EarlyPacket) (i : nat) : Z := from_option Priority 0 (pq !! i).
Definition Less (pq : list EarlyPacket) (i j : nat) : bool := bool_decide (prio pq i < prio pq j).

Definition Swap (pq : list EarlyPacket) (i j : nat) : list EarlyPacket :=
  match pq !! i, pq !! j with
  | Some a, Some b => <[j := set_Index a (Z.of_nat j)]> (<[i := set_Index b (Z.of_nat i)]> pq)
  | _, _ => pq
  end.

Definition Push (pq : list EarlyPacket) (x : EarlyPacket) : list EarlyPacket :=
  pq ++ [set_Index x (Z.of_nat (length pq))].

Definition Pop (pq : list EarlyPacket) : outcome (EarlyPacket * list EarlyPacket) :=
  match pq !! (length pq - 1)%nat with
  | Some item => Ret (set_Index item (-1), take (length pq - 1) pq)
  | None => Panic "index out of range"
  end.

(** ** [container/heap] *)
Definition parent (j : nat) : nat := ((j - 1) / 2)%nat.

Lemma parent_spec j :
  (0 < j -> (j = 2 * parent j + 1 \/ j = 2 * parent j + 2))%nat.
Proof. unfold parent. intros. pose proof (Nat.div_mod_eq (j - 1) 2). pose proof (Nat.mod_upper_bound (j - 1) 2). lia. Qed.

Lemma parent_0 : parent 0 = 0%nat.
Proof. reflexivity. Qed.

Lemma parent_le j : (parent j <= j)%nat.
Proof. destruct j; [rewrite parent_0; lia|]. pose proof (parent_spec (S j)). lia. Qed.

Equations? up (pq : list EarlyPacket) (j : nat) : list EarlyPacket by wf j lt :=
  up pq j with decide (parent j = j \/ Less pq j (parent j) = false) => {
    | left _ := pq
    | right _ := up (Swap pq (parent j) j) (parent j) }.
Proof. pose proof (parent_le j). naive_solver lia. Qed.

(** The child of [i] that [down] compares with: the smaller one below [n]. *)
Definition smaller_child (pq : list EarlyPacket) (i n : nat) : nat :=
  if bool_decide (2 * i + 2 < n)%nat && Less pq (2 * i + 2) (2 * i + 1)
  then (2 * i + 2)%nat else (2 * i + 1)%nat.

Lemma smaller_child_range pq i n :
  (2 * i + 1 < n -> i < smaller_child pq i n < n)%nat.
Proof. unfold smaller_child. intros. case_bool_decide; simpl; [destruct (Less _ _ _)|]; lia. Qed.

Equations? down (pq : list EarlyPacket) (i n : nat) : list EarlyPacket by wf (n - i)%nat lt :=
  down pq i n with decide (n <= 2 * i + 1 \/ Less pq (smaller_child pq i n) i = false)%nat => {
    | left _ := pq
    | right _ := down (Swap pq i (smaller_child pq i n)) (smaller_child pq i n) n }.
Proof. pose proof (smaller_child_range pq i n). destruct (decide (n <= 2 * i + 1)%nat); [tauto|lia]. Qed.

Definition heap_Push (pq : list EarlyPacket) (x : EarlyPacket) : list EarlyPacket :=
  up (Push pq x) (length pq).

(** [heap.Pop] on an empty queue swaps positions 0 and -1 and panics. *)
Definition heap_Pop (pq : list EarlyPacket) : outcome (EarlyPacket * list EarlyPacket) :=
  match pq with
  | [] => Panic "index out of range"
  | _ =>
      let n := (length pq - 1)%nat in
      Pop (down (Swap pq 0 n) 0 n)
  end.

Example heap_order :
  let q := foldl heap_Push [] [mkEarly 30 0 0 []; mkEarly 10 0 0 []; mkEarly 20 0 0 []] in
  map (fun p => (Priority p, Index p)) q = [(10, 0); (30, 1); (20, 2)].
Proof. vm_compute. reflexivity. Qed.

(** ** Swapping *)
Section swap.
Context (q : list EarlyPacket) (i j : nat).
Hypothesis Hi : (i < length q)%nat.
Hypothesis Hj : (j < length q)%nat.

Lemma Swap_unfold : exists a b, q !! i = Some a /\ q !! j = Some b /\
  Swap q i j = <[j := set_Index a (Z.of_nat j)]> (<[i := set_Index b (Z.of_nat i)]> q).
Proof.
  destruct (lookup_lt_is_Some_2 q i Hi) as [a Ha].
  destruct (lookup_lt_is_Some_2 q j Hj) as [b Hb].
  exists a, b. unfold Swap. by rewrite Ha, Hb.
Qed.

Lemma length_Swap : length (Swap q i j) = length q.
Proof. destruct Swap_unfold as (a & b & _ & _ & ->). by rewrite !length_insert. Qed.

Lemma prio_Swap k :
  prio (Swap q i j) k =
    if decide (k = i) then prio q j else if decide (k = j) then prio q i else prio q k.
Proof.
  destruct Swap_unfold as (a & b & Ha & Hb & ->). unfold prio.
  repeat case_decide; subst.
  - destruct (decide (i = j)) as [<-|].
    + rewrite list_lookup_insert_eq by (by rewrite length_insert). by rewrite Ha.
    + rewrite list_lookup_insert_ne, list_lookup_insert_eq by done. by rewrite Hb.
  - rewrite list_lookup_insert_eq by (by rewrite length_insert). by rewrite Ha.
  - by rewrite !list_lookup_insert_ne by done.
Qed.
End swap.

(** What a packet carries apart from its heap position. *)
Definition content (p : EarlyPacket) : Z * Z * list byte := (Priority p, PFlags p, PPayload p).

Lemma content_set_Index p i : content (set_Index p i) = content p.
Proof. done. Qed.

Lemma Swap_content q i j : content <$> Swap q i j ≡ₚ content <$> q.
Proof.
  unfold Swap. destruct (q !! i) as [a|] eqn:Ha; [|done].
  destruct (q !! j) as [b|] eqn:Hb; [|done].
  rewrite !list_fmap_insert, !content_set_Index.
  apply Permutation_insert_swap; rewrite list_lookup_fmap; by simplify_option_eq.
Qed.

(** ** The index invariant: every packet knows its position. *)
Definition indexed (q : list EarlyPacket) : Prop :=
  forall k p, q !! k = Some p -> Index p = Z.of_nat k.

Lemma indexed_Swap q i j : indexed q -> indexed (Swap q i j).
Proof.
  intros Hq. unfold Swap. destruct (q !! i) as [a|] eqn:Ha; [|done].
  destruct (q !! j) as [b|] eqn:Hb; [|done]. intros k p Hk.
  apply list_lookup_insert_Some in Hk as [(-> & <- & _)|[_ Hk]]; [done|].
  apply list_lookup_insert_Some in Hk as [(-> & <- & _)|[_ Hk]]; [done|]. by apply Hq.
Qed.

(** ** Heap order on the first [n] positions *)
Definition heap_ordered (n : nat) (q : list EarlyPacket) : Prop :=
  forall k, (0 < k < n)%nat -> prio q (parent k) <= prio q k.

(** Ordered except that position [j] may be too small for its parent. *)
Definition heap_except_up (n j : nat) (q : list EarlyPacket) : Prop :=
  (forall k, (0 < k < n)%nat -> k <> j -> prio q (parent k) <= prio q k) /\
  (forall k, (0 < k < n)%nat -> (0 < j)%nat -> parent k = j -> prio q (parent j) <= prio q k).

(** Ordered except that position [i] may be too large for its children. *)
Definition heap_except_down (n i : nat) (q : list EarlyPacket) : Prop :=
  (forall k, (0 < k < n)%nat -> parent k <> i -> prio q (parent k) <= prio q k) /\
  (forall k, (0 < k < n)%nat -> (0 < i)%nat -> parent k = i -> prio q (parent i) <= prio q k).

Lemma Less_true q i j : Less q i j = true <-> prio q i < prio q j.
Proof. apply bool_decide_eq_true. Qed.
Lemma Less_false q i j : Less q i j = false <-> prio q j <= prio q i.
Proof. unfold Less. rewrite bool_decide_eq_false. lia. Qed.

Lemma up_spec q j :
  (j < length q)%nat -> heap_except_up (length q) j q ->
  heap_ordered (length (up q j)) (up q j) /\ (content <$> up q j) ≡ₚ (content <$> q) /\
  (indexed q -> indexed (up q j)).
Proof.
  intros Hj Hex. funelim (up q j); clear Heqcall; clear Heq.
  - split; [|done]. intros k Hk. destruct (decide (k = j)) as [->|]; [|by apply Hex].
    destruct o as [E|E%Less_false]; [by rewrite E|done].
  - apply Decidable.not_or in n as [Hne HL]. apply not_false_is_true, Less_true in HL.
    pose proof (parent_le j) as Hle.
    assert (Hlen : length (Swap pq (parent j) j) = length pq) by (apply length_Swap; lia).
    destruct H as (H1 & H2 & H3); [lia| |].
    + rewrite Hlen. destruct Hex as [Hex1 Hex2]. split.
      * intros k Hk Hkp. rewrite !prio_Swap by lia. repeat case_decide; subst; try lia.
        all: try (pose proof (parent_spec k ltac:(lia)); pose proof (parent_spec j ltac:(lia)); lia).
        -- pose proof (Hex1 k ltac:(lia) ltac:(congruence)). rewrite H in *. lia.
        -- apply Hex2; try lia; congruence.
        -- apply Hex1; [lia|congruence].
      * intros k Hk Hp Hkp. rewrite !prio_Swap by lia.
        pose proof (parent_spec (parent j) ltac:(lia)).
        rewrite (decide_False (P := parent (parent j) = parent j)) by lia.
        rewrite (decide_False (P := parent (parent j) = j)) by lia.
        pose proof (parent_spec k ltac:(lia)).
        pose proof (Hex1 (parent j) ltac:(lia) ltac:(lia)).
        rewrite (decide_False (P := k = parent j)) by lia.
        case_decide; [lia|]. pose proof (Hex1 k ltac:(lia) ltac:(lia)). rewrite Hkp in *. lia.
    + split; [done|]. split; [|intros; apply H3, indexed_Swap; done].
      rewrite H2. apply Swap_content.
Qed.

Lemma Swap_lookup_other q i j k : k <> i -> k <> j -> Swap q i j !! k = q !! k.
Proof.
  intros. unfold Swap. destruct (q !! i), (q !! j); try done.
  by rewrite !list_lookup_insert_ne by done.
Qed.

Lemma smaller_child_parent q i n :
  (2 * i + 1 < n)%nat -> parent (smaller_child q i n) = i.
Proof.
  intros. pose proof (parent_spec (smaller_child q i n)) as H1.
  pose proof (smaller_child_range q i n). unfold smaller_child in *.
  case_bool_decide; simpl in *; [destruct (Less _ _ _)|]; lia.
Qed.

(** The chosen child is the smaller of the children. *)
Lemma smaller_child_min q i n k :
  (0 < k < n)%nat -> parent k = i -> prio q (smaller_child q i n) <= prio q k.
Proof.
  intros Hk Hp. pose proof (parent_spec k ltac:(lia)). unfold smaller_child.
  case_bool_decide as Hb; cbn [andb].
  - destruct (Less q _ _) eqn:HL; [apply Less_true in HL|apply Less_false in HL];
      (assert (k = 2 * i + 1 \/ k = 2 * i + 2)%nat as [Ek|Ek] by lia); rewrite Ek; lia.
  - assert (k = 2 * i + 1)%nat as Ek by lia. rewrite Ek. lia.
Qed.

Lemma down_step_except q i n :
  (n <= length q)%nat -> (2 * i + 1 < n)%nat -> heap_except_down n i q ->
  prio q (smaller_child q i n) < prio q i ->
  heap_except_down n (smaller_child q i n) (Swap q i (smaller_child q i n)).
Proof.
  intros Hn Hi [Hex1 Hex2] HL. pose proof (smaller_child_range q i n Hi) as Hc.
  pose proof (smaller_child_parent q i n Hi) as Hp. set (c := smaller_child q i n) in *.
  split.
  - intros k Hk Hkp. rewrite !prio_Swap by lia.
    pose proof (parent_spec k ltac:(lia)).
    destruct (decide (parent k = i)) as [E|E].
    + destruct (decide (k = i)); [lia|]. pose proof (smaller_child_min q i n k Hk E).
      fold c in H0. destruct (decide (k = c)) as [Ec|]; [rewrite Ec in *|]; rewrite ?E; lia.
    + destruct (decide (parent k = c)); [done|].
      destruct (decide (k = i)) as [->|].
      * apply Hex2; lia.
      * destruct (decide (k = c)); [congruence|]. by apply Hex1.
  - intros k Hk Hc0 Hkp. rewrite !prio_Swap by lia. rewrite Hp.
    pose proof (parent_spec k ltac:(lia)).
    rewrite decide_True by done. rewrite (decide_False (P := k = i)) by lia.
    rewrite (decide_False (P := k = c)) by lia.
    pose proof (Hex1 k Hk ltac:(lia)). by rewrite Hkp in *.
Qed.

Lemma down_spec q i n :
  (n <= length q)%nat -> heap_except_down n i q ->
  heap_ordered n (down q i n) /\ (content <$> down q i n) ≡ₚ (content <$> q) /\
  (indexed q -> indexed (down q i n)) /\ length (down q i n) = length q /\
  (forall k, (n <= k)%nat -> (i < n)%nat -> down q i n !! k = q !! k).
Proof.
  intros Hn Hex. funelim (down q i n); clear Heqcall; clear Heq.
  - split; [|done]. intros k Hk. destruct (decide (parent k = i)) as [E|]; [|by apply Hex].
    pose proof (parent_spec k ltac:(lia)). destruct o as [?|HL%Less_false]; [lia|].
    pose proof (smaller_child_min pq i n k Hk E). rewrite E. lia.
  - match goal with Hnot : ~ (_ \/ _) |- _ => apply Decidable.not_or in Hnot as [Hlt HL] end.
    apply not_false_is_true, Less_true in HL.
    pose proof (smaller_child_range pq i n ltac:(lia)) as Hc.
    assert (Hlen : length (Swap pq i (smaller_child pq i n)) = length pq) by (apply length_Swap; lia).
    destruct H as (H1 & H2 & H3 & H4 & H5); [lia|apply down_step_except; done || lia|].
    split; [done|]. split; [rewrite H2; apply Swap_content|].
    split; [intros; apply H3, indexed_Swap; done|]. split; [lia|].
    intros k Hk Hi. rewrite H5 by lia. apply Swap_lookup_other; lia.
Qed.

(** ** The queue invariant and the two operations *)
Definition pq_inv (q : list EarlyPacket) : Prop := heap_ordered (length q) q /\ indexed q.

Lemma pq_inv_nil : pq_inv [].
Proof. split; [|done]. intros k Hk. simpl in Hk. lia. Qed.

Lemma heap_root_min n q k : heap_ordered n q -> (k < n)%nat -> prio q 0 <= prio q k.
Proof.
  intros Hh. induction (lt_wf k) as [k _ IH]. intros Hk.
  destruct (decide (k = 0%nat)) as [->|]; [lia|].
  pose proof (parent_spec k ltac:(lia)).
  pose proof (IH (parent k) ltac:(lia) ltac:(lia)).
  pose proof (Hh k ltac:(lia)). lia.
Qed.

Lemma prio_app_l q1 q2 k : (k < length q1)%nat -> prio (q1 ++ q2) k = prio q1 k.
Proof. intros. unfold prio. by rewrite lookup_app_l. Qed.

Lemma prio_take n q k : (k < n)%nat -> prio (take n q) k = prio q k.
Proof. intros. unfold prio. by rewrite lookup_take_lt. Qed.

Lemma prio_lookup q k p : q !! k = Some p -> prio q k = Priority p.
Proof. unfold prio. by intros ->. Qed.

Lemma indexed_Push q x : indexed q -> indexed (Push q x).
Proof.
  intros Hq k p Hk. unfold Push in Hk. apply lookup_app_Some in Hk as [Hk|[Hge Hk]]; [by apply Hq|].
  destruct (k - length q)%nat eqn:E; [|done]. injection Hk as <-. simpl. lia.
Qed.

Lemma heap_Push_spec q x :
  pq_inv q ->
  pq_inv (heap_Push q x) /\ (content <$> heap_Push q x) ≡ₚ content x :: (content <$> q).
Proof.
  intros [Hh Hi]. unfold heap_Push.
  assert (Hlen : length (Push q x) = S (length q)) by (unfold Push; rewrite length_app; simpl; lia).
  destruct (up_spec (Push q x) (length q)) as (H1 & H2 & H3); [lia| |].
  - rewrite Hlen. split; intros k Hk.
    + intros Hne. pose proof (parent_spec k ltac:(lia)). unfold Push.
      rewrite !prio_app_l by lia. apply Hh. lia.
    + intros H0 Hp. pose proof (parent_spec k ltac:(lia)). lia.
  - split; [split; [done|by apply H3, indexed_Push]|].
    rewrite H2. unfold Push. rewrite fmap_app. simpl. symmetry. apply Permutation_cons_append.
Qed.

Lemma heap_Pop_spec q :
  pq_inv q -> q <> [] ->
  exists x q', heap_Pop q = Ret (x, q') /\ pq_inv q' /\
    (content <$> q) ≡ₚ content x :: (content <$> q') /\
    Priority x = prio q 0 /\ (forall p, p ∈ q -> Priority x <= Priority p).
Proof.
  intros [Hh Hi] Hne. set (n := (length q - 1)%nat).
  assert (Hl : length q = S n) by (subst n; destruct q; simpl; [done|lia]).
  destruct (lookup_lt_is_Some_2 q 0 ltac:(lia)) as [r Hr].
  assert (Hlast : Swap q 0 n !! n = Some (set_Index r (Z.of_nat n))).
  { destruct (Swap_unfold q 0 n) as (a & b & Ha & Hb & ->); [lia..|]. simplify_eq.
    rewrite list_lookup_insert_eq by (rewrite length_insert; lia). done. }
  assert (Hls : length (Swap q 0 n) = S n) by (rewrite length_Swap; lia).
  destruct (down_spec (Swap q 0 n) 0 n) as (D1 & D2 & D3 & D4 & D5); [lia| |].
  { split; intros k Hk Hp; [|lia]. rewrite !prio_Swap by lia.
    pose proof (parent_spec k ltac:(lia)).
    repeat case_decide; try lia. apply Hh. lia. }
  assert (Hget : down (Swap q 0 n) 0 n !! n = Some (set_Index r (Z.of_nat n))).
  { destruct (decide (n = 0%nat)) as [E|].
    - rewrite E in *. simp down. destruct (decide _) as [|Hx]; [done|]. exfalso. apply Hx. left. lia.
    - rewrite D5 by lia. done. }
  exists (set_Index r (-1)), (take n (down (Swap q 0 n) 0 n)).
  set (d := down (Swap q 0 n) 0 n) in *.
  assert (Hd : d = take n d ++ [set_Index r (Z.of_nat n)]).
  { rewrite <- (take_S_r d n _ Hget). symmetry. apply take_ge. lia. }
  split; [|split; [|split; [|split]]].
  - unfold heap_Pop. destruct q as [|p q]; [done|]. fold n. fold d. unfold Pop.
    rewrite D4, Hls. replace (S n - 1)%nat with n by lia. by rewrite Hget.
  - split.
    + intros k Hk. rewrite length_take in Hk. pose proof (parent_le k).
      rewrite !prio_take by lia. apply D1. lia.
    + intros k p Hk. apply lookup_take_Some in Hk as [Hk _]. by apply (D3 (indexed_Swap _ _ _ Hi)).
  - rewrite <- (Swap_content q 0 n), <- D2. rewrite Hd at 1. rewrite fmap_app. simpl.
    symmetry. apply Permutation_cons_append.
  - by rewrite (prio_lookup _ _ _ Hr).
  - intros p [k Hk]%list_elem_of_lookup. simpl. rewrite <- (prio_lookup _ _ _ Hr), <- (prio_lookup _ _ _ Hk).
    apply (heap_root_min (length q)); [done|]. by eapply lookup_lt_Some.
Qed.

(** [n] successive [heap.Pop]s, as the receiver's drain loop makes them. *)
Fixpoint pop_n (n : nat) (q : list EarlyPacket) : outcome (list EarlyPacket) :=
  match n with
  | O => Ret []
  | S n' => '(x, q') ← heap_Pop q; xs ← pop_n n' q'; Ret (x :: xs)
  end.

Lemma pq_inv_Push_all xs q : pq_inv q ->
  pq_inv (foldl heap_Push q xs) /\
  (content <$> foldl heap_Push q xs) ≡ₚ (content <$> xs) ++ (content <$> q).
Proof.
  revert q; induction xs as [|x xs IH]; intros q Hq; [done|]. simpl.
  destruct (heap_Push_spec q x Hq) as [H1 H2]. destruct (IH _ H1) as [H3 H4].
  split; [done|]. rewrite H4, H2. by rewrite Permutation_middle.
Qed.

Lemma pop_n_sorted n q : pq_inv q -> length q = n ->
  exists ys, pop_n n q = Ret ys /\ (content <$> ys) ≡ₚ (content <$> q) /\
    StronglySorted (fun a b => Priority a <= Priority b) ys.
Proof.
  revert q; induction n as [|n IH]; intros q Hq Hn.
  { destruct q; [|done]. exists []. repeat split; constructor. }
  destruct (heap_Pop_spec q Hq) as (x & q' & Hp & Hq' & Hperm & _ & Hmin); [by destruct q|].
  pose proof (Permutation_length Hperm) as Hl. simpl in Hl. rewrite !length_fmap in Hl.
  destruct (IH q' Hq') as (ys & Hys & Hc & Hs); [lia|].
  exists (x :: ys). simpl. rewrite Hp. simpl. rewrite Hys. simpl.
  split; [done|]. split; [by rewrite Hc, Hperm|]. constructor; [done|].
  apply Forall_forall. intros y Hy%list_elem_of_In.
  assert (Hin : content y ∈ content <$> q).
  { rewrite Hperm, <- Hc. apply list_elem_of_further. apply list_elem_of_fmap. by exists y. }
  apply list_elem_of_fmap in Hin as (p & Hcy & Hp'). injection Hcy as -> _ _. by apply Hmin.
Qed.

(** ** Properties *)

(** C27. The heap implements a multiset ordered by sequence number: [heap.Push]
    keeps the heap order and the stored indices and adds exactly the pushed
    packet; [heap.Pop] of a non-empty queue returns a packet of least priority,
    removes exactly it and keeps the invariant; of an empty queue it panics. *)
Theorem pq_refines_multiset (q : list EarlyPacket) :
  pq_inv q ->
  (forall x, pq_inv (heap_Push q x) /\
     (content <$> heap_Push q x) ≡ₚ content x :: (content <$> q)) /\
  (q <> [] -> exists x q', heap_Pop q = Ret (x, q') /\ pq_inv q' /\
     (content <$> q) ≡ₚ content x :: (content <$> q') /\
     (forall p, p ∈ q -> Priority x <= Priority p)) /\
  heap_Pop [] = Panic "index out of range".
Proof.
  intros Hq. split; [intros x; by apply heap_Push_spec|]. split; [|done].
  intros Hne. destruct (heap_Pop_spec q Hq Hne) as (x & q' & H1 & H2 & H3 & _ & H4). eauto 10.
Qed.

Lemma pq_refines_multiset_witness :
  (content <$> heap_Push [mkEarly 5 0 16 []] (mkEarly 3 7 16 [])) ≡ₚ
  content (mkEarly 3 7 16 []) :: (content <$> [mkEarly 5 0 16 []]).
Proof.
  assert (H : pq_inv [mkEarly 5 0 16 []]).
  { split.
    - intros k Hk. simpl in Hk. lia.
    - intros [|k] p Hk; [by injection Hk as <-|done]. }
  apply (pq_refines_multiset _ H).
Defined.

(** Packets pushed in any order of arrival come out in sequence order: after
    pushing a list onto the empty queue, popping as many times returns all of
    them, sorted by sequence number. *)
Theorem pq_sorts (xs : list EarlyPacket) :
  exists ys, pop_n (length xs) (foldl heap_Push [] xs) = Ret ys /\
    (content <$> ys) ≡ₚ (content <$> xs) /\
    StronglySorted (fun a b => Priority a <= Priority b) ys.
Proof.
  destruct (pq_inv_Push_all xs [] pq_inv_nil) as [H1 H2]. rewrite app_nil_r in H2.
  destruct (pop_n_sorted (length xs) _ H1) as (ys & H3 & H4 & H5).
  { apply Permutation_length in H2. by rewrite !length_fmap in H2. }
  exists ys. split; [done|]. split; [by rewrite H4|done].
Qed.
