(* ===== verification/Config.v ===== *)
(** * Configuration records ([pkg/lnxconfig/lnxconfig.go])

    The data the configuration parser produces and [node.Initialize] consumes. *)
From S2P Require Import Prelude Netip.
Local Open Scope Z_scope.

Inductive RoutingMode : Type := RoutingTypeNone | RoutingTypeStatic | RoutingTypeRIP.

Record InterfaceConfig := mkInterfaceConfig {
  if_Name : string;
  AssignedIP : Addr;
  AssignedPrefix : Prefix;
  if_UDPAddr : AddrPort
}.

Record NeighborConfig := mkNeighborConfig {
  DestAddr : Addr;
  nb_UDPAddr : AddrPort;
  InterfaceName : string
}.

Record IPConfig := mkIPConfig {
  c_Interfaces : list InterfaceConfig;
  c_Neighbors : list NeighborConfig;
  c_OriginatingPrefixes : list Prefix;
  c_RoutingMode : RoutingMode;
  c_RipNeighbors : list Addr;
  c_StaticRoutes : gmap Prefix Addr
}.

(** Zero values, which Go's map lookups return for a missing key. *)
Definition zeroInterfaceConfig : InterfaceConfig :=
  mkInterfaceConfig "" AddrZero zeroPrefix zeroAddrPort.
Definition zeroNeighborConfig : NeighborConfig := mkNeighborConfig AddrZero zeroAddrPort "".
