(* ===== verification/Node.v ===== *)
(** * The IP node ([pkg/node/node.go])

    The state of a node, the packets it builds, its forwarding decisions, the
    protocol handlers and the RIP goroutines.  A handler is a function from the
    node and its input to the new node and the list of effects it has in order
    (datagrams written, packets queued on an interface, segments passed to TCP,
    lines printed), or a panic, or blocking for ever.

    - [node.nodeLock] and [forwardLock] are released on every path of every
      handler, and each handler is one step here.  The code is finer: [protocol200]
      takes the lock once per entry, so another goroutine may act between two entries
      of one message.  Each entry is [update_entry] on the table as it then is, and
      the invariants of the table are proved for each entry ([RipProto]).
    - The [*ForwardingInfo] records shared between the forwarding table and the
      [triggered] map are values here: every branch that changes a record also
      stores it in [triggered] again, so the two views agree.
    - Go iterates maps in an unspecified order: [MapIter] is an arbitrary
      enumeration of each map, and the theorems hold for all of them. *)
From S2P Require Import Prelude Rip Netip Ipv4Header Netstack Utils Config.
Local Open Scope Z_scope.

Definition MaxMessageSize : Z := 1400.
Definition INFTY : Z := 16.

Record ForwardingInfo := mkFwd {
  route_type : string;
  next : Addr;
  pre : Prefix;
  cost : Z;
  last_updated : Z;
  ifname : string
}.

(** The entry of [node.interfaces]; [i_chan] and [i_enableMutex] say whether the
    channel and the mutex pointer are non-nil. *)
Record Interface := mkInterface {
  i_cfg : InterfaceConfig;
  i_chan : bool;
  i_enableMutex : bool;
  i_enabled : bool
}.
Definition zeroInterface : Interface := mkInterface zeroInterfaceConfig false false false.

Record SocketTableKey := mkKey {
  LocalAddr : Addr;
  LocalPort : Z;
  RemoteAddr : Addr;
  RemotePort : Z
}.
#[global] Instance SocketTableKey_eq_dec : EqDecision SocketTableKey.
Proof. solve_decision. Defined.
#[global] Instance SocketTableKey_countable : Countable SocketTableKey.
Proof.
  refine (inj_countable'
    (fun k => (LocalAddr k, LocalPort k, RemoteAddr k, RemotePort k))
    (fun '(a, b, c, d) => mkKey a b c d) _).
  by intros [].
Defined.

Record TCPInfo := mkTCPInfo {
  ti_key : SocketTableKey;
  Flag : Z;
  SeqNum : Z;
  AckNum : Z;
  WindowSize : Z;
  Payload : list byte
}.

Inductive event : Type :=
  | EQueue (iface : string) (pack : list byte) (address : Addr)  (** interfaces[iface].sendInterfaceChan *)
  | EUDP (to : AddrPort) (p : list byte)                         (** conn.WriteToUDP *)
  | ETCP (info : TCPInfo)                                        (** node.TCPChan *)
  | ETest (src dst : Addr) (ttl : Z) (data : list byte)          (** "Received test packet" *)
  | EPrint (line : string).

(** The node's own handlers, or a callback given to [RegisterHandler]. *)
Inductive HandlerFunc : Type :=
  | Protocol0
  | Protocol6
  | Protocol200
  | Callback (f : list byte -> IPv4Header -> list event).

Record Node := mkNode {
  neighbors : list NeighborConfig;
  interfaces : gmap string Interface;
  neighborTable : gmap Addr NeighborConfig;
  forwardingTable : gmap Prefix ForwardingInfo;
  handlerTable : gmap Z HandlerFunc;
  ripNeighbors : list Addr;
  IpAddr : Addr
}.

Definition set_forwardingTable (n : Node) (t : gmap Prefix ForwardingInfo) : Node :=
  mkNode (neighbors n) (interfaces n) (neighborTable n) t (handlerTable n) (ripNeighbors n) (IpAddr n).
Definition set_handlerTable (n : Node) (t : gmap Z HandlerFunc) : Node :=
  mkNode (neighbors n) (interfaces n) (neighborTable n) (forwardingTable n) t (ripNeighbors n) (IpAddr n).

(** Go map reads: the zero value for a missing key. *)
Definition get_interface (n : Node) (name : string) : Interface :=
  default zeroInterface (interfaces n !! name).
Definition get_neighbor (n : Node) (a : Addr) : NeighborConfig :=
  default zeroNeighborConfig (neighborTable n !! a).

(** Map iteration. *)
Class MapIter := {
  iter_fwd : gmap Prefix ForwardingInfo -> list (Prefix * ForwardingInfo);
  iter_if : gmap string Interface -> list (string * Interface)
}.
Class MapIterLaws `{MapIter} : Prop := {
  iter_fwd_perm : forall m, iter_fwd m ≡ₚ map_to_list m;
  iter_if_perm : forall m, iter_if m ≡ₚ map_to_list m
}.

(** [popcount]: 32 rounds suffice for a [uint32]. *)
Fixpoint popcount_loop (fuel : nat) (num res : Z) : Z :=
  match fuel with
  | O => res
  | S fuel' => if bool_decide (0 < num) then popcount_loop fuel' (num / 2) (res + num mod 2) else res
  end.
Definition popcount (num : Z) : Z := popcount_loop 32 num 0.

(** ** Sending *)
(** [sendInterfaceChan <- toSend]: a nil channel blocks for ever. *)
Definition chan_send (n : Node) (iface : string) (pack : list byte) (address : Addr) :
    outcome (list event) :=
  if i_chan (get_interface n iface) then Ret [EQueue iface pack address]
  else Block "send on nil channel".

(** The longest-prefix loop of [checkDest] and [FindNext]. *)
Section lpm.
Context {A : Type} (pre_of : A -> Prefix) (dst : Addr).
Definition lpm_step (acc : Z * option A) (x : A) : Z * option A :=
  if Contains (pre_of x) dst && bool_decide (acc.1 < pBits (pre_of x))
  then (pBits (pre_of x), Some x) else acc.
Definition lpm (l : list A) : option A := (foldl lpm_step (-1, None) l).2.
End lpm.

Section Node.
Context `{NS : Netstack} `{MI : MapIter}.

Definition makePacket (src dst : Addr) (protocolNum ttl : Z) (data : list byte) : outcome (list byte) :=
  src' ← MustParseAddr (Addr_String src);
  dst' ← MustParseAddr (Addr_String dst);
  let hdr := mkHeader 4 20 0 (HeaderLen + zlen data) 0 0 0 ttl protocolNum 0 src' dst' [] in
  match Marshal (Some hdr) with
  | inr _ => Panic "log.Fatalln: Error marshalling header"
  | inl headerBytes =>
      match Marshal (Some (set_Checksum hdr (ComputeChecksum headerBytes))) with
      | inr _ => Panic "log.Fatalln: Error marshalling header"
      | inl headerBytes => Ret (headerBytes ++ data)
      end
  end.

Definition neighborUDP (n : Node) (dst : Addr) : option AddrPort :=
  match list_find (fun nb => DestAddr nb = dst) (neighbors n) with
  | Some (_, nb) => Some (nb_UDPAddr nb)
  | None => None
  end.

(** For an unknown neighbour the address looked up is a dummy that resolves, so only one
    line is printed. *)
Definition forwardPacket (n : Node) (nextAddr : Addr) (p : list byte) : list event :=
  match neighborUDP n nextAddr with
  | None => [EPrint "Destination VIP is not a known neighbor"]
  | Some udp => [EUDP udp p]
  end.

Definition checkDest (n : Node) (dst : Addr) : bool :=
  match lpm (fun '(_, i) => AssignedPrefix (i_cfg i)) dst (iter_if (interfaces n)) with
  | None => false
  | Some (_, toUse) => bool_decide (dst = AssignedIP (i_cfg toUse))
  end.

(** [(next, route type)], or [None] for "not found". *)
Definition FindNext (n : Node) (dst : Addr) : option (Addr * string) :=
  if checkDest n dst then Some (dst, "L")
  else match lpm (fun '(_, f) => pre f) dst (iter_fwd (forwardingTable n)) with
       | None => None
       | Some (_, useForward) => Some (next useForward, route_type useForward)
       end.

(** The loop over the interfaces whose name is [iface]. *)
Fixpoint send_on_interfaces (n : Node) (ifs : list (string * Interface)) (iface : string)
    (dst next_addr : Addr) (protocolNum : Z) (data : list byte) : outcome (list event) :=
  match ifs with
  | [] => Ret []
  | (_, inter) :: ifs' =>
      if bool_decide (if_Name (i_cfg inter) = iface) then
        p ← makePacket (AssignedIP (i_cfg inter)) dst protocolNum 16 data;
        ev ← chan_send n iface p next_addr;
        evs ← send_on_interfaces n ifs' iface dst next_addr protocolNum data;
        Ret (ev ++ evs)
      else send_on_interfaces n ifs' iface dst next_addr protocolNum data
  end.

Definition HandleSend (n : Node) (dst : Addr) (data : list byte) (protocolNum : Z) :
    outcome (list event) :=
  match FindNext n dst with
  | None => Ret [EPrint "Error: No match in forwarding table."]
  | Some (next_addr, t) =>
      let next_addr := if bool_decide (t = "L") then dst else next_addr in
      match neighborUDP n next_addr with
      | None => Ret [EPrint "Error: VIP is not valid dest"]
      | Some _ =>
          let iface := InterfaceName (get_neighbor n next_addr) in
          send_on_interfaces n (iter_if (interfaces n)) iface dst next_addr protocolNum data
      end
  end.

(** ** RIP *)
(** One entry of a response, with split horizon and poisoned reverse. *)
Definition rip_entry_for (dst : Addr) (p : Prefix) (info : ForwardingInfo) : outcome RipUpdate :=
  addy_bytes ← As4 (pAddr p);
  mask ← CIDRMask (pBits (pre info));
  Ret (mkRipUpdate (if bool_decide (dst = next info) then INFTY else u32 (cost info))
                   (be_decode addy_bytes) mask).

Fixpoint rip_entries_for (dst : Addr) (subset : list (Prefix * ForwardingInfo)) :
    outcome (list RipUpdate) :=
  match subset with
  | [] => Ret []
  | (p, info) :: rest =>
      e ← rip_entry_for dst p info;
      es ← rip_entries_for dst rest;
      Ret (e :: es)
  end.

Definition sendRIP (n : Node) (dst : Addr) (subset : gmap Prefix ForwardingInfo) : outcome (list event) :=
  entries ← rip_entries_for dst (iter_fwd subset);
  let ripPacket := mkRipPacket 2 (u16 (zlen entries)) entries in
  let marshalled := MarshalRIP ripPacket in
  let inter := InterfaceName (get_neighbor n dst) in
  let src := AssignedIP (i_cfg (get_interface n inter)) in
  packet ← makePacket src dst 200 16 marshalled;
  chan_send n inter packet dst.

(** [for _, rip_neighbor := range node.ripNeighbors { node.sendRIP(...) }] *)
Fixpoint send_to_all (n : Node) (dsts : list Addr) (subset : gmap Prefix ForwardingInfo) :
    outcome (list event) :=
  match dsts with
  | [] => Ret []
  | d :: rest =>
      ev ← sendRIP n d subset;
      evs ← send_to_all n rest subset;
      Ret (ev ++ evs)
  end.

(** The prefix an entry announces, through the text the code builds. *)
Definition entry_prefix (entry : RipUpdate) : option Prefix :=
  let mask := popcount (Mask entry) in
  let addy := Z.land (Address entry) (Mask entry) in
  ParsePrefix (dotted addy +:+ ("/" +:+ fmt_d mask)).

(** [min(int(entry.Cost+1), INFTY)]; the addition is on [uint32]. *)
Definition entry_cost (entry : RipUpdate) : Z := Z.min (u32 (Cost entry + 1)) INFTY.

(** One round of the update loop on the table and the triggered set. *)
Definition update_entry (now : Z) (hop : Addr)
    (st : gmap Prefix ForwardingInfo * gmap Prefix ForwardingInfo) (entry : RipUpdate) :
    gmap Prefix ForwardingInfo * gmap Prefix ForwardingInfo :=
  let '(table, triggered) := st in
  match entry_prefix entry with
  | None => st
  | Some p =>
      let c := entry_cost entry in
      match table !! p with
      | None =>
          if bool_decide (c <> INFTY) then
            let val := mkFwd "R" hop p c now "" in
            (<[p := val]> table, <[p := val]> triggered)
          else st
      | Some info =>
          if bool_decide (c < cost info) then
            let info' := mkFwd (route_type info) hop (pre info) c now (ifname info) in
            (<[p := info']> table, <[p := info']> triggered)
          else if bool_decide (cost info < c) then
            if bool_decide (hop = next info) then
              let info' := mkFwd (route_type info) (next info) (pre info) c now (ifname info) in
              (delete p table, <[p := info']> triggered)
            else st
          else if bool_decide (hop = next info) then
            let info' := mkFwd (route_type info) (next info) (pre info) (cost info) now (ifname info) in
            (<[p := info']> table, <[p := info']> triggered)
          else st
      end
  end.

Definition update_table (now : Z) (hop : Addr) (entries : list RipUpdate)
    (table : gmap Prefix ForwardingInfo) :
    gmap Prefix ForwardingInfo * gmap Prefix ForwardingInfo :=
  foldl (update_entry now hop) (table, ∅) entries.

(** ** Protocol handlers *)
Definition protocol0 (message : list byte) (header : IPv4Header) : list event :=
  [ETest (h_Src header) (h_Dst header) (h_TTL header) message].

Definition protocol6 (n : Node) (message : Slice) (hdr : IPv4Header) : outcome (list event) :=
  tcpHdr ← ParseTCPHeader (slice_bytes message);
  tcpPayload ← slice_from message (f_DataOffset tcpHdr);
  let tcpComputedChecksum :=
    ComputeTCPChecksum (set_f_Checksum tcpHdr 0) (h_Src hdr) (h_Dst hdr) (slice_bytes tcpPayload) in
  if bool_decide (tcpComputedChecksum <> f_Checksum tcpHdr) then Ret []
  else
    payload ← slice_from message 20;
    Ret [ETCP (mkTCPInfo (mkKey (h_Src hdr) (f_SrcPort tcpHdr) (IpAddr n) (f_DstPort tcpHdr))
                 (f_Flags tcpHdr) (f_SeqNum tcpHdr) (f_AckNum tcpHdr) (f_WindowSize tcpHdr)
                 (slice_bytes payload))].

Definition protocol200 (now : Z) (n : Node) (message : Slice) (header : IPv4Header) :
    outcome (Node * list event) :=
  rip_packet ← ExtractRIP message;
  if bool_decide (Command rip_packet = 1) then
    evs ← sendRIP n (h_Src header) (forwardingTable n);
    Ret (n, evs)
  else
    let '(table, triggered) := update_table now (h_Src header) (Entries rip_packet) (forwardingTable n) in
    let n' := set_forwardingTable n table in
    if bool_decide (triggered = ∅) then Ret (n', [])
    else
      evs ← send_to_all n' (ripNeighbors n') triggered;
      Ret (n', evs).

(** [node.handlerTable[protocolNum](message, header)]: calling a missing handler
    calls a nil function. *)
Definition call_handler (now : Z) (n : Node) (protocolNum : Z) (message : Slice) (header : IPv4Header) :
    outcome (Node * list event) :=
  match handlerTable n !! protocolNum with
  | None => Panic "nil pointer dereference"
  | Some Protocol0 => Ret (n, protocol0 (slice_bytes message) header)
  | Some Protocol6 => evs ← protocol6 n message header; Ret (n, evs)
  | Some Protocol200 => protocol200 now n message header
  | Some (Callback f) => Ret (n, f (slice_bytes message) header)
  end.

Definition handlePackets (now : Z) (n : Node) (buffer : Slice) : outcome (Node * list event) :=
  match ParseHeader (Some (slice_bytes buffer)) with
  | inr _ => Ret (n, [EPrint "Error parsing header"])
  | inl header =>
      let header := set_TTL header (h_TTL header - 1) in
      if bool_decide (h_TTL header < 0) then Ret (n, [])
      else
        headerBytes ← slice_range buffer 0 (h_Len header);
        let checksumFromHeader := u16 (h_Checksum header) in
        let computedChecksum := ValidateChecksum (slice_bytes headerBytes) checksumFromHeader in
        if bool_decide (computedChecksum = checksumFromHeader) then
          let header := set_Checksum header computedChecksum in
          if checkDest n (h_Dst header) then
            message ← slice_from buffer (h_Len header);
            call_handler now n (h_Protocol header) message header
          else if bool_decide (0 < h_TTL header) then
            match FindNext n (h_Dst header) with
            | None => Ret (n, [EPrint "Error: No match in forwarding table."])
            | Some (next_addr, t) =>
                let next_addr := if bool_decide (t = "L") then h_Dst header else next_addr in
                payload ← slice_from buffer (h_Len header);
                data ← makePacket (h_Src header) (h_Dst header) (h_Protocol header) (h_TTL header)
                         (slice_bytes payload);
                Ret (n, forwardPacket n next_addr data)
            end
          else Ret (n, [])
        else Ret (n, [EPrint "Dropped packet"])
  end.

(** ** The goroutines *)
(** [interfaceRoutine]: a fresh zeroed buffer of [MaxMessageSize] bytes receives
    the datagram (truncated to it); [iface] is the routine's own copy of the
    interface, whose [enabled] flag no one else can reach. *)
Definition recv_buffer (dgram : list byte) : Slice :=
  let d := ztake MaxMessageSize dgram in
  mkSlice (d ++ replicate (Z.to_nat (MaxMessageSize - zlen d)) Byte.x00) (zlen d).

Definition interface_recv (now : Z) (n : Node) (iface : Interface) (dgram : list byte) :
    outcome (Node * list event) :=
  if i_enabled iface then handlePackets now n (recv_buffer dgram)
  else Block "enableCond.Wait".

Definition interface_send (n : Node) (iface : Interface) (address : Addr) (pack : list byte) : list event :=
  if i_enabled iface then forwardPacket n address pack else [].

(** One round of [periodicUpdates] and of [garbageCollector]; times in
    nanoseconds, [Seconds() >= 12] is 12 * 10^9 of them. *)
Definition periodic_round (n : Node) : outcome (list event) :=
  send_to_all n (ripNeighbors n) (forwardingTable n).

Definition expired (now : Z) (info : ForwardingInfo) : Prop :=
  route_type info = "R" /\ 12000000000 <= now - last_updated info.
#[global] Instance expired_dec now info : Decision (expired now info).
Proof. unfold expired. apply _. Defined.

Definition gc_step (now : Z) (st : gmap Prefix ForwardingInfo * gmap Prefix ForwardingInfo)
    (e : Prefix * ForwardingInfo) : gmap Prefix ForwardingInfo * gmap Prefix ForwardingInfo :=
  let '(table, triggered) := st in
  let '(p, info) := e in
  if bool_decide (expired now info) then
    (delete p table,
     <[p := mkFwd (route_type info) (next info) (pre info) 16 (last_updated info) (ifname info)]> triggered)
  else st.

Definition gc_tables (now : Z) (table : gmap Prefix ForwardingInfo) :
    gmap Prefix ForwardingInfo * gmap Prefix ForwardingInfo :=
  foldl (gc_step now) (table, ∅) (iter_fwd table).

Definition gc_round (now : Z) (n : Node) : outcome (Node * list event) :=
  let '(table, triggered) := gc_tables now (forwardingTable n) in
  let n' := set_forwardingTable n table in
  if bool_decide (triggered = ∅) then Ret (n', [])
  else
    evs ← send_to_all n' (ripNeighbors n') triggered;
    Ret (n', evs).

(** ** Administration *)
Definition RegisterHandler (n : Node) (protocolNum : Z) (callback : HandlerFunc) : Node :=
  set_handlerTable n (<[protocolNum := callback]> (handlerTable n)).

Definition createNeighborTable (nbs : list NeighborConfig) : gmap Addr NeighborConfig :=
  foldl (fun t nb => <[DestAddr nb := nb]> t) ∅ nbs.

(** [ToggleInterface]: [Some] is the error result.  The mutex it locks is the
    one of the copy stored in [node.interfaces]. *)
Definition ToggleInterface (n : Node) (name : string) (b : bool) : outcome (option string) :=
  match interfaces n !! name with
  | None => Ret (Some (name +:+ " not a valid interface"))
  | Some iface =>
      if i_enableMutex iface then Ret None
      else Panic "nil pointer dereference"
  end.

(** ** Start-up *)
Definition static_info (p : Prefix) (a : Addr) : ForwardingInfo := mkFwd "S" a p 0 0 "".
Definition local_info (c : InterfaceConfig) : ForwardingInfo :=
  mkFwd "L" (AssignedIP c) (AssignedPrefix c) 0 0 (if_Name c).
Definition new_interface (c : InterfaceConfig) : Interface := mkInterface c true false true.

(** The initial RIP requests, in order. *)
Fixpoint initial_requests (n : Node) (rips : list Addr) : outcome (list event) :=
  match rips with
  | [] => Ret []
  | r :: rest =>
      let iface := InterfaceName (get_neighbor n r) in
      let marshalled := MarshalRIP (mkRipPacket 1 0 []) in
      packet ← makePacket (AssignedIP (i_cfg (get_interface n iface))) r 200 16 marshalled;
      ev ← chan_send n iface packet r;
      evs ← initial_requests n rest;
      Ret (ev ++ evs)
  end.

Definition initial_node (c : IPConfig) : Node :=
  let statics := map_imap (fun p a => Some (static_info p a)) (c_StaticRoutes c) in
  let ifs := foldl (fun t i => <[if_Name i := new_interface i]> t) ∅ (c_Interfaces c) in
  let table := foldl (fun t i => <[AssignedPrefix i := local_info i]> t) statics (c_Interfaces c) in
  let ip := AssignedIP (i_cfg (default zeroInterface (ifs !! "if0"))) in
  mkNode (c_Neighbors c) ifs (createNeighborTable (c_Neighbors c)) table
    {[0 := Protocol0; 6 := Protocol6; 200 := Protocol200]} (c_RipNeighbors c) ip.

Definition Initialize (c : IPConfig) : outcome (Node * list event) :=
  let n := initial_node c in
  evs ← initial_requests n (c_RipNeighbors c);
  Ret (n, evs).

End Node.
