(* ===== verification/Routing.v ===== *)
(** * Forwarding decisions and the RIP table ([pkg/node/node.go])

    Longest-prefix matching of [checkDest] and [FindNext], the distance-vector
    update of [protocol200] as a pointwise specification, the table invariant,
    split horizon with poisoned reverse, and garbage collection. *)
From S2P Require Import Prelude Rip Netip Ipv4Header Netstack Utils Config Node.
Local Open Scope Z_scope.

(** ** Longest-prefix match *)
Section lpm.
Context {A : Type} (pre_of : A -> Prefix) (dst : Addr).

Definition lpm_best (l : list A) (acc : Z * option A) : Prop :=
  match acc with
  | (len, None) => len = -1 /\ forall y, y ∈ l -> Contains (pre_of y) dst = false
  | (len, Some x) =>
      x ∈ l /\ Contains (pre_of x) dst = true /\ len = pBits (pre_of x) /\
      forall y, y ∈ l -> Contains (pre_of y) dst = true -> pBits (pre_of y) <= len
  end.

Lemma Contains_bits p a : Contains p a = true -> 0 <= pBits p <= 32.
Proof.
  unfold Contains. destruct (pAddr p), a; try done.
  intros [H _]%andb_true_iff. by apply bool_decide_eq_true in H.
Qed.

Lemma lpm_fold_best l : lpm_best l (foldl (lpm_step pre_of dst) (-1, None) l).
Proof.
  induction l as [|x l IH] using rev_ind; [split; [done|]; intros y Hy; by apply not_elem_of_nil in Hy|].
  rewrite foldl_app. simpl. destruct (foldl _ _ l) as [len best].
  unfold lpm_step. cbn [fst].
  assert (Hin : forall y, y ∈ l ++ [x] <-> y ∈ l \/ y = x).
  { intros y. rewrite elem_of_app, list_elem_of_singleton. done. }
  destruct (Contains (pre_of x) dst) eqn:HC; simpl.
  - pose proof (Contains_bits _ _ HC). case_bool_decide as Hb.
    + destruct best as [b|]; simpl in *; repeat split; try done.
      all: try (apply Hin; by right). all: intros y [Hy| ->]%Hin Hyc; try lia.
      * destruct IH as (_ & _ & -> & Hmax). specialize (Hmax y Hy Hyc). lia.
      * destruct IH as (-> & Hno). by rewrite Hno in Hyc.
    + destruct best as [b|]; simpl in *; [|lia].
      destruct IH as (? & ? & -> & Hmax). repeat split; try done.
      * apply Hin. by left.
      * intros y [Hy| ->]%Hin Hyc; [by apply Hmax|lia].
  - destruct best as [b|]; simpl in *.
    + destruct IH as (? & ? & -> & Hmax). repeat split; try done.
      * apply Hin. by left.
      * intros y [Hy| ->]%Hin Hyc; [by apply Hmax|congruence].
    + destruct IH as (-> & Hno). split; [done|]. intros y [Hy| ->]%Hin; [by apply Hno|done].
Qed.

Lemma lpm_spec l :
  match lpm pre_of dst l with
  | None => forall y, y ∈ l -> Contains (pre_of y) dst = false
  | Some x => x ∈ l /\ Contains (pre_of x) dst = true /\
      forall y, y ∈ l -> Contains (pre_of y) dst = true -> pBits (pre_of y) <= pBits (pre_of x)
  end.
Proof.
  unfold lpm. pose proof (lpm_fold_best l) as H.
  destruct (foldl _ _ l) as [len [x|]]; simpl in *; [|by destruct H].
  destruct H as (? & ? & -> & ?). done.
Qed.

(** With canonical, pairwise distinct prefixes the match is unique, so the
    order in which the candidates are visited does not matter. *)
Lemma lpm_perm l1 l2 :
  l1 ≡ₚ l2 -> Addr_wf dst -> (forall x, x ∈ l1 -> is_masked (pre_of x)) ->
  (forall x y, x ∈ l1 -> y ∈ l1 -> pre_of x = pre_of y -> x = y) ->
  lpm pre_of dst l1 = lpm pre_of dst l2.
Proof.
  intros Hp Ha Hm Hinj. pose proof (lpm_spec l1) as H1. pose proof (lpm_spec l2) as H2.
  assert (Hin : forall y, y ∈ l1 <-> y ∈ l2) by (intros y; by rewrite Hp).
  destruct (lpm pre_of dst l1) as [x|], (lpm pre_of dst l2) as [y|]; try done.
  - destruct H1 as (Hx & Cx & Mx), H2 as (Hy & Cy & My). f_equal.
    apply Hin in Hy. apply Hinj; try done.
    apply (masked_contains_unique _ _ dst); auto.
    apply Z.le_antisymm; [apply My|apply Mx]; try done; by apply Hin.
  - destruct H1 as (Hx & Cx & _). rewrite H2 in Cx; [done|by apply Hin].
  - destruct H2 as (Hy & Cy & _). rewrite H1 in Cy; [done|by apply Hin].
Qed.
End lpm.

(** ** Prefixes announced by RIP entries *)
Lemma popcount_loop_range fuel num res :
  0 <= num -> res <= popcount_loop fuel num res <= res + Z.of_nat fuel.
Proof.
  revert num res; induction fuel as [|fuel IH]; intros num res Hn; simpl; [lia|].
  case_bool_decide; [|lia].
  pose proof (Z.mod_pos_bound num 2). specialize (IH (num / 2) (res + num mod 2)).
  assert (0 <= num / 2) by (apply Z.div_pos; lia). lia.
Qed.

Lemma popcount_range num : 0 <= num -> 0 <= popcount num <= 32.
Proof. intros. unfold popcount. pose proof (popcount_loop_range 32 num 0). lia. Qed.

(** More rounds change nothing once [num] fits in the rounds already made. *)
Lemma popcount_loop_enough k fuel num res :
  0 <= num < 2 ^ Z.of_nat fuel -> popcount_loop (fuel + k) num res = popcount_loop fuel num res.
Proof.
  revert num res; induction fuel as [|fuel IH]; intros num res Hn; simpl.
  - assert (num = 0) as -> by (simpl in Hn; lia). by destruct k.
  - case_bool_decide; [|done]. apply IH.
    rewrite Nat2Z.inj_succ, Z.pow_succ_r in Hn by lia.
    split; [apply Z.div_pos; lia|]. apply Z.div_lt_upper_bound; lia.
Qed.

Lemma popcounts_cidr : forallb (fun n => bool_decide (popcount (cidr_mask n) = n)) (seqZ 0 33) = true.
Proof. vm_compute. reflexivity. Qed.

Lemma popcount_cidr n : 0 <= n <= 32 -> popcount (cidr_mask n) = n.
Proof.
  intros Hn. pose proof popcounts_cidr as H. rewrite forallb_forall in H.
  specialize (H n). rewrite <- list_elem_of_In, elem_of_seqZ in H.
  by apply bool_decide_eq_true in H; [|lia].
Qed.

Lemma entry_prefix_ok e :
  RipUpdate_wf e ->
  entry_prefix e = Some (mkPrefix (Addr4 (Z.land (Address e) (Mask e))) (popcount (Mask e))).
Proof.
  intros (_ & Ha & Hm). unfold entry_prefix. apply ParsePrefix_text.
  - apply land_range; lia.
  - apply popcount_range. lia.
Qed.

Lemma entry_prefix_wf e p : RipUpdate_wf e -> entry_prefix e = Some p -> Prefix_wf p.
Proof.
  intros He. rewrite entry_prefix_ok by done. intros [= <-]. destruct He as (_ & Ha & Hm).
  split; simpl; [apply land_range; lia|]. apply popcount_range. lia.
Qed.

Lemma entry_cost_range e : 0 <= entry_cost e <= INFTY.
Proof. unfold entry_cost, INFTY. pose proof (u32_range (Cost e + 1)). lia. Qed.

#[global] Opaque entry_prefix popcount.

(** ** The distance-vector rule for one destination

    What a response of cost [c] from [hop] does to the route for [p]. *)
Definition dv_update (now : Z) (hop : Addr) (p : Prefix) (c : Z) (old : option ForwardingInfo) :
    option ForwardingInfo :=
  match old with
  | None => if bool_decide (c = INFTY) then None else Some (mkFwd "R" hop p c now "")
  | Some f =>
      if bool_decide (c < cost f) then Some (mkFwd (route_type f) hop (pre f) c now (ifname f))
      else if bool_decide (next f = hop) then
        if bool_decide (c = cost f)
        then Some (mkFwd (route_type f) hop (pre f) (cost f) now (ifname f))
        else None
      else Some f
  end.

Lemma update_entry_other now hop st e p :
  entry_prefix e <> Some p -> (update_entry now hop st e).1 !! p = st.1 !! p.
Proof.
  intros Hne. destruct st as [table triggered]. unfold update_entry.
  destruct (entry_prefix e) as [q|]; [|done].
  assert (q <> p) by congruence.
  repeat case_match; simpl; rewrite ?lookup_insert_ne, ?lookup_delete_ne by done; done.
Qed.

Lemma update_entry_same now hop st e p :
  entry_prefix e = Some p ->
  (update_entry now hop st e).1 !! p = dv_update now hop p (entry_cost e) (st.1 !! p).
Proof.
  intros He. destruct st as [table triggered]. unfold update_entry, dv_update. rewrite He. simpl.
  destruct (table !! p) as [info|] eqn:Ht.
  - repeat case_bool_decide; simpl; rewrite ?lookup_insert_eq, ?lookup_delete_eq; try done; try lia; congruence.
  - repeat case_bool_decide; simpl; rewrite ?lookup_insert_eq; done.
Qed.

Lemma update_fold_pointwise now hop es st p :
  (foldl (update_entry now hop) st es).1 !! p =
    foldl (fun o e => dv_update now hop p (entry_cost e) o) (st.1 !! p)
      (filter (fun e => entry_prefix e = Some p) es).
Proof.
  revert st; induction es as [|e es IH]; intros st; [done|]. cbn [foldl]. rewrite IH.
  destruct (decide (entry_prefix e = Some p)) as [E|E].
  - rewrite filter_cons_True by assumption. cbn [foldl]. rewrite update_entry_same by assumption. reflexivity.
  - rewrite filter_cons_False by assumption. rewrite update_entry_other by assumption. reflexivity.
Qed.

(** ** The table invariant *)
Definition info_ok (p : Prefix) (f : ForwardingInfo) : Prop :=
  pre f = p /\ Prefix_wf p /\ 0 <= cost f < INFTY /\
  (route_type f = "L" \/ route_type f = "S" \/ route_type f = "R").
Definition table_ok (t : gmap Prefix ForwardingInfo) : Prop :=
  forall p f, t !! p = Some f -> info_ok p f.

(** Routes handed to [sendRIP]: as above, but a withdrawn route has cost 16. *)
Definition adv_ok (t : gmap Prefix ForwardingInfo) : Prop :=
  forall p f, t !! p = Some f -> pre f = p /\ Prefix_wf p /\ 0 <= cost f <= INFTY.

Lemma table_ok_adv t : table_ok t -> adv_ok t.
Proof. intros H p f Hp. destruct (H p f Hp) as (? & ? & ? & _). split; [done|]. split; [done|lia]. Qed.

Lemma update_entry_ok now hop st e :
  RipUpdate_wf e -> table_ok st.1 -> adv_ok st.2 ->
  table_ok (update_entry now hop st e).1 /\ adv_ok (update_entry now hop st e).2.
Proof.
  intros He Ht Ha. destruct st as [table triggered]. unfold update_entry. simpl in *.
  destruct (entry_prefix e) as [q|] eqn:Eq; [|done].
  pose proof (entry_prefix_wf e q He Eq) as Hq. pose proof (entry_cost_range e) as Hc.
  assert (HT : forall f, info_ok q f -> table_ok (<[q := f]> table)).
  { intros f Hf p g. rewrite lookup_insert. case_decide; [subst; by intros [= <-]|apply Ht]. }
  assert (HA : forall f, pre f = q -> 0 <= cost f <= INFTY -> adv_ok (<[q := f]> triggered)).
  { intros f Hf Hcf p g. rewrite lookup_insert. case_decide; [subst; by intros [= <-]|apply Ha]. }
  assert (HD : table_ok (delete q table)).
  { intros p g. rewrite lookup_delete. case_decide; [done|apply Ht]. }
  destruct (table !! q) as [info|] eqn:Hl.
  - destruct (Ht q info Hl) as (Hp & _ & Hci & Hty).
    repeat case_bool_decide; cbn [fst snd]; (split; [try apply HT; try done|try apply HA; try done]);
      try (split; [done|]; split; [done|]; split; [|done]); cbn [cost]; try lia.
  - case_bool_decide; cbn [fst snd]; [|done]. split; [apply HT|apply HA; [done|cbn [cost]; lia]].
    split; [done|]. split; [done|]. cbn [cost route_type]. split; [lia|auto].
Qed.

Lemma update_table_ok now hop es t :
  Forall RipUpdate_wf es -> table_ok t ->
  table_ok (update_table now hop es t).1 /\ adv_ok (update_table now hop es t).2.
Proof.
  intros Hes Ht. unfold update_table.
  assert (H0 : table_ok (t, ∅ : gmap Prefix ForwardingInfo).1 /\ adv_ok (t, ∅ : gmap Prefix ForwardingInfo).2).
  { split; [done|]. intros p f. simpl. by rewrite lookup_empty. }
  revert H0. generalize (t, ∅ : gmap Prefix ForwardingInfo).
  induction Hes as [|e es He Hes IH]; intros st [H1 H2]; simpl; [done|].
  apply IH. by apply update_entry_ok.
Qed.

(** ** Garbage collection, pointwise *)
Definition gc_keep (now : Z) (o : option ForwardingInfo) : option ForwardingInfo :=
  match o with
  | Some f => if bool_decide (expired now f) then None else Some f
  | None => None
  end.
Definition gc_expire (now : Z) (o : option ForwardingInfo) : option ForwardingInfo :=
  match o with
  | Some f =>
      if bool_decide (expired now f)
      then Some (mkFwd (route_type f) (next f) (pre f) 16 (last_updated f) (ifname f)) else None
  | None => None
  end.

Lemma gc_fold_pointwise now l st p :
  NoDup (l.*1) ->
  let r := foldl (gc_step now) st l in
  (forall f, (p, f) ∈ l -> expired now f -> r.1 !! p = None /\ r.2 !! p = gc_expire now (Some f)) /\
  ((forall f, (p, f) ∈ l -> ~ expired now f) -> r.1 !! p = st.1 !! p /\ r.2 !! p = st.2 !! p).
Proof.
  revert st; induction l as [|[q g] l IH]; intros st Hnd; cbv zeta.
  { split; [|done]. intros f Hf. by apply not_elem_of_nil in Hf. }
  cbn [fmap list_fmap fst] in Hnd. apply list.NoDup_cons in Hnd as [Hq Hnd].
  cbn [foldl]. destruct (IH (gc_step now st (q, g)) Hnd) as (I1 & I2).
  assert (Hother : forall f, (q, f) ∈ l -> False).
  { intros f Hf. apply Hq. apply list_elem_of_fmap. by exists (q, f). }
  destruct st as [T G]. unfold gc_step in *. cbn [fst snd] in *.
  destruct (decide (p = q)) as [->|Hne].
  - destruct I2 as [-> ->]; [intros f Hf; exfalso; eauto|]. split.
    + intros f [[= ->]|Hf]%elem_of_cons Hx; [|exfalso; eauto].
      rewrite bool_decide_true by done. cbn [fst snd]. rewrite lookup_delete_eq, lookup_insert_eq.
      simpl. by rewrite bool_decide_true.
    + intros Hno. rewrite bool_decide_false; [done|]. apply Hno. left.
  - assert (Hiff : forall f, (p, f) ∈ (q, g) :: l <-> (p, f) ∈ l).
    { intros f. rewrite elem_of_cons. split; [intros [[= -> ->]|]; done|by right]. }
    split.
    + intros f Hf%Hiff Hx. by apply I1.
    + intros Hno. destruct I2 as [-> ->]; [intros f Hf; apply Hno; by apply Hiff|].
      case_bool_decide; cbn [fst snd]; rewrite ?lookup_delete_ne, ?lookup_insert_ne by done; done.
Qed.

Section iter.
Context `{MI : MapIter} `{!MapIterLaws}.

Lemma elem_of_iter_fwd (m : gmap Prefix ForwardingInfo) p f : (p, f) ∈ iter_fwd m <-> m !! p = Some f.
Proof. rewrite iter_fwd_perm. apply elem_of_map_to_list. Qed.

Lemma elem_of_iter_if (m : gmap string Interface) k i : (k, i) ∈ iter_if m <-> m !! k = Some i.
Proof. rewrite iter_if_perm. apply elem_of_map_to_list. Qed.

Lemma NoDup_iter_fwd (m : gmap Prefix ForwardingInfo) : NoDup ((iter_fwd m).*1).
Proof. rewrite iter_fwd_perm. apply NoDup_fst_map_to_list. Qed.

Lemma gc_tables_lookup now t p :
  (gc_tables now t).1 !! p = gc_keep now (t !! p) /\
  (gc_tables now t).2 !! p = gc_expire now (t !! p).
Proof.
  unfold gc_tables.
  destruct (gc_fold_pointwise now (iter_fwd t) (t, ∅) p (NoDup_iter_fwd t)) as (I1 & I2).
  setoid_rewrite elem_of_iter_fwd in I1. setoid_rewrite elem_of_iter_fwd in I2. cbn [fst snd] in *.
  destruct (t !! p) as [f|] eqn:E.
  - unfold gc_keep, gc_expire. case_bool_decide as Hx.
    + destruct (I1 f) as [-> ->]; [done..|]. simpl. by rewrite bool_decide_true.
    + destruct I2 as [-> ->]; [by intros g [= <-]|]. by rewrite lookup_empty.
  - destruct I2 as [-> ->]; [done|]. by rewrite lookup_empty.
Qed.

End iter.

(** ** Properties of forwarding *)

(** C8. For a destination that is not the node itself, [FindNext] reports "not
    found" only when no route covers it, and otherwise returns the next hop and
    type of a route whose prefix is the longest of all that cover it, whatever
    the order in which the map is iterated. *)
Theorem FindNext_longest `{MI : MapIter} `{L : !MapIterLaws} (n : Node) (dst : Addr) :
  checkDest n dst = false ->
  match FindNext n dst with
  | None => forall p f, forwardingTable n !! p = Some f -> Contains (pre f) dst = false
  | Some (a, t) =>
      exists p f, forwardingTable n !! p = Some f /\ Contains (pre f) dst = true /\
        a = next f /\ t = route_type f /\
        forall q g, forwardingTable n !! q = Some g -> Contains (pre g) dst = true ->
          pBits (pre g) <= pBits (pre f)
  end.
Proof.
  intros Hd. unfold FindNext. rewrite Hd.
  pose proof (lpm_spec (fun '(_, f) => pre f) dst (iter_fwd (forwardingTable n))) as H.
  destruct (lpm _ dst _) as [[p f]|].
  - destruct H as (Hin & HC & Hmax). exists p, f. rewrite elem_of_iter_fwd in Hin.
    repeat split; try done. intros q g Hq HCg. apply (Hmax (q, g)); [by apply elem_of_iter_fwd|done].
  - intros p f Hp. apply (H (p, f)). by apply elem_of_iter_fwd.
Qed.

(** Canonical tables: every route is stored under its own masked prefix, and no
    two interfaces share one. *)
Definition node_canonical (n : Node) : Prop :=
  (forall p f, forwardingTable n !! p = Some f -> pre f = p /\ is_masked p) /\
  (forall k i, interfaces n !! k = Some i -> is_masked (AssignedPrefix (i_cfg i))) /\
  (forall k1 k2 i1 i2, interfaces n !! k1 = Some i1 -> interfaces n !! k2 = Some i2 ->
     AssignedPrefix (i_cfg i1) = AssignedPrefix (i_cfg i2) -> k1 = k2).

Lemma checkDest_perm (M1 M2 : MapIter) (L1 : @MapIterLaws M1) (L2 : @MapIterLaws M2) n dst :
  Addr_wf dst -> node_canonical n -> @checkDest M1 n dst = @checkDest M2 n dst.
Proof.
  intros Ha (_ & Hi & Hinj). unfold checkDest. erewrite lpm_perm; [done|..].
  - rewrite (@iter_if_perm _ L1). symmetry. apply (@iter_if_perm _ L2).
  - done.
  - intros [k i] Hk%elem_of_iter_if. by apply (Hi k).
  - intros [k i] [k' i'] Hk%elem_of_iter_if Hk'%elem_of_iter_if E; try done.
    assert (k = k') as -> by (by eapply Hinj). congruence.
Qed.

(** C32. On canonical tables the decision does not depend on Go's map iteration
    order: any two enumerations of the maps give the same next hop and type. *)
Theorem FindNext_order_independent (M1 M2 : MapIter) (L1 : @MapIterLaws M1) (L2 : @MapIterLaws M2)
    (n : Node) (dst : Addr) :
  Addr_wf dst -> node_canonical n -> @FindNext M1 n dst = @FindNext M2 n dst.
Proof.
  intros Ha Hn. unfold FindNext. rewrite (checkDest_perm M1 M2) by done.
  destruct (checkDest n dst); [done|]. destruct Hn as (Ht & _).
  erewrite lpm_perm; [done|..].
  - rewrite (@iter_fwd_perm _ L1). symmetry. apply (@iter_fwd_perm _ L2).
  - done.
  - intros [p f] Hp%elem_of_iter_fwd. destruct (Ht p f Hp) as [-> ?]. done.
  - intros [p f] [q g] Hp%elem_of_iter_fwd Hq%elem_of_iter_fwd E; try done.
    destruct (Ht p f Hp) as [Ep _], (Ht q g Hq) as [Eq _]. assert (p = q) as -> by congruence.
    congruence.
Qed.

(** ** Witness data: a router with two interfaces *)
Definition ref_iter : MapIter := {|
  iter_fwd := fun m => map_to_list m;
  iter_if := fun m => map_to_list m
|}.
Definition rev_iter : MapIter := {|
  iter_fwd := fun m => reverse (map_to_list m);
  iter_if := fun m => reverse (map_to_list m)
|}.
Lemma ref_iter_laws : @MapIterLaws ref_iter.
Proof. by split. Qed.
Lemma rev_iter_laws : @MapIterLaws rev_iter.
Proof. split; intros; apply reverse_Permutation. Qed.

Definition ip4 (a b c d : Z) : Addr := Addr4 (((a * 256 + b) * 256 + c) * 256 + d).
Definition ex_if0 : InterfaceConfig :=
  mkInterfaceConfig "if0" (ip4 10 0 0 1) (mkPrefix (ip4 10 0 0 0) 24) (mkAddrPort (ip4 127 0 0 1) 5000).
Definition ex_if1 : InterfaceConfig :=
  mkInterfaceConfig "if1" (ip4 10 1 0 1) (mkPrefix (ip4 10 1 0 0) 24) (mkAddrPort (ip4 127 0 0 1) 5001).
Definition ex_nb : NeighborConfig :=
  mkNeighborConfig (ip4 10 1 0 2) (mkAddrPort (ip4 127 0 0 1) 5002) "if1".
Definition ex_config : IPConfig :=
  mkIPConfig [ex_if0; ex_if1] [ex_nb] [] RoutingTypeRIP [ip4 10 1 0 2]
    {[mkPrefix (ip4 0 0 0 0) 0 := ip4 10 1 0 2]}.
Definition ex_node : Node := initial_node ex_config.

Lemma FindNext_longest_witness :
  @checkDest ref_iter ex_node (ip4 8 8 8 8) = false /\
  exists p f, forwardingTable ex_node !! p = Some f /\ Contains (pre f) (ip4 8 8 8 8) = true.
Proof.
  assert (Hd : @checkDest ref_iter ex_node (ip4 8 8 8 8) = false) by (vm_compute; reflexivity).
  split; [done|]. pose proof (@FindNext_longest ref_iter ref_iter_laws ex_node (ip4 8 8 8 8) Hd) as H.
  assert (E : @FindNext ref_iter ex_node (ip4 8 8 8 8) = Some (ip4 10 1 0 2, "S")) by (vm_compute; reflexivity).
  rewrite E in H. destruct H as (p & f & H1 & H2 & _). eauto.
Defined.

(** A check of the canonicity of a concrete node. *)
Definition is_masked_b (p : Prefix) : bool :=
  match pAddr p with
  | Addr4 z => bool_decide (0 <= z < 2 ^ 32 /\ 0 <= pBits p <= 32) && bool_decide (Masked p = p)
  | AddrZero => false
  end.

Lemma is_masked_b_ok p : is_masked_b p = true -> is_masked p.
Proof.
  unfold is_masked_b, is_masked, Prefix_wf. destruct (pAddr p) as [|z]; [done|].
  intros [[H1 H2]%bool_decide_eq_true H3%bool_decide_eq_true]%andb_true_iff. simpl. done.
Qed.

Lemma FindNext_order_independent_witness :
  @FindNext ref_iter ex_node (ip4 8 8 8 8) = @FindNext rev_iter ex_node (ip4 8 8 8 8).
Proof.
  apply (FindNext_order_independent ref_iter rev_iter ref_iter_laws rev_iter_laws); [by vm_compute|].
  assert (Hf : map_Forall (fun p f => pre f = p /\ is_masked_b p = true) (forwardingTable ex_node))
    by (apply (bool_decide_unpack _); vm_compute; exact I).
  assert (Hi : map_Forall (fun _ i => is_masked_b (AssignedPrefix (i_cfg i)) = true) (interfaces ex_node))
    by (apply (bool_decide_unpack _); vm_compute; exact I).
  assert (Hj : map_Forall (fun k1 i1 => map_Forall (fun k2 i2 =>
      AssignedPrefix (i_cfg i1) <> AssignedPrefix (i_cfg i2) \/ k1 = k2) (interfaces ex_node))
      (interfaces ex_node))
    by (apply (bool_decide_unpack _); vm_compute; exact I).
  split; [|split].
  - intros p f H. destruct (Hf p f H) as [? ?]. split; [done|by apply is_masked_b_ok].
  - intros k i H. by eapply is_masked_b_ok, Hi.
  - intros k1 k2 i1 i2 H1 H2 E. by destruct (Hj k1 i1 H1 k2 i2 H2).
Defined.
