(* ===== verification/RipProto.v ===== *)
(** * Properties of the RIP protocol of a node ([pkg/node/node.go])

    The update rule of [protocol200] refined to a distance-vector rule per
    destination, the invariant of the forwarding table over every reachable
    node, split horizon with poisoned reverse and its meaning at the receiver,
    and garbage collection. *)
From S2P Require Import Prelude Rip Netip Ipv4Header Netstack Utils Config Node Routing.
Local Open Scope Z_scope.

(** ** Reachable nodes *)
Section reach.
Context `{NS : Netstack} `{MI : MapIter}.

Inductive node_step : Node -> Node -> Prop :=
  | step_packet now buffer n n' evs :
      handlePackets now n buffer = Ret (n', evs) -> node_step n n'
  | step_gc now n n' evs : gc_round now n = Ret (n', evs) -> node_step n n'
  | step_register n k h : node_step n (RegisterHandler n k h).

Definition reachable (c : IPConfig) (n : Node) : Prop := rtc node_step (initial_node c) n.

(** What no step changes. *)
Definition same_wiring (n n' : Node) : Prop :=
  neighbors n' = neighbors n /\ interfaces n' = interfaces n /\
  neighborTable n' = neighborTable n /\ ripNeighbors n' = ripNeighbors n /\ IpAddr n' = IpAddr n.

Lemma protocol200_inv now n m h n' evs :
  protocol200 now n m h = Ret (n', evs) ->
  same_wiring n n' /\
  (n' = n \/ exists p, ExtractRIP m = Ret p /\
     n' = set_forwardingTable n (update_table now (h_Src h) (Entries p) (forwardingTable n)).1).
Proof.
  unfold protocol200. intros (p & Hp & H)%bind_Ret_inv.
  case_bool_decide.
  - apply bind_Ret_inv in H as (e & _ & [= <- <-]). split; [done|by left].
  - destruct (update_table _ _ _ _) as [t g] eqn:E.
    assert (n' = set_forwardingTable n t) as ->.
    { case_bool_decide; [by injection H|]. by apply bind_Ret_inv in H as (e & _ & [= <- <-]). }
    split; [done|]. right. exists p. by rewrite E.
Qed.

Lemma call_handler_inv now n k m h n' evs :
  call_handler now n k m h = Ret (n', evs) ->
  same_wiring n n' /\
  (n' = n \/ exists p, ExtractRIP m = Ret p /\
     n' = set_forwardingTable n (update_table now (h_Src h) (Entries p) (forwardingTable n)).1).
Proof.
  unfold call_handler. destruct (handlerTable n !! k) as [[| | |f]|]; try done.
  - intros [= <- <-]. split; [done|by left].
  - intros (e & _ & [= <- <-])%bind_Ret_inv. split; [done|by left].
  - apply protocol200_inv.
  - intros [= <- <-]. split; [done|by left].
Qed.

Lemma handlePackets_inv now n b n' evs :
  handlePackets now n b = Ret (n', evs) ->
  same_wiring n n' /\
  (n' = n \/ exists hop es, Forall RipUpdate_wf es /\
     n' = set_forwardingTable n (update_table now hop es (forwardingTable n)).1).
Proof.
  assert (Htriv : same_wiring n n /\ (n = n \/ exists hop es, Forall RipUpdate_wf es /\
     n = set_forwardingTable n (update_table now hop es (forwardingTable n)).1)) by (split; [done|by left]).
  unfold handlePackets. destruct (ParseHeader _) as [h|]; [|by intros [= <- <-]].
  cbv zeta. case_bool_decide; [by intros [= <- <-]|].
  intros (hb & _ & H0)%bind_Ret_inv. revert H0.
  case_bool_decide; [|by intros [= <- <-]].
  destruct (checkDest _ _).
  - intros (m & _ & H1)%bind_Ret_inv. apply call_handler_inv in H1 as [Hw [->|(p & Hp & ->)]]; [done|].
    split; [done|]. right. eexists _, (Entries p). split; [by eapply ExtractRIP_wf|done].
  - case_bool_decide; [|by intros [= <- <-]].
    destruct (FindNext _ _) as [[a t]|]; [|by intros [= <- <-]].
    intros (pl & _ & (d & _ & [= <- <-])%bind_Ret_inv)%bind_Ret_inv. done.
Qed.
End reach.

(** ** Configurations whose prefixes are valid *)
Definition config_ok (c : IPConfig) : Prop :=
  (forall i, i ∈ c_Interfaces c -> Prefix_wf (AssignedPrefix i)) /\
  (forall p a, c_StaticRoutes c !! p = Some a -> Prefix_wf p).

Lemma initial_table_ok c : config_ok c -> table_ok (forwardingTable (initial_node c)).
Proof.
  intros [Hi Hs]. unfold initial_node. cbn [forwardingTable].
  assert (H0 : table_ok (map_imap (fun p a => Some (static_info p a)) (c_StaticRoutes c))).
  { intros p f. rewrite map_lookup_imap. destruct (c_StaticRoutes c !! p) as [a|] eqn:E; [|done].
    simpl. intros [= <-]. split; [done|]. split; [by eapply Hs|].
    unfold INFTY. simpl. split; [lia|auto]. }
  revert H0. generalize (map_imap (fun p a => Some (static_info p a)) (c_StaticRoutes c)).
  induction (c_Interfaces c) as [|i ifs IH]; intros t Ht; [done|]. simpl. apply IH.
  - intros j Hj. apply Hi. by right.
  - intros p f. rewrite lookup_insert. case_decide; [|apply Ht]. subst. intros [= <-].
    split; [done|]. split; [apply Hi; left|]. unfold INFTY. simpl. split; [lia|auto].
Qed.

Section inv.
Context `{NS : Netstack} `{MI : MapIter} `{L : !MapIterLaws}.

Lemma gc_round_inv now n n' evs :
  gc_round now n = Ret (n', evs) ->
  n' = set_forwardingTable n (gc_tables now (forwardingTable n)).1.
Proof.
  unfold gc_round. destruct (gc_tables _ _) as [t g]. case_bool_decide; [by intros [= <- <-]|].
  by intros (e & _ & [= <- <-])%bind_Ret_inv.
Qed.

Lemma gc_table_ok now t : table_ok t -> table_ok (gc_tables now t).1.
Proof.
  intros Ht p f. destruct (gc_tables_lookup now t p) as [-> _].
  unfold gc_keep. destruct (t !! p) as [g|] eqn:E; [|done].
  case_bool_decide; [done|]. intros [= <-]. by apply Ht.
Qed.

Lemma node_step_ok n n' :
  node_step n n' -> same_wiring n n' /\ (table_ok (forwardingTable n) -> table_ok (forwardingTable n')).
Proof.
  intros [now b m m' evs H|now m m' evs H|m k h].
  - apply handlePackets_inv in H as [Hw [->|(hop & es & Hes & ->)]]; [done|].
    split; [done|]. intros Ht. by apply update_table_ok.
  - apply gc_round_inv in H as ->. split; [done|]. by apply gc_table_ok.
  - done.
Qed.

Lemma same_wiring_trans n1 n2 n3 : same_wiring n1 n2 -> same_wiring n2 n3 -> same_wiring n1 n3.
Proof. unfold same_wiring. intros (? & ? & ? & ? & ?) (? & ? & ? & ? & ?). repeat split; congruence. Qed.

Lemma reachable_ok c n :
  reachable c n -> same_wiring (initial_node c) n /\ (config_ok c -> table_ok (forwardingTable n)).
Proof.
  unfold reachable. intros H. remember (initial_node c) as n0 eqn:E0.
  assert (Hgen : same_wiring n0 n /\ (table_ok (forwardingTable n0) -> table_ok (forwardingTable n))).
  { clear E0. induction H as [x|x y z Hs _ [IH1 IH2]]; [done|].
    apply node_step_ok in Hs as [H1 H2]. split; [by eapply same_wiring_trans|auto]. }
  destruct Hgen as [H1 H2]. split; [done|]. intros Hc. apply H2. subst. by apply initial_table_ok.
Qed.
End inv.

(** ** What a node advertises, as the receiver reads it *)
Definition entry_of (dst : Addr) (p : Prefix) (f : ForwardingInfo) : RipUpdate :=
  mkRipUpdate (if bool_decide (dst = next f) then INFTY else u32 (cost f))
    (match pAddr p with Addr4 z => z | AddrZero => 0 end) (cidr_mask (pBits p)).

(** The cost the receiver computes for an advertised route. *)
Definition adv_cost (dst : Addr) (f : ForwardingInfo) : Z :=
  if bool_decide (dst = next f) then INFTY else Z.min (cost f + 1) INFTY.

Lemma rip_entry_for_ok dst p f :
  pre f = p -> Prefix_wf p -> rip_entry_for dst p f = Ret (entry_of dst p f).
Proof.
  intros Hp [Ha Hb]. unfold rip_entry_for, entry_of. destruct p as [[|z] b]; [by destruct Ha|]. simpl in *.
  rewrite Hp. unfold CIDRMask. simpl. rewrite (bool_decide_true (0 <= b <= 32)) by done. simpl.
  by rewrite be_decode32, (u32_small z).
Qed.

Lemma entry_of_wf dst p f : Prefix_wf p -> RipUpdate_wf (entry_of dst p f).
Proof.
  destruct p as [[|z] b]; intros [Ha Hb]; [by destruct Ha|]. unfold RipUpdate_wf, entry_of. cbn [Cost Address Mask pAddr pBits] in *. simpl in Ha.
  pose proof (cidr_mask_range b Hb). pose proof (u32_range (cost f)). unfold INFTY.
  case_bool_decide; lia.
Qed.

Lemma entry_of_prefix dst p f : Prefix_wf p -> entry_prefix (entry_of dst p f) = Some (Masked p).
Proof.
  intros Hp. rewrite entry_prefix_ok by (by apply entry_of_wf).
  destruct p as [[|z] b], Hp as [Ha Hb]; [by destruct Ha|]. unfold entry_of, Masked. simpl in *.
  rewrite popcount_cidr by done. by rewrite bool_decide_true.
Qed.

Lemma entry_of_cost dst p f : 0 <= cost f <= INFTY -> entry_cost (entry_of dst p f) = adv_cost dst f.
Proof.
  intros Hc. unfold entry_cost, entry_of, adv_cost. cbn [Cost]. unfold INFTY in *.
  case_bool_decide; [reflexivity|]. rewrite (u32_small (cost f)) by lia.
  by rewrite u32_small by lia.
Qed.

Lemma rip_entries_for_ok dst l :
  (forall p f, (p, f) ∈ l -> pre f = p /\ Prefix_wf p) ->
  rip_entries_for dst l = Ret (map (fun '(p, f) => entry_of dst p f) l).
Proof.
  induction l as [|[p f] l IH]; intros Hl; [done|]. simpl.
  destruct (Hl p f) as [Hp Hw]; [left|]. rewrite rip_entry_for_ok by done. simpl.
  rewrite IH by (intros q g Hq; apply Hl; by right). done.
Qed.

(** Exactly one announcement per route, for canonical keys. *)
Lemma filter_entries dst l p f :
  NoDup (l.*1) -> (forall q g, (q, g) ∈ l -> is_masked q) -> (p, f) ∈ l ->
  filter (fun e => entry_prefix e = Some p) (map (fun '(q, g) => entry_of dst q g) l) =
    [entry_of dst p f].
Proof.
  induction l as [|[q g] l IH]; intros Hnd Hm Hin; [by apply not_elem_of_nil in Hin|].
  cbn [fmap list_fmap fst] in Hnd. apply list.NoDup_cons in Hnd as [Hq Hnd].
  destruct (Hm q g) as [Hqw Hqm]; [left|]. cbn [map].
  pose proof (entry_of_prefix dst q g Hqw) as He. rewrite Hqm in He.
  apply elem_of_cons in Hin as [[= -> ->]|Hin].
  - rewrite filter_cons_True by assumption. f_equal.
    assert (Hno : forall l', (forall r h, (r, h) ∈ l' -> is_masked r /\ r <> q) ->
      filter (fun e => entry_prefix e = Some q) (map (fun '(r, h) => entry_of dst r h) l') = []).
    { induction l' as [|[r h] l' IH']; intros Hr; [done|]. cbn [map].
      destruct (Hr r h) as [[Hrw Hrm] Hne]; [left|].
      pose proof (entry_of_prefix dst r h Hrw) as Her. rewrite Hrm in Her.
      rewrite filter_cons_False by congruence. apply IH'. intros ? ? ?. eapply Hr. by right. }
    apply Hno. intros r h Hr. split; [eapply Hm; by right|]. intros ->. apply Hq.
    apply list_elem_of_fmap. by exists (q, h).
  - assert (p <> q).
    { intros ->. apply Hq. apply list_elem_of_fmap. by exists (q, f). }
    rewrite filter_cons_False by congruence. apply IH; try done. intros r h Hr. eapply Hm. by right.
Qed.

Section props.
Context `{NS : Netstack} `{MI : MapIter} `{L : !MapIterLaws}.

Lemma advertised_entries dst t :
  adv_ok t -> rip_entries_for dst (iter_fwd t) = Ret (map (fun '(p, f) => entry_of dst p f) (iter_fwd t)).
Proof.
  intros Ht. apply rip_entries_for_ok. intros p f Hp%elem_of_iter_fwd.
  destruct (Ht p f Hp) as (? & ? & _). done.
Qed.

(** C6. A RIP response changes the table destination by destination: for every
    prefix the new route is the distance-vector rule [dv_update] applied, in
    order, to the announcements for that prefix, and nothing else of the node
    changes. *)
Theorem protocol200_refines_dv (now : Z) (n n' : Node) (m : Slice) (h : IPv4Header)
    (pk : RipPacket) (evs : list event) :
  ExtractRIP m = Ret pk -> Command pk <> 1 -> protocol200 now n m h = Ret (n', evs) ->
  same_wiring n n' /\ handlerTable n' = handlerTable n /\
  forall p, forwardingTable n' !! p =
    foldl (fun o e => dv_update now (h_Src h) p (entry_cost e) o) (forwardingTable n !! p)
      (filter (fun e => entry_prefix e = Some p) (Entries pk)).
Proof.
  intros Hm Hc H. unfold protocol200 in H. rewrite Hm in H. cbn [mbind outcome_bind] in H.
  rewrite bool_decide_false in H by done.
  pose proof (fun p => update_fold_pointwise now (h_Src h) (Entries pk) (forwardingTable n, ∅) p) as Hpt.
  fold (update_table now (h_Src h) (Entries pk) (forwardingTable n)) in Hpt. cbn [fst] in Hpt.
  destruct (update_table _ _ _ _) as [t g].
  assert (n' = set_forwardingTable n t) as ->.
  { case_bool_decide; [by injection H|]. by apply bind_Ret_inv in H as (e & _ & [= <- <-]). }
  split; [done|]. split; [done|]. apply Hpt.
Qed.

(** C7. Every node reachable from its configuration by handling packets,
    collecting garbage and registering handlers keeps a well-formed table: each
    route is stored under its own valid prefix, has a known type and a cost
    below infinity. *)
Theorem reachable_table_ok (c : IPConfig) (n : Node) :
  config_ok c -> reachable c n -> table_ok (forwardingTable n).
Proof. intros Hc Hr. by apply (reachable_ok c n). Qed.

(** Every route of a well-formed subset is announced once, masked, with cost one
    more, or infinity when it goes through the receiver; and nothing else is. *)
Lemma rip_entries_split_horizon (dst : Addr) (subset : gmap Prefix ForwardingInfo) :
  adv_ok subset ->
  exists es, rip_entries_for dst (iter_fwd subset) = Ret es /\ Forall RipUpdate_wf es /\
    (forall p f, subset !! p = Some f -> exists e, e ∈ es /\
       entry_prefix e = Some (Masked p) /\ entry_cost e = adv_cost dst f) /\
    (forall e, e ∈ es -> exists p f, subset !! p = Some f /\
       entry_prefix e = Some (Masked p) /\ entry_cost e = adv_cost dst f).
Proof.
  intros Hs. exists (map (fun '(p, f) => entry_of dst p f) (iter_fwd subset)).
  split; [by apply advertised_entries|].
  assert (Hin : forall e, e ∈ map (fun '(p, f) => entry_of dst p f) (iter_fwd subset) <->
    exists p f, subset !! p = Some f /\ e = entry_of dst p f).
  { intros e. rewrite list_elem_of_In, in_map_iff. split.
    - intros ([p f] & <- & Hp%list_elem_of_In%elem_of_iter_fwd). eauto.
    - intros (p & f & Hp & ->). exists (p, f). split; [done|]. by apply list_elem_of_In, elem_of_iter_fwd. }
  split; [|split].
  - apply list.Forall_forall. intros e (p & f & Hp & ->)%Hin. apply entry_of_wf.
    by destruct (Hs p f Hp) as (_ & ? & _).
  - intros p f Hp. destruct (Hs p f Hp) as (_ & ? & ?). exists (entry_of dst p f).
    split; [apply Hin; eauto|]. split; [by apply entry_of_prefix|by apply entry_of_cost].
  - intros e (p & f & Hp & ->)%Hin. destruct (Hs p f Hp) as (_ & ? & ?). exists p, f.
    split; [done|]. split; [by apply entry_of_prefix|by apply entry_of_cost].
Qed.

(** What B's table becomes, destination by destination, when A announces [tA]. *)
Lemma announced_route now A B (tA tB : gmap Prefix ForwardingInfo) es p :
  adv_ok tA -> (forall q g, tA !! q = Some g -> is_masked q) -> rip_entries_for B (iter_fwd tA) = Ret es ->
  (update_table now A es tB).1 !! p =
    match tA !! p with
    | Some f => dv_update now A p (adv_cost B f) (tB !! p)
    | None => tB !! p
    end.
Proof.
  intros HA Hm Hes. rewrite advertised_entries in Hes by done. injection Hes as <-.
  unfold update_table. rewrite update_fold_pointwise. cbn [fst].
  assert (Hmask : forall q g, (q, g) ∈ iter_fwd tA -> is_masked q) by (intros q g Hq%elem_of_iter_fwd; by eapply Hm).
  destruct (tA !! p) as [f|] eqn:Hp.
  - destruct (HA p f Hp) as (_ & Hw & Hc).
    rewrite (filter_entries B _ p f); [|apply NoDup_iter_fwd|done|by apply elem_of_iter_fwd].
    cbn [foldl]. by rewrite entry_of_cost.
  - assert (Hnil : filter (fun e => entry_prefix e = Some p) (map (fun '(q, g) => entry_of B q g) (iter_fwd tA)) = []).
    { apply list.elem_of_nil_inv. intros e [He Hin]%list_elem_of_filter.
      apply list_elem_of_In, in_map_iff in Hin as ([q g] & <- & Hq%list_elem_of_In).
      destruct (Hmask q g Hq) as [Hw Hmq]. rewrite (entry_of_prefix B q g Hw), Hmq in He. injection He as ->.
      apply elem_of_iter_fwd in Hq. congruence. }
    by rewrite Hnil.
Qed.


(** A response can never damage routes through other neighbours: if it
    announces [p] at most once, a route for [p] whose next hop is not the sender
    either stays exactly as it was or is replaced by a strictly cheaper route
    through the sender. *)
Theorem rip_other_routes_safe (now : Z) (hop : Addr) (es : list RipUpdate)
    (t : gmap Prefix ForwardingInfo) (p : Prefix) (f : ForwardingInfo) :
  t !! p = Some f -> next f <> hop ->
  (length (filter (fun e => entry_prefix e = Some p) es) <= 1)%nat ->
  exists f', (update_table now hop es t).1 !! p = Some f' /\
    (f' = f \/ (next f' = hop /\ cost f' < cost f /\ route_type f' = route_type f)).
Proof.
  intros Hp Hn Hl. unfold update_table. rewrite update_fold_pointwise. cbn [fst]. rewrite Hp.
  destruct (filter _ es) as [|e [|]]; cbn [foldl length] in *; [eauto| |lia].
  unfold dv_update. case_bool_decide; [eexists; split; [done|right]; done|].
  rewrite bool_decide_false by done. eauto.
Qed.

(** When the current next hop announces any higher cost, even a finite one,
    the route is removed from the table instead of being updated, so the
    destination becomes unreachable until another announcement arrives. *)
Theorem rip_cost_increase_drops_route (now : Z) (hop : Addr) (e : RipUpdate)
    (t : gmap Prefix ForwardingInfo) (p : Prefix) (f : ForwardingInfo) :
  t !! p = Some f -> next f = hop -> entry_prefix e = Some p -> cost f < entry_cost e ->
  (update_table now hop [e] t).1 !! p = None.
Proof.
  intros Hp Hn He Hc. unfold update_table. cbn [foldl]. rewrite update_entry_same by done.
  cbn [fst]. rewrite Hp. unfold dv_update. rewrite bool_decide_false by lia.
  rewrite bool_decide_true by done. by rewrite bool_decide_false by lia.
Qed.

(** The increment of the announced cost wraps at 32 bits: an announcement
    of cost 2^32-1 counts as cost 0 and replaces any learned route of positive
    cost for that prefix by one through its sender. *)
Theorem rip_cost_overflow (now : Z) (hop : Addr) (addr mask : Z)
    (t : gmap Prefix ForwardingInfo) (p : Prefix) (f : ForwardingInfo) :
  let e := mkRipUpdate (2 ^ 32 - 1) addr mask in
  entry_prefix e = Some p -> t !! p = Some f -> 0 < cost f ->
  exists f', (update_table now hop [e] t).1 !! p = Some f' /\ next f' = hop /\ cost f' = 0.
Proof.
  intros e He Hp Hc. unfold update_table. cbn [foldl]. rewrite update_entry_same by done.
  cbn [fst]. rewrite Hp. change (entry_cost e) with 0. unfold dv_update.
  rewrite bool_decide_true by done. eauto.
Qed.

(** A garbage-collection round removes exactly the learned routes that have
    not been refreshed for 12 seconds; every other route, in particular every
    local and static one, is kept unchanged. *)
Theorem gc_collects (now : Z) (n n' : Node) (evs : list event) :
  gc_round now n = Ret (n', evs) ->
  same_wiring n n' /\
  (forall p f, forwardingTable n !! p = Some f -> expired now f -> forwardingTable n' !! p = None) /\
  (forall p f, forwardingTable n !! p = Some f -> ~ expired now f ->
     forwardingTable n' !! p = Some f) /\
  (forall p, forwardingTable n !! p = None -> forwardingTable n' !! p = None).
Proof.
  intros ->%gc_round_inv. split; [done|].
  assert (H : forall p, forwardingTable (set_forwardingTable n (gc_tables now (forwardingTable n)).1) !! p =
    gc_keep now (forwardingTable n !! p)) by (intros p; apply (gc_tables_lookup now)).
  repeat split; intros p; rewrite H.
  - intros f -> He. simpl. by rewrite bool_decide_true.
  - intros f -> He. simpl. by rewrite bool_decide_false.
  - by intros ->.
Qed.

(** The interface switch does not work: on every reachable node,
    [ToggleInterface] of an existing interface dereferences the nil mutex of the
    copy kept in the map and crashes the node; for any other name it returns an
    error. *)
Theorem ToggleInterface_crashes (c : IPConfig) (n : Node) (name : string) (b : bool) :
  reachable c n ->
  match interfaces n !! name with
  | Some _ => ToggleInterface n name b = Panic "nil pointer dereference"
  | None => exists e, ToggleInterface n name b = Ret (Some e)
  end.
Proof.
  intros Hr. destruct (reachable_ok c n Hr) as [(_ & Hi & _) _].
  assert (Hm : forall k i, interfaces n !! k = Some i -> i_enableMutex i = false).
  { rewrite Hi. unfold initial_node. cbn [interfaces].
    assert (H0 : forall k i, (∅ : gmap string Interface) !! k = Some i -> i_enableMutex i = false)
      by (intros k i; by rewrite lookup_empty).
    revert H0. generalize (∅ : gmap string Interface).
    induction (c_Interfaces c) as [|x xs IH]; intros m Hm; [done|]. simpl. apply IH.
    intros k i. rewrite lookup_insert. case_decide; [by intros [= <-]|apply Hm]. }
  unfold ToggleInterface. destruct (interfaces n !! name) as [i|] eqn:E; [|eauto].
  by rewrite (Hm name i E).
Qed.
End props.

(** ** Witnesses: the router of [ex_config], at work *)
(** A response of its neighbour announcing [10.2.0.0/24] at cost 3. *)
Definition ex_hdr : IPv4Header :=
  mkHeader 4 20 0 36 0 0 0 15 200 0 (ip4 10 1 0 2) (ip4 10 1 0 1) [].
Definition ex_update : RipUpdate := mkRipUpdate 3 (10 * 2 ^ 24 + 2 * 2 ^ 16) (cidr_mask 24).
Definition ex_response : RipPacket := mkRipPacket 2 1 [ex_update].
Definition ex_prefix : Prefix := mkPrefix (ip4 10 2 0 0) 24.
Definition ex_route : ForwardingInfo := mkFwd "R" (ip4 10 1 0 2) ex_prefix 2 0 "".

Lemma protocol200_refines_dv_witness :
  exists n' evs,
    @protocol200 ref_netstack ref_iter 5 ex_node (slice_of (MarshalRIP ex_response)) ex_hdr = Ret (n', evs) /\
    forwardingTable n' !! ex_prefix = Some (mkFwd "R" (ip4 10 1 0 2) ex_prefix 4 5 "").
Proof.
  assert (Hx : ExtractRIP (slice_of (MarshalRIP ex_response)) = Ret ex_response) by (vm_compute; reflexivity).
  destruct (@protocol200 ref_netstack ref_iter 5 ex_node (slice_of (MarshalRIP ex_response)) ex_hdr)
    as [[n' evs]|e|e] eqn:E; [|vm_compute in E; discriminate..].
  exists n', evs. split; [reflexivity|].
  assert (Hc : Command ex_response <> 1) by (vm_compute; discriminate).
  pose proof (@protocol200_refines_dv ref_netstack ref_iter 5 ex_node n' _ ex_hdr ex_response evs
    Hx Hc E) as (_ & _ & H).
  rewrite (H ex_prefix). vm_compute. reflexivity.
Defined.

Lemma ex_config_ok : config_ok ex_config.
Proof.
  split.
  - intros i Hi. unfold ex_config in Hi. cbn [c_Interfaces] in Hi.
    repeat (apply elem_of_cons in Hi as [->|Hi]; [vm_compute; intuition discriminate|]).
    by apply not_elem_of_nil in Hi.
  - intros p a. unfold ex_config. cbn [c_StaticRoutes]. rewrite lookup_singleton_Some.
    intros [<- _]. vm_compute. intuition discriminate.
Qed.

Lemma reachable_table_ok_witness : table_ok (forwardingTable (RegisterHandler ex_node 17 Protocol0)).
Proof.
  refine (@reachable_table_ok ref_netstack ref_iter ref_iter_laws ex_config _ ex_config_ok _).
  unfold reachable. eapply rtc_l; [apply step_register|apply rtc_refl].
Defined.

Definition ex_table : gmap Prefix ForwardingInfo := {[ex_prefix := ex_route]}.

Lemma ex_table_adv : adv_ok ex_table.
Proof.
  intros p f. unfold ex_table. rewrite lookup_singleton_Some. intros [<- <-].
  vm_compute. intuition discriminate.
Qed.


Lemma rip_other_routes_safe_witness :
  exists f', (update_table 7 (ip4 10 9 0 9) [ex_update] ex_table).1 !! ex_prefix = Some f' /\
    (f' = ex_route \/ (next f' = ip4 10 9 0 9 /\ cost f' < 2 /\ route_type f' = "R")).
Proof.
  apply (rip_other_routes_safe 7 (ip4 10 9 0 9) [ex_update] ex_table ex_prefix ex_route).
  - vm_compute. reflexivity.
  - vm_compute. discriminate.
  - apply (bool_decide_unpack _). vm_compute. exact I.
Defined.

Lemma rip_cost_increase_drops_route_witness :
  (update_table 7 (ip4 10 1 0 2) [ex_update] ex_table).1 !! ex_prefix = None.
Proof.
  apply (rip_cost_increase_drops_route 7 (ip4 10 1 0 2) ex_update ex_table ex_prefix ex_route);
    vm_compute; reflexivity.
Defined.

Lemma rip_cost_overflow_witness :
  exists f', (update_table 7 (ip4 10 9 0 9)
     [mkRipUpdate (2 ^ 32 - 1) (10 * 2 ^ 24 + 2 * 2 ^ 16) (cidr_mask 24)] ex_table).1 !! ex_prefix = Some f' /\
    next f' = ip4 10 9 0 9 /\ cost f' = 0.
Proof. apply (rip_cost_overflow 7 (ip4 10 9 0 9) _ _ ex_table ex_prefix ex_route); vm_compute; reflexivity. Defined.

Lemma gc_collects_witness :
  exists n' evs, @gc_round ref_netstack ref_iter 13000000000 (set_forwardingTable ex_node ex_table) = Ret (n', evs) /\
    forwardingTable n' !! ex_prefix = None.
Proof.
  destruct (@gc_round ref_netstack ref_iter 13000000000 (set_forwardingTable ex_node ex_table))
    as [[n' evs]|e|e] eqn:E; [|vm_compute in E; discriminate..].
  exists n', evs. split; [reflexivity|].
  destruct (@gc_collects ref_netstack ref_iter ref_iter_laws _ _ _ _ E) as (_ & H & _).
  apply (H ex_prefix ex_route); [vm_compute; reflexivity|].
  split; [reflexivity|]. vm_compute. discriminate.
Defined.

Lemma ToggleInterface_crashes_witness :
  ToggleInterface ex_node "if1" false = Panic "nil pointer dereference".
Proof.
  exact (@ToggleInterface_crashes ref_netstack ref_iter ref_iter_laws ex_config ex_node "if1" false
    (rtc_refl _ _)).
Defined.
