(* ===== verification/LnxConfig.v ===== *)
(** * The configuration parser ([pkg/lnxconfig/lnxconfig.go])

    [ParseConfig] reads a file line by line; a line's first word chooses the parser
    of a directive.  Text is ASCII, addresses are IPv4 (an IPv6 literal counts as a
    bad address here); [strings.Split] and the part of [fmt.Fscanf] the parsers use
    (literals, spaces and [%s]) are modelled from the Go library. *)
From Stdlib Require Import Strings.Ascii.
From stdpp Require Import pretty.
From S2P Require Import Prelude Netip Netstack Config Node Routing RipProto.
Local Open Scope Z_scope.
#[local] Arguments String.append : simpl nomatch.

(** ** Words of a line *)
(** [strings.Split(s, sep)] for a separator of one byte. *)
Fixpoint Split (sep : ascii) (s : string) : list string :=
  match s with
  | EmptyString => [EmptyString]
  | String c s' =>
      if bool_decide (c = sep) then EmptyString :: Split sep s'
      else match Split sep s' with
           | w :: ws => String c w :: ws
           | [] => [String c EmptyString]
           end
  end.

(** [isSpace] of [fmt/scan.go] on ASCII. *)
Definition isSpace (c : ascii) : bool :=
  let n := N_of_ascii c in
  bool_decide (n = 32)%N || (bool_decide (9 <= n)%N && bool_decide (n <= 13)%N).

Fixpoint SkipSpace (s : string) : string :=
  match s with
  | String c s' => if isSpace c then SkipSpace s' else s
  | EmptyString => EmptyString
  end.

(** The word at the front and what follows it. *)
Fixpoint token (s : string) : string * string :=
  match s with
  | String c s' =>
      if isSpace c then (EmptyString, s) else let '(w, r) := token s' in (String c w, r)
  | EmptyString => (EmptyString, EmptyString)
  end.

(** ** [fmt.Fscanf] with [%s] verbs *)
(** Match the format up to the next verb: a run of spaces matches a run of at least
    one space or the end of the input, other characters match themselves.
    [spaces] says that the format's previous character was a space. *)
Fixpoint advance (spaces : bool) (format input : string) : option (string * string) :=
  match format with
  | EmptyString => Some (EmptyString, input)
  | String f format' =>
      if isSpace f then
        if spaces then advance true format' input
        else match input with
             | EmptyString => advance true format' EmptyString
             | String c _ => if isSpace c then advance true format' (SkipSpace input) else None
             end
      else if bool_decide (f = "%"%char) then Some (format, input)
      else match input with
           | String c input' => if bool_decide (c = f) then advance false format' input' else None
           | EmptyString => None
           end
  end.

(** The strings read by the verbs; [None] for an error.  A round consumes a verb, so
    the format's length is enough fuel. *)
Fixpoint doScanf (fuel : nat) (format input : string) : option (list string) :=
  match fuel with
  | O => Some []
  | S fuel' =>
      match advance false format input with
      | None => None
      | Some (String _ (String "s" format'), input') =>
          match token (SkipSpace input') with
          | (EmptyString, _) => None
          | (w, input'') => ws ← doScanf fuel' format' input''; Some (w :: ws)
          end
      | Some (EmptyString, _) => Some []
      | Some _ => None
      end
  end.
Definition Fscanf (input format : string) : option (list string) :=
  doScanf (S (String.length format)) format input.

(** ** [netip.ParseAddrPort] and [strconv.ParseUint] *)
(** Base 10 and a bound: the value, and whether there was an error (the value is
    then 0 for bad syntax and the maximum when the number is too large). *)
Fixpoint ParseUint_loop (s : string) (maxVal acc : Z) : Z * bool :=
  match s with
  | EmptyString => (acc, true)
  | String c s' =>
      match digit_val c with
      | None => (0, false)
      | Some d =>
          if bool_decide (maxVal < acc * 10 + d) then (maxVal, false)
          else ParseUint_loop s' maxVal (acc * 10 + d)
      end
  end.
Definition ParseUint16 (s : string) : Z * bool :=
  match s with
  | EmptyString => (0, false)
  | _ => ParseUint_loop s 65535 0
  end.

Fixpoint split_last_colon (s : string) : option (string * string) :=
  match s with
  | EmptyString => None
  | String c s' =>
      match split_last_colon s' with
      | Some (a, b) => Some (String c a, b)
      | None => if bool_decide (c = ":"%char) then Some (EmptyString, s') else None
      end
  end.

Definition ParseAddrPort (s : string) : option AddrPort :=
  match split_last_colon s with
  | None => None
  | Some (ip, port) =>
      match ParseUint16 port with
      | (n, true) => a ← ParseAddr ip; Some (mkAddrPort a n)
      | (_, false) => None
      end
  end.

(** ** Directives *)
(** Why a line is refused: an error of [Fscanf], of [netip], a wrong number of
    words or an unknown word, a prefix or address that is not configured. *)
Inductive parse_error : Type :=
  | ScanError
  | AddrError
  | UsageError
  | NotConfigured.

Definition add_interface (c : IPConfig) (i : InterfaceConfig) : IPConfig :=
  mkIPConfig (c_Interfaces c ++ [i]) (c_Neighbors c) (c_OriginatingPrefixes c) (c_RoutingMode c)
    (c_RipNeighbors c) (c_StaticRoutes c).
Definition add_neighbor (c : IPConfig) (n : NeighborConfig) : IPConfig :=
  mkIPConfig (c_Interfaces c) (c_Neighbors c ++ [n]) (c_OriginatingPrefixes c) (c_RoutingMode c)
    (c_RipNeighbors c) (c_StaticRoutes c).
Definition set_mode (c : IPConfig) (m : RoutingMode) : IPConfig :=
  mkIPConfig (c_Interfaces c) (c_Neighbors c) (c_OriginatingPrefixes c) m (c_RipNeighbors c) (c_StaticRoutes c).
Definition add_route (c : IPConfig) (p : Prefix) (a : Addr) : IPConfig :=
  mkIPConfig (c_Interfaces c) (c_Neighbors c) (c_OriginatingPrefixes c) (c_RoutingMode c)
    (c_RipNeighbors c) (<[p := a]> (c_StaticRoutes c)).

Definition addOriginatingPrefix (c : IPConfig) (p : Prefix) : parse_error + IPConfig :=
  if existsb (fun i => bool_decide (AssignedPrefix i = p)) (c_Interfaces c)
  then inr (mkIPConfig (c_Interfaces c) (c_Neighbors c) (c_OriginatingPrefixes c ++ [p]) (c_RoutingMode c)
              (c_RipNeighbors c) (c_StaticRoutes c))
  else inl NotConfigured.

Definition addRipNeighbor (c : IPConfig) (a : Addr) : parse_error + IPConfig :=
  if existsb (fun n => bool_decide (DestAddr n = a)) (c_Neighbors c)
  then inr (mkIPConfig (c_Interfaces c) (c_Neighbors c) (c_OriginatingPrefixes c) (c_RoutingMode c)
              (c_RipNeighbors c ++ [a]) (c_StaticRoutes c))
  else inl NotConfigured.

Definition parseRip (line : string) (c : IPConfig) : outcome (parse_error + IPConfig) :=
  match Split " "%char line with
  | _ :: cmd :: ripTokens =>
      if bool_decide (cmd = "originate") then
        match ripTokens with
        | [] => Panic "index out of range"
        | [w] => if bool_decide (w <> "prefix") then Ret (inl UsageError) else Panic "index out of range"
        | _ :: t :: _ =>
            match ParsePrefix t with
            | None => Ret (inl AddrError)
            | Some p => Ret (addOriginatingPrefix c (Masked p))
            end
        end
      else if bool_decide (cmd = "advertise-to") then
        match ripTokens with
        | [] => Ret (inl UsageError)
        | t :: _ =>
            match ParseAddr t with
            | None => Ret (inl AddrError)
            | Some a => Ret (addRipNeighbor c a)
            end
        end
      else Ret (inl UsageError)
  | _ => Ret (inl UsageError)
  end.

Definition parseRouting (line : string) (c : IPConfig) : outcome (parse_error + IPConfig) :=
  match Split " "%char line with
  | _ :: rt :: _ =>
      if bool_decide (rt = "static") then Ret (inr (set_mode c RoutingTypeStatic))
      else if bool_decide (rt = "rip") then Ret (inr (set_mode c RoutingTypeRIP))
      else Ret (inl UsageError)
  | _ => Ret (inl UsageError)
  end.

Definition parseRoute (line : string) (c : IPConfig) : outcome (parse_error + IPConfig) :=
  match Fscanf line "route %s via %s" with
  | Some [sPrefix; sAddr] =>
      match ParsePrefix sPrefix, ParseAddr sAddr with
      | Some p, Some a => Ret (inr (add_route c p a))
      | _, _ => Ret (inl AddrError)
      end
  | Some _ => Ret (inl UsageError)
  | None => Ret (inl ScanError)
  end.

Definition parseInterface (line : string) (c : IPConfig) : outcome (parse_error + IPConfig) :=
  match Fscanf line "interface %s %s %s" with
  | Some [sName; sPrefix; sBindAddr] =>
      match ParsePrefix sPrefix, ParseAddrPort sBindAddr with
      | Some p, Some ap => Ret (inr (add_interface c (mkInterfaceConfig sName (pAddr p) (Masked p) ap)))
      | _, _ => Ret (inl AddrError)
      end
  | Some _ => Ret (inl UsageError)
  | None => Ret (inl ScanError)
  end.

(** A wrong count is not returned; the addresses left empty are then refused. *)
Definition parseNeighbor (line : string) (c : IPConfig) : outcome (parse_error + IPConfig) :=
  match Fscanf line "neighbor %s at %s via %s" with
  | Some ws =>
      let '(sDestAddr, sUDPAddr, sIfName) :=
        (default EmptyString (ws !! 0%nat), default EmptyString (ws !! 1%nat), default EmptyString (ws !! 2%nat)) in
      match ParseAddr sDestAddr, ParseAddrPort sUDPAddr with
      | Some a, Some ap => Ret (inr (add_neighbor c (mkNeighborConfig a ap sIfName)))
      | _, _ => Ret (inl AddrError)
      end
  | None => Ret (inl ScanError)
  end.

Definition ParseFunc : Type := string -> IPConfig -> outcome (parse_error + IPConfig).

Definition parseCommands (head : string) : option ParseFunc :=
  if bool_decide (head = "interface") then Some parseInterface
  else if bool_decide (head = "neighbor") then Some parseNeighbor
  else if bool_decide (head = "routing") then Some parseRouting
  else if bool_decide (head = "route") then Some parseRoute
  else if bool_decide (head = "rip") then Some parseRip
  else None.

(** ** The file *)
(** One line; blank lines, lines that start with a space and comments are skipped. *)
Definition parse_line (line : string) (c : IPConfig) : outcome (parse_error + IPConfig) :=
  match Split " "%char line with
  | [] => Ret (inr c)
  | EmptyString :: _ => Ret (inr c)
  | (String ch _ as head) :: _ =>
      if bool_decide (ch = "#"%char) then Ret (inr c)
      else match parseCommands head with
           | None => Ret (inl UsageError)
           | Some pf => pf line c
           end
  end.

(** The loop over the scanner's lines; an error carries the line's number. *)
Fixpoint parse_lines (ln : Z) (lines : list string) (c : IPConfig) : outcome (Z * parse_error + IPConfig) :=
  match lines with
  | [] => Ret (inr c)
  | line :: lines' =>
      r ← parse_line line c;
      match r with
      | inl e => Ret (inl (ln + 1, e))
      | inr c' => parse_lines (ln + 1) lines' c'
      end
  end.

Definition empty_config : IPConfig := mkIPConfig [] [] [] RoutingTypeNone [] ∅.

(** [None] stands for a file that cannot be opened. *)
Definition ParseConfig (file : option (list string)) : outcome (option (Z * parse_error) + IPConfig) :=
  match file with
  | None => Ret (inl None)
  | Some lines =>
      r ← parse_lines 0 lines empty_config;
      match r with
      | inl e => Ret (inl (Some e))
      | inr c => Ret (inr c)
      end
  end.

Example parse_ex :
  ParseConfig (Some ["# h1"; "interface if0 10.0.0.1/24 127.0.0.1:5000";
    "neighbor 10.0.0.2 at 127.0.0.1:5001 via if0"; "routing static"; "route 0.0.0.0/0 via 10.0.0.2"]) =
  Ret (inr (mkIPConfig
    [mkInterfaceConfig "if0" (Addr4 167772161) (mkPrefix (Addr4 167772160) 24) (mkAddrPort (Addr4 2130706433) 5000)]
    [mkNeighborConfig (Addr4 167772162) (mkAddrPort (Addr4 2130706433) 5001) "if0"] [] RoutingTypeStatic []
    {[mkPrefix (Addr4 0) 0 := Addr4 167772162]})).
Proof. vm_compute. reflexivity. Qed.

(** ** Words *)
Fixpoint no_space (s : string) : bool :=
  match s with
  | EmptyString => true
  | String c s' => negb (isSpace c) && no_space s'
  end.
(** A non-empty string without spaces. *)
Definition word (s : string) : Prop := s <> EmptyString /\ no_space s = true.

Lemma no_space_app a b : no_space (a +:+ b) = no_space a && no_space b.
Proof. induction a as [|c a IH]; [done|]. simpl. rewrite IH. apply andb_assoc. Qed.

Lemma word_app a b : word a -> no_space b = true -> word (a +:+ b).
Proof.
  intros [H1 H2] Hb. split; [by destruct a|]. rewrite no_space_app, H2, Hb. done.
Qed.

(** What may follow a word: nothing or a space. *)
Definition delimited (s : string) : Prop :=
  match s with EmptyString => True | String c _ => isSpace c = true end.

Lemma token_word w s : no_space w = true -> delimited s -> token (w +:+ s) = (w, s).
Proof.
  intros Hw Hs. induction w as [|c w IH].
  - destruct s as [|c s]; [done|]. simpl in *. by rewrite Hs.
  - simpl in *. apply andb_true_iff in Hw as [Hc%negb_true_iff Hw]. rewrite Hc. by rewrite IH.
Qed.

Lemma SkipSpace_word w s : word w -> SkipSpace (w +:+ s) = w +:+ s.
Proof.
  intros [Hn Hw]. destruct w as [|c w]; [done|]. simpl in *.
  apply andb_true_iff in Hw as [Hc%negb_true_iff _]. by rewrite Hc.
Qed.

Lemma Split_word w : no_space w = true -> Split " "%char w = [w].
Proof.
  induction w as [|c w IH]; [done|]. simpl. intros [Hc Hw]%andb_true_iff.
  rewrite bool_decide_false by (intros ->; done). by rewrite IH.
Qed.

Lemma Split_cons w s : no_space w = true -> Split " "%char (w +:+ (String " "%char s)) = w :: Split " "%char s.
Proof.
  induction w as [|c w IH]; [done|]. simpl. intros [Hc Hw]%andb_true_iff.
  rewrite bool_decide_false by (intros ->; done). by rewrite IH.
Qed.

(** ** Scanning a line that has the shape of its format *)
(** A word of the format: a literal, or a verb with the word it should read. *)
Inductive item : Type := Lit (l : string) | Var (w : string).

Definition item_format (i : item) : string := match i with Lit l => l | Var _ => "%s" end.
Definition item_text (i : item) : string := match i with Lit l => l | Var w => w end.

Fixpoint no_percent (s : string) : bool :=
  match s with
  | EmptyString => true
  | String c s' => negb (bool_decide (c = "%"%char)) && no_percent s'
  end.
Definition item_ok (i : item) : Prop :=
  match i with Lit l => word l /\ no_percent l = true | Var w => word w end.

(** The items, each after a space. *)
Fixpoint spaced (f : item -> string) (its : list item) : string :=
  match its with
  | [] => EmptyString
  | i :: its' => String " "%char (f i +:+ spaced f its')
  end.
Definition vars (its : list item) : list string :=
  omap (fun i => match i with Var w => Some w | Lit _ => None end) its.

Lemma advance_lit b l f s :
  word l -> no_percent l = true -> advance b (l +:+ f) (l +:+ s) = advance false f s.
Proof.
  intros [Hn Hw] Hp. revert b Hn Hw Hp. induction l as [|c l IH]; intros b Hn Hw Hp; [done|].
  simpl in Hw, Hp |- *. apply andb_true_iff in Hw as [Hc%negb_true_iff Hw].
  apply andb_true_iff in Hp as [Hc2%negb_true_iff Hp].
  rewrite Hc, Hc2, bool_decide_true by done. destruct l as [|c' l]; [done|]. by apply IH.
Qed.

Lemma advance_spaced i its :
  item_ok i ->
  advance false (spaced item_format (i :: its)) (spaced item_text (i :: its)) =
    match i with
    | Lit _ => advance false (spaced item_format its) (spaced item_text its)
    | Var w => Some ("%s" +:+ spaced item_format its, w +:+ spaced item_text its)
    end.
Proof.
  intros Hi. cbn [spaced]. change (isSpace " ") with true. cbn [advance].
  change (isSpace " ") with true. cbv iota. cbn [SkipSpace]. change (isSpace " ") with true. cbv iota.
  destruct i as [l|w]; cbn [item_format item_text item_ok] in *.
  - destruct Hi as [Hw Hp]. rewrite SkipSpace_word by done. by apply advance_lit.
  - rewrite SkipSpace_word by done. done.
Qed.

Lemma spaced_delimited f its : delimited (spaced f its).
Proof. by destruct its. Qed.

Lemma scan_spaced fuel its :
  Forall item_ok its -> (length its < fuel)%nat ->
  doScanf fuel (spaced item_format its) (spaced item_text its) = Some (vars its).
Proof.
  intros Hi. revert fuel. induction Hi as [|i its Hi His IH]; intros fuel Hf; [by destruct fuel; [lia|]|].
  destruct fuel as [|fuel]; [simpl in Hf; lia|]. cbn [length] in Hf.
  destruct i as [l|w].
  - change (vars (Lit l :: its)) with (vars its). rewrite <- (IH (S fuel)) by lia. cbn [doScanf]. by rewrite advance_spaced.
  - cbn [doScanf]. rewrite advance_spaced by done. cbv iota. cbn [String.append].
    rewrite SkipSpace_word, token_word by (apply Hi || apply spaced_delimited).
    destruct Hi as [Hn _]. destruct w as [|c w]; [done|].
    change ("%s" +:+ spaced item_format its) with (String "%" (String "s" (spaced item_format its))). cbv iota.
    rewrite IH by lia. done.
Qed.

Lemma string_length_app (a b : string) : String.length (a +:+ b) = (String.length a + String.length b)%nat.
Proof. induction a as [|c a IHa]; [done|]. simpl. by rewrite IHa. Qed.

Lemma length_spaced f its : (length its <= String.length (spaced f its))%nat.
Proof.
  induction its as [|i its IH]; [simpl; lia|]. cbn [spaced String.length length].
  rewrite string_length_app. lia.
Qed.

(** The first word of the format is a literal. *)
Lemma Fscanf_items l its :
  item_ok (Lit l) -> Forall item_ok its ->
  Fscanf (l +:+ spaced item_text its) (l +:+ spaced item_format its) = Some (vars its).
Proof.
  intros [Hw Hp] His.
  assert (Hlen : (length its < S (String.length (l +:+ spaced item_format its)))%nat).
  { rewrite string_length_app. pose proof (length_spaced item_format its). lia. }
  unfold Fscanf. rewrite <- (scan_spaced _ its His Hlen). cbn [doScanf]. by rewrite advance_lit.
Qed.

(** ** What the address parsers return *)
Lemma digit_val_range c d : digit_val c = Some d -> 0 <= d <= 9.
Proof. unfold digit_val. case_bool_decide; [|done]. intros [= <-]. lia. Qed.

Lemma parseIPv4_loop_range s fields v dl fields' v' dl' :
  parseIPv4_loop s fields v dl = Some (fields', v', dl') ->
  0 <= v <= 255 -> Forall (fun o => 0 <= o <= 255) fields ->
  0 <= v' <= 255 /\ Forall (fun o => 0 <= o <= 255) fields'.
Proof.
  revert fields v dl. induction s as [|c s IH]; intros fields v dl; cbn [parseIPv4_loop].
  { by intros [= <- <- <-]. }
  destruct (digit_val c) as [d|] eqn:Hd.
  - apply digit_val_range in Hd. repeat case_bool_decide; try done. intros Hx Hv Hf.
    eapply IH; [exact Hx|lia|done].
  - repeat case_bool_decide; try done. intros Hx Hv Hf. eapply IH; [exact Hx|lia|].
    apply Forall_app. split; [done|]. by apply Forall_singleton.
Qed.

Lemma ParseAddr_wf s a : ParseAddr s = Some a -> Addr_wf a.
Proof.
  unfold ParseAddr, parseIPv4. destruct (parseIPv4_loop s [] 0 0) as [[[fs v] dl]|] eqn:E; [|done].
  case_bool_decide as Hl; [|done]. intros [= <-].
  destruct (parseIPv4_loop_range _ _ _ _ _ _ _ E ltac:(lia) ltac:(constructor)) as [Hv Hf].
  destruct fs as [|a [|b [|c [|]]]]; try done. rewrite !list.Forall_cons in Hf. unfold of_octets. simpl. lia.
Qed.

Lemma atoi_loop_nonneg s acc n : 0 <= acc -> atoi_loop s acc = Some n -> 0 <= n.
Proof.
  revert acc. induction s as [|c s IH]; intros acc Ha; cbn [atoi_loop]; [by intros [= <-]|].
  destruct (digit_val c) as [d|] eqn:Hd; [|done]. apply digit_val_range in Hd. apply IH. lia.
Qed.

Lemma ParsePrefix_wf s p : ParsePrefix s = Some p -> Prefix_wf p.
Proof.
  unfold ParsePrefix. destruct (split_last_slash s) as [[a b]|]; [|done].
  destruct (ParseAddr a) as [ip|] eqn:Ea; [|done]. destruct (parse_bits b) as [bits|] eqn:Eb; [|done].
  intros [= <-]. split; [by eapply ParseAddr_wf|]. simpl. revert Eb. unfold parse_bits.
  destruct b as [|c b]; [done|]. case_bool_decide; [done|].
  destruct (atoi_loop _ 0) as [n|] eqn:En; [|done]. apply atoi_loop_nonneg in En; [|lia].
  case_bool_decide; [|done]. intros [= <-]. lia.
Qed.

Lemma ParseUint_loop_range s m acc n b : ParseUint_loop s m acc = (n, b) -> 0 <= acc <= m -> 0 <= n <= m.
Proof.
  revert acc. induction s as [|c s IH]; intros acc; cbn [ParseUint_loop]; [by intros [= <- <-]|].
  destruct (digit_val c) as [d|] eqn:Hd; [|intros [= <- <-]; lia]. apply digit_val_range in Hd.
  case_bool_decide; [intros [= <- <-]; lia|]. intros Hr Hm. apply (IH _ Hr). lia.
Qed.

Lemma ParseUint16_range s n b : ParseUint16 s = (n, b) -> 0 <= n < 2 ^ 16.
Proof.
  unfold ParseUint16. destruct s as [|c s]; [intros [= <- <-]; lia|].
  intros H%ParseUint_loop_range; lia.
Qed.

Definition AddrPort_wf (ap : AddrPort) : Prop := Addr_wf (apAddr ap) /\ 0 <= apPort ap < 2 ^ 16.

Lemma ParseAddrPort_wf s ap : ParseAddrPort s = Some ap -> AddrPort_wf ap.
Proof.
  unfold ParseAddrPort. destruct (split_last_colon s) as [[ip port]|]; [|done].
  destruct (ParseUint16 port) as [n []] eqn:E; [|done]. apply ParseUint16_range in E.
  destruct (ParseAddr ip) as [a|] eqn:Ea; [|done]. intros [= <-]. split; [by eapply ParseAddr_wf|done].
Qed.

(** ** The type of a configuration *)
(** An interface's prefix is its address's network. *)
Definition interface_wf (i : InterfaceConfig) : Prop :=
  Addr_wf (AssignedIP i) /\ 0 <= pBits (AssignedPrefix i) <= 32 /\
  AssignedPrefix i = Masked (mkPrefix (AssignedIP i) (pBits (AssignedPrefix i))) /\ AddrPort_wf (if_UDPAddr i).

Definition neighbor_wf (n : NeighborConfig) : Prop := Addr_wf (DestAddr n) /\ AddrPort_wf (nb_UDPAddr n).

Record config_wf (c : IPConfig) : Prop := {
  wf_interfaces : Forall interface_wf (c_Interfaces c);
  wf_neighbors : Forall neighbor_wf (c_Neighbors c);
  wf_originating : Forall (fun p => exists i, i ∈ c_Interfaces c /\ AssignedPrefix i = p) (c_OriginatingPrefixes c);
  wf_rip : Forall (fun a => exists n, n ∈ c_Neighbors c /\ DestAddr n = a) (c_RipNeighbors c);
  wf_routes : map_Forall (fun p a => Prefix_wf p /\ Addr_wf a) (c_StaticRoutes c)
}.

Lemma Masked_bits p : Prefix_wf p -> pBits (Masked p) = pBits p.
Proof.
  destruct p as [[|z] b]; intros [Ha Hb]; [done|]. unfold Masked. simpl in *. by rewrite bool_decide_true.
Qed.

Lemma empty_config_wf : config_wf empty_config.
Proof. by constructor; try constructor. Qed.

Lemma add_interface_wf c i : config_wf c -> interface_wf i -> config_wf (add_interface c i).
Proof.
  intros [H1 H2 H3 H4 H5] Hi. constructor; cbn; try done.
  - apply Forall_app. split; [done|]. by apply Forall_singleton.
  - apply (list.Forall_impl _ _ _ H3). intros p (j & Hj & E). exists j. split; [|done]. apply elem_of_app. by left.
Qed.

Lemma add_neighbor_wf c n : config_wf c -> neighbor_wf n -> config_wf (add_neighbor c n).
Proof.
  intros [H1 H2 H3 H4 H5] Hi. constructor; cbn; try done.
  - apply Forall_app. split; [done|]. by apply Forall_singleton.
  - apply (list.Forall_impl _ _ _ H4). intros p (j & Hj & E). exists j. split; [|done]. apply elem_of_app. by left.
Qed.

Lemma addOriginatingPrefix_wf c p c' : config_wf c -> addOriginatingPrefix c p = inr c' -> config_wf c'.
Proof.
  intros [H1 H2 H3 H4 H5]. unfold addOriginatingPrefix. destruct (existsb _ _) eqn:E; [|done]. intros [= <-].
  apply existsb_exists in E as (i & Hi%list_elem_of_In & Hp%bool_decide_eq_true).
  constructor; cbn; try done. apply Forall_app. split; [done|]. apply Forall_singleton. by exists i.
Qed.

Lemma addRipNeighbor_wf c a c' : config_wf c -> addRipNeighbor c a = inr c' -> config_wf c'.
Proof.
  intros [H1 H2 H3 H4 H5]. unfold addRipNeighbor. destruct (existsb _ _) eqn:E; [|done]. intros [= <-].
  apply existsb_exists in E as (i & Hi%list_elem_of_In & Hp%bool_decide_eq_true).
  constructor; cbn; try done. apply Forall_app. split; [done|]. apply Forall_singleton. by exists i.
Qed.

Definition keeps_wf (pf : ParseFunc) : Prop :=
  forall line c c', config_wf c -> pf line c = Ret (inr c') -> config_wf c'.

Lemma parseRip_wf : keeps_wf parseRip.
Proof.
  intros line c c' Hc. unfold parseRip. destruct (Split _ line) as [|w0 [|cmd ts]]; try done.
  case_bool_decide.
  - destruct ts as [|w1 [|t ts]]; [done|by case_bool_decide|]. destruct (ParsePrefix t); [|done].
    intros [= H1]. by eapply addOriginatingPrefix_wf.
  - case_bool_decide; [|done]. destruct ts as [|t ts]; [done|]. destruct (ParseAddr t); [|done].
    intros [= H2]. by eapply addRipNeighbor_wf.
Qed.

Lemma parseRouting_wf : keeps_wf parseRouting.
Proof.
  intros line c c' [H1 H2 H3 H4 H5]. unfold parseRouting. destruct (Split _ line) as [|w0 [|rt ts]]; try done.
  repeat case_bool_decide; try done; intros [= <-]; by constructor.
Qed.

Lemma parseRoute_wf : keeps_wf parseRoute.
Proof.
  intros line c c' [H1 H2 H3 H4 H5]. unfold parseRoute. destruct (Fscanf _ _) as [[|a [|b [|]]]|]; try done.
  destruct (ParsePrefix a) as [p|] eqn:Ep; [|done]. destruct (ParseAddr b) as [ad|] eqn:Ea; [|done].
  intros [= <-]. constructor; cbn; try done. apply map_Forall_insert_2; [|done].
  split; [by eapply ParsePrefix_wf|by eapply ParseAddr_wf].
Qed.

Lemma parseInterface_wf : keeps_wf parseInterface.
Proof.
  intros line c c' Hc. unfold parseInterface. destruct (Fscanf _ _) as [[|a [|b [|u [|]]]]|]; try done.
  destruct (ParsePrefix b) as [p|] eqn:Ep; [|done]. destruct (ParseAddrPort u) as [ap|] eqn:Ea; [|done].
  intros [= <-]. apply add_interface_wf; [done|]. apply ParsePrefix_wf in Ep. apply ParseAddrPort_wf in Ea.
  unfold interface_wf. cbn. rewrite Masked_bits by done. destruct p as [pa pb]. destruct Ep.
  split; [done|]. split; [done|]. by split.
Qed.

Lemma parseNeighbor_wf : keeps_wf parseNeighbor.
Proof.
  intros line c c' Hc. unfold parseNeighbor. destruct (Fscanf _ _) as [ws|]; [|done].
  destruct (ParseAddr _) as [a|] eqn:Ea; [|done]. destruct (ParseAddrPort _) as [ap|] eqn:Eu; [|done].
  intros [= <-]. apply add_neighbor_wf; [done|]. split; [by eapply ParseAddr_wf|by eapply ParseAddrPort_wf].
Qed.

Lemma parse_line_wf : keeps_wf parse_line.
Proof.
  intros line c c' Hc. unfold parse_line. destruct (Split _ line) as [|[|ch head] ts]; try by intros [= <-].
  case_bool_decide; [by intros [= <-]|]. unfold parseCommands.
  repeat case_bool_decide; try done; [by apply parseInterface_wf|by apply parseNeighbor_wf|
    by apply parseRouting_wf|by apply parseRoute_wf|by apply parseRip_wf].
Qed.

Lemma parse_lines_wf ln lines c c' : config_wf c -> parse_lines ln lines c = Ret (inr c') -> config_wf c'.
Proof.
  revert ln c. induction lines as [|line lines IH]; intros ln c Hc; cbn [parse_lines]; [by intros [= <-]|].
  intros ([e|c1] & H1 & H2)%bind_Ret_inv; [done|]. eapply IH; [|exact H2]. by eapply parse_line_wf.
Qed.

(** ** Printing a configuration *)
Definition print_prefix (p : Prefix) : string := Addr_String (pAddr p) +:+ ("/" +:+ fmt_d (pBits p)).
Definition print_addrport (ap : AddrPort) : string := Addr_String (apAddr ap) +:+ (":" +:+ fmt_d (apPort ap)).

Definition print_interface (i : InterfaceConfig) : string :=
  "interface" +:+ spaced item_text
    [Var (if_Name i); Var (print_prefix (mkPrefix (AssignedIP i) (pBits (AssignedPrefix i))));
     Var (print_addrport (if_UDPAddr i))].
Definition print_neighbor (n : NeighborConfig) : string :=
  "neighbor" +:+ spaced item_text
    [Var (Addr_String (DestAddr n)); Lit "at"; Var (print_addrport (nb_UDPAddr n)); Lit "via"; Var (InterfaceName n)].
Definition print_mode (m : RoutingMode) : list string :=
  match m with
  | RoutingTypeNone => []
  | RoutingTypeStatic => ["routing static"]
  | RoutingTypeRIP => ["routing rip"]
  end.
Definition print_originate (p : Prefix) : string :=
  "rip" +:+ spaced item_text [Lit "originate"; Lit "prefix"; Var (print_prefix p)].
Definition print_rip (a : Addr) : string :=
  "rip" +:+ spaced item_text [Lit "advertise-to"; Var (Addr_String a)].
Definition print_route (r : Prefix * Addr) : string :=
  "route" +:+ spaced item_text [Var (print_prefix r.1); Lit "via"; Var (Addr_String r.2)].

Definition print_config (c : IPConfig) : list string :=
  map print_interface (c_Interfaces c) ++ map print_neighbor (c_Neighbors c) ++ print_mode (c_RoutingMode c) ++
  map print_originate (c_OriginatingPrefixes c) ++ map print_rip (c_RipNeighbors c) ++
  map print_route (map_to_list (c_StaticRoutes c)).

(** *** Printed values are words and are read back *)
Lemma digit_char r : (r < 10)%N -> digit_val (pretty_N_char r) = Some (Z.of_N r).
Proof.
  intros Hr. assert (r = 0 \/ r = 1 \/ r = 2 \/ r = 3 \/ r = 4 \/ r = 5 \/ r = 6 \/ r = 7 \/ r = 8 \/ r = 9)%N as H by lia.
  by repeat destruct H as [->|H]; subst.
Qed.

(** The digits of a positive number: what [ParseUint] makes of them. *)
Lemma pretty_go_spec x :
  (x <> 0)%N ->
  exists t, (forall s, pretty_N_go x s = t +:+ s) /\ all_digits t = true /\ t <> EmptyString /\
    forall m acc s, 0 <= acc -> acc * 10 ^ Z.of_nat (String.length t) + Z.of_N x <= m ->
      ParseUint_loop (t +:+ s) m acc = ParseUint_loop s m (acc * 10 ^ Z.of_nat (String.length t) + Z.of_N x).
Proof.
  induction (N.lt_wf_0 x) as [x _ IH].
  intros Hx. pose proof (digit_char (x mod 10) ltac:(apply N.mod_lt; lia)) as Hd.
  assert (Hdiv : x = (10 * (x / 10) + x mod 10)%N) by (apply N.div_mod; lia).
  pose proof (N.mod_lt x 10 ltac:(lia)) as Hmod.
  assert (Hz : exists q r, Z.of_N (x / 10) = q /\ Z.of_N (x mod 10) = r /\ Z.of_N x = 10 * q + r /\ 0 <= q /\ 0 <= r < 10).
  { exists (Z.of_N (x / 10)), (Z.of_N (x mod 10)). rewrite N2Z.inj_div, N2Z.inj_mod. change (Z.of_N 10) with 10.
    Z.div_mod_to_equations. lia. }
  destruct Hz as (q & r & Hq & Hr & Hxz & Hq0 & Hr0). rewrite Hr in Hd.
  destruct (decide (x / 10 = 0)%N) as [E|E].
  - exists (String (pretty_N_char (x mod 10)) EmptyString). split; [|split; [|split; [done|]]].
    + intros s. rewrite pretty_N_go_step by lia. by rewrite E, pretty_N_go_0.
    + simpl. by rewrite Hd.
    + intros m acc s Ha Hm. change (String (pretty_N_char (x mod 10)) "" +:+ s) with (String (pretty_N_char (x mod 10)) s).
      cbn [ParseUint_loop String.length] in *. rewrite Hd.
      change (10 ^ Z.of_nat 1) with 10 in *. rewrite Hxz in *. assert (q = 0) as -> by (rewrite <- Hq, E; done).
      rewrite bool_decide_false by lia. f_equal; lia.
  - destruct (IH (x / 10)%N) as (t & H1 & H2 & H3 & H4); [apply N.div_lt; lia|done|].
    exists (t +:+ String (pretty_N_char (x mod 10)) EmptyString). split; [|split; [|split]].
    + intros s. rewrite pretty_N_go_step by lia. rewrite H1, string_app_assoc. done.
    + clear -H2 Hd. induction t as [|c t IHt]; simpl in *; [by rewrite Hd|]. by destruct (digit_val c); [apply IHt|].
    + by destruct t.
    + intros m acc s Ha Hm. rewrite string_length_app in *. cbn [String.length] in *.
      rewrite Nat2Z.inj_add, Z.pow_add_r in * by lia. change (10 ^ Z.of_nat 1) with 10 in *.
      pose proof (Z.pow_pos_nonneg 10 (Z.of_nat (String.length t)) ltac:(lia) ltac:(lia)).
      pose proof (Z.mul_nonneg_nonneg acc (10 ^ Z.of_nat (String.length t)) Ha ltac:(lia)).
      rewrite Hq in H4. rewrite Hxz in *. clear -H4 Hd Ha Hm H H0 Hq0 Hr0.
      rewrite string_app_assoc, H4 by lia.
      change (String (pretty_N_char (x mod 10)) "" +:+ s) with (String (pretty_N_char (x mod 10)) s).
      cbn [ParseUint_loop]. rewrite Hd.
      rewrite bool_decide_false by lia. f_equal. lia.
Qed.

Lemma digit_not_space c d : digit_val c = Some d -> isSpace c = false /\ c <> ":"%char.
Proof.
  unfold digit_val, isSpace. case_bool_decide as H; [|done]. intros _. split.
  - rewrite (bool_decide_false (N_of_ascii c = 32)%N), (bool_decide_false (N_of_ascii c <= 13)%N) by lia.
    by rewrite andb_false_r.
  - intros ->. vm_compute in H. destruct H as [_ H]. by apply H.
Qed.

Lemma digits_text t :
  all_digits t = true -> no_space t = true /\ split_last_colon t = None.
Proof.
  induction t as [|c t IH]; [done|]. simpl. destruct (digit_val c) as [d|] eqn:E; [|done]. intros Ht.
  destruct (IH Ht) as [-> ->]. apply digit_not_space in E as [-> Hc]. split; [done|].
  by rewrite bool_decide_false.
Qed.

Lemma fmt_d_digits n : 0 <= n < 65536 -> all_digits (fmt_d n) = true.
Proof.
  intros Hn. destruct (decide (n = 0)) as [->|Hne]; [by vm_compute|].
  destruct (pretty_go_spec (Z.to_N n)) as (t & H1 & H2 & _); [lia|].
  unfold fmt_d, pretty, pretty_N. rewrite decide_False by lia. rewrite H1.
  assert (Hnil : t +:+ "" = t) by (clear; induction t; simpl; congruence). by rewrite Hnil.
Qed.

Lemma num_text n : 0 <= n < 65536 ->
  word (fmt_d n) /\ split_last_colon (fmt_d n) = None /\ ParseUint16 (fmt_d n) = (n, true).
Proof.
  intros Hn. destruct (decide (n = 0)) as [->|Hne]; [by vm_compute|].
  destruct (pretty_go_spec (Z.to_N n)) as (t & H1 & H2 & H3 & H4); [lia|].
  assert (E : fmt_d n = t).
  { unfold fmt_d, pretty, pretty_N. rewrite decide_False by lia. rewrite H1.
    clear. induction t; simpl; congruence. }
  rewrite E. destruct (digits_text t H2) as [H5 H6]. split; [done|]. split; [done|].
  specialize (H4 65535 0 EmptyString ltac:(lia) ltac:(lia)).
  assert (Hnil : t +:+ "" = t) by (clear; induction t; simpl; congruence).
  rewrite Hnil in H4. unfold ParseUint16. destruct t as [|c t]; [done|]. rewrite H4. cbn [ParseUint_loop].
  f_equal. lia.
Qed.

Lemma word_cons c s : isSpace c = false -> no_space s = true -> word (String c s).
Proof. intros H1 H2. split; [done|]. simpl. by rewrite H1. Qed.

Lemma word_Addr a : Addr_wf a -> word (Addr_String a).
Proof.
  destruct a as [|z]; [done|]. intros Hz. cbn [Addr_String]. unfold dotted.
  assert (Ho : forall i, 0 <= i -> word (fmt_d (octet z i))).
  { intros i Hi. apply num_text. pose proof (octet_range z i Hi). lia. }
  apply word_app; [apply Ho; lia|]. rewrite !no_space_app.
  rewrite (proj2 (Ho 2 ltac:(lia))), (proj2 (Ho 1 ltac:(lia))), (proj2 (Ho 0 ltac:(lia))). done.
Qed.

Lemma word_prefix p : Addr_wf (pAddr p) -> 0 <= pBits p <= 32 -> word (print_prefix p).
Proof.
  intros Ha Hb. apply word_app; [by apply word_Addr|]. rewrite no_space_app.
  destruct (num_text (pBits p)) as [[_ ->] _]; [lia|done].
Qed.

Lemma word_addrport ap : AddrPort_wf ap -> word (print_addrport ap).
Proof.
  intros [Ha Hb]. apply word_app; [by apply word_Addr|]. rewrite no_space_app.
  destruct (num_text (apPort ap)) as [[_ ->] _]; [lia|done].
Qed.

Lemma ParseAddr_text a : Addr_wf a -> ParseAddr (Addr_String a) = Some a.
Proof. destruct a as [|z]; [done|]. intros Hz. apply parseIPv4_dotted, Hz. Qed.

Lemma ParsePrefix_print p : Addr_wf (pAddr p) -> 0 <= pBits p <= 32 -> ParsePrefix (print_prefix p) = Some p.
Proof. destruct p as [[|z] b]; [done|]. intros Ha Hb. by apply ParsePrefix_text. Qed.

Lemma split_last_colon_app a b :
  split_last_colon b = None -> split_last_colon (a +:+ (":" +:+ b)) = Some (a, b).
Proof.
  intros Hb. induction a as [|c a IH]; simpl.
  - by rewrite Hb.
  - simpl in IH. by rewrite IH.
Qed.

Lemma ParseAddrPort_print ap : AddrPort_wf ap -> ParseAddrPort (print_addrport ap) = Some ap.
Proof.
  destruct ap as [a n]. intros [Ha Hn]. unfold ParseAddrPort, print_addrport. cbn [apAddr apPort] in *.
  destruct (num_text n) as (_ & H1 & H2); [lia|]. rewrite split_last_colon_app, H2, ParseAddr_text by done. done.
Qed.

Lemma Split_spaced w its :
  no_space w = true -> Forall item_ok its ->
  Split " "%char (w +:+ spaced item_text its) = w :: map item_text its.
Proof.
  intros Hw Hi. revert w Hw. induction Hi as [|i its Hi _ IH]; intros w Hw.
  - assert (Hnil : forall s : string, s +:+ "" = s) by (induction s; simpl; congruence).
    cbn [spaced]. rewrite Hnil. by apply Split_word.
  - cbn [spaced]. rewrite Split_cons by done. cbn [map]. f_equal. apply IH.
    destruct i; cbn in Hi; apply Hi.
Qed.

(** *** Lines are read back *)
Definition names_ok (c : IPConfig) : Prop :=
  Forall (fun i => word (if_Name i)) (c_Interfaces c) /\ Forall (fun n => word (InterfaceName n)) (c_Neighbors c).

Lemma lit_ok l : no_space l = true -> no_percent l = true -> l <> EmptyString -> item_ok (Lit l).
Proof. intros H1 H2 H3. by repeat split. Qed.

(** A line whose first word names a directive goes to that directive's parser. *)
Lemma parse_line_directive head its c pf :
  word head -> Forall item_ok its -> parseCommands head = Some pf ->
  (forall ch s, head = String ch s -> ch <> "#"%char) ->
  parse_line (head +:+ spaced item_text its) c = pf (head +:+ spaced item_text its) c.
Proof.
  intros [Hn Hw] Hi Hp Hc. unfold parse_line. rewrite Split_spaced by done.
  destruct head as [|ch s]; [done|]. rewrite bool_decide_false by (by eapply Hc). by rewrite Hp.
Qed.

Ltac directive pf := rewrite (parse_line_directive _ _ _ pf); [|by split|done|done|by intros ? ? [= <- _]].

Lemma parse_print_interface i c :
  interface_wf i -> word (if_Name i) -> parse_line (print_interface i) c = Ret (inr (add_interface c i)).
Proof.
  intros (Ha & Hb & Hm & Hu) Hn. set (p := mkPrefix (AssignedIP i) (pBits (AssignedPrefix i))).
  assert (Hits : Forall item_ok [Var (if_Name i); Var (print_prefix p); Var (print_addrport (if_UDPAddr i))]).
  { rewrite !list.Forall_cons. split; [done|]. split; [by apply word_prefix|]. split; [by apply word_addrport|done]. }
  unfold print_interface. fold p. directive parseInterface.
  unfold parseInterface.
  change "interface %s %s %s" with ("interface" +:+ spaced item_format
    [Var (if_Name i); Var (print_prefix p); Var (print_addrport (if_UDPAddr i))]).
  rewrite Fscanf_items by (done || by apply lit_ok). cbn [vars omap list_omap].
  rewrite ParsePrefix_print, ParseAddrPort_print by done. unfold p. rewrite <- Hm. by destruct i.
Qed.

Lemma parse_print_neighbor n c :
  neighbor_wf n -> word (InterfaceName n) -> parse_line (print_neighbor n) c = Ret (inr (add_neighbor c n)).
Proof.
  intros [Ha Hu] Hn.
  set (its := [Var (Addr_String (DestAddr n)); Lit "at"; Var (print_addrport (nb_UDPAddr n)); Lit "via";
    Var (InterfaceName n)]).
  assert (Hits : Forall item_ok its).
  { unfold its. rewrite !list.Forall_cons. split; [by apply word_Addr|]. split; [by apply lit_ok|].
    split; [by apply word_addrport|]. split; [by apply lit_ok|]. by split. }
  unfold print_neighbor. fold its.
  directive parseNeighbor.
  unfold parseNeighbor. change "neighbor %s at %s via %s" with ("neighbor" +:+ spaced item_format its).
  rewrite Fscanf_items by (done || by apply lit_ok). cbn.
  rewrite ParseAddr_text, ParseAddrPort_print by done. by destruct n.
Qed.

Lemma parse_print_route p a c :
  Prefix_wf p -> Addr_wf a -> parse_line (print_route (p, a)) c = Ret (inr (add_route c p a)).
Proof.
  intros [Hp Hb] Ha. set (its := [Var (print_prefix p); Lit "via"; Var (Addr_String a)]).
  assert (Hits : Forall item_ok its).
  { unfold its. rewrite !list.Forall_cons. split; [by apply word_prefix|]. split; [by apply lit_ok|].
    split; [by apply word_Addr|done]. }
  unfold print_route. cbn [fst snd]. fold its.
  directive parseRoute.
  unfold parseRoute. change "route %s via %s" with ("route" +:+ spaced item_format its).
  rewrite Fscanf_items by (done || by apply lit_ok). cbn [vars omap list_omap its].
  by rewrite ParsePrefix_print, ParseAddr_text by done.
Qed.

Lemma parse_print_originate p i c :
  interface_wf i -> i ∈ c_Interfaces c -> AssignedPrefix i = p ->
  parse_line (print_originate p) c = Ret (addOriginatingPrefix c p).
Proof.
  intros (Ha & Hb & Hm & _) Hi <-. set (q := AssignedPrefix i) in *.
  assert (Hq : is_masked q) by (rewrite Hm; by apply Masked_is_masked).
  destruct Hq as [[Hqa Hqb] Hqm].
  set (its := [Lit "originate"; Lit "prefix"; Var (print_prefix q)]).
  assert (Hits : Forall item_ok its).
  { unfold its. rewrite !list.Forall_cons. split; [by apply lit_ok|]. split; [by apply lit_ok|].
    split; [by apply word_prefix|done]. }
  unfold print_originate. fold its.
  directive parseRip.
  unfold parseRip. rewrite Split_spaced by done. cbn [map item_text its].
  change (bool_decide ("originate" = "originate")) with true. cbv iota.
  by rewrite ParsePrefix_print, Hqm by done.
Qed.

Lemma parse_print_rip a c :
  Addr_wf a -> parse_line (print_rip a) c = Ret (addRipNeighbor c a).
Proof.
  intros Ha. set (its := [Lit "advertise-to"; Var (Addr_String a)]).
  assert (Hits : Forall item_ok its).
  { unfold its. rewrite !list.Forall_cons. split; [by apply lit_ok|]. split; [by apply word_Addr|done]. }
  unfold print_rip. fold its.
  directive parseRip.
  unfold parseRip. rewrite Split_spaced by done. cbn [map item_text its].
  change (bool_decide ("advertise-to" = "originate")) with false.
  change (bool_decide ("advertise-to" = "advertise-to")) with true. cbv iota.
  by rewrite ParseAddr_text by done.
Qed.

(** Reading [lines] takes the configuration [c] to [c']. *)
Definition reads (lines : list string) (c c' : IPConfig) : Prop :=
  forall ln rest, parse_lines ln (lines ++ rest) c = parse_lines (ln + Z.of_nat (length lines)) rest c'.

Lemma reads_nil c : reads [] c c.
Proof. intros ln rest. cbn. by rewrite Z.add_0_r. Qed.

Lemma reads_one line c c' : parse_line line c = Ret (inr c') -> reads [line] c c'.
Proof. intros H ln rest. cbn [app parse_lines]. by rewrite H. Qed.

Lemma reads_app l1 l2 c1 c2 c3 : reads l1 c1 c2 -> reads l2 c2 c3 -> reads (l1 ++ l2) c1 c3.
Proof. intros H1 H2 ln rest. rewrite <- app_assoc, H1, H2. f_equal. rewrite length_app. lia. Qed.

(** A list of printed values, read one after the other. *)
Lemma reads_map {A} (pr : A -> string) (add : IPConfig -> A -> IPConfig) (P : IPConfig -> Prop) l c :
  (forall c x, x ∈ l -> P c -> parse_line (pr x) c = Ret (inr (add c x)) /\ P (add c x)) ->
  P c -> reads (map pr l) c (foldl add c l).
Proof.
  revert c. induction l as [|x l IH]; intros c H Hc; [apply reads_nil|].
  destruct (H c x) as [H1 H2]; [left|done|].
  apply (reads_app [pr x] _ _ (add c x)); [by apply reads_one|].
  apply IH; [|done]. intros c' y Hy. apply H. by right.
Qed.

Lemma reads_ParseConfig lines c : reads lines empty_config c -> ParseConfig (Some lines) = Ret (inr c).
Proof. intros H. unfold ParseConfig. specialize (H 0 []). rewrite app_nil_r in H. by rewrite H. Qed.

(** What the folds of the parsed values build. *)
Lemma foldl_add_interface l c :
  foldl add_interface c l = mkIPConfig (c_Interfaces c ++ l) (c_Neighbors c) (c_OriginatingPrefixes c)
    (c_RoutingMode c) (c_RipNeighbors c) (c_StaticRoutes c).
Proof.
  revert c. induction l as [|i l IH]; intros c; [rewrite app_nil_r; by destruct c|].
  cbn [foldl]. rewrite IH. cbn. by rewrite <- app_assoc.
Qed.

Lemma foldl_add_neighbor l c :
  foldl add_neighbor c l = mkIPConfig (c_Interfaces c) (c_Neighbors c ++ l) (c_OriginatingPrefixes c)
    (c_RoutingMode c) (c_RipNeighbors c) (c_StaticRoutes c).
Proof.
  revert c. induction l as [|i l IH]; intros c; [rewrite app_nil_r; by destruct c|].
  cbn [foldl]. rewrite IH. cbn. by rewrite <- app_assoc.
Qed.

Definition add_originating (c : IPConfig) (p : Prefix) : IPConfig :=
  mkIPConfig (c_Interfaces c) (c_Neighbors c) (c_OriginatingPrefixes c ++ [p]) (c_RoutingMode c)
    (c_RipNeighbors c) (c_StaticRoutes c).
Definition add_rip (c : IPConfig) (a : Addr) : IPConfig :=
  mkIPConfig (c_Interfaces c) (c_Neighbors c) (c_OriginatingPrefixes c) (c_RoutingMode c)
    (c_RipNeighbors c ++ [a]) (c_StaticRoutes c).

Lemma foldl_add_originating l c :
  foldl add_originating c l = mkIPConfig (c_Interfaces c) (c_Neighbors c) (c_OriginatingPrefixes c ++ l)
    (c_RoutingMode c) (c_RipNeighbors c) (c_StaticRoutes c).
Proof.
  revert c. induction l as [|i l IH]; intros c; [rewrite app_nil_r; by destruct c|].
  cbn [foldl]. rewrite IH. cbn. by rewrite <- app_assoc.
Qed.

Lemma foldl_add_rip l c :
  foldl add_rip c l = mkIPConfig (c_Interfaces c) (c_Neighbors c) (c_OriginatingPrefixes c)
    (c_RoutingMode c) (c_RipNeighbors c ++ l) (c_StaticRoutes c).
Proof.
  revert c. induction l as [|i l IH]; intros c; [rewrite app_nil_r; by destruct c|].
  cbn [foldl]. rewrite IH. cbn. by rewrite <- app_assoc.
Qed.

Definition add_route_pair (c : IPConfig) (r : Prefix * Addr) : IPConfig := add_route c r.1 r.2.

Lemma foldl_add_route l c :
  foldl add_route_pair c l = mkIPConfig (c_Interfaces c) (c_Neighbors c) (c_OriginatingPrefixes c)
    (c_RoutingMode c) (c_RipNeighbors c) (foldl (fun m r => <[r.1 := r.2]> m) (c_StaticRoutes c) l).
Proof. revert c. induction l as [|r l IH]; intros c; [by destruct c|]. cbn [foldl]. by rewrite IH. Qed.

Lemma foldl_insert_union (l : list (Prefix * Addr)) (m : gmap Prefix Addr) :
  NoDup l.*1 -> foldl (fun m r => <[r.1 := r.2]> m) m l = list_to_map l ∪ m.
Proof.
  revert m. induction l as [|[p a] l IH]; intros m; [cbn; by rewrite (left_id_L ∅ (∪))|].
  cbn [fmap list_fmap fst]. intros [Hp Hl]%list.NoDup_cons. cbn [foldl fst snd]. rewrite IH by done.
  cbn [list_to_map foldr fst snd]. rewrite <- insert_union_r, insert_union_l; [done|].
  by apply not_elem_of_list_to_map_1.
Qed.

Lemma parse_print (c : IPConfig) :
  config_wf c -> names_ok c -> ParseConfig (Some (print_config c)) = Ret (inr c).
Proof.
  intros [W1 W2 W3 W4 W5] [N1 N2]. rewrite list.Forall_forall in W1. rewrite list.Forall_forall in W2. rewrite list.Forall_forall in W3.
  rewrite list.Forall_forall in W4. rewrite list.Forall_forall in N1. rewrite list.Forall_forall in N2.
  apply reads_ParseConfig. unfold print_config.
  set (c1 := mkIPConfig (c_Interfaces c) [] [] RoutingTypeNone [] ∅).
  set (c2 := mkIPConfig (c_Interfaces c) (c_Neighbors c) [] RoutingTypeNone [] ∅).
  set (c3 := mkIPConfig (c_Interfaces c) (c_Neighbors c) [] (c_RoutingMode c) [] ∅).
  set (c4 := mkIPConfig (c_Interfaces c) (c_Neighbors c) (c_OriginatingPrefixes c) (c_RoutingMode c) [] ∅).
  set (c5 := mkIPConfig (c_Interfaces c) (c_Neighbors c) (c_OriginatingPrefixes c) (c_RoutingMode c)
    (c_RipNeighbors c) ∅).
  set (same := fun d => c_Interfaces d = c_Interfaces c /\ c_Neighbors d = c_Neighbors c).
  apply (reads_app _ _ _ c1); [|apply (reads_app _ _ _ c2); [|apply (reads_app _ _ _ c3);
    [|apply (reads_app _ _ _ c4); [|apply (reads_app _ _ _ c5)]]]].
  - replace c1 with (foldl add_interface empty_config (c_Interfaces c)) by (by rewrite foldl_add_interface).
    apply (reads_map _ _ (fun _ => True)); [|done]. intros d i Hi _. split; [|done].
    by apply parse_print_interface; [apply W1|apply N1].
  - replace c2 with (foldl add_neighbor c1 (c_Neighbors c)) by (by rewrite foldl_add_neighbor).
    apply (reads_map _ _ (fun _ => True)); [|done]. intros d i Hi _. split; [|done].
    by apply parse_print_neighbor; [apply W2|apply N2].
  - unfold c3. destruct (c_RoutingMode c); [apply reads_nil|by apply reads_one..].
  - replace c4 with (foldl add_originating c3 (c_OriginatingPrefixes c)) by (by rewrite foldl_add_originating).
    apply (reads_map _ _ same); [|done]. intros d p Hp [E1 E2]. split; [|done].
    destruct (W3 p Hp) as (i & Hi & Ei). rewrite (parse_print_originate p i) by (rewrite ?E1; auto).
    unfold addOriginatingPrefix. rewrite (proj2 (existsb_exists _ _)); [done|].
    exists i. rewrite E1. split; [by apply list_elem_of_In|by apply bool_decide_eq_true].
  - replace c5 with (foldl add_rip c4 (c_RipNeighbors c)) by (by rewrite foldl_add_rip).
    apply (reads_map _ _ same); [|done]. intros d a Ha [E1 E2]. split; [|done].
    destruct (W4 a Ha) as (n & Hn & En). rewrite parse_print_rip by (rewrite <- En; apply W2, Hn).
    unfold addRipNeighbor. rewrite (proj2 (existsb_exists _ _)); [done|].
    exists n. rewrite E2. split; [by apply list_elem_of_In|by apply bool_decide_eq_true].
  - replace c with (foldl add_route_pair c5 (map_to_list (c_StaticRoutes c))) at 2.
    + apply (reads_map _ _ (fun _ => True)); [|done]. intros d [p a] Hr%elem_of_map_to_list _. split; [|done].
      destruct (W5 p a Hr). by apply parse_print_route.
    + rewrite foldl_add_route. cbn. rewrite foldl_insert_union by apply NoDup_fst_map_to_list.
      rewrite list_to_map_to_list, (right_id_L ∅ (∪)). by destruct c.
Qed.

(** C19. The parser inverts printing: the text of any configuration whose
    interface networks, originating prefixes and RIP neighbours are consistent,
    and whose names are words, is read back as that configuration, static routes
    included. *)
Theorem parse_print_config (c : IPConfig) :
  config_wf c -> names_ok c -> ParseConfig (Some (print_config c)) = Ret (inr c).
Proof. apply parse_print. Qed.

(** ** Crashes *)
(** The lines on which [parseRip] indexes past its words. *)
Definition crash_line (line : string) : bool :=
  bool_decide (Split " "%char line = ["rip"; "originate"]) ||
  bool_decide (Split " "%char line = ["rip"; "originate"; "prefix"]).

Lemma parse_line_panic line c :
  (exists why, parse_line line c = Panic why) <-> crash_line line = true.
Proof.
  unfold crash_line. rewrite orb_true_iff, !bool_decide_eq_true. split.
  - intros [why H]. revert H. unfold parse_line.
    destruct (Split _ line) as [|[|ch head] ts] eqn:E; try done. case_bool_decide; [done|].
    unfold parseCommands. repeat case_bool_decide; try done; intros Hp.
    + exfalso. revert Hp. unfold parseInterface. repeat case_match; done.
    + exfalso. revert Hp. unfold parseNeighbor. repeat case_match; done.
    + exfalso. revert Hp. unfold parseRouting. repeat (case_match || case_bool_decide); done.
    + exfalso. revert Hp. unfold parseRoute. repeat case_match; done.
    + revert Hp. unfold parseRip. rewrite E. destruct ts as [|cmd ts]; [done|].
      case_bool_decide; [subst cmd|case_bool_decide; [|done]; destruct ts; [done|]; by case_match].
      destruct ts as [|w [|t ts]]; [| |by case_match].
      * intros _. left. congruence.
      * case_bool_decide as Hw; [done|]. intros _. right. congruence.
  - intros E. assert (Hl : parse_line line c = parseRip line c) by (unfold parse_line; by destruct E as [->| ->]).
    rewrite Hl. unfold parseRip. destruct E as [->| ->]; by eexists.
Qed.

Lemma parse_line_no_block line c why : parse_line line c <> Block why.
Proof.
  unfold parse_line, parseCommands. destruct (Split _ line) as [|[|ch head] ts] eqn:E; try done.
  case_bool_decide; [done|]. repeat case_bool_decide; try done.
  - unfold parseInterface. repeat case_match; done.
  - unfold parseNeighbor. repeat case_match; done.
  - unfold parseRouting. repeat (case_match || case_bool_decide); done.
  - unfold parseRoute. repeat case_match; done.
  - unfold parseRip. rewrite E. destruct ts as [|cmd ts]; [done|]. repeat (case_bool_decide || case_match); done.
Qed.

Lemma parse_lines_panic ln lines c why :
  parse_lines ln lines c = Panic why ->
  exists l1 line l2 c', lines = l1 ++ line :: l2 /\ reads l1 c c' /\ crash_line line = true.
Proof.
  revert ln c. induction lines as [|line lines IH]; intros ln c; [done|]. cbn [parse_lines].
  destruct (parse_line line c) as [[e|c1]|w|w] eqn:E; cbn [mbind outcome_bind]; try done.
  - intros H. destruct (IH _ _ H) as (l1 & l & l2 & c' & -> & Hr & Hl).
    exists (line :: l1), l, l2, c'. split; [done|]. split; [|done].
    apply (reads_app [line] _ _ c1); [by apply reads_one|done].
  - intros _. exists [], line, lines, c. split; [done|]. split; [apply reads_nil|].
    apply (parse_line_panic line c). by exists w.
Qed.

Lemma parse_lines_no_block ln lines c why : parse_lines ln lines c <> Block why.
Proof.
  revert ln c. induction lines as [|line lines IH]; intros ln c; [done|]. cbn [parse_lines].
  destruct (parse_line line c) as [[e|c1]|w|w] eqn:E; cbn [mbind outcome_bind]; try done.
  by apply parse_line_no_block in E.
Qed.

(** C25. The parser never blocks, and panics exactly when a [rip originate] line
    without a prefix (no further word, or only [prefix]) is reached after lines
    that were all accepted; every other bad input is an error. *)
Theorem parse_config_panics_iff (lines : list string) :
  (forall why, ParseConfig (Some lines) <> Block why) /\
  ((exists why, ParseConfig (Some lines) = Panic why) <->
   exists l1 line l2 c, lines = l1 ++ line :: l2 /\ reads l1 empty_config c /\ crash_line line = true).
Proof.
  unfold ParseConfig. split; [|split].
  - intros why. destruct (parse_lines 0 lines empty_config) as [[e|c]|w|w] eqn:E; try done.
    by apply parse_lines_no_block in E.
  - intros [why H]. destruct (parse_lines 0 lines empty_config) as [[e|c]|w|w] eqn:E; try done.
    by apply parse_lines_panic in E.
  - intros (l1 & line & l2 & c & -> & Hr & Hl). rewrite Hr. cbn [parse_lines].
    destruct (proj2 (parse_line_panic line c) Hl) as [w ->]. by exists w.
Qed.

(** Whatever file is parsed, an accepted configuration has the type its users
    assume (interface prefixes are the networks of their addresses, originating
    prefixes are interfaces' prefixes, RIP neighbours are neighbours, addresses and
    ports are in range), and the node started from it keeps a well-formed
    forwarding table in every state it reaches. *)
Theorem parsed_config_type `{NS : Netstack} `{MI : MapIter} `{ML : !MapIterLaws} (file : option (list string)) (c : IPConfig) (n : Node) :
  ParseConfig file = Ret (inr c) ->
  config_wf c /\ (reachable c n -> table_ok (forwardingTable n)).
Proof.
  intros H. assert (Hwf : config_wf c).
  { destruct file as [lines|]; [|done]. unfold ParseConfig in H.
    destruct (parse_lines 0 lines empty_config) as [[e|c']|w|w] eqn:E; try done. cbn in H. injection H as <-.
    eapply parse_lines_wf; [apply empty_config_wf|exact E]. }
  split; [done|]. intros Hr. apply (reachable_ok c n Hr). destruct Hwf as [W1 W2 W3 W4 W5]. split.
  - intros i Hi. rewrite list.Forall_forall in W1. destruct (W1 i Hi) as (Ha & Hb & Hm & _).
    rewrite Hm. by apply Masked_is_masked.
  - intros p a Hp. by apply (W5 p a).
Qed.

(** ** A router's configuration *)
Definition ex_parsed : IPConfig :=
  mkIPConfig [mkInterfaceConfig "if0" (ip4 10 0 0 1) (mkPrefix (ip4 10 0 0 0) 24) (mkAddrPort (ip4 127 0 0 1) 5000)]
    [mkNeighborConfig (ip4 10 0 0 2) (mkAddrPort (ip4 127 0 0 1) 5001) "if0"] [mkPrefix (ip4 10 0 0 0) 24]
    RoutingTypeRIP [ip4 10 0 0 2] {[mkPrefix (ip4 0 0 0 0) 0 := ip4 10 0 0 2]}.
Definition ex_file : list string :=
  ["interface if0 10.0.0.1/24 127.0.0.1:5000"; "neighbor 10.0.0.2 at 127.0.0.1:5001 via if0"; "routing rip";
   "rip originate prefix 10.0.0.0/24"; "rip advertise-to 10.0.0.2"; "route 0.0.0.0/0 via 10.0.0.2"].

Lemma ex_parsed_file : ParseConfig (Some ex_file) = Ret (inr ex_parsed).
Proof. vm_compute. reflexivity. Qed.

Lemma ex_parsed_wf : config_wf ex_parsed.
Proof.
  apply (parse_lines_wf 0 ex_file empty_config); [apply empty_config_wf|]. vm_compute. reflexivity.
Qed.

Lemma parse_print_config_witness :
  print_config ex_parsed = ex_file /\ ParseConfig (Some (print_config ex_parsed)) = Ret (inr ex_parsed).
Proof.
  split; [vm_compute; reflexivity|]. apply parse_print_config; [exact ex_parsed_wf|].
  split; repeat constructor; discriminate.
Defined.

#[local] Existing Instance ref_netstack.
#[local] Existing Instance ref_iter.
#[local] Existing Instance ref_iter_laws.
Lemma parsed_config_type_witness : config_wf ex_parsed /\ table_ok (forwardingTable (initial_node ex_parsed)).
Proof.
  destruct (parsed_config_type (Some ex_file) ex_parsed (initial_node ex_parsed)) as [H1 H2].
  - exact ex_parsed_file.
  - split; [exact H1|]. apply H2. constructor.
Defined.
