(* ===== verification/Packets.v ===== *)
(** * The life of an IP packet ([pkg/node/node.go])

    What [makePacket] puts on the wire, how the next node's [handlePackets]
    treats it on each branch, delivery, forwarding chains and the sending side
    of [HandleSend]. *)
From S2P Require Import Prelude Rip Netip Ipv4Header Netstack Utils Config Node Routing RipProto.
Local Open Scope Z_scope.

(** The header [makePacket] writes, with checksum field [c]. *)
Definition packet_header (src dst : Addr) (proto ttl len c : Z) : IPv4Header :=
  mkHeader 4 20 0 (HeaderLen + len) 0 0 0 ttl proto c src dst [].

Definition packet_bytes (h : IPv4Header) (data : list byte) : list byte :=
  header_bytes h (AsSlice (h_Src h)) (AsSlice (h_Dst h)) ++ data.

(** Arguments that fit the header's fields. *)
Definition sendable (src dst : Addr) (proto ttl : Z) (data : list byte) : Prop :=
  Addr_wf src /\ Addr_wf dst /\ 0 <= proto < 256 /\ 0 <= ttl < 256 /\ HeaderLen + zlen data < 2 ^ 16.

Lemma packet_header_wf src dst proto ttl data c :
  sendable src dst proto ttl data -> 0 <= c < 2 ^ 16 ->
  Header_wf (packet_header src dst proto ttl (zlen data) c).
Proof.
  intros (Hs & Hd & Hp & Ht & Hl) Hc. unfold Header_wf, packet_header, HeaderLen in *.
  zlen_facts.
  cbn [h_Version h_Len h_TOS h_TotalLen h_ID h_Flags h_FragOff h_TTL h_Protocol h_Checksum
       h_Src h_Dst h_Options]. change (zlen (@nil byte)) with 0.
  repeat split; try done; lia.
Qed.

Lemma zlen_packet_header_bytes src dst proto ttl len c :
  Addr_wf src -> Addr_wf dst ->
  zlen (header_bytes (packet_header src dst proto ttl len c) (AsSlice src) (AsSlice dst)) = 20.
Proof.
  intros Hs Hd. rewrite zlen_header_bytes; [done|..];
    match goal with |- length (AsSlice ?a) = _ => destruct (AsSlice_4 a) as (? & ? & ? & ? & ->); done end.
Qed.

(** The checksum field is the sixth word: it adds to the sum of the others. *)
Definition header_front (h : IPv4Header) : list byte :=
  [Zbyte (first_byte (HeaderLen + zlen (h_Options h))); Zbyte (h_TOS h)] ++
  be16 (h_TotalLen h) ++ be16 (h_ID h) ++ be16 (flagsAndFragOff h) ++
  [Zbyte (h_TTL h); Zbyte (h_Protocol h)].

Lemma word_sum_header h src dst :
  0 <= h_Checksum h < 2 ^ 16 ->
  word_sum (header_bytes h src dst) =
  word_sum (header_front h) + h_Checksum h + word_sum (src ++ dst ++ h_Options h).
Proof.
  intros Hc.
  assert (E : header_bytes h src dst =
    header_front h ++ be16 (h_Checksum h) ++ (src ++ dst ++ h_Options h))
    by (unfold header_bytes, header_front; by rewrite <- !app_assoc).
  rewrite E, (word_sum_app (header_front h)), (word_sum_app (be16 _)).
  - rewrite word_sum_be16, u16_small by done. lia.
  - rewrite length_be_encode. by exists 1%nat.
  - unfold header_front. rewrite !length_app, !length_be_encode. by exists 5%nat.
Qed.

(** A version-4 header without options starts with the word 0x4500. *)
Lemma word_sum_front_pos src dst proto ttl len c :
  0 < word_sum (header_front (packet_header src dst proto ttl len c)).
Proof.
  unfold header_front. rewrite word_sum_app by (by exists 1%nat).
  match goal with |- 0 < _ + word_sum ?b => pose proof (word_sum_nonneg b) end.
  change (word_sum [Zbyte (first_byte (HeaderLen + zlen (h_Options (packet_header src dst proto ttl len c))));
    Zbyte (h_TOS (packet_header src dst proto ttl len c))]) with 17664. lia.
Qed.

Section packets.
Context `{NS : Netstack} `{NL : !NetstackLaws} `{MI : MapIter} `{L : !MapIterLaws}.

(** The checksum [makePacket] computes. *)
Definition packet_checksum (src dst : Addr) (proto ttl len : Z) : Z :=
  ComputeChecksum (header_bytes (packet_header src dst proto ttl len 0) (AsSlice src) (AsSlice dst)).

Lemma makePacket_ok src dst proto ttl data :
  sendable src dst proto ttl data ->
  makePacket src dst proto ttl data =
    Ret (packet_bytes (packet_header src dst proto ttl (zlen data)
           (packet_checksum src dst proto ttl (zlen data))) data).
Proof.
  intros Hok. assert (Hok' := Hok). destruct Hok' as (Hs & Hd & _). unfold makePacket.
  rewrite !MustParseAddr_String by done. cbn [mbind outcome_bind]. cbv zeta.
  fold (packet_header src dst proto ttl (zlen data) 0).
  rewrite Marshal_wf by (apply packet_header_wf; [done|lia]).
  cbn [packet_header h_Src h_Dst]. fold (packet_header src dst proto ttl (zlen data) 0).
  fold (packet_checksum src dst proto ttl (zlen data)).
  rewrite Marshal_wf; [done|].
  apply (packet_header_wf src dst proto ttl data); [done|apply ComputeChecksum_range].
Qed.

Lemma packet_checksum_valid src dst proto ttl len :
  let c := packet_checksum src dst proto ttl len in
  ValidateChecksum (header_bytes (packet_header src dst proto ttl len c) (AsSlice src) (AsSlice dst)) c = c
  <-> c <> 0.
Proof.
  intros c. pose proof (ComputeChecksum_range
    (header_bytes (packet_header src dst proto ttl len 0) (AsSlice src) (AsSlice dst))) as Hr.
  fold (packet_checksum src dst proto ttl len) in Hr. fold c in Hr.
  pose proof (ComputeChecksum_sum
    (header_bytes (packet_header src dst proto ttl len 0) (AsSlice src) (AsSlice dst))) as Hz.
  fold (packet_checksum src dst proto ttl len) in Hz. fold c in Hz.
  rewrite ValidateChecksum_spec by done.
  rewrite word_sum_header in Hz by (simpl; lia). rewrite word_sum_header by done.
  cbn [packet_header h_Checksum h_Options] in *.
  change (header_front (packet_header src dst proto ttl len c))
    with (header_front (packet_header src dst proto ttl len 0)).
  pose proof (word_sum_front_pos src dst proto ttl len 0).
  pose proof (word_sum_nonneg (AsSlice src ++ AsSlice dst ++ [])).
  split; [intros [[? _]|[_ ?]]; [done|lia]|].
  left. split; [done|]. etransitivity; [|exact Hz]. f_equal. lia.
Qed.

(** ** Reception *)
Lemma zlen_ztake_le {A} n (l : list A) : 0 <= n -> zlen (ztake n l) <= n.
Proof. unfold zlen, ztake. intros. rewrite length_take. lia. Qed.

Lemma ztake_packet_bytes h data :
  Addr_wf (h_Src h) -> Addr_wf (h_Dst h) -> h_Options h = [] ->
  ztake MaxMessageSize (packet_bytes h data) = packet_bytes h (ztake 1380 data).
Proof.
  intros Hs Hd Ho. unfold packet_bytes.
  assert (Hl : length (header_bytes h (AsSlice (h_Src h)) (AsSlice (h_Dst h))) = 20%nat).
  { assert (zlen (header_bytes h (AsSlice (h_Src h)) (AsSlice (h_Dst h))) = 20) as Hz.
    { rewrite zlen_header_bytes, Ho; [done|..];
        match goal with |- length (AsSlice ?a) = _ => destruct (AsSlice_4 a) as (? & ? & ? & ? & ->); done end. }
    unfold zlen in Hz. lia. }
  unfold ztake. rewrite take_app, Hl. f_equal.
  apply take_ge. rewrite Hl. unfold MaxMessageSize. lia.
Qed.

Lemma recv_buffer_bytes p : slice_bytes (recv_buffer p) = ztake MaxMessageSize p.
Proof. unfold recv_buffer, slice_bytes. cbn [s_arr s_len]. by apply ztake_app_exact. Qed.

Lemma slice_range_bytes s lo hi s' :
  slice_wf s -> slice_range s lo hi = Ret s' -> hi <= s_len s ->
  slice_bytes s' = zsub lo hi (slice_bytes s).
Proof.
  intros Hwf (Hb & _ & ->)%slice_range_inv Hhi.
  unfold slice_bytes, zsub. cbn [s_arr s_len]. unfold ztake, zdrop.
  rewrite skipn_firstn_comm, take_take. f_equal. lia.
Qed.

Lemma slice_from_wf s lo s' : slice_wf s -> slice_from s lo = Ret s' -> slice_wf s'.
Proof.
  unfold slice_from. intros Hw (Hb & _ & ->)%slice_range_inv.
  unfold slice_wf, slice_cap in *. cbn [s_arr s_len]. rewrite zlen_zdrop by lia. lia.
Qed.

Lemma recv_buffer_wf p : slice_wf (recv_buffer p).
Proof.
  unfold slice_wf, slice_cap, recv_buffer. cbn [s_arr s_len]. rewrite zlen_app.
  zlen_facts.
  pose proof (zlen_nonneg (replicate (Z.to_nat (MaxMessageSize - zlen (ztake MaxMessageSize p))) Byte.x00)). lia.
Qed.

Lemma recv_buffer_cap p : slice_cap (recv_buffer p) = MaxMessageSize.
Proof.
  unfold slice_cap, recv_buffer. cbn [s_arr]. rewrite zlen_app.
  pose proof (zlen_ztake_le MaxMessageSize p). unfold zlen at 2. rewrite length_replicate.
  unfold MaxMessageSize in *. zlen_facts. lia.
Qed.

(** What the receiver of a packet does, branch by branch. *)
Definition route_packet (n : Node) (h : IPv4Header) (data : list byte) : outcome (Node * list event) :=
  match FindNext n (h_Dst h) with
  | None => Ret (n, [EPrint "Error: No match in forwarding table."])
  | Some (next_addr, t) =>
      p ← makePacket (h_Src h) (h_Dst h) (h_Protocol h) (h_TTL h) data;
      Ret (n, forwardPacket n (if bool_decide (t = "L") then h_Dst h else next_addr) p)
  end.

Definition received (now : Z) (n : Node) (h : IPv4Header) (message : Slice) : outcome (Node * list event) :=
  if checkDest n (h_Dst h) then call_handler now n (h_Protocol h) message h
  else if bool_decide (0 < h_TTL h) then route_packet n h (slice_bytes message)
  else Ret (n, []).

Lemma handlePackets_packet now n src dst proto ttl data c :
  sendable src dst proto ttl data -> 0 <= c < 2 ^ 16 -> 1 <= ttl ->
  let h := packet_header src dst proto ttl (zlen data) c in
  let hb := header_bytes h (AsSlice src) (AsSlice dst) in
  exists message, slice_bytes message = ztake 1380 data /\ slice_wf message /\ slice_cap message = 1380 /\
  handlePackets now n (recv_buffer (packet_bytes h data)) =
    if bool_decide (ValidateChecksum hb c = c)
    then received now n (set_TTL h (ttl - 1)) message
    else Ret (n, [EPrint "Dropped packet"]).
Proof.
  intros Hok Hc Ht h hb. pose proof (packet_header_wf _ _ _ _ _ c Hok Hc) as Hwf. fold h in Hwf.
  destruct Hok as (Hs & Hd & _ & _ & _).
  assert (Hhb : zlen hb = 20) by (by apply zlen_packet_header_bytes).
  assert (Hpb : forall d, packet_bytes h d = hb ++ d) by reflexivity.
  set (buf := recv_buffer (packet_bytes h data)). set (d := ztake 1380 data). pose proof (zlen_nonneg d).
  assert (Hbytes : slice_bytes buf = packet_bytes h d)
    by (subst buf; rewrite recv_buffer_bytes; by apply ztake_packet_bytes).
  assert (Hlen : s_len buf = 20 + zlen d).
  { subst buf. unfold recv_buffer. cbn [s_len]. rewrite ztake_packet_bytes by done.
    rewrite Hpb, zlen_app. fold d. lia. }
  pose proof (recv_buffer_wf (packet_bytes h data)) as Hbw. fold buf in Hbw. unfold slice_wf in Hbw.
  pose proof (recv_buffer_cap (packet_bytes h data)) as Hcap. fold buf in Hcap. unfold MaxMessageSize in Hcap.
  destruct (slice_range buf 0 20) as [hbs|e|e] eqn:Ehb; [|rewrite slice_range_ok in Ehb by lia; done..].
  assert (Hhbs : slice_bytes hbs = hb).
  { erewrite slice_range_bytes; [|done|exact Ehb|lia]. rewrite Hbytes, Hpb. unfold zsub.
    rewrite zdrop_nonpos by lia. by apply ztake_app_exact. }
  destruct (slice_from buf 20) as [msg|e|e] eqn:Emsg;
    [|unfold slice_from in Emsg; rewrite slice_range_ok in Emsg by lia; done..].
  assert (Hmsg : slice_bytes msg = d).
  { erewrite slice_range_bytes; [|done|exact Emsg|lia]. rewrite Hbytes, Hlen, Hpb. unfold zsub.
    rewrite zdrop_app_exact by done. apply ztake_all. lia. }
  exists msg. split; [done|]. split; [by eapply slice_from_wf|]. split.
  { apply slice_range_inv in Emsg as (_ & _ & ->). unfold slice_cap in *. cbn [s_arr].
    rewrite zlen_zdrop by lia. lia. }
  unfold handlePackets. rewrite Hbytes. unfold packet_bytes.
  rewrite ParseHeader_header_bytes by done. cbv zeta.
  cbn [h_Src h_Dst h_TTL set_TTL set_Checksum h_Len h_Checksum h_Protocol].
  change (h_Len h) with 20. change (h_TTL h) with ttl. change (h_Checksum h) with c.
  change (h_Src h) with src. change (h_Dst h) with dst. change (h_Protocol h) with proto.
  rewrite bool_decide_false by lia.
  rewrite Ehb.
  cbn [mbind outcome_bind]. rewrite Hhbs, (u16_small c) by done.
  case_bool_decide as Hv; [|done]. rewrite Hv. unfold received, route_packet.
  cbn [h_Dst h_Src h_TTL h_Protocol set_TTL packet_header h].
  rewrite Emsg. cbn [mbind outcome_bind]. rewrite Hmsg.
  destruct (checkDest n dst); [done|]. case_bool_decide; [|done].
  destruct (FindNext n dst) as [[na t]|]; done.
Qed.

(** C29. Delivery: a packet built by [makePacket] that reaches a node owning the
    destination address is handed to the handler of its protocol with exactly
    the payload sent, the sender's address and a TTL one smaller, provided its
    header checksum is not zero; a packet whose checksum is zero is dropped. *)
Theorem packet_delivered (now : Z) (n : Node) (src dst : Addr) (proto ttl : Z) (data : list byte) :
  sendable src dst proto ttl data -> 1 <= ttl -> zlen data <= 1380 -> checkDest n dst = true ->
  exists p, makePacket src dst proto ttl data = Ret p /\ zlen p = 20 + zlen data /\
    let c := packet_checksum src dst proto ttl (zlen data) in
    if bool_decide (c = 0)
    then handlePackets now n (recv_buffer p) = Ret (n, [EPrint "Dropped packet"])
    else exists message, slice_bytes message = data /\ slice_wf message /\
      handlePackets now n (recv_buffer p) =
        call_handler now n proto message (packet_header src dst proto (ttl - 1) (zlen data) c).
Proof.
  intros Hok Ht Hl Hd. eexists. split; [by apply makePacket_ok|]. split.
  { unfold packet_bytes. destruct Hok as (? & ? & _).
    rewrite zlen_app, zlen_packet_header_bytes by done. lia. }
  set (c := packet_checksum _ _ _ _ _). intros c'. subst c'.
  destruct (handlePackets_packet now n src dst proto ttl data c) as (msg & H1 & H2 & _ & H3);
    [done|apply ComputeChecksum_range|done..|]. rewrite ztake_all in H1 by done.
  rewrite H3. pose proof (packet_checksum_valid src dst proto ttl (zlen data)) as Hv.
  cbv zeta in Hv. fold c in Hv. rewrite (bool_decide_ext _ _ Hv).
  destruct (decide (c = 0)) as [Hc|Hc].
  - rewrite (bool_decide_true (c = 0)), bool_decide_false by lia. done.
  - rewrite (bool_decide_false (c = 0)), bool_decide_true by lia. exists msg. split; [done|]. split; [done|].
    unfold received. cbn [set_TTL h_Dst packet_header]. by rewrite Hd.
Qed.

(** ** Forwarding *)
(** A node that does not own the destination passes the packet on. *)
Definition forwards (now : Z) (n : Node) (p p' : list byte) : Prop :=
  exists h u, ParseHeader (Some (ztake MaxMessageSize p)) = inl h /\ checkDest n (h_Dst h) = false /\
    handlePackets now n (recv_buffer p) = Ret (n, [EUDP u p']).

Inductive carried (now : Z) : list Node -> list byte -> list byte -> Prop :=
  | carried_nil p : carried now [] p p
  | carried_cons n ns p p' q : forwards now n p p' -> carried now ns p' q -> carried now (n :: ns) p q.

Lemma ParseHeader_ok b h :
  ParseHeader (Some b) = inl h ->
  20 <= zlen b /\ 0 <= h_Len h <= zlen b /\ 0 <= h_TTL h < 256 /\ 0 <= h_Protocol h < 256 /\
  Addr_wf (h_Src h) /\ Addr_wf (h_Dst h).
Proof.
  intros H. destruct (ParseHeader_bounds b) as (_ & H1 & H2 & H3).
  destruct (decide (zlen b < 20)) as [?|?]; [rewrite H1 in H by done; done|].
  destruct (decide (zlen b < header_len b)) as [?|?]; [rewrite H2 in H by lia; done|].
  destruct H3 as (h' & E & ? & ? & ? & ? & ? & ? & ? & ? & ? & ?); [lia..|].
  rewrite E in H. injection H as <-. repeat split; try done; lia.
Qed.

Lemma forwards_header now n p p' :
  forwards now n p p' ->
  exists h h', ParseHeader (Some (ztake MaxMessageSize p)) = inl h /\
    ParseHeader (Some (ztake MaxMessageSize p')) = inl h' /\
    h_TTL h' = h_TTL h - 1 /\ 1 <= h_TTL h' /\
    h_Src h' = h_Src h /\ h_Dst h' = h_Dst h /\ h_Protocol h' = h_Protocol h.
Proof.
  intros (h & u & Hh & Hd & H). exists h.
  destruct (ParseHeader_ok _ _ Hh) as (Hl & Hlen & Ht & Hp & Hs & Hds).
  pose proof (zlen_ztake_le MaxMessageSize p) as H14. unfold MaxMessageSize in H14.
  unfold handlePackets in H. rewrite recv_buffer_bytes, Hh in H. cbv zeta in H.
  cbn [set_TTL set_Checksum h_TTL h_Dst h_Len h_Src h_Checksum h_Protocol] in H. rewrite Hd in H.
  case_bool_decide; [done|]. apply bind_Ret_inv in H as (hb & _ & H).
  case_bool_decide; [|done]. case_bool_decide as Ht1; [|done].
  destruct (FindNext _ _) as [[na t]|]; [|done].
  apply bind_Ret_inv in H as (pl & Hpl & H).
  assert (Hsend : sendable (h_Src h) (h_Dst h) (h_Protocol h) (h_TTL h - 1) (slice_bytes pl)).
  { unfold sendable, HeaderLen. split; [done|]. split; [done|]. split; [done|]. split; [lia|].
    erewrite slice_range_bytes; [|apply recv_buffer_wf|exact Hpl|lia].
    rewrite recv_buffer_bytes. unfold zsub.
    pose proof (zlen_ztake_le (s_len (recv_buffer p) - h_Len h) (zdrop (h_Len h) (ztake MaxMessageSize p))) as Hz.
    apply slice_range_inv in Hpl as [Hb _].
    change (s_len (recv_buffer p)) with (zlen (ztake MaxMessageSize p)) in *. unfold MaxMessageSize in *. lia. }
  rewrite makePacket_ok in H by done. cbn [mbind outcome_bind] in H.
  unfold forwardPacket in H. destruct (neighborUDP _ _); [|done]. injection H as <- <-.
  eexists. split; [done|].
  rewrite ztake_packet_bytes by (try done; apply Hsend). split.
  - unfold packet_bytes. apply ParseHeader_header_bytes.
    apply packet_header_wf; [exact Hsend|apply ComputeChecksum_range].
  - cbn [packet_header h_TTL h_Src h_Dst h_Protocol]. repeat split; lia.
Qed.

(** C28. No packet circulates for ever, whatever the routing tables: along any
    chain of routers that forward a packet (a well-formed one or not) the TTL
    drops by exactly one per hop, so the chain is shorter than the packet's TTL
    and has at most 254 hops; addresses and protocol never change. *)
Theorem forwarding_terminates (now : Z) (ns : list Node) (p q : list byte) (h : IPv4Header) :
  carried now ns p q -> ParseHeader (Some (ztake MaxMessageSize p)) = inl h ->
  exists h', ParseHeader (Some (ztake MaxMessageSize q)) = inl h' /\
    h_TTL h' = h_TTL h - zlen ns /\ (ns = [] \/ zlen ns < h_TTL h <= 255) /\
    h_Src h' = h_Src h /\ h_Dst h' = h_Dst h /\ h_Protocol h' = h_Protocol h.
Proof.
  intros Hc. revert h. induction Hc as [p|n ns p p' q Hf Hc IH]; intros h Hh.
  - exists h. rewrite Z.sub_0_r. eauto 10.
  - destruct (forwards_header _ _ _ _ Hf) as (g & g' & Hg & Hg' & Ht & Ht1 & Es & Ed & Ep).
    rewrite Hh in Hg. injection Hg as <-. destruct (IH g' Hg') as (h' & Hh' & Hth & Hns & Es' & Ed' & Ep').
    destruct (ParseHeader_ok _ _ Hh) as (_ & _ & ? & _).
    exists h'. change (zlen (n :: ns)) with (Z.of_nat (S (length ns))). unfold zlen in *.
    rewrite Es', Ed', Ep'. repeat split; try done; try lia.
    right. destruct Hns as [->|Hns]; simpl; lia.
Qed.

(** A router with a usable route towards [dst]. *)
Definition next_hop (n : Node) (dst : Addr) : option Addr :=
  match FindNext n dst with
  | None => None
  | Some (nh, t) => Some (if bool_decide (t = "L") then dst else nh)
  end.
Definition routes (dst : Addr) (n : Node) : Prop :=
  checkDest n dst = false /\ exists nh u, next_hop n dst = Some nh /\ neighborUDP n nh = Some u.

Lemma packet_forwarded now n src dst proto ttl data p :
  sendable src dst proto ttl data -> 2 <= ttl -> zlen data <= 1380 -> routes dst n ->
  packet_checksum src dst proto ttl (zlen data) <> 0 ->
  makePacket src dst proto ttl data = Ret p ->
  exists p', makePacket src dst proto (ttl - 1) data = Ret p' /\ forwards now n p p'.
Proof.
  intros Hok Ht Hl (Hd & nh & u & Hnh & Hu) Hc Hp.
  assert (Hok' : sendable src dst proto (ttl - 1) data)
    by (unfold sendable in *; intuition lia).
  rewrite makePacket_ok in Hp by done. injection Hp as <-.
  eexists. split; [by apply makePacket_ok|].
  set (c := packet_checksum src dst proto ttl (zlen data)) in *.
  assert (Hcr : 0 <= c < 2 ^ 16) by apply ComputeChecksum_range.
  set (h := packet_header src dst proto ttl (zlen data) c).
  exists h, u. split; [|split; [done|]].
  - rewrite ztake_packet_bytes by (try done; apply Hok). rewrite ztake_all by done.
    apply ParseHeader_header_bytes. by apply packet_header_wf.
  - destruct (handlePackets_packet now n src dst proto ttl data c) as (msg & H1 & _ & _ & H3); [done|done|lia|].
    rewrite ztake_all in H1 by done.
    fold h in H3. rewrite H3. rewrite (bool_decide_true (ValidateChecksum _ _ = _))
      by (by apply packet_checksum_valid).
    unfold received. change (h_Dst (set_TTL h (ttl - 1))) with dst. rewrite Hd.
    rewrite bool_decide_true by (simpl; lia). unfold route_packet.
    change (h_Dst (set_TTL h (ttl - 1))) with dst. unfold next_hop in Hnh.
    destruct (FindNext n dst) as [[na t]|]; [|done]. injection Hnh as Hnh. rewrite Hnh, H1.
    cbn [set_TTL h packet_header h_Src h_Protocol h_TTL].
    rewrite makePacket_ok by done. cbn [mbind outcome_bind]. unfold forwardPacket. by rewrite Hu.
Qed.

Lemma packet_carried now src dst proto data ns ttl p :
  Forall (routes dst) ns -> sendable src dst proto ttl data -> zlen data <= 1380 -> zlen ns < ttl ->
  (forall t, 0 < t <= ttl -> packet_checksum src dst proto t (zlen data) <> 0) ->
  makePacket src dst proto ttl data = Ret p ->
  exists q, carried now ns p q /\ makePacket src dst proto (ttl - zlen ns) data = Ret q.
Proof.
  intros Hns. revert ttl p. induction Hns as [|n ns Hn _ IH]; intros ttl p Hok Hl Ht Hc Hp.
  - exists p. rewrite Z.sub_0_r. split; [constructor|done].
  - change (zlen (n :: ns)) with (Z.of_nat (S (length ns))) in *. unfold zlen in Ht.
    destruct (packet_forwarded now n src dst proto ttl data p) as (p' & Hp' & Hf);
      [done|lia|done|done|apply Hc; lia|done|].
    destruct (IH (ttl - 1) p') as (q & Hq1 & Hq2); try done.
    + unfold sendable in *; intuition lia.
    + unfold zlen. lia.
    + intros t Ht'. apply Hc. lia.
    + exists q. split; [by econstructor|]. rewrite <- Hq2. f_equal. unfold zlen. lia.
Qed.

(** C3. End to end: a packet sent with a TTL larger than the number of routers
    on the way, each with a usable route and none of the header checksums zero,
    is carried through all of them and handed to the destination's protocol
    handler with its payload intact. *)
Theorem packet_end_to_end (now : Z) (ns : list Node) (nd : Node) (src dst : Addr) (proto ttl : Z)
    (data p : list byte) :
  Forall (routes dst) ns -> checkDest nd dst = true ->
  sendable src dst proto ttl data -> zlen data <= 1380 -> zlen ns < ttl ->
  (forall t, 0 < t <= ttl -> packet_checksum src dst proto t (zlen data) <> 0) ->
  makePacket src dst proto ttl data = Ret p ->
  exists q message h, carried now ns p q /\ slice_bytes message = data /\
    h_Src h = src /\ h_Dst h = dst /\ h_TTL h = ttl - zlen ns - 1 /\
    handlePackets now nd (recv_buffer q) = call_handler now nd proto message h.
Proof.
  intros Hns Hd Hok Hl Ht Hc Hp.
  destruct (packet_carried now src dst proto data ns ttl p) as (q & Hq & Hm); try done.
  zlen_facts.
  assert (Hok' : sendable src dst proto (ttl - zlen ns) data) by (unfold sendable in *; intuition lia).
  rewrite makePacket_ok in Hm by done. injection Hm as <-.
  set (c := packet_checksum src dst proto (ttl - zlen ns) (zlen data)) in *.
  destruct (handlePackets_packet now nd src dst proto (ttl - zlen ns) data c) as (msg & H1 & _ & _ & H3);
    [done|apply ComputeChecksum_range|lia|]. rewrite ztake_all in H1 by done.
  eexists _, msg, _. split; [exact Hq|]. split; [done|]. rewrite H3.
  rewrite (bool_decide_true (ValidateChecksum _ _ = _)) by (apply packet_checksum_valid, Hc; lia).
  unfold received. cbn [set_TTL packet_header h_Dst]. rewrite Hd.
  split; [|split; [|split; [|reflexivity]]]; reflexivity.
Qed.

(** ** Sending *)
Lemma send_on_interfaces_none n ifs iface dst nh proto data :
  (forall k i, (k, i) ∈ ifs -> if_Name (i_cfg i) <> iface) ->
  send_on_interfaces n ifs iface dst nh proto data = Ret [].
Proof.
  induction ifs as [|[k i] ifs IH]; intros H; [done|]. simpl.
  rewrite bool_decide_false by (apply (H k); left). apply IH. intros ? ? ?. eapply H. by right.
Qed.

Lemma send_on_interfaces_one n ifs iface dst nh proto data i p :
  NoDup (ifs.*1) -> (forall k i, (k, i) ∈ ifs -> if_Name (i_cfg i) = k) -> (iface, i) ∈ ifs ->
  i_chan (get_interface n iface) = true -> makePacket (AssignedIP (i_cfg i)) dst proto 16 data = Ret p ->
  send_on_interfaces n ifs iface dst nh proto data = Ret [EQueue iface p nh].
Proof.
  intros Hnd Hname Hin Hch Hp. induction ifs as [|[k j] ifs IH]; [by apply not_elem_of_nil in Hin|].
  cbn [fmap list_fmap fst] in Hnd. apply list.NoDup_cons in Hnd as [Hk Hnd].
  pose proof (Hname k j ltac:(left)) as Hj. simpl. rewrite Hj.
  apply elem_of_cons in Hin as [[= -> ->]|Hin].
  - rewrite bool_decide_true by done. rewrite Hp. cbn [mbind outcome_bind].
    unfold chan_send. rewrite Hch. cbn [mbind outcome_bind].
    rewrite send_on_interfaces_none; [done|]. intros k' i' Hk' E.
    apply Hk. rewrite <- E, (Hname k' i') by (by right). apply list_elem_of_fmap. by exists (k', i').
  - rewrite bool_decide_false.
    + apply IH; try done. intros ? ? ?. apply Hname. by right.
    + intros ->. apply Hk. apply list_elem_of_fmap. by exists (iface, i).
Qed.

(** Interfaces are stored under their own name, with a channel, enabled. *)
Definition node_named (n : Node) : Prop :=
  forall k i, interfaces n !! k = Some i -> if_Name (i_cfg i) = k /\ i_chan i = true /\ i_enabled i = true.

Lemma initial_node_named c : node_named (initial_node c).
Proof.
  unfold node_named, initial_node. cbn [interfaces].
  assert (H0 : forall k i, (∅ : gmap string Interface) !! k = Some i ->
    if_Name (i_cfg i) = k /\ i_chan i = true /\ i_enabled i = true) by (intros k i; by rewrite lookup_empty).
  revert H0. generalize (∅ : gmap string Interface).
  induction (c_Interfaces c) as [|x xs IH]; intros m Hm; [done|]. simpl. apply IH.
  intros k i. rewrite lookup_insert. case_decide; [|apply Hm]. subst. by intros [= <-].
Qed.

Lemma reachable_named c n : reachable c n -> node_named n.
Proof.
  intros Hr. destruct (reachable_ok c n Hr) as [(_ & Hi & _) _].
  unfold node_named. rewrite Hi. apply initial_node_named.
Qed.

Lemma HandleSend_ok n dst data proto nh u i :
  node_named n -> next_hop n dst = Some nh -> neighborUDP n nh = Some u ->
  interfaces n !! InterfaceName (get_neighbor n nh) = Some i ->
  sendable (AssignedIP (i_cfg i)) dst proto 16 data ->
  exists p, makePacket (AssignedIP (i_cfg i)) dst proto 16 data = Ret p /\
    HandleSend n dst data proto = Ret [EQueue (InterfaceName (get_neighbor n nh)) p nh] /\
    interface_send n i nh p = [EUDP u p].
Proof.
  intros Hn Hnh Hu Hi Hok. eexists. split; [by apply makePacket_ok|].
  destruct (Hn _ _ Hi) as (_ & Hch & Hen). split.
  - unfold HandleSend, next_hop in *. destruct (FindNext n dst) as [[na t]|]; [|done].
    injection Hnh as Hnh. rewrite Hnh, Hu. eapply send_on_interfaces_one.
    + rewrite iter_if_perm. apply NoDup_fst_map_to_list.
    + intros k j Hk%elem_of_iter_if. by apply Hn.
    + by apply elem_of_iter_if.
    + unfold get_interface. by rewrite Hi.
    + by apply makePacket_ok.
  - unfold interface_send, forwardPacket. by rewrite Hen, Hu.
Qed.

(** C30. [HandleSend] on a reachable node: with a usable route it queues exactly
    one packet, built from the outgoing interface's own address, on the interface
    of the next hop, and that interface writes it to the next hop's UDP address;
    without a route, or when the next hop is not a neighbour, it reports the
    error and sends nothing. *)
Theorem HandleSend_sends (c : IPConfig) (n : Node) (dst : Addr) (data : list byte) (proto : Z) :
  reachable c n ->
  match next_hop n dst with
  | None => HandleSend n dst data proto = Ret [EPrint "Error: No match in forwarding table."]
  | Some nh =>
      match neighborUDP n nh with
      | None => HandleSend n dst data proto = Ret [EPrint "Error: VIP is not valid dest"]
      | Some u =>
          forall i, interfaces n !! InterfaceName (get_neighbor n nh) = Some i ->
          sendable (AssignedIP (i_cfg i)) dst proto 16 data ->
          exists p, makePacket (AssignedIP (i_cfg i)) dst proto 16 data = Ret p /\
            HandleSend n dst data proto = Ret [EQueue (InterfaceName (get_neighbor n nh)) p nh] /\
            interface_send n i nh p = [EUDP u p]
      end
  end.
Proof.
  intros Hr%reachable_named. destruct (next_hop n dst) as [nh|] eqn:E.
  - destruct (neighborUDP n nh) as [u|] eqn:Eu; [intros; by eapply HandleSend_ok|].
    unfold next_hop, HandleSend in *. destruct (FindNext n dst) as [[na t]|]; [|done].
    injection E as E. by rewrite E, Eu.
  - unfold next_hop, HandleSend in *. by destruct (FindNext n dst) as [[na t]|].
Qed.

(** C16. Split horizon with poisoned reverse, end to end: for a well-formed set of
    at most 114 routes [sendRIP] queues one packet to [dst] on the interface that
    leads to it.  The packet fits the receiver's buffer, and the announcements in
    it are, as the receiver reads them, exactly the set's routes: the masked prefix
    with a cost one more than the sender's, or infinity when the sender routes it
    through the receiver. *)
Theorem sendRIP_split_horizon (n : Node) (dst : Addr) (i : Interface) (subset : gmap Prefix ForwardingInfo) :
  let iface := InterfaceName (get_neighbor n dst) in
  node_named n -> interfaces n !! iface = Some i -> Addr_wf (AssignedIP (i_cfg i)) -> Addr_wf dst ->
  adv_ok subset -> (size subset <= 114)%nat ->
  exists es p, sendRIP n dst subset = Ret [EQueue iface p dst] /\
    makePacket (AssignedIP (i_cfg i)) dst 200 16 (MarshalRIP (mkRipPacket 2 (zlen es) es)) = Ret p /\
    zlen p <= MaxMessageSize /\ Forall RipUpdate_wf es /\
    (forall q f, subset !! q = Some f -> exists e, e ∈ es /\
       entry_prefix e = Some (Masked q) /\ entry_cost e = adv_cost dst f) /\
    (forall e, e ∈ es -> exists q f, subset !! q = Some f /\
       entry_prefix e = Some (Masked q) /\ entry_cost e = adv_cost dst f).
Proof.
  intros iface Hn Hi Hsrc Hdst Hadv Hsize.
  destruct (rip_entries_split_horizon dst subset Hadv) as (es & Hes & Hwf & H1 & H2).
  assert (Hlen : zlen es <= 114).
  { rewrite advertised_entries in Hes by done. injection Hes as <-. unfold zlen.
    rewrite length_map, iter_fwd_perm, length_map_to_list. lia. }
  pose proof (zlen_nonneg es) as Hnn.
  pose proof (zlen_MarshalRIP (mkRipPacket 2 (zlen es) es)) as Hm. cbn [Entries] in Hm.
  assert (Hok : sendable (AssignedIP (i_cfg i)) dst 200 16 (MarshalRIP (mkRipPacket 2 (zlen es) es))).
  { unfold sendable, HeaderLen. rewrite Hm. repeat (split; [done || lia|]). lia. }
  exists es. eexists. split; [|split; [by apply makePacket_ok|split; [|by split]]].
  - unfold sendRIP. rewrite Hes. cbn [mbind outcome_bind]. rewrite (u16_small (zlen es)) by lia.
    unfold get_interface. fold iface. rewrite Hi. cbn [default]. unfold id. rewrite makePacket_ok by done.
    cbn [mbind outcome_bind]. unfold chan_send, get_interface. rewrite Hi. cbn [default]. unfold id.
    by destruct (Hn _ _ Hi) as (_ & -> & _).
  - unfold packet_bytes. cbn [packet_header h_Src h_Dst].
    rewrite zlen_app, zlen_packet_header_bytes, Hm by done. unfold MaxMessageSize. lia.
Qed.

(** ** Packets that stop the node *)
Lemma packet_handled now n src dst proto ttl data :
  sendable src dst proto ttl data -> 1 <= ttl -> checkDest n dst = true ->
  packet_checksum src dst proto ttl (zlen data) <> 0 ->
  exists p message h, makePacket src dst proto ttl data = Ret p /\
    slice_bytes message = ztake 1380 data /\ slice_wf message /\ slice_cap message = 1380 /\
    handlePackets now n (recv_buffer p) = call_handler now n proto message h /\
    h_Src h = src /\ h_Dst h = dst.
Proof.
  intros Hok Ht Hd Hc. set (c := packet_checksum src dst proto ttl (zlen data)) in *.
  destruct (handlePackets_packet now n src dst proto ttl data c) as (msg & H1 & H2 & H3 & H4);
    [done|apply ComputeChecksum_range|done|].
  set (h := packet_header src dst proto ttl (zlen data) c) in *.
  exists (packet_bytes h data), msg, (set_TTL h (ttl - 1)).
  split; [by apply makePacket_ok|]. repeat (split; [done|]). split; [|done]. rewrite H4.
  rewrite (bool_decide_true (ValidateChecksum _ _ = _)) by (by apply packet_checksum_valid).
  unfold received. change (h_Dst (set_TTL h (ttl - 1))) with dst. by rewrite Hd.
Qed.

(** A packet for this node whose protocol has no registered handler calls a
    nil function: any well-formed packet with an unknown protocol number stops
    the node. *)
Theorem unknown_protocol_crashes (now : Z) (n : Node) (src dst : Addr) (proto ttl : Z) (data : list byte) :
  sendable src dst proto ttl data -> 1 <= ttl -> checkDest n dst = true ->
  packet_checksum src dst proto ttl (zlen data) <> 0 -> handlerTable n !! proto = None ->
  exists p, makePacket src dst proto ttl data = Ret p /\
    handlePackets now n (recv_buffer p) = Panic "nil pointer dereference".
Proof.
  intros Hok Ht Hd Hc Hh. destruct (packet_handled now n _ _ _ _ _ Hok Ht Hd Hc)
    as (p & msg & h & Hp & _ & _ & _ & E & _).
  exists p. split; [done|]. rewrite E. unfold call_handler. by rewrite Hh.
Qed.

Lemma zsub_ztake {A} lo hi n (l : list A) : 0 <= lo -> hi <= n -> zsub lo hi (ztake n l) = zsub lo hi l.
Proof.
  intros. unfold zsub, ztake, zdrop. rewrite skipn_firstn_comm, take_take. f_equal. lia.
Qed.

(** A RIP response with more than 114 routes does not fit the 1400-byte
    receive buffer: the receiver truncates it, trusts the announced number of
    entries and slices past the buffer.  A table of 115 routes therefore
    crashes every neighbour that receives it. *)
Theorem rip_large_response_crashes (now : Z) (n : Node) (src dst : Addr) (ttl : Z) (es : list RipUpdate) :
  let data := MarshalRIP (mkRipPacket 2 (zlen es) es) in
  115 <= zlen es <= 5459 -> Addr_wf src -> Addr_wf dst -> 1 <= ttl < 256 -> checkDest n dst = true ->
  packet_checksum src dst 200 ttl (zlen data) <> 0 -> handlerTable n !! 200 = Some Protocol200 ->
  exists p, makePacket src dst 200 ttl data = Ret p /\
    handlePackets now n (recv_buffer p) = Panic "slice bounds out of range".
Proof.
  intros data Hes Hs Hd Ht Hck Hc Hh.
  assert (Hlen : zlen data = 4 + 12 * zlen es) by apply zlen_MarshalRIP.
  destruct (packet_handled now n src dst 200 ttl data) as (p & msg & h & Hp & H1 & H2 & H3 & E & _); try done.
  { unfold sendable, HeaderLen. repeat (split; [done || lia|]). lia. }
  { lia. }
  exists p. split; [done|]. rewrite E. unfold call_handler. rewrite Hh. unfold protocol200.
  assert (Hn : be_decode (zsub 2 4 (s_arr msg)) = zlen es).
  { assert (s_len msg = 1380) as Hsl.
    { unfold slice_bytes in H1. apply (f_equal zlen) in H1. unfold slice_wf, slice_cap in *.
      rewrite !zlen_ztake in H1 by lia. done. }
    assert (zsub 2 4 (s_arr msg) = zsub 2 4 data) as ->.
    { rewrite <- (zsub_ztake 2 4 1380 (s_arr msg)), <- (zsub_ztake 2 4 1380 data) by lia.
      unfold slice_bytes in H1. rewrite Hsl in H1. by rewrite H1. }
    subst data. unfold MarshalRIP. cbn [Command Num_entries Entries].
    rewrite (zsub_app_exact 2 4 (be16 2) (be16 (zlen es))), be_decode16 by (by rewrite ?zlen_be_encode).
    apply u16_small. lia. }
  rewrite ExtractRIP_spec. cbv zeta. rewrite Hn, bool_decide_false by lia. done.
Qed.

End packets.

(** ** Witnesses: a packet from the router's neighbour *)
Definition hello : list byte := [Byte.x68; Byte.x69].
Definition ex_src : Addr := ip4 10 1 0 2.
Definition ex_dst : Addr := ip4 10 0 0 1.
(** The neighbour: 10.0.0.1 is not its own address. *)
Definition ex_router : Node :=
  initial_node (mkIPConfig
    [mkInterfaceConfig "if0" (ip4 10 1 0 2) (mkPrefix (ip4 10 1 0 0) 24) (mkAddrPort (ip4 127 0 0 1) 5002)]
    [mkNeighborConfig (ip4 10 1 0 1) (mkAddrPort (ip4 127 0 0 1) 5001) "if0"] [] RoutingTypeStatic []
    {[mkPrefix (ip4 0 0 0 0) 0 := ip4 10 1 0 1]}).

Lemma hello_sendable proto ttl :
  0 <= proto < 256 -> 0 <= ttl < 256 -> sendable ex_src ex_dst proto ttl hello.
Proof. intros. unfold sendable. repeat split; simpl; try lia. Qed.

Lemma packet_delivered_witness :
  exists p, @makePacket ref_netstack ex_src ex_dst 0 16 hello = Ret p /\
    @handlePackets ref_netstack ref_iter 0 ex_node (recv_buffer p) =
      Ret (ex_node, [ETest ex_src ex_dst 15 hello]).
Proof.
  destruct (@packet_delivered ref_netstack ref_netstack_laws ref_iter 0 ex_node ex_src ex_dst 0 16 hello)
    as (p & Hp & _ & H); [apply hello_sendable; lia|lia|vm_compute; discriminate|vm_compute; reflexivity|].
  exists p. split; [exact Hp|]. cbv zeta in H. rewrite bool_decide_false in H by (vm_compute; discriminate).
  destruct H as (m & Hm & _ & ->). unfold call_handler.
  replace (handlerTable ex_node !! 0) with (Some Protocol0) by (vm_compute; reflexivity).
  unfold protocol0. rewrite Hm. reflexivity.
Defined.

Lemma ex_router_routes : @routes ref_iter ex_dst ex_router.
Proof.
  split; [vm_compute; reflexivity|]. eexists _, _. split; vm_compute; reflexivity.
Qed.

Lemma hello_checksum t : 0 < t <= 2 -> @packet_checksum ref_netstack ex_src ex_dst 0 t (zlen hello) <> 0.
Proof. intros. assert (t = 1 \/ t = 2) as [->| ->] by lia; vm_compute; discriminate. Qed.

Lemma packet_end_to_end_witness :
  exists p q, @makePacket ref_netstack ex_src ex_dst 0 2 hello = Ret p /\
    @carried ref_netstack ref_iter 0 [ex_router] p q /\
    @handlePackets ref_netstack ref_iter 0 ex_node (recv_buffer q) =
      Ret (ex_node, [ETest ex_src ex_dst 0 hello]).
Proof.
  destruct (@makePacket ref_netstack ex_src ex_dst 0 2 hello) as [p|e|e] eqn:Hp;
    [|vm_compute in Hp; discriminate..].
  exists p.
  destruct (@packet_end_to_end ref_netstack ref_netstack_laws ref_iter 0 [ex_router] ex_node
    ex_src ex_dst 0 2 hello p) as (q & m & h & Hq & Hm & Hs & Hd & Ht & E).
  - repeat constructor; apply ex_router_routes.
  - vm_compute; reflexivity.
  - apply hello_sendable; lia.
  - vm_compute; discriminate.
  - vm_compute; reflexivity.
  - exact hello_checksum.
  - exact Hp.
  - exists q. split; [reflexivity|]. split; [exact Hq|]. rewrite E. unfold call_handler.
    replace (handlerTable ex_node !! 0) with (Some Protocol0) by (vm_compute; reflexivity).
    unfold protocol0. rewrite Hm, Hs, Hd, Ht. reflexivity.
Defined.

Lemma forwarding_terminates_witness :
  exists p q h h', @makePacket ref_netstack ex_src ex_dst 0 2 hello = Ret p /\
    ParseHeader (Some (ztake MaxMessageSize p)) = inl h /\
    ParseHeader (Some (ztake MaxMessageSize q)) = inl h' /\ h_TTL h' = h_TTL h - 1.
Proof.
  destruct (@makePacket ref_netstack ex_src ex_dst 0 2 hello) as [p|e|e] eqn:Hp;
    [|vm_compute in Hp; discriminate..].
  destruct (@packet_carried ref_netstack ref_netstack_laws ref_iter 0 ex_src ex_dst 0 hello [ex_router] 2 p)
    as (q & Hq & _).
  - repeat constructor; apply ex_router_routes.
  - apply hello_sendable; lia.
  - vm_compute; discriminate.
  - vm_compute; reflexivity.
  - exact hello_checksum.
  - exact Hp.
  - destruct (ParseHeader (Some (ztake MaxMessageSize p))) as [h|e] eqn:Eh.
    + destruct (@forwarding_terminates ref_netstack ref_netstack_laws ref_iter 0 [ex_router] p q h Hq Eh)
        as (h' & Hh' & Ht & _).
      exists p, q, h, h'. split; [reflexivity|]. split; [exact Eh|]. split; [exact Hh'|]. exact Ht.
    + exfalso. vm_compute in Hp. injection Hp as <-. vm_compute in Eh. discriminate Eh.
Defined.

Lemma HandleSend_sends_witness :
  exists p, @HandleSend ref_netstack ref_iter ex_node (ip4 8 8 8 8) hello 0 =
    Ret [EQueue "if1" p (ip4 10 1 0 2)].
Proof.
  pose proof (@HandleSend_sends ref_netstack ref_netstack_laws ref_iter ref_iter_laws ex_config ex_node
    (ip4 8 8 8 8) hello 0 (rtc_refl _ _)) as H.
  replace (@next_hop ref_iter ex_node (ip4 8 8 8 8)) with (Some (ip4 10 1 0 2)) in H by (vm_compute; reflexivity).
  replace (neighborUDP ex_node (ip4 10 1 0 2)) with (Some (mkAddrPort (ip4 127 0 0 1) 5002)) in H
    by (vm_compute; reflexivity).
  destruct (H (new_interface ex_if1)) as (p & _ & E & _).
  - vm_compute; reflexivity.
  - unfold sendable. repeat split; simpl; try lia.
  - exists p. rewrite E. reflexivity.
Defined.

Lemma unknown_protocol_crashes_witness :
  exists p, @makePacket ref_netstack ex_src ex_dst 17 16 hello = Ret p /\
    @handlePackets ref_netstack ref_iter 0 ex_node (recv_buffer p) = Panic "nil pointer dereference".
Proof.
  apply (@unknown_protocol_crashes ref_netstack ref_netstack_laws ref_iter).
  - apply hello_sendable; lia.
  - lia.
  - vm_compute; reflexivity.
  - vm_compute; discriminate.
  - vm_compute; reflexivity.
Defined.

Lemma rip_large_response_crashes_witness :
  exists p, @makePacket ref_netstack ex_src ex_dst 200 16
      (MarshalRIP (mkRipPacket 2 115 (replicate 115 ex_update))) = Ret p /\
    @handlePackets ref_netstack ref_iter 0 ex_node (recv_buffer p) = Panic "slice bounds out of range".
Proof.
  apply (@rip_large_response_crashes ref_netstack ref_netstack_laws ref_iter 0 ex_node ex_src ex_dst 16
    (replicate 115 ex_update)).
  - vm_compute. split; discriminate.
  - vm_compute. split; [discriminate|reflexivity].
  - vm_compute. split; [discriminate|reflexivity].
  - lia.
  - vm_compute; reflexivity.
  - vm_compute; discriminate.
  - vm_compute; reflexivity.
Defined.

Lemma sendRIP_split_horizon_witness :
  exists p es e, @sendRIP ref_netstack ref_iter ex_node (ip4 10 1 0 2) ex_table = Ret [EQueue "if1" p (ip4 10 1 0 2)] /\
    e ∈ es /\ @makePacket ref_netstack (ip4 10 1 0 1) (ip4 10 1 0 2) 200 16
      (MarshalRIP (mkRipPacket 2 (zlen es) es)) = Ret p /\ entry_cost e = INFTY.
Proof.
  destruct (@sendRIP_split_horizon ref_netstack ref_netstack_laws ref_iter ref_iter_laws ex_node (ip4 10 1 0 2)
    (new_interface ex_if1) ex_table) as (es & p & H1 & H2 & _ & _ & H3 & _).
  - apply initial_node_named.
  - vm_compute; reflexivity.
  - vm_compute. split; [discriminate|reflexivity].
  - vm_compute. split; [discriminate|reflexivity].
  - exact ex_table_adv.
  - apply Nat.leb_le. vm_compute. reflexivity.
  - destruct (H3 ex_prefix ex_route) as (e & He & _ & Hc); [vm_compute; reflexivity|].
    exists p, es, e. split; [exact H1|]. split; [exact He|]. split; [exact H2|].
    rewrite Hc. vm_compute. reflexivity.
Defined.
