(* ===== verification/TcpTypes.v ===== *)
(** * The data of the TCP stack ([pkg/tcpstack/tcpstack.go])

    Constants, connection states, the ring buffers, sockets, the stack's tables
    and segments.  Goroutines and what synchronises them are part of a socket's
    state where the code's behaviour depends on them: the mutexes [stateMtx] and
    [unackedMtx] (true when held by no running call, i.e. left locked), the
    buffered [ackChan], the goroutine that waits on [finChan] after a close
    ([closer]), and the number of goroutines that will delete the socket after
    TIME_WAIT ([reapers]).  The retransmission timer ([ticker], [RTO], [SRTT],
    [packetDoneChan]) belongs to the sender's side and is modelled apart. *)
From S2P Require Import Prelude Netip Netstack Utils Ipv4Header Node Pq.
Local Open Scope Z_scope.

Inductive tcp_state : Type :=
  | LISTEN
  | SYN_SENT
  | SYN_RECEIVED
  | ESTABLISHED
  | FIN_WAIT_1
  | FIN_WAIT_2
  | CLOSE_WAIT
  | LAST_ACK
  | TIME_WAIT.
#[global] Instance tcp_state_eq_dec : EqDecision tcp_state.
Proof. solve_decision. Defined.

Definition SYNACK : Z := Z.lor TCPFlagSyn TCPFlagAck.
Definition FINACK : Z := Z.lor TCPFlagFin TCPFlagAck.
Definition WINDOW_SIZE : Z := 65536.
Definition MSS : Z := 1360.

Record ReadBuffer := mkRead {
  r_buffer : list byte;
  r_LBR : Z;
  r_NXT : Z
}.

Record WriteBuffer := mkWrite {
  w_buffer : list byte;
  w_UNA : Z;
  w_NXT : Z;
  w_LBW : Z
}.

Definition zero_buffer : list byte := replicate (Z.to_nat WINDOW_SIZE) Byte.x00.
Definition new_read : ReadBuffer := mkRead zero_buffer 0 1.
Definition new_send : WriteBuffer := mkWrite zero_buffer 1 1 0.

(** The goroutine started by [VClose]: none (or ended), waiting on [finChan] for an
    ACK, past the receive with the ACK in hand, or past the deletion of the number
    from [unackedFINs] and about to change the state. *)
Inductive Closer : Type :=
  | NoCloser
  | Waiting (expected : Z)
  | Got (expected : Z)
  | Deleted.

Record ListenSocket := mkListen { localPort : Z; l_SID : Z }.

Record NormalSocket := mkSock {
  SID : Z;
  readBuffer : ReadBuffer;
  writeBuffer : WriteBuffer;
  state : tcp_state;
  stateMtx : bool;
  baseSeq : Z;
  baseAck : Z;
  ClientWindowSize : Z;
  ackChan : list TCPInfo;
  closer : Closer;
  reapers : nat;
  unackedNums : gmap Z Z;
  unackedFINs : gset Z;
  unackedMtx : bool;
  earlyPQ : list EarlyPacket;
  index : Z;
  sk : SocketTableKey;
  cumWriteUNA : Z;
  cumReadNXT : Z;
  notFirstWrite : bool
}.

Inductive Socket : Type :=
  | Listening (l : ListenSocket)
  | Normal (s : NormalSocket).

Record TCPStack := mkStack {
  SocketTable : gmap SocketTableKey Socket;
  ip : Addr;
  SID_to_sk : gmap Z SocketTableKey;
  nextSID : Z
}.

(** ** Field updates *)
Definition set_read (s : NormalSocket) (r : ReadBuffer) : NormalSocket :=
  mkSock (SID s) r (writeBuffer s) (state s) (stateMtx s) (baseSeq s) (baseAck s) (ClientWindowSize s)
    (ackChan s) (closer s) (reapers s) (unackedNums s) (unackedFINs s) (unackedMtx s) (earlyPQ s)
    (index s) (sk s) (cumWriteUNA s) (cumReadNXT s) (notFirstWrite s).
Definition set_write (s : NormalSocket) (w : WriteBuffer) : NormalSocket :=
  mkSock (SID s) (readBuffer s) w (state s) (stateMtx s) (baseSeq s) (baseAck s) (ClientWindowSize s)
    (ackChan s) (closer s) (reapers s) (unackedNums s) (unackedFINs s) (unackedMtx s) (earlyPQ s)
    (index s) (sk s) (cumWriteUNA s) (cumReadNXT s) (notFirstWrite s).
Definition set_state (s : NormalSocket) (st : tcp_state) : NormalSocket :=
  mkSock (SID s) (readBuffer s) (writeBuffer s) st (stateMtx s) (baseSeq s) (baseAck s)
    (ClientWindowSize s) (ackChan s) (closer s) (reapers s) (unackedNums s) (unackedFINs s)
    (unackedMtx s) (earlyPQ s) (index s) (sk s) (cumWriteUNA s) (cumReadNXT s) (notFirstWrite s).
Definition set_stateMtx (s : NormalSocket) (b : bool) : NormalSocket :=
  mkSock (SID s) (readBuffer s) (writeBuffer s) (state s) b (baseSeq s) (baseAck s)
    (ClientWindowSize s) (ackChan s) (closer s) (reapers s) (unackedNums s) (unackedFINs s)
    (unackedMtx s) (earlyPQ s) (index s) (sk s) (cumWriteUNA s) (cumReadNXT s) (notFirstWrite s).
Definition set_ClientWindowSize (s : NormalSocket) (w : Z) : NormalSocket :=
  mkSock (SID s) (readBuffer s) (writeBuffer s) (state s) (stateMtx s) (baseSeq s) (baseAck s)
    w (ackChan s) (closer s) (reapers s) (unackedNums s) (unackedFINs s)
    (unackedMtx s) (earlyPQ s) (index s) (sk s) (cumWriteUNA s) (cumReadNXT s) (notFirstWrite s).
Definition set_ackChan (s : NormalSocket) (q : list TCPInfo) : NormalSocket :=
  mkSock (SID s) (readBuffer s) (writeBuffer s) (state s) (stateMtx s) (baseSeq s) (baseAck s)
    (ClientWindowSize s) q (closer s) (reapers s) (unackedNums s) (unackedFINs s)
    (unackedMtx s) (earlyPQ s) (index s) (sk s) (cumWriteUNA s) (cumReadNXT s) (notFirstWrite s).
Definition set_closer (s : NormalSocket) (c : Closer) : NormalSocket :=
  mkSock (SID s) (readBuffer s) (writeBuffer s) (state s) (stateMtx s) (baseSeq s) (baseAck s)
    (ClientWindowSize s) (ackChan s) c (reapers s) (unackedNums s) (unackedFINs s)
    (unackedMtx s) (earlyPQ s) (index s) (sk s) (cumWriteUNA s) (cumReadNXT s) (notFirstWrite s).
Definition set_reapers (s : NormalSocket) (k : nat) : NormalSocket :=
  mkSock (SID s) (readBuffer s) (writeBuffer s) (state s) (stateMtx s) (baseSeq s) (baseAck s)
    (ClientWindowSize s) (ackChan s) (closer s) k (unackedNums s) (unackedFINs s)
    (unackedMtx s) (earlyPQ s) (index s) (sk s) (cumWriteUNA s) (cumReadNXT s) (notFirstWrite s).
Definition set_unackedNums (s : NormalSocket) (m : gmap Z Z) : NormalSocket :=
  mkSock (SID s) (readBuffer s) (writeBuffer s) (state s) (stateMtx s) (baseSeq s) (baseAck s)
    (ClientWindowSize s) (ackChan s) (closer s) (reapers s) m (unackedFINs s)
    (unackedMtx s) (earlyPQ s) (index s) (sk s) (cumWriteUNA s) (cumReadNXT s) (notFirstWrite s).
Definition set_unackedFINs (s : NormalSocket) (m : gset Z) : NormalSocket :=
  mkSock (SID s) (readBuffer s) (writeBuffer s) (state s) (stateMtx s) (baseSeq s) (baseAck s)
    (ClientWindowSize s) (ackChan s) (closer s) (reapers s) (unackedNums s) m
    (unackedMtx s) (earlyPQ s) (index s) (sk s) (cumWriteUNA s) (cumReadNXT s) (notFirstWrite s).
Definition set_unackedMtx (s : NormalSocket) (b : bool) : NormalSocket :=
  mkSock (SID s) (readBuffer s) (writeBuffer s) (state s) (stateMtx s) (baseSeq s) (baseAck s)
    (ClientWindowSize s) (ackChan s) (closer s) (reapers s) (unackedNums s) (unackedFINs s)
    b (earlyPQ s) (index s) (sk s) (cumWriteUNA s) (cumReadNXT s) (notFirstWrite s).
Definition set_earlyPQ (s : NormalSocket) (q : list EarlyPacket) : NormalSocket :=
  mkSock (SID s) (readBuffer s) (writeBuffer s) (state s) (stateMtx s) (baseSeq s) (baseAck s)
    (ClientWindowSize s) (ackChan s) (closer s) (reapers s) (unackedNums s) (unackedFINs s)
    (unackedMtx s) q (index s) (sk s) (cumWriteUNA s) (cumReadNXT s) (notFirstWrite s).
Definition set_index (s : NormalSocket) (i : Z) : NormalSocket :=
  mkSock (SID s) (readBuffer s) (writeBuffer s) (state s) (stateMtx s) (baseSeq s) (baseAck s)
    (ClientWindowSize s) (ackChan s) (closer s) (reapers s) (unackedNums s) (unackedFINs s)
    (unackedMtx s) (earlyPQ s) i (sk s) (cumWriteUNA s) (cumReadNXT s) (notFirstWrite s).
Definition set_cumWriteUNA (s : NormalSocket) (v : Z) : NormalSocket :=
  mkSock (SID s) (readBuffer s) (writeBuffer s) (state s) (stateMtx s) (baseSeq s) (baseAck s)
    (ClientWindowSize s) (ackChan s) (closer s) (reapers s) (unackedNums s) (unackedFINs s)
    (unackedMtx s) (earlyPQ s) (index s) (sk s) v (cumReadNXT s) (notFirstWrite s).
Definition set_cumReadNXT (s : NormalSocket) (v : Z) : NormalSocket :=
  mkSock (SID s) (readBuffer s) (writeBuffer s) (state s) (stateMtx s) (baseSeq s) (baseAck s)
    (ClientWindowSize s) (ackChan s) (closer s) (reapers s) (unackedNums s) (unackedFINs s)
    (unackedMtx s) (earlyPQ s) (index s) (sk s) (cumWriteUNA s) v (notFirstWrite s).
Definition set_notFirstWrite (s : NormalSocket) (b : bool) : NormalSocket :=
  mkSock (SID s) (readBuffer s) (writeBuffer s) (state s) (stateMtx s) (baseSeq s) (baseAck s)
    (ClientWindowSize s) (ackChan s) (closer s) (reapers s) (unackedNums s) (unackedFINs s)
    (unackedMtx s) (earlyPQ s) (index s) (sk s) (cumWriteUNA s) (cumReadNXT s) b.

(** ** Segments *)
Record TCPPacket := mkSeg {
  sourceIp : Addr;
  destIp : Addr;
  payload : list byte;
  flags : Z;
  sourcePort : Z;
  destPort : Z;
  seqNum : Z;
  ackNum : Z;
  window : Z
}.

(** The window a socket advertises: [uint16((LBR - NXT + WINDOW_SIZE) % WINDOW_SIZE)]
    on [uint32] pointers. *)
Definition free_space (r : ReadBuffer) : Z := u32 (r_LBR r - r_NXT r + WINDOW_SIZE) mod WINDOW_SIZE.
Definition adv_window (r : ReadBuffer) : Z := u16 (free_space r).

Section segments.
Context `{NS : Netstack} `{MI : MapIter}.

Definition seg_fields (p : TCPPacket) (c : Z) : TCPFields :=
  mkTCPFields (sourcePort p) (destPort p) (seqNum p) (ackNum p) 20 (flags p) (window p) c 0.

Definition marshallTCPPacket (p : TCPPacket) : list byte :=
  let checksum := ComputeTCPChecksum (seg_fields p 0) (sourceIp p) (destIp p) (payload p) in
  ns_Encode (seg_fields p checksum) ++ payload p.

(** [n.HandleSend(dst, p.marshallTCPPacket(), 6)]. *)
Definition send_segment (n : Node) (p : TCPPacket) : outcome (list event) :=
  HandleSend n (destIp p) (marshallTCPPacket p) 6.

Definition seg_wf (p : TCPPacket) : Prop :=
  Addr_wf (sourceIp p) /\ Addr_wf (destIp p) /\
  0 <= sourcePort p < 2 ^ 16 /\ 0 <= destPort p < 2 ^ 16 /\
  0 <= seqNum p < 2 ^ 32 /\ 0 <= ackNum p < 2 ^ 32 /\
  0 <= flags p < 2 ^ 8 /\ 0 <= window p < 2 ^ 16.

(** What the receiving node's [protocol6] passes to its TCP stack. *)
Definition seg_info (local : Addr) (p : TCPPacket) : TCPInfo :=
  mkTCPInfo (mkKey (sourceIp p) (sourcePort p) local (destPort p)) (flags p) (seqNum p) (ackNum p)
    (window p) (payload p).

End segments.
