(* ===== verification/TcpSegments.v ===== *)
(** * TCP segments on the wire

    [marshallTCPPacket] against the receiving node's [protocol6]: a segment
    crosses the IP layer unchanged. *)
From S2P Require Import Prelude Rip Netip Ipv4Header Netstack Utils Config Node Routing RipProto Packets Pq TcpTypes.
Local Open Scope Z_scope.

Section segments.
Context `{NS : Netstack} `{NL : !NetstackLaws} `{MI : MapIter} `{L : !MapIterLaws}.

Lemma rfc1071_range b i : 0 <= i < 2 ^ 16 -> 0 <= rfc1071 b i < 2 ^ 16.
Proof. intros. destruct (rfc1071_spec b i) as (? & _); lia. Qed.

Lemma ComputeTCPChecksum_range f src dst pl : 0 <= ComputeTCPChecksum f src dst pl < 2 ^ 16.
Proof.
  unfold ComputeTCPChecksum. cbv zeta.
  assert (H : forall b i, 0 <= i < 2 ^ 16 -> 0 <= ns_Checksum b i < 2 ^ 16)
    by (intros b i Hi; rewrite checksum_rfc1071 by done; by apply rfc1071_range).
  set (c := ns_Checksum pl _). assert (Hc : 0 <= c < 2 ^ 16) by (apply H, H, H; lia).
  rewrite lxor_ffff by lia. lia.
Qed.

Lemma seg_fields_wf p c : seg_wf p -> 0 <= c < 2 ^ 16 -> TCPFields_wf (seg_fields p c).
Proof.
  unfold seg_wf, TCPFields_wf, seg_fields. cbn [f_SrcPort f_DstPort f_SeqNum f_AckNum f_DataOffset
    f_Flags f_WindowSize f_Checksum]. intuition lia.
Qed.

Lemma ParseTCPHeader_marshall p :
  seg_wf p -> ParseTCPHeader (marshallTCPPacket p) =
    Ret (seg_fields p (ComputeTCPChecksum (seg_fields p 0) (sourceIp p) (destIp p) (payload p))).
Proof.
  intros Hwf. unfold ParseTCPHeader, marshallTCPPacket. cbv zeta.
  pose proof (seg_fields_wf p _ Hwf
    (ComputeTCPChecksum_range (seg_fields p 0) (sourceIp p) (destIp p) (payload p))) as Hf.
  rewrite encode_SourcePort, encode_DestinationPort, encode_SequenceNumber, encode_AckNumber,
    encode_DataOffset, encode_Flags, encode_WindowSize, encode_Checksum by done.
  reflexivity.
Qed.

Lemma zlen_marshall p : zlen (marshallTCPPacket p) = 20 + zlen (payload p).
Proof. unfold marshallTCPPacket. cbv zeta. by rewrite zlen_app, encode_length. Qed.

Lemma protocol6_marshall n p message h :
  seg_wf p -> slice_wf message -> slice_bytes message = marshallTCPPacket p ->
  h_Src h = sourceIp p -> h_Dst h = destIp p ->
  protocol6 n message h = Ret [ETCP (seg_info (IpAddr n) p)].
Proof.
  intros Hwf Hm Hb Hs Hd. unfold protocol6. rewrite Hb, ParseTCPHeader_marshall by done.
  cbn [mbind outcome_bind seg_fields f_DataOffset].
  assert (Hlen : s_len message = 20 + zlen (payload p)).
  { unfold slice_wf in Hm. rewrite <- zlen_marshall, <- Hb. unfold slice_bytes.
    by rewrite zlen_ztake. }
  zlen_facts.
  destruct (slice_from message 20) as [pl|e|e] eqn:Epl;
    [|unfold slice_from, slice_wf in *; rewrite slice_range_ok in Epl by lia; done..].
  assert (Hpl : slice_bytes pl = payload p).
  { erewrite slice_range_bytes; [|done|exact Epl|lia]. rewrite Hb, Hlen. unfold marshallTCPPacket. cbv zeta.
    unfold zsub. rewrite zdrop_app_exact by (by rewrite encode_length). apply ztake_all. lia. }
  cbn [mbind outcome_bind]. rewrite Hpl, Hs, Hd. cbn [set_f_Checksum f_Checksum].
  rewrite bool_decide_false by (intros H1; apply H1; reflexivity). reflexivity.
Qed.

Definition seg_checksum (p : TCPPacket) (ttl : Z) : Z :=
  packet_checksum (sourceIp p) (destIp p) 6 ttl (20 + zlen (payload p)).

(** C13. A TCP segment with at most MSS bytes crosses the IP layer unchanged:
    marshalled, wrapped by [makePacket] and received by a node that owns the
    destination address, it reaches the TCP stack as the same ports, numbers,
    flags, window and payload (unless the IP header checksum is zero). *)
Theorem segment_delivered (now : Z) (n : Node) (p : TCPPacket) (ttl : Z) :
  seg_wf p -> zlen (payload p) <= MSS -> 1 <= ttl < 256 -> checkDest n (destIp p) = true ->
  handlerTable n !! 6 = Some Protocol6 -> seg_checksum p ttl <> 0 ->
  exists b, makePacket (sourceIp p) (destIp p) 6 ttl (marshallTCPPacket p) = Ret b /\
    handlePackets now n (recv_buffer b) = Ret (n, [ETCP (seg_info (IpAddr n) p)]).
Proof.
  intros Hwf Hl Ht Hd Hh Hc. unfold MSS in Hl. assert (Hwf' := Hwf). destruct Hwf' as (Hs & Hds & _).
  zlen_facts.
  destruct (packet_handled now n (sourceIp p) (destIp p) 6 ttl (marshallTCPPacket p))
    as (b & m & h & Hb & Hm & Hmw & _ & E & Es & Ed).
  - unfold sendable, HeaderLen. rewrite zlen_marshall. repeat (split; [done || lia|]). lia.
  - lia.
  - done.
  - by rewrite zlen_marshall.
  - exists b. split; [done|]. rewrite E. unfold call_handler. rewrite Hh.
    rewrite ztake_all in Hm by (rewrite zlen_marshall; lia).
    by rewrite (protocol6_marshall n p m h).
Qed.
End segments.
