(* ===== verification/TcpRing.v ===== *)
(** * The receive ring ([ReadBuffer], the copy loop of [ReceiverThread], [VRead])

    The ring of [WINDOW_SIZE] bytes is refined to the list of its readable bytes:
    storing a payload appends to the list, [VRead] takes a prefix of it. *)
From S2P Require Import Prelude Netip Netstack Node Pq TcpTypes.
Local Open Scope Z_scope.
Local Open Scope go_scope.

(** ** Operations *)
(** [for to_add > 0 { ... }]; a round stores at least one byte, so one unit of
    fuel per byte is enough. *)
Fixpoint copy_loop (fuel : nat) (r : ReadBuffer) (pl : list byte) : ReadBuffer :=
  match fuel with
  | O => r
  | S fuel' =>
      if bool_decide (0 < zlen pl) then
        let curr := Z.min (u32 (WINDOW_SIZE - r_NXT r)) (zlen pl) in
        let buf := zcopy (r_buffer r) (r_NXT r) (ztake curr pl) in
        copy_loop fuel' (mkRead buf (r_LBR r) (u32 (r_NXT r + curr) mod WINDOW_SIZE)) (zdrop curr pl)
      else r
  end.
Definition copy_in (r : ReadBuffer) (pl : list byte) : ReadBuffer := copy_loop (length pl) r pl.

(** [append(buf[a:b], extra...)]: the result and the array afterwards; the append
    is in place when the array has room. *)
Definition append_sub (buf : list byte) (a b : Z) (extra : list byte) : list byte * list byte :=
  (zsub a b buf ++ extra,
   if bool_decide (b + zlen extra <= zlen buf) then zcopy buf b extra else buf).

Definition num_buf (r : ReadBuffer) : Z := u32 (r_NXT r - 1 - r_LBR r + WINDOW_SIZE) mod WINDOW_SIZE.

(** The bytes a read takes from a buffer of which [num] bytes were counted, and the
    buffer after it. *)
Definition read_bytes (r : ReadBuffer) (num numbytes : Z) : list byte * ReadBuffer :=
  let num_read := Z.min num numbytes in
  let first_seg := Z.min (u32 (r_LBR r + num_read)) (WINDOW_SIZE - 1) in
  let second_seg := u32 (num_read - (first_seg - r_LBR r)) in
  let '(toRead, buf) := append_sub (r_buffer r) (r_LBR r + 1) (first_seg + 1) (zsub 0 second_seg (r_buffer r)) in
  (toRead, mkRead buf (u32 (r_LBR r + num_read) mod WINDOW_SIZE) (r_NXT r)).

(** [VRead] has three parts.  First the test of the state, under [stateMtx], which
    a socket still in SYN_SENT has as a nil pointer; the result is the error.  Then the
    bytes are counted, under no lock ([num_buf]). *)
Definition VRead_test (s : NormalSocket) : outcome (option string) :=
  if bool_decide (state s = SYN_SENT) then Panic "nil pointer dereference"
  else if stateMtx s then Block "stateMtx"
  else if bool_decide (state s = CLOSE_WAIT \/ state s = LAST_ACK) then Ret (Some "sock closed")
  else Ret None.

(** Then the part under [readMtx], with the [num] counted before: the call waits when
    that is 0; woken by the receiver it counts again under the lock, so it goes on as
    [VRead_locked s (num_buf (readBuffer s))].  [write_err] is the error of [file.Write]
    when a file is given.  The result is the error or the bytes. *)
Definition VRead_locked (s : NormalSocket) (num numbytes : Z) (write_err : option string) :
    outcome ((string + list byte) * NormalSocket) :=
  if bool_decide (num = 0) then Block "readCond.Wait"
  else
    let '(toRead, r) := read_bytes (readBuffer s) num numbytes in
    match write_err with
    | Some e => Ret (inl e, set_read s (mkRead (r_buffer r) (r_LBR (readBuffer s)) (r_NXT r)))
    | None => Ret (inr toRead, set_read s r)
    end.

(** The whole call, when nothing comes between its parts. *)
Definition VRead (s : NormalSocket) (numbytes : Z) (write_err : option string) :
    outcome ((string + list byte) * NormalSocket) :=
  err ← VRead_test s;
  match err with
  | Some e => Ret (inl e, s)
  | None => VRead_locked s (num_buf (readBuffer s)) numbytes write_err
  end.

(** ** The abstraction: readable bytes in order *)
Definition read_wf (r : ReadBuffer) : Prop :=
  zlen (r_buffer r) = WINDOW_SIZE /\ 0 <= r_LBR r < WINDOW_SIZE /\ 0 <= r_NXT r < WINDOW_SIZE.

Definition ring_slice (buf : list byte) (start len : Z) : list byte :=
  ztake len (zdrop start buf ++ ztake start buf).

Definition readable (r : ReadBuffer) : list byte :=
  ring_slice (r_buffer r) ((r_LBR r + 1) mod WINDOW_SIZE) (num_buf r).

Lemma u32_mod_W x : u32 x mod WINDOW_SIZE = x mod WINDOW_SIZE.
Proof. unfold u32, WINDOW_SIZE. change (2 ^ 32) with (65536 * 65536). Z.div_mod_to_equations. lia. Qed.

Lemma num_buf_eq r : num_buf r = (r_NXT r - 1 - r_LBR r) mod WINDOW_SIZE.
Proof. unfold num_buf. rewrite u32_mod_W. unfold WINDOW_SIZE. Z.div_mod_to_equations. lia. Qed.

Lemma free_space_eq r : free_space r = (r_LBR r - r_NXT r) mod WINDOW_SIZE.
Proof. unfold free_space. rewrite u32_mod_W. unfold WINDOW_SIZE. Z.div_mod_to_equations. lia. Qed.

Lemma num_buf_free r : num_buf r + free_space r = WINDOW_SIZE - 1.
Proof. rewrite num_buf_eq, free_space_eq. unfold WINDOW_SIZE. Z.div_mod_to_equations. lia. Qed.

Lemma num_buf_range r : 0 <= num_buf r < WINDOW_SIZE.
Proof. rewrite num_buf_eq. apply Z.mod_pos_bound. done. Qed.

Lemma zlen_ring_slice buf start len :
  zlen buf = WINDOW_SIZE -> 0 <= start <= WINDOW_SIZE -> 0 <= len <= WINDOW_SIZE ->
  zlen (ring_slice buf start len) = len.
Proof.
  intros Hb Hs Hl. unfold ring_slice. apply zlen_ztake.
  rewrite zlen_app, zlen_zdrop, zlen_ztake by lia. lia.
Qed.

Lemma zget_ring buf start len k :
  zlen buf = WINDOW_SIZE -> 0 <= start < WINDOW_SIZE -> 0 <= k < len -> len <= WINDOW_SIZE ->
  zget (ring_slice buf start len) k = zget buf ((start + k) mod WINDOW_SIZE).
Proof.
  intros Hb Hs Hk Hl. unfold ring_slice. rewrite zget_ztake by lia.
  rewrite zget_app, zlen_zdrop by lia. case_decide as Hd.
  - rewrite zget_zdrop, Z.mod_small by lia. done.
  - rewrite zget_ztake by lia. f_equal. rewrite Hb in *. unfold WINDOW_SIZE in *.
    Z.div_mod_to_equations. lia.
Qed.

Lemma zlen_readable r : read_wf r -> zlen (readable r) = num_buf r.
Proof.
  intros (Hb & Hl & Hn). pose proof (num_buf_range r). apply zlen_ring_slice; [done| |lia].
  pose proof (Z.mod_pos_bound (r_LBR r + 1) WINDOW_SIZE ltac:(done)). lia.
Qed.

Lemma zget_readable r k :
  read_wf r -> 0 <= k < num_buf r ->
  zget (readable r) k = zget (r_buffer r) ((r_LBR r + 1 + k) mod WINDOW_SIZE).
Proof.
  intros (Hb & Hl & Hn) Hk. pose proof (num_buf_range r). unfold readable.
  rewrite zget_ring; [|done|apply Z.mod_pos_bound; done|done|lia].
  f_equal. apply Zplus_mod_idemp_l.
Qed.

(** ** Storing *)
Lemma mod_offset i n W : 0 < W -> 0 <= i < W -> 0 <= n < W ->
  (i - n) mod W = if decide (n <= i) then i - n else i - n + W.
Proof.
  intros. case_decide; [apply Z.mod_small; lia|].
  rewrite <- (Z.mod_add (i - n) 1 W), Z.mul_1_l by lia. apply Z.mod_small. lia.
Qed.

Lemma copy_nil_spec r :
  read_wf r ->
  read_wf r /\ r_LBR r = r_LBR r /\ r_NXT r = (r_NXT r + zlen (@nil byte)) mod WINDOW_SIZE /\
  forall i, 0 <= i < WINDOW_SIZE ->
    zget (r_buffer r) i =
      let d := (i - r_NXT r) mod WINDOW_SIZE in
      if decide (d < zlen (@nil byte)) then zget [] d else zget (r_buffer r) i.
Proof.
  intros (Hb & ? & ?). change (zlen (@nil byte)) with 0.
  rewrite Z.add_0_r, Z.mod_small by done. repeat split; try done; try lia.
  intros i Hi. cbv zeta. rewrite decide_False; [done|].
  pose proof (Z.mod_pos_bound (i - r_NXT r) WINDOW_SIZE ltac:(done)). lia.
Qed.

Lemma copy_loop_spec fuel r pl :
  (length pl <= fuel)%nat -> read_wf r -> zlen pl <= WINDOW_SIZE ->
  let r' := copy_loop fuel r pl in
  read_wf r' /\ r_LBR r' = r_LBR r /\ r_NXT r' = (r_NXT r + zlen pl) mod WINDOW_SIZE /\
  forall i, 0 <= i < WINDOW_SIZE ->
    zget (r_buffer r') i =
      let d := (i - r_NXT r) mod WINDOW_SIZE in
      if decide (d < zlen pl) then zget pl d else zget (r_buffer r) i.
Proof.
  revert r pl. induction fuel as [|fuel IH]; intros r pl Hf Hr Hl; cbn zeta.
  - assert (pl = []) as -> by (destruct pl; simpl in *; [done|lia]).
    by apply copy_nil_spec.
  - cbn [copy_loop]. case_bool_decide as Hpos.
    2:{ assert (pl = []) as -> by (destruct pl; [done|]; unfold zlen in Hpos; simpl in Hpos; lia).
        by apply copy_nil_spec. }
    destruct Hr as (Hb & HL & HN).
    rewrite (u32_small (WINDOW_SIZE - r_NXT r)) by (unfold WINDOW_SIZE in *; lia).
    set (curr := Z.min (WINDOW_SIZE - r_NXT r) (zlen pl)).
    assert (Hcurr : 0 < curr <= zlen pl /\ r_NXT r + curr <= WINDOW_SIZE) by lia.
    assert (Htk : zlen (ztake curr pl) = curr) by (apply zlen_ztake; lia).
    assert (Hrest : zlen (zdrop curr pl) = zlen pl - curr) by (apply zlen_zdrop; lia).
    set (r1 := mkRead _ _ _).
    destruct (IH r1 (zdrop curr pl)) as (W1 & W2 & W3 & W4).
    { unfold zlen in *. lia. }
    { split; [|split]; cbn [r1 r_buffer r_LBR r_NXT]; [rewrite zlen_zcopy; lia|done|].
      apply Z.mod_pos_bound. done. }
    { lia. }
    assert (HN1 : r_NXT r1 = (r_NXT r + curr) mod WINDOW_SIZE) by (cbn [r1 r_NXT]; apply u32_mod_W).
    split; [done|]. split; [done|]. split.
    { rewrite W3, HN1, Hrest, Zplus_mod_idemp_l. f_equal. lia. }
    intros i Hi. rewrite W4 by done. cbv zeta. rewrite HN1, Hrest, Zminus_mod_idemp_r.
    cbn [r1 r_buffer]. rewrite zget_zcopy, Htk by lia.
    rewrite (mod_offset i (r_NXT r)) by lia.
    assert (Hoff : (i - (r_NXT r + curr)) mod WINDOW_SIZE =
      if decide (r_NXT r + curr <= i) then i - r_NXT r - curr else i - r_NXT r - curr + WINDOW_SIZE)
      by (case_decide; unfold WINDOW_SIZE in *; Z.div_mod_to_equations; lia).
    rewrite Hoff. clear Hoff W1 W2 W3 W4 IH.
    repeat case_decide; try lia; try done;
      first [rewrite zget_zdrop by lia; f_equal; lia | rewrite zget_ztake by lia; done | f_equal; lia].
Qed.

Lemma copy_in_spec r pl :
  read_wf r -> zlen pl <= WINDOW_SIZE ->
  let r' := copy_in r pl in
  read_wf r' /\ r_LBR r' = r_LBR r /\ r_NXT r' = (r_NXT r + zlen pl) mod WINDOW_SIZE /\
  forall i, 0 <= i < WINDOW_SIZE ->
    zget (r_buffer r') i =
      let d := (i - r_NXT r) mod WINDOW_SIZE in
      if decide (d < zlen pl) then zget pl d else zget (r_buffer r) i.
Proof. intros. by apply copy_loop_spec. Qed.

(** A payload that fits the free space is appended to the readable bytes. *)
Lemma readable_copy_in r pl :
  read_wf r -> zlen pl <= free_space r ->
  readable (copy_in r pl) = readable r ++ pl /\ free_space (copy_in r pl) = free_space r - zlen pl.
Proof.
  intros Hr Hl. pose proof (num_buf_free r) as Hnf. pose proof (num_buf_range r) as Hnr.
  destruct (copy_in_spec r pl Hr ltac:(lia)) as (W1 & W2 & W3 & W4). set (r' := copy_in r pl) in *.
  zlen_facts. pose proof (num_buf_free r') as Hnf'.
  assert (Hnb : num_buf r' = num_buf r + zlen pl).
  { rewrite !num_buf_eq, W2, W3. rewrite num_buf_eq, free_space_eq in *.
    destruct Hr as (_ & ? & ?). unfold WINDOW_SIZE in *. Z.div_mod_to_equations. lia. }
  split; [|lia]. apply zget_ext.
  - rewrite zlen_app, !zlen_readable by done. lia.
  - intros k Hk. rewrite zlen_readable in Hk by done. rewrite zget_readable by done.
    rewrite zget_app, zlen_readable by done. rewrite W2, W4 by (apply Z.mod_pos_bound; done).
    cbv zeta. rewrite Zminus_mod_idemp_l.
    assert (Hpos : (r_LBR r + 1 + k - r_NXT r) mod WINDOW_SIZE = (k - num_buf r) mod WINDOW_SIZE).
    { rewrite num_buf_eq, Zminus_mod_idemp_r. f_equal. lia. }
    rewrite Hpos, mod_offset by lia. repeat case_decide; try lia; try done.
    rewrite zget_readable; [done|done|lia].
Qed.

(** ** Reading *)
(** [append] never writes into the ring: when the read wraps, the first part ends
    at the end of the array and has no spare capacity. *)
Lemma read_bytes_spec r num numbytes :
  read_wf r -> 0 <= num <= num_buf r -> 0 <= numbytes < 2 ^ 16 ->
  let m := Z.min num numbytes in
  read_bytes r num numbytes =
    (ztake m (readable r), mkRead (r_buffer r) ((r_LBR r + m) mod WINDOW_SIZE) (r_NXT r)).
Proof.
  intros Hr Hnum Hn m. assert (Hwf := Hr). destruct Hr as (Hb & HL & HN).
  pose proof (num_buf_range r). assert (Hm : 0 <= m <= num_buf r) by lia.
  unfold read_bytes. fold m. rewrite u32_mod_W. unfold WINDOW_SIZE in *.
  rewrite (u32_small (r_LBR r + m)) by lia.
  set (fs := Z.min (r_LBR r + m) (65536 - 1)).
  rewrite (u32_small (m - (fs - r_LBR r))) by lia.
  set (ss := m - (fs - r_LBR r)). unfold append_sub.
  assert (Hz : zlen (zsub 0 ss (r_buffer r)) = ss) by (rewrite zlen_zsub by lia; lia).
  f_equal.
  - apply zget_ext.
    + rewrite zlen_app, zlen_zsub, Hz, zlen_ztake by (rewrite ?zlen_readable by done; lia). lia.
    + intros k Hk. rewrite zlen_app, zlen_zsub, Hz in Hk by lia.
      rewrite zget_app, zlen_zsub by lia. rewrite (zget_ztake m) by lia.
      rewrite zget_readable by (done || lia). unfold WINDOW_SIZE. case_decide.
      * rewrite zget_zsub by lia. rewrite Z.mod_small by lia. f_equal; lia.
      * rewrite zget_zsub by lia. f_equal. Z.div_mod_to_equations. lia.
  - f_equal. case_bool_decide; [|done]. rewrite Hz in *.
    assert (Hss : zsub 0 ss (r_buffer r) = []) by (apply ztake_nil_nonpos; lia).
    rewrite Hss. unfold zcopy. cbn [app]. change (zlen (@nil byte)) with 0. rewrite Z.add_0_r. apply ztake_zdrop.
Qed.

Lemma readable_advance r m :
  read_wf r -> 0 <= m <= num_buf r ->
  let r' := mkRead (r_buffer r) ((r_LBR r + m) mod WINDOW_SIZE) (r_NXT r) in
  read_wf r' /\ readable r' = zdrop m (readable r) /\ free_space r' = free_space r + m.
Proof.
  intros Hr Hm r'. assert (Hwf := Hr). destruct Hr as (Hb & HL & HN).
  pose proof (num_buf_range r). pose proof (num_buf_free r). pose proof (num_buf_free r').
  assert (Hw : read_wf r') by (split; [done|]; split; [apply Z.mod_pos_bound; done|done]).
  assert (Hnb : num_buf r' = num_buf r - m).
  { rewrite !num_buf_eq in *. cbn [r' r_LBR r_NXT]. unfold WINDOW_SIZE in *. Z.div_mod_to_equations. lia. }
  split; [done|]. split; [|lia]. apply zget_ext.
  - rewrite zlen_zdrop, !zlen_readable by (rewrite ?zlen_readable by done; done || lia). lia.
  - intros k Hk. rewrite zlen_readable in Hk by done.
    rewrite zget_zdrop, !zget_readable by (done || lia). cbn [r' r_buffer r_LBR]. f_equal.
    rewrite <- Z.add_assoc, Zplus_mod_idemp_l. f_equal. lia.
Qed.

(** C11. [VRead] is a FIFO read of the byte stream: it waits exactly while nothing
    is readable, otherwise returns the first [min(numbytes, available)] bytes in
    order, wrapped or not; exactly those bytes are consumed, the window grows by
    their number, and the ring's contents are not disturbed by the appends. *)
Theorem VRead_fifo (s : NormalSocket) (numbytes : Z) :
  read_wf (readBuffer s) -> 0 <= numbytes < 2 ^ 16 -> stateMtx s = false ->
  state s <> SYN_SENT -> state s <> CLOSE_WAIT -> state s <> LAST_ACK ->
  match readable (readBuffer s) with
  | [] => VRead s numbytes None = Block "readCond.Wait"
  | bs =>
      exists r', VRead s numbytes None = Ret (inr (ztake numbytes bs), set_read s r') /\
        read_wf r' /\ readable r' = zdrop numbytes bs /\ r_buffer r' = r_buffer (readBuffer s) /\
        free_space r' = free_space (readBuffer s) + Z.min numbytes (zlen bs)
  end.
Proof.
  intros Hr Hn Hm H0 H1 H2. unfold VRead, VRead_test.
  rewrite (bool_decide_false (state s = SYN_SENT)), Hm, bool_decide_false by (done || by intros [?|?]).
  cbn [mbind outcome_bind]. unfold VRead_locked.
  pose proof (zlen_readable _ Hr) as Hl. pose proof (num_buf_range (readBuffer s)).
  destruct (readable (readBuffer s)) as [|b bs] eqn:E.
  - rewrite bool_decide_true; [done|]. rewrite <- Hl. reflexivity.
  - rewrite bool_decide_false by (unfold zlen in Hl; simpl in Hl; lia).
    rewrite read_bytes_spec by (done || lia). cbv zeta.
    destruct (readable_advance (readBuffer s) (Z.min (num_buf (readBuffer s)) numbytes)) as (W & Hd & Hf);
      [done|lia|].
    rewrite E in *. eexists. split; [|split; [exact W|split; [|split; [done|rewrite Hf, Hl; lia]]]].
    + do 3 f_equal. destruct (decide (numbytes <= num_buf (readBuffer s))); [f_equal; lia|].
      rewrite !ztake_all by lia. done.
    + rewrite Hd. destruct (decide (numbytes <= num_buf (readBuffer s))); [f_equal; lia|].
      rewrite !zdrop_all by lia. done.
Qed.
