(* ===== verification/TcpReceiver.v ===== *)
(** * The receiver of a connection ([ReceiverThread])

    One iteration of the loop as a function of the socket and the segment taken
    from [normalChan].  [readMtx] is released on every path that does not block,
    so the iteration is one step; the mutexes that a path may leave locked are
    fields of the socket. *)
From S2P Require Import Prelude Netip Netstack Ipv4Header Node Pq TcpTypes TcpRing.
Local Open Scope Z_scope.
Local Open Scope go_scope.

(** How an iteration ends: with [continue] or at the bottom without a reply, with
    an ACK to send, or waiting on [finChan] for ever with [unackedMtx] held. *)
Inductive rx_end : Type :=
  | NoReply
  | Reply (p : TCPPacket)
  | StuckFin.

(** The FIN branch: [stateMtx] is taken and released in two states only. *)
Definition fin_transition (s : NormalSocket) : outcome NormalSocket :=
  if stateMtx s then Block "stateMtx"
  else match state s with
       | ESTABLISHED => Ret (set_state s CLOSE_WAIT)
       | FIN_WAIT_2 => Ret (set_reapers (set_state s TIME_WAIT) (S (reapers s)))
       | _ => Ret (set_stateMtx s true)
       end.

(** Store a payload that starts at sequence number [seq]. *)
Definition store_payload (s : NormalSocket) (seq : Z) (pl : list byte) : NormalSocket :=
  let cum := seq ⊕ u32 (zlen pl) in
  let r := copy_in (readBuffer s) pl in
  let nxt := u32 (cum - baseAck s + WINDOW_SIZE) mod WINDOW_SIZE in
  set_read (set_cumReadNXT s cum) (mkRead (r_buffer r) (r_LBR r) nxt).

(** The loop over early arrivals; each round pops one packet. *)
Fixpoint drain_early (fuel : nat) (s : NormalSocket) : outcome NormalSocket :=
  match fuel with
  | O => Ret s
  | S fuel' =>
      match earlyPQ s with
      | [] => Ret s
      | root :: _ =>
          if bool_decide (Priority root <= cumReadNXT s) then
            if bool_decide (Priority root < cumReadNXT s) then
              '(_, q) ← heap_Pop (earlyPQ s);
              drain_early fuel' (set_earlyPQ s q)
            else
              '(earlyPacket, q) ← heap_Pop (earlyPQ s);
              let s := set_earlyPQ s q in
              if bool_decide (0 < Z.land (PFlags earlyPacket) TCPFlagFin) then
                s ← fin_transition s;
                drain_early fuel' s
              else
                drain_early fuel' (store_payload s (Priority earlyPacket) (PPayload earlyPacket))
          else Ret s
      end
  end.

(** The ACK sent back, addressed with the flipped key of the segment. *)
Definition ack_segment (s : NormalSocket) (received : TCPInfo) : TCPPacket :=
  let k := ti_key received in
  mkSeg (RemoteAddr k) (LocalAddr k) [] TCPFlagAck (RemotePort k) (LocalPort k)
    (AckNum received) (cumReadNXT s) (adv_window (readBuffer s)).

(** From the early-arrival loop to the reply. *)
Definition finish_receive (s : NormalSocket) (received : TCPInfo) : outcome (NormalSocket * rx_end) :=
  s ← drain_early (length (earlyPQ s)) s;
  Ret (s, Reply (ack_segment s received)).

Definition push_early (s : NormalSocket) (received : TCPInfo) : NormalSocket :=
  let ep := mkEarly (SeqNum received) (index s) (Flag received) (Payload received) in
  set_earlyPQ (set_index s (index s + 1)) (heap_Push (earlyPQ s) ep).

(** The part after the acknowledgement bookkeeping: ordering, FIN, data. *)
Definition receive_ordered (s : NormalSocket) (received : TCPInfo) : outcome (NormalSocket * rx_end) :=
  if bool_decide (cumReadNXT s < SeqNum received) then Ret (push_early s received, NoReply)
  else if bool_decide (0 < Z.land (Flag received) TCPFlagFin) then
    s ← fin_transition (set_cumReadNXT s (cumReadNXT s ⊕ 1));
    finish_receive s received
  else if bool_decide (free_space (readBuffer s) <> 0) then
    finish_receive (store_payload s (SeqNum received) (Payload received)) received
  else Ret (s, NoReply).

Definition ReceiverThread_body (s : NormalSocket) (received : TCPInfo) : outcome (NormalSocket * rx_end) :=
  if bool_decide (0 < Z.land (Flag received) TCPFlagAck) then
    let s := set_ClientWindowSize s (WindowSize received) in
    if unackedMtx s then Block "unackedMtx"
    else if bool_decide (AckNum received ∈ unackedFINs s) then
      match closer s with
      | Waiting e =>
          Ret (if bool_decide (AckNum received = e) then set_closer s (Got e) else s, NoReply)
      | _ => Ret (set_unackedMtx s true, StuckFin)
      end
    else if bool_decide (is_Some (unackedNums s !! AckNum received) /\ Payload received = []) then
      if bool_decide (length (ackChan s) < 100)%nat
      then Ret (set_ackChan s (ackChan s ++ [received]), NoReply)
      else Block "ackChan"
    else receive_ordered s received
  else Ret (s, NoReply).

(** The iteration with its call of [HandleSend]. *)
Definition ReceiverThread `{Netstack} `{MapIter} (n : Node) (s : NormalSocket) (received : TCPInfo) :
    outcome (NormalSocket * rx_end * list event) :=
  '(s', r) ← ReceiverThread_body s received;
  match r with
  | Reply p => evs ← send_segment n p; Ret (s', r, evs)
  | _ => Ret (s', r, [])
  end.

(** ** The receive invariant *)
Definition rx_inv (s : NormalSocket) : Prop :=
  read_wf (readBuffer s) /\ 0 <= cumReadNXT s < 2 ^ 32 /\
  r_NXT (readBuffer s) = (cumReadNXT s - baseAck s) mod WINDOW_SIZE /\ pq_inv (earlyPQ s).

(** In-order data that fits is appended to the byte stream. *)
Lemma store_in_order s pl :
  rx_inv s -> zlen pl <= free_space (readBuffer s) ->
  let s' := store_payload s (cumReadNXT s) pl in
  s' = set_read (set_cumReadNXT s (u32 (cumReadNXT s + zlen pl))) (copy_in (readBuffer s) pl) /\
  rx_inv s' /\ readable (readBuffer s') = readable (readBuffer s) ++ pl /\
  free_space (readBuffer s') = free_space (readBuffer s) - zlen pl.
Proof.
  intros (Hr & Hc & Hn & Hq) Hl s'.
  pose proof (num_buf_free (readBuffer s)). pose proof (num_buf_range (readBuffer s)).
  zlen_facts.
  destruct (copy_in_spec (readBuffer s) pl Hr) as (W1 & W2 & W3 & _); [unfold WINDOW_SIZE in *; lia|].
  destruct (readable_copy_in (readBuffer s) pl Hr Hl) as [R1 R2].
  assert (Hpl : u32 (zlen pl) = zlen pl) by (apply u32_small; unfold WINDOW_SIZE in *; lia).
  assert (Hs' : s' = set_read (set_cumReadNXT s (u32 (cumReadNXT s + zlen pl))) (copy_in (readBuffer s) pl)).
  { subst s'. unfold store_payload. rewrite Hpl. cbv zeta. f_equal.
    destruct (copy_in (readBuffer s) pl) as [buf lbr nxt]. cbn [r_buffer r_LBR r_NXT] in *. f_equal.
    rewrite W3, Hn, Zplus_mod_idemp_l, u32_mod_W.
    unfold u32, WINDOW_SIZE. change (2 ^ 32) with (65536 * 65536). Z.div_mod_to_equations. lia. }
  rewrite Hs'. split; [done|]. cbn [set_read set_cumReadNXT readBuffer].
  split; [|split; [done|done]]. split; [done|]. cbn [cumReadNXT baseAck earlyPQ set_read set_cumReadNXT readBuffer].
  split; [auto with go|]. split; [|done].
  rewrite W3, Hn, Zplus_mod_idemp_l.
  unfold u32, WINDOW_SIZE. change (2 ^ 32) with (65536 * 65536). Z.div_mod_to_equations. lia.
Qed.
