(* ===== verification/TcpReassembly.v ===== *)
(** * Reassembly of the byte stream

    The segments of a stream, delivered to [ReceiverThread] in any order, are put
    back in order: early ones wait in the priority queue and are stored as soon as
    the gap before them closes.  [progress] follows the receiver together with what
    the application has already read, so that deliveries and reads may interleave. *)
From S2P Require Import Prelude Netip Netstack Ipv4Header Node Pq TcpTypes TcpRing TcpReceiver.
Local Open Scope Z_scope.

(** Feeding segments one after the other. *)
Fixpoint receive_all (s : NormalSocket) (l : list TCPInfo) : outcome NormalSocket :=
  match l with
  | [] => Ret s
  | ti :: l' => '(s', _) ← ReceiverThread_body s ti; receive_all s' l'
  end.

Section stream.
Context (chunks : list (list byte)) (b0 : Z).

(** Chunk [k] of a stream that starts at sequence number [b0], and its number. *)
Definition chunk (k : nat) : list byte := default [] (chunks !! k).
Definition off (k : nat) : Z := b0 + zlen (concat (take k chunks)).

Context (R0 : list byte) (F : gset Z) (ST : tcp_state * bool * gmap Z Z).
#[local] Abbreviation n := (length chunks).
Context (Hne : Forall (fun c => c <> []) chunks) (Hb0 : 0 <= b0)
  (Hfit : b0 + zlen (concat chunks) < 2 ^ 32).

Lemma take_chunk k : (k < n)%nat -> take (S k) chunks = take k chunks ++ [chunk k].
Proof.
  intros Hk. destruct (lookup_lt_is_Some_2 chunks k Hk) as [c Hc].
  unfold chunk. rewrite Hc. by apply take_S_r.
Qed.

Lemma off_S k : (k < n)%nat -> off (S k) = off k + zlen (chunk k).
Proof.
  intros Hk. unfold off. rewrite take_chunk, concat_app by done. simpl.
  rewrite app_nil_r, zlen_app. lia.
Qed.

Lemma chunk_pos k : (k < n)%nat -> 0 < zlen (chunk k).
Proof.
  intros Hk. destruct (lookup_lt_is_Some_2 chunks k Hk) as [c Hc]. unfold chunk. rewrite Hc.
  rewrite list.Forall_forall in Hne. specialize (Hne c (list_elem_of_lookup_2 _ _ _ Hc)).
  simpl. destruct c; [done|]. unfold zlen. simpl. lia.
Qed.

Lemma off_lt j k : (j < k <= n)%nat -> off j < off k.
Proof.
  intros [H1 H2]. induction k as [|k IH]; [lia|].
  rewrite off_S by lia. pose proof (chunk_pos k ltac:(lia)).
  destruct (decide (j = k)) as [->|]; [lia|]. specialize (IH ltac:(lia) ltac:(lia)). lia.
Qed.

Lemma off_range k : (k <= n)%nat -> 0 <= off k < 2 ^ 32.
Proof.
  intros Hk. unfold off. rewrite <- (take_drop k chunks), concat_app, zlen_app in Hfit.
  zlen_facts.  lia.
Qed.

Definition early_content (k : nat) : Z * Z * list byte := (off k, TCPFlagAck, chunk k).

(** The right edge of the receive window. *)
Definition rx_edge (s : NormalSocket) : Z := cumReadNXT s + free_space (readBuffer s).

(** [m] chunks have been stored, the application has read [got], the chunks of [E]
    wait in the queue. *)
Record progress (got : list byte) (s : NormalSocket) (m : nat) (E : list nat) : Prop := {
  pg_inv : rx_inv s;
  pg_cum : cumReadNXT s = off m;
  pg_read : got ++ readable (readBuffer s) = R0 ++ concat (take m chunks);
  pg_room : Forall (fun k => off (S k) <= rx_edge s) E;
  pg_pq : (content <$> earlyPQ s) ≡ₚ map early_content E;
  pg_m : (m <= n)%nat;
  pg_E : Forall (fun k => m <= k < n)%nat E;
  pg_nodup : NoDup E;
  pg_mtx : unackedMtx s = false;
  pg_fins : unackedFINs s = F;
  pg_state : (state s, stateMtx s, unackedNums s) = ST
}.

(** Storing the next chunk. *)
Lemma progress_store got s m E :
  progress got s m E -> (m < n)%nat -> m ∉ E -> off (S m) <= rx_edge s ->
  progress got (store_payload s (off m) (chunk m)) (S m) E /\
  rx_edge (store_payload s (off m) (chunk m)) = rx_edge s.
Proof.
  intros P Hm HE Hroom. destruct P as [Hi Hc Hr Hrm Hpq _ HEb Hnd Hmtx Hf Hst].
  pose proof (off_range (S m) ltac:(lia)). unfold rx_edge in Hroom. rewrite Hc, off_S in Hroom by done.
  destruct (store_in_order s (chunk m) Hi ltac:(lia)) as (Hs & Hi' & Hr' & Hf').
  rewrite <- Hc. set (s' := store_payload s (cumReadNXT s) (chunk m)) in *.
  assert (Hcum : cumReadNXT s' = off (S m)).
  { rewrite Hs. cbn [set_read set_cumReadNXT cumReadNXT]. rewrite Hc, <- off_S by done. by apply u32_small. }
  assert (Hedge : rx_edge s' = rx_edge s) by (unfold rx_edge; rewrite Hcum, Hf', Hc, off_S by done; lia).
  split; [|done]. constructor; try done.
  - rewrite Hr', take_chunk, concat_app by done. simpl. by rewrite app_nil_r, !app_assoc, Hr.
  - by rewrite Hedge.
  - rewrite list.Forall_forall in *. intros k Hk. specialize (HEb k Hk). cbv beta in HEb.
    assert (k <> m) by (by intros ->). lia.
Qed.

Lemma off_inj j k : (j <= n)%nat -> (k <= n)%nat -> off j = off k -> j = k.
Proof.
  intros Hj Hk E. destruct (decide (j < k)%nat); [pose proof (off_lt j k ltac:(lia)); lia|].
  destruct (decide (k < j)%nat); [pose proof (off_lt k j ltac:(lia)); lia|]. lia.
Qed.

(** The queue and [E] name the same chunks. *)
Lemma progress_elem got s m E x :
  progress got s m E -> x ∈ (content <$> earlyPQ s) <-> exists k, k ∈ E /\ x = early_content k.
Proof.
  intros P. rewrite (pg_pq _ _ _ _ P), list_elem_of_In, in_map_iff. setoid_rewrite list_elem_of_In.
  split; intros (k & H1 & H2); exists k; split; congruence.
Qed.

(** The root of a queue that holds the next chunk, or does not. *)
Lemma progress_root got s m E root q :
  progress got s m E -> earlyPQ s = root :: q ->
  (m ∈ E -> Priority root = off m) /\ (m ∉ E -> off m < Priority root).
Proof.
  intros P Eq. pose proof (pg_m _ _ _ _ P). pose proof (pg_E _ _ _ _ P) as HE. rewrite list.Forall_forall in HE.
  destruct (proj1 (progress_elem got s m E (content root) P)) as (k & Hk & Ek).
  { rewrite Eq. left. }
  injection Ek as Ek _ _. pose proof (HE k Hk) as Hkr. cbv beta in Hkr. rewrite Ek. split.
  - intros Hm. destruct (decide (k = m)) as [->|]; [done|].
    pose proof (proj2 (progress_elem got s m E (early_content m) P) ltac:(by exists m)) as Hin.
    apply list_elem_of_fmap in Hin as (p & Ep & Hp). injection Ep as Ep _ _.
    destruct (pg_inv _ _ _ _ P) as (_ & _ & _ & Hpq).
    destruct (heap_Pop_spec (earlyPQ s) Hpq) as (x & q' & _ & _ & _ & Hx & Hmin); [by rewrite Eq|].
    specialize (Hmin p Hp). rewrite Hx, Eq in Hmin. unfold prio in Hmin. cbn in Hmin.
    pose proof (off_lt m k ltac:(lia)). lia.
  - intros Hm. assert (k <> m) by congruence. apply off_lt. lia.
Qed.

Lemma progress_pop got s m E x q :
  progress got s m E -> pq_inv q -> (content <$> earlyPQ s) ≡ₚ content x :: (content <$> q) ->
  Priority x = off m -> m ∈ E ->
  exists E1, E ≡ₚ m :: E1 /\ PFlags x = TCPFlagAck /\ PPayload x = chunk m /\
    progress got (set_earlyPQ s q) m E1 /\ m ∉ E1.
Proof.
  intros P Hq Hperm Hx Hm. pose proof (pg_m _ _ _ _ P). pose proof (pg_E _ _ _ _ P) as HE.
  destruct (proj1 (progress_elem got s m E (content x) P)) as (k & Hk & Ek); [rewrite Hperm; left|].
  injection Ek as E1 E2 E3. rewrite list.Forall_forall in HE. pose proof (HE k Hk) as Hkr. cbv beta in Hkr.
  assert (k = m) as -> by (apply off_inj; [lia..|congruence]).
  apply elem_of_Permutation in Hm as [E' HE']. exists E'.
  pose proof (pg_nodup _ _ _ _ P) as Hnd. rewrite HE' in Hnd. apply list.NoDup_cons in Hnd as [Hn1 Hn2].
  split; [done|]. split; [done|]. split; [done|]. split; [|done].
  destruct P as [Hi Hc Hr Hroom Hpq HM HEb _ Hmtx Hf Hst].
  constructor; try done.
  - destruct Hi as (? & ? & ? & _). done.
  - rewrite HE' in Hroom. by apply Forall_cons_1 in Hroom as [_ ?].
  - cbn [set_earlyPQ earlyPQ]. rewrite Hpq, HE' in Hperm. cbn [map] in Hperm.
    replace (content x) with (early_content m) in Hperm by (unfold content, early_content; congruence).
    symmetry. by eapply Permutation_cons_inv.
  - rewrite HE' in HEb. by apply Forall_cons_1 in HEb as [_ ?].
Qed.

(** What a delivery leads to: [m'] chunks stored and [E'] waiting, where [E] were to
    come or waiting before, the right edge of the window unmoved. *)
Definition advanced (got : list byte) (s s' : NormalSocket) (m m' : nat) (E E' : list nat) : Prop :=
  progress got s' m' E' /\ rx_edge s' = rx_edge s /\ (m' ∉ E') /\ (m <= m')%nat /\ E ≡ₚ (seq m (m' - m) ++ E').

Lemma advanced_stay got s m E : progress got s m E -> m ∉ E -> advanced got s s m m E E.
Proof. intros P Hm. unfold advanced. by rewrite Nat.sub_diag. Qed.

Lemma advanced_S got s s1 s' m m' E E1 E' :
  rx_edge s1 = rx_edge s -> E ≡ₚ m :: E1 -> advanced got s1 s' (S m) m' E1 E' -> advanced got s s' m m' E E'.
Proof.
  intros He HE (P & He' & Hm & Hle & Hp). unfold advanced. rewrite He', He, HE, Hp.
  replace (m' - m)%nat with (S (m' - S m)) by lia. by repeat (split; [done || lia|]).
Qed.

Lemma progress_drain got fuel s m E :
  (length E <= fuel)%nat -> progress got s m E ->
  exists s' m' E', drain_early fuel s = Ret s' /\ advanced got s s' m m' E E'.
Proof.
  revert s m E. induction fuel as [|fuel IH]; intros s m E Hlen P.
  { assert (E = []) as -> by (destruct E; simpl in *; [done|lia]).
    exists s, m, []. split; [done|]. apply advanced_stay; [done|apply not_elem_of_nil]. }
  cbn [drain_early]. destruct (earlyPQ s) as [|root q] eqn:Eq.
  { pose proof (pg_pq _ _ _ _ P) as Hpq. rewrite Eq in Hpq. apply Permutation_nil, map_eq_nil in Hpq as ->.
    exists s, m, []. split; [done|]. apply advanced_stay; [done|apply not_elem_of_nil]. }
  destruct (progress_root got s m E root q P Eq) as [Hin Hout]. rewrite (pg_cum _ _ _ _ P).
  destruct (decide (m ∈ E)) as [Hm|Hm].
  2:{ specialize (Hout Hm). rewrite bool_decide_false by lia. exists s, m, E. split; [done|]. by apply advanced_stay. }
  rewrite Hin by done. rewrite bool_decide_true, bool_decide_false by lia. rewrite <- Eq.
  destruct (pg_inv _ _ _ _ P) as (_ & _ & _ & Hpq).
  destruct (heap_Pop_spec (earlyPQ s) Hpq) as (x & q' & -> & Hq' & Hperm & Hx & _); [by rewrite Eq|].
  assert (Hx' : Priority x = off m) by (rewrite Hx, Eq; by apply Hin).
  destruct (progress_pop got s m E x q' P Hq' Hperm Hx' Hm) as (E1 & HE1 & Hfl & Hpl & P1 & Hm1).
  cbn [mbind outcome_bind]. rewrite Hfl. change (bool_decide (0 < Z.land TCPFlagAck TCPFlagFin)) with false.
  cbv iota. rewrite Hx', Hpl.
  assert (Hmn : (m < n)%nat).
  { pose proof (pg_E _ _ _ _ P) as HE. rewrite list.Forall_forall in HE. apply HE in Hm. lia. }
  assert (Hroom : off (S m) <= rx_edge (set_earlyPQ s q')).
  { pose proof (pg_room _ _ _ _ P) as Hr. rewrite list.Forall_forall in Hr. by apply Hr in Hm. }
  destruct (progress_store got _ m E1 P1 Hmn Hm1 Hroom) as [P2 Hedge].
  destruct (IH _ (S m) E1 ltac:(rewrite HE1 in Hlen; simpl in Hlen; lia) P2) as (s' & m' & E' & D & A).
  exists s', m', E'. split; [done|]. eapply advanced_S; [|exact HE1|exact A]. by rewrite Hedge.
Qed.

(** ** One segment *)
Definition is_segment (ti : TCPInfo) (k : nat) : Prop :=
  Flag ti = TCPFlagAck /\ SeqNum ti = off k /\ Payload ti = chunk k /\ AckNum ti ∉ F.

Lemma progress_push got s m E j ti :
  progress got s m E -> (m < j < n)%nat -> j ∉ E -> off (S j) <= rx_edge s -> is_segment ti j ->
  progress got (push_early s ti) m (j :: E).
Proof.
  intros P Hj HE Hedge (Hfl & Hsq & Hpl & _). destruct P as [Hi Hc Hr Hroom Hpq HM HEb Hnd Hmtx Hf Hst].
  destruct Hi as (I1 & I2 & I3 & I4).
  destruct (heap_Push_spec (earlyPQ s) (mkEarly (SeqNum ti) (index s) (Flag ti) (Payload ti)) I4) as [Q1 Q2].
  constructor; try done.
  - by constructor.
  - cbn [push_early set_earlyPQ set_index earlyPQ]. rewrite Q2, Hpq. cbn [map].
    unfold content, early_content. cbn [Priority PFlags PPayload]. by rewrite Hfl, Hsq, Hpl.
  - constructor; [lia|done].
  - by apply list.NoDup_cons.
Qed.

Lemma progress_window got s m E w : progress got s m E -> progress got (set_ClientWindowSize s w) m E.
Proof. intros [Hi Hc Hr Hroom Hpq HM HEb Hnd Hmtx Hf Hst]. by constructor. Qed.

Lemma progress_len got s m E : progress got s m E -> length (earlyPQ s) = length E.
Proof.
  intros P. pose proof (Permutation_length (pg_pq _ _ _ _ P)) as H.
  rewrite length_fmap, length_map in H. done.
Qed.

Lemma progress_receive got s m E j ti :
  progress got s m E -> m ∉ E -> (m <= j < n)%nat -> j ∉ E -> off (S j) <= rx_edge s -> is_segment ti j ->
  exists s' m' E' r, ReceiverThread_body s ti = Ret (s', r) /\ advanced got s s' m m' (j :: E) E'.
Proof.
  intros P0 Hm Hj HjE Hedge Hseg. unfold ReceiverThread_body.
  pose proof (progress_window _ _ _ _ (WindowSize ti) P0) as P. assert (Hs := Hseg).
  destruct Hs as (Hfl & Hsq & Hpl & Hack). rewrite Hfl.
  change (bool_decide (0 < Z.land TCPFlagAck TCPFlagAck)) with true. cbv iota zeta.
  set (s1 := set_ClientWindowSize s (WindowSize ti)) in *.
  rewrite (pg_mtx _ _ _ _ P), (pg_fins _ _ _ _ P), bool_decide_false by done.
  pose proof (chunk_pos j ltac:(lia)) as Hpos. rewrite bool_decide_false.
  2:{ rewrite Hpl. intros [_ Hc]. rewrite Hc in Hpos. done. }
  unfold receive_ordered. rewrite Hfl, Hsq, (pg_cum _ _ _ _ P).
  change (bool_decide (0 < Z.land TCPFlagAck TCPFlagFin)) with false. cbv iota.
  change (rx_edge s) with (rx_edge s1) in Hedge.
  destruct (decide (j = m)) as [->|Hjm].
  - rewrite bool_decide_false by lia. rewrite Hpl.
    assert (free_space (readBuffer s1) <> 0).
    { unfold rx_edge in Hedge. rewrite (pg_cum _ _ _ _ P), off_S in Hedge by lia. lia. }
    rewrite bool_decide_true by done.
    destruct (progress_store got _ m E P ltac:(lia) Hm Hedge) as [P1 He1].
    pose proof (progress_len _ _ _ _ P1) as Hlen.
    destruct (progress_drain got (length (earlyPQ (store_payload s1 (off m) (chunk m)))) _ (S m) E
      ltac:(lia) P1) as (s' & m' & E' & D & A).
    exists s', m', E'. unfold finish_receive. rewrite D. eexists. split; [reflexivity|].
    by eapply advanced_S; [|done|exact A].
  - pose proof (off_lt m j ltac:(lia)). rewrite bool_decide_true by lia.
    exists (push_early s1 ti), m, (j :: E). eexists. split; [reflexivity|].
    pose proof (progress_push got s1 m E j ti P ltac:(lia) HjE Hedge Hseg) as P1.
    apply (advanced_stay got (push_early s1 ti)); [done|].
    rewrite elem_of_cons. intros [?|?]; [lia|done].
Qed.

(** ** All of them *)
(** Delivering [j] and then [order], when exactly the chunks from [m] on are to come
    or waiting. *)
Lemma deliver_rest got s s' m m' E E' j order :
  advanced got s s' m m' (j :: E) E' -> (j :: order ++ E) ≡ₚ seq m (n - m) ->
  (order ++ E') ≡ₚ seq m' (n - m').
Proof.
  intros (P' & _ & _ & Hle & HE') Hperm. pose proof (pg_m _ _ _ _ P').
  apply (Permutation_app_inv_l (seq m (m' - m))). rewrite Permutation_app_swap_app, <- HE'.
  replace (n - m)%nat with ((m' - m) + (n - m'))%nat in Hperm by lia.
  rewrite seq_app in Hperm. replace (m + (m' - m))%nat with m' in Hperm by lia.
  rewrite <- Hperm. symmetry. apply Permutation_middle.
Qed.

(** The next to be delivered is neither stored nor waiting. *)
Lemma deliver_next m E j order :
  (j :: order ++ E) ≡ₚ seq m (n - m) -> (m <= j < n)%nat /\ j ∉ E.
Proof.
  intros Hperm. assert (Hj : j ∈ seq m (n - m)) by (rewrite <- Hperm; left). apply elem_of_seq in Hj.
  pose proof (NoDup_seq m (n - m)) as Hnd. rewrite <- Hperm in Hnd. apply list.NoDup_cons in Hnd as [Hj1 _].
  split; [lia|]. intros ?. apply Hj1, elem_of_app. by right.
Qed.

Lemma delivered_all got s m E : progress got s m E -> m ∉ E -> E ≡ₚ seq m (n - m) -> m = n /\ E = [].
Proof.
  intros P Hm Hperm. pose proof (pg_m _ _ _ _ P).
  assert (m = n) as ->.
  { destruct (decide (m = n)); [done|]. exfalso. apply Hm. rewrite Hperm. apply elem_of_seq. lia. }
  rewrite Nat.sub_diag in Hperm. by apply Permutation_nil_r in Hperm as ->.
Qed.

Lemma off_le j k : (j <= k <= n)%nat -> off j <= off k.
Proof. intros [H1 H2]. destruct (decide (j = k)) as [->|]; [lia|]. pose proof (off_lt j k). lia. Qed.

Lemma receive_all_progress (info : nat -> TCPInfo) order got s m E :
  (forall k, (k < n)%nat -> is_segment (info k) k) ->
  progress got s m E -> m ∉ E -> off n <= rx_edge s -> (order ++ E) ≡ₚ seq m (n - m) ->
  exists s', receive_all s (map info order) = Ret s' /\ progress got s' n [].
Proof.
  intros Hinfo. revert s m E. induction order as [|j order IH]; intros s m E P Hm Hedge Hperm.
  - destruct (delivered_all got s m E P Hm Hperm) as [-> ->]. by exists s.
  - destruct (deliver_next m E j order Hperm) as [Hj HjE].
    pose proof (off_le (S j) n ltac:(lia)).
    destruct (progress_receive got s m E j (info j)) as (s' & m' & E' & r & Hr & A);
      [done|done|done|done|lia|apply Hinfo; lia|].
    cbn [map receive_all]. rewrite Hr. cbn [mbind outcome_bind].
    pose proof (deliver_rest _ _ _ _ _ _ _ _ _ A Hperm). destruct A as (P' & He & Hm' & _).
    apply (IH s' m' E'); [done|done|lia|done].
Qed.
End stream.

(** A socket about to receive a stream. *)
Lemma progress_start s chunks :
  rx_inv s -> earlyPQ s = [] -> unackedMtx s = false ->
  progress chunks (cumReadNXT s) (readable (readBuffer s)) (unackedFINs s) (state s, stateMtx s, unackedNums s) [] s 0 [].
Proof.
  intros Hi Hq Hm. constructor; try done; try lia.
  - unfold off. change (zlen (concat (take 0 chunks))) with 0. lia.
  - by rewrite app_nil_r.
  - by rewrite Hq.
  - constructor.
Qed.

Lemma off_all chunks b0 : off chunks b0 (length chunks) = b0 + zlen (concat chunks).
Proof. unfold off. by rewrite firstn_all. Qed.

(** C2. Reassembly: cut a byte stream of at most the free window into non-empty
    segments and deliver them to the receiver in any order, each once; the
    readable bytes end up extended by exactly the stream, in order, the early
    queue is empty and the next expected number is the one after the stream.  No
    delivery order blocks or fails. *)
Theorem reassembly (s : NormalSocket) (chunks : list (list byte)) (info : nat -> TCPInfo) (order : list nat) :
  rx_inv s -> earlyPQ s = [] -> unackedMtx s = false ->
  Forall (fun c => c <> []) chunks ->
  zlen (concat chunks) <= free_space (readBuffer s) ->
  cumReadNXT s + zlen (concat chunks) < 2 ^ 32 ->
  (forall k, (k < length chunks)%nat ->
     is_segment chunks (cumReadNXT s) (unackedFINs s) (info k) k) ->
  order ≡ₚ seq 0 (length chunks) ->
  exists s', receive_all s (map info order) = Ret s' /\
    readable (readBuffer s') = readable (readBuffer s) ++ concat chunks /\
    earlyPQ s' = [] /\ cumReadNXT s' = cumReadNXT s + zlen (concat chunks) /\ rx_inv s'.
Proof.
  intros Hi Hq Hm Hne Hroom Hfit Hinfo Hord.
  assert (Hb : 0 <= cumReadNXT s) by (by destruct Hi as (_ & ? & _); lia).
  destruct (receive_all_progress chunks _ _ _ _ Hne Hb Hfit info order [] s 0 [] Hinfo
    (progress_start s chunks Hi Hq Hm)) as (s' & Hr & P').
  { by apply not_elem_of_nil. }
  { rewrite off_all. unfold rx_edge. lia. }
  { by rewrite app_nil_r, Nat.sub_0_r. }
  exists s'. destruct P' as [Hi' Hc Hrd _ Hpq _ _ _ _ _ _].
  split; [done|]. split; [by rewrite firstn_all in Hrd|].
  split; [by apply Permutation_nil_r, fmap_nil_inv in Hpq|].
  split; [|done]. by rewrite Hc, off_all.
Qed.
