(* ===== verification/TcpStack.v ===== *)
(** * The TCP stack: tables, dispatch and the handshake

    [Initialize]'s dispatcher, [VListen], [VConnect], [VAccept], [deleteTCB].  A
    socket is a pointer shared by the table and its owner: here the table's entry
    is the socket, and the operations that own one update the entry.

    What the environment decides is an argument: the values of [rand.Intn], and
    the messages and timeouts a waiting call sees, as a list; a call that has used
    up the list is still waiting ([Block]).  In SYN_SENT the Go socket has nil
    buffers and mutexes; the calls on a socket panic in that state. *)
From S2P Require Import Prelude Netip Netstack Utils Config Node Pq TcpTypes TcpRing TcpReceiver.
Local Open Scope Z_scope.
Local Open Scope go_scope.

Definition Initialize_stack (n : Node) : TCPStack := mkStack ∅ (IpAddr n) ∅ 0.

Definition flipSocketKeyFields (k : SocketTableKey) : SocketTableKey :=
  mkKey (RemoteAddr k) (RemotePort k) (LocalAddr k) (LocalPort k).

Definition listen_key (port : Z) : SocketTableKey := mkKey AddrZero port AddrZero 0.

(** ** Dispatch *)
Inductive target : Type :=
  | ToNormal (k : SocketTableKey)   (** [sock.normalChan <- received] *)
  | ToListen (k : SocketTableKey)   (** [sock.listenChan <- received] *)
  | Dropped.

Definition dispatch_listen (t : TCPStack) (received : TCPInfo) : outcome target :=
  let k := listen_key (RemotePort (ti_key received)) in
  match SocketTable t !! k with
  | Some (Listening _) => Ret (ToListen k)
  | Some (Normal _) => Panic "interface conversion"
  | None => Ret Dropped
  end.

Definition dispatch (t : TCPStack) (received : TCPInfo) : outcome target :=
  let key := flipSocketKeyFields (ti_key received) in
  match SocketTable t !! key with
  | Some (Normal s) =>
      if bool_decide (state s <> SYN_RECEIVED) then Ret (ToNormal key)
      else dispatch_listen t received
  | Some (Listening _) => Panic "interface conversion"
  | None => dispatch_listen t received
  end.

(** ** Tables *)
Definition add_socket (t : TCPStack) (k : SocketTableKey) (s : Socket) : TCPStack :=
  mkStack (<[k := s]> (SocketTable t)) (ip t) (<[nextSID t := k]> (SID_to_sk t)) (u16 (nextSID t + 1)).

Definition set_socket (t : TCPStack) (k : SocketTableKey) (s : Socket) : TCPStack :=
  mkStack (<[k := s]> (SocketTable t)) (ip t) (SID_to_sk t) (nextSID t).

Definition getSID (s : Socket) : Z :=
  match s with Listening l => l_SID l | Normal s => SID s end.

Definition zero_key : SocketTableKey := mkKey AddrZero 0 AddrZero 0.

Definition deleteTCB (t : TCPStack) (s : Socket) : TCPStack :=
  let k := default zero_key (SID_to_sk t !! getSID s) in
  mkStack (delete k (SocketTable t)) (ip t) (delete (getSID s) (SID_to_sk t)) (nextSID t).

Definition VListen (t : TCPStack) (port : Z) : (string + ListenSocket) * TCPStack :=
  let k := listen_key port in
  match SocketTable t !! k with
  | Some _ => (inl "already listening on port", t)
  | None =>
      let lsock := mkListen port (nextSID t) in
      (inr lsock, add_socket t k (Listening lsock))
  end.

(** ** VConnect *)
(** The loop that picks a port; [draws] are the results of [rand.Intn(45535)]. *)
Fixpoint pick_port (t : TCPStack) (draws : list Z) : option Z :=
  match draws with
  | [] => None
  | d :: rest =>
      let p := u16 (d + 20000) in
      match SocketTable t !! listen_key p with
      | None => Some p
      | Some _ => pick_port t rest
      end
  end.

Definition blank_socket (sid : Z) (k : SocketTableKey) (st : tcp_state) : NormalSocket :=
  mkSock sid new_read new_send st false 0 0 0 [] NoCloser 0 ∅ ∅ false [] 0 k 0 0 false.

Definition syn_segment (t : TCPStack) (destAddr : Addr) (destPort srcPort : Z) : TCPPacket :=
  mkSeg (ip t) destAddr [] TCPFlagSyn srcPort destPort 5000 0 (WINDOW_SIZE - 1).

Definition final_ack (t : TCPStack) (destAddr : Addr) (destPort srcPort : Z) (ci : TCPInfo) : TCPPacket :=
  mkSeg (ip t) destAddr [] TCPFlagAck srcPort destPort (AckNum ci) (SeqNum ci ⊕ 1) (WINDOW_SIZE - 1).

(** What the call waits for: a segment on [normalChan] or the 3-second ticker. *)
Inductive wait_event : Type :=
  | WSegment (ci : TCPInfo)
  | WTimeout.

Section stack.
Context `{NS : Netstack} `{MI : MapIter}.

(** The sending loop with its try counter [i]: [inr ci] when the SYN/ACK came,
    [inl tt] after three tries; with what was sent and printed. *)
Fixpoint connect_loop (n : Node) (syn : TCPPacket) (i : nat) (waits : list wait_event) :
    outcome ((unit + TCPInfo) * list event) :=
  evs ← send_segment n syn;
  match waits with
  | [] => Block "select"
  | w :: rest =>
      match w with
      | WSegment ci =>
          if bool_decide (Flag ci = SYNACK) then Ret (inr ci, evs)
          else if bool_decide (S i = 3%nat) then Ret (inl tt, evs)
          else '(r, evs') ← connect_loop n syn (S i) rest; Ret (r, evs ++ evs')
      | WTimeout =>
          let tick := EPrint ("try num: " +:+ fmt_d (Z.of_nat (S i))) in
          if bool_decide (S i = 3%nat) then Ret (inl tt, evs ++ [tick])
          else '(r, evs') ← connect_loop n syn (S i) rest; Ret (r, evs ++ [tick] ++ evs')
      end
  end.

Definition connected_socket (sid : Z) (k : SocketTableKey) (ci : TCPInfo) : NormalSocket :=
  mkSock sid new_read new_send ESTABLISHED false (u32 (AckNum ci - 1)) (SeqNum ci) (WindowSize ci)
    [] NoCloser 0 ∅ ∅ false [] 0 k (AckNum ci) (SeqNum ci ⊕ 1) false.

Definition VConnect (n : Node) (t : TCPStack) (destAddr : Addr) (destPort : Z)
    (draws : list Z) (waits : list wait_event) :
    outcome ((string + NormalSocket) * TCPStack * list event) :=
  match pick_port t draws with
  | None => Block "pick_port"
  | Some randSrcPort =>
      let k := mkKey (ip t) randSrcPort destAddr destPort in
      let sid := nextSID t in
      let s := blank_socket sid k SYN_SENT in
      let t1 := add_socket t k (Normal s) in
      '(r, evs) ← connect_loop n (syn_segment t destAddr destPort randSrcPort) 0 waits;
      match r with
      | inl _ => Ret (inl "could not connect", deleteTCB t1 (Normal s), evs)
      | inr ci =>
          evs' ← send_segment n (final_ack t destAddr destPort randSrcPort ci);
          let s' := connected_socket sid k ci in
          Ret (inr s', set_socket t1 k (Normal s'), evs ++ evs')
      end
  end.

(** ** VAccept *)
(** [for !(ci.Flag == f && ci.RemotePort == localPort) { ci = <-listenChan }] *)
Fixpoint wait_flag (f port : Z) (queue : list TCPInfo) : option (TCPInfo * list TCPInfo) :=
  match queue with
  | [] => None
  | ci :: rest =>
      if bool_decide (Flag ci = f /\ RemotePort (ti_key ci) = port) then Some (ci, rest)
      else wait_flag f port rest
  end.

Definition synack_segment (ci : TCPInfo) : TCPPacket :=
  let k := ti_key ci in
  mkSeg (RemoteAddr k) (LocalAddr k) [] SYNACK (RemotePort k) (LocalPort k) 6000
    (SeqNum ci ⊕ 1) (WINDOW_SIZE - 1).

Definition accepted_socket (sid : Z) (k : SocketTableKey) (ci : TCPInfo) (st : tcp_state) (w : Z) : NormalSocket :=
  mkSock sid new_read new_send st false 6000 (SeqNum ci) w
    [] NoCloser 0 ∅ ∅ false [] 0 k 6001 (SeqNum ci ⊕ 1) false.

Definition VAccept (n : Node) (t : TCPStack) (lsock : ListenSocket) (queue : list TCPInfo) :
    outcome (NormalSocket * TCPStack * list TCPInfo * list event) :=
  match wait_flag TCPFlagSyn (localPort lsock) queue with
  | None => Block "listenChan"
  | Some (ci, rest) =>
      let newSK := flipSocketKeyFields (ti_key ci) in
      let sid := nextSID t in
      let t1 := add_socket t newSK (Normal (accepted_socket sid newSK ci SYN_RECEIVED (WINDOW_SIZE - 1))) in
      evs ← send_segment n (synack_segment ci);
      match wait_flag TCPFlagAck (localPort lsock) rest with
      | None => Block "listenChan"
      | Some (ci2, rest2) =>
          let s := accepted_socket sid newSK ci ESTABLISHED (WindowSize ci2) in
          Ret (s, set_socket t1 newSK (Normal s), rest2, evs)
      end
  end.

(** ** The handshake *)
Lemma new_read_wf : read_wf new_read.
Proof. split; [by vm_compute|]. unfold WINDOW_SIZE. simpl. lia. Qed.

(** C4. The three-way handshake, run between two stacks over a network that
    delivers segments as [protocol6] reports them: [VConnect] sends the SYN and
    the final ACK, [VAccept] the SYN/ACK; both ends are then ESTABLISHED in their
    tables under mirrored keys, agree on both initial sequence numbers, expect
    exactly the byte the other will send next, and see a full window. *)
Theorem handshake (nc ns : Node) (tc ts : TCPStack) (lsock : ListenSocket) (destAddr : Addr)
    (draw : Z) (e1 e2 e3 : list event) :
  let srcPort := u16 (draw + 20000) in
  let syn := syn_segment tc destAddr (localPort lsock) srcPort in
  let ci_syn := seg_info destAddr syn in
  let synack := synack_segment ci_syn in
  let ci_synack := seg_info (ip tc) synack in
  let ack := final_ack tc destAddr (localPort lsock) srcPort ci_synack in
  SocketTable tc !! listen_key srcPort = None ->
  send_segment nc syn = Ret e1 -> send_segment ns synack = Ret e2 -> send_segment nc ack = Ret e3 ->
  exists c s tc' ts',
    VConnect nc tc destAddr (localPort lsock) [draw] [WSegment ci_synack] = Ret (inr c, tc', e1 ++ e3) /\
    VAccept ns ts lsock [ci_syn; seg_info destAddr ack] = Ret (s, ts', [], e2) /\
    SocketTable tc' !! sk c = Some (Normal c) /\ SocketTable ts' !! sk s = Some (Normal s) /\
    sk s = flipSocketKeyFields (sk c) /\ state c = ESTABLISHED /\ state s = ESTABLISHED /\
    baseAck c = baseSeq s /\ baseAck s = baseSeq c /\
    cumReadNXT c = cumWriteUNA s /\ cumReadNXT s = cumWriteUNA c /\
    ClientWindowSize c = WINDOW_SIZE - 1 /\ ClientWindowSize s = WINDOW_SIZE - 1 /\
    rx_inv c /\ rx_inv s /\ readable (readBuffer c) = [] /\ readable (readBuffer s) = [].
Proof.
  cbv zeta. set (sp := u16 (draw + 20000)). intros Hp H1 H2 H3.
  set (c := connected_socket (nextSID tc) (mkKey (ip tc) sp destAddr (localPort lsock))
    (seg_info (ip tc) (synack_segment (seg_info destAddr (syn_segment tc destAddr (localPort lsock) sp))))).
  set (s := accepted_socket (nextSID ts) (mkKey destAddr (localPort lsock) (ip tc) sp)
    (seg_info destAddr (syn_segment tc destAddr (localPort lsock) sp)) ESTABLISHED (WINDOW_SIZE - 1)).
  eexists c, s, _, _. split; [|split].
  - unfold VConnect. cbn [pick_port]. fold sp. rewrite Hp. cbn [connect_loop]. rewrite H1.
    cbn [mbind outcome_bind]. rewrite bool_decide_true by done. cbn [mbind outcome_bind].
    rewrite H3. reflexivity.
  - unfold VAccept. cbn [wait_flag]. rewrite bool_decide_true by done. rewrite H2.
    cbn [mbind outcome_bind wait_flag]. rewrite bool_decide_true by done. reflexivity.
  - assert (Hinv : forall base cum, cum = base + 1 -> 0 <= cum < 2 ^ 32 ->
      forall x, readBuffer x = new_read -> cumReadNXT x = cum -> baseAck x = base -> earlyPQ x = [] -> rx_inv x).
    { intros base cum E1 E2 x Hr Hc Hb Hq. unfold rx_inv. rewrite Hr, Hc, Hb, Hq, E1.
      split; [apply new_read_wf|]. split; [lia|]. split; [|apply pq_inv_nil].
      replace (base + 1 - base) with 1 by lia. done. }
    assert (Hread : readable new_read = []) by (vm_compute; reflexivity).
    split; [apply lookup_insert_eq|]. split; [apply lookup_insert_eq|].
    do 9 (split; [reflexivity|]). split; [|split; [|split; exact Hread]].
    + by apply (Hinv 6000 6001).
    + by apply (Hinv 5000 5001).
Qed.

(** ** Giving up *)
Lemma connect_loop_bounded n syn evs i waits :
  send_segment n syn = Ret evs -> (i < 3)%nat -> (3 - i <= length waits)%nat ->
  exists r out, connect_loop n syn i waits = Ret (r, out) /\
    match r with
    | inr ci => WSegment ci ∈ take (3 - i) waits /\ Flag ci = SYNACK
    | inl _ => forall ci, WSegment ci ∈ take (3 - i) waits -> Flag ci <> SYNACK
    end.
Proof.
  intros Hs. revert i. induction waits as [|w waits IH]; intros i Hi Hl; [simpl in Hl; lia|].
  destruct (decide (S i = 3%nat)) as [E|E].
  - assert (i = 2%nat) as -> by lia. cbn [connect_loop]. rewrite Hs. cbn [mbind outcome_bind].
    change (take (3 - 2) (w :: waits)) with [w]. destruct w as [ci|].
    + case_bool_decide as Hf; [eexists _, _; split; [done|]; split; [left|done]|].
      eexists _, _. split; [by rewrite bool_decide_true by done|].
      intros ci' Hc. apply list_elem_of_singleton in Hc. congruence.
    + eexists _, _. split; [by rewrite bool_decide_true by done|].
      intros ci' Hc. apply list_elem_of_singleton in Hc. congruence.
  - destruct (IH (S i) ltac:(lia) ltac:(simpl in Hl; lia)) as (r & out & Hr & Hres).
    cbn [connect_loop]. rewrite Hs. cbn [mbind outcome_bind].
    replace (3 - i)%nat with (S (3 - S i)) by lia. cbn [take]. destruct w as [ci|].
    + case_bool_decide as Hf; [eexists _, _; split; [done|]; split; [left|done]|].
      rewrite (bool_decide_false (S i = 3%nat)), Hr by done. eexists _, _. split; [done|].
      destruct r as [u|ci']; [|destruct Hres; split; [by right|done]].
      intros ci' [[= ->]|Hc]%elem_of_cons; [done|by apply Hres].
    + rewrite (bool_decide_false (S i = 3%nat)), Hr by done. eexists _, _. split; [done|].
      destruct r as [u|ci']; [|destruct Hres; split; [by right|done]].
      intros ci' [[=]|Hc]%elem_of_cons. by apply Hres.
Qed.

(** C31. [VConnect] always returns once three messages or timeouts have come: it
    connects exactly when a SYN/ACK is among the first three, and otherwise
    reports the error and removes the half-open socket and its id again, leaving
    every other entry of the tables as it was. *)
Theorem VConnect_terminates (n : Node) (t : TCPStack) (destAddr : Addr) (destPort draw : Z)
    (waits : list wait_event) :
  let srcPort := u16 (draw + 20000) in
  let k := mkKey (ip t) srcPort destAddr destPort in
  SocketTable t !! listen_key srcPort = None -> SocketTable t !! k = None ->
  SID_to_sk t !! nextSID t = None -> (3 <= length waits)%nat ->
  (forall p, destIp p = destAddr -> payload p = [] -> exists evs, send_segment n p = Ret evs) ->
  exists r t' evs, VConnect n t destAddr destPort [draw] waits = Ret (r, t', evs) /\
    match r with
    | inr s => (exists ci, WSegment ci ∈ take 3 waits /\ Flag ci = SYNACK) /\
               SocketTable t' !! k = Some (Normal s) /\ state s = ESTABLISHED
    | inl e => e = "could not connect" /\ (forall ci, WSegment ci ∈ take 3 waits -> Flag ci <> SYNACK) /\
               SocketTable t' = SocketTable t /\ SID_to_sk t' = SID_to_sk t
    end.
Proof.
  intros srcPort k Hp Hk Hsid Hw Hsend. unfold VConnect. cbn [pick_port]. fold srcPort. rewrite Hp. fold k.
  destruct (Hsend (syn_segment t destAddr destPort srcPort) eq_refl eq_refl) as [e1 He1].
  destruct (connect_loop_bounded n _ e1 0 waits He1 ltac:(lia) ltac:(lia)) as (r & out & Hr & Hres).
  rewrite Hr. cbn [mbind outcome_bind]. destruct r as [u|ci].
  - eexists _, _, _. split; [reflexivity|]. split; [done|]. split; [done|].
    unfold deleteTCB, add_socket, getSID, blank_socket. cbn [SID SID_to_sk SocketTable].
    rewrite lookup_insert_eq. cbn [default]. unfold id. rewrite !delete_insert_id by done. done.
  - destruct (Hsend (final_ack t destAddr destPort srcPort ci) eq_refl eq_refl) as [e2 He2]. rewrite He2.
    eexists _, _, _. split; [reflexivity|]. split; [by exists ci|]. split; [|done].
    apply lookup_insert_eq.
Qed.

(** ** Reachable stacks *)
(** What the owner of a connection may do to its socket: anything that keeps its
    key (the calls on a [NormalSocket] never change it). *)
Inductive stack_step : TCPStack -> TCPStack -> Prop :=
  | step_listen t port r t' : VListen t port = (r, t') -> stack_step t t'
  | step_connect n t a port draws waits r t' evs :
      Addr_wf a -> VConnect n t a port draws waits = Ret (r, t', evs) -> stack_step t t'
  | step_accept n t l queue s t' rest evs :
      Forall (fun ci => Addr_wf (LocalAddr (ti_key ci))) queue ->
      VAccept n t l queue = Ret (s, t', rest, evs) -> stack_step t t'
  | step_socket t s s' :
      SocketTable t !! sk s = Some (Normal s) -> sk s' = sk s -> stack_step t (set_socket t (sk s) (Normal s'))
  | step_delete t s : stack_step t (deleteTCB t s).

Definition stack_reachable (n : Node) (t : TCPStack) : Prop := rtc stack_step (Initialize_stack n) t.

(** Listening sockets live under keys without addresses, connections under keys
    with the peer's address, a valid one. *)
Definition tables_ok (t : TCPStack) : Prop :=
  forall k x, SocketTable t !! k = Some x ->
    match x with
    | Listening l => k = listen_key (localPort l)
    | Normal s => sk s = k /\ Addr_wf (RemoteAddr k)
    end.

Lemma Addr_wf_nonzero a : Addr_wf a -> a <> AddrZero.
Proof. by destruct a. Qed.

Lemma tables_ok_insert t k x ip' m sid :
  tables_ok t ->
  match x with Listening l => k = listen_key (localPort l) | Normal s => sk s = k /\ Addr_wf (RemoteAddr k) end ->
  tables_ok (mkStack (<[k := x]> (SocketTable t)) ip' m sid).
Proof.
  intros Ht Hx k' x'. cbn [SocketTable]. rewrite lookup_insert. case_decide; [|apply Ht].
  subst. by intros [= <-].
Qed.

Lemma tables_ok_delete t s : tables_ok t -> tables_ok (deleteTCB t s).
Proof.
  intros Ht k x. unfold deleteTCB. cbn [SocketTable]. rewrite lookup_delete. case_decide; [done|apply Ht].
Qed.

Lemma wait_flag_spec f port q ci rest :
  wait_flag f port q = Some (ci, rest) -> ci ∈ q /\ Flag ci = f /\ RemotePort (ti_key ci) = port.
Proof.
  induction q as [|x q IH]; [done|]. cbn [wait_flag]. case_bool_decide as Hb.
  - intros [= <- <-]. split; [left|done].
  - intros (? & ? & ?)%IH. split; [by right|done].
Qed.

Lemma stack_step_ok t t' : stack_step t t' -> tables_ok t -> tables_ok t'.
Proof.
  intros [t0 port r t1 H|n t0 a port draws waits r t1 evs Ha H|n t0 l q s t1 rest evs Hq H|t0 s s' Hs Hk|t0 s] Ht.
  - unfold VListen in H. destruct (SocketTable t0 !! listen_key port); injection H as <- <-; [done|].
    by apply tables_ok_insert.
  - unfold VConnect in H. destruct (pick_port t0 draws) as [sp|]; [|done].
    apply bind_Ret_inv in H as ([r' evs1] & _ & H).
    assert (H1 : tables_ok (add_socket t0 (mkKey (ip t0) sp a port)
      (Normal (blank_socket (nextSID t0) (mkKey (ip t0) sp a port) SYN_SENT)))) by (by apply tables_ok_insert).
    destruct r' as [u|ci].
    + injection H as <- <- <-. by apply tables_ok_delete.
    + apply bind_Ret_inv in H as (e2 & _ & H). injection H as <- <- <-. by apply tables_ok_insert.
  - unfold VAccept in H. destruct (wait_flag TCPFlagSyn _ q) as [[ci rest1]|] eqn:E; [|done].
    apply wait_flag_spec in E as (Hin & _). rewrite list.Forall_forall in Hq.
    pose proof (Hq ci Hin) as Hnz.
    apply bind_Ret_inv in H as (e & _ & H). destruct (wait_flag TCPFlagAck _ rest1) as [[ci2 rest2]|]; [|done].
    injection H as <- <- <- <-. apply tables_ok_insert; [|done]. by apply tables_ok_insert.
  - destruct (Ht _ _ Hs) as [_ Hnz]. apply tables_ok_insert; [done|]. done.
  - by apply tables_ok_delete.
Qed.

Lemma reachable_tables_ok n t : stack_reachable n t -> tables_ok t.
Proof.
  unfold stack_reachable. intros H. remember (Initialize_stack n) as t0 eqn:E.
  assert (H0 : tables_ok t0) by (subst; intros k x; cbn [Initialize_stack SocketTable]; by rewrite lookup_empty).
  clear E. induction H as [|x y z Hs _ IH]; [done|]. apply IH. by eapply stack_step_ok.
Qed.

(** Where a segment belongs. *)
Definition dispatched (t : TCPStack) (ci : TCPInfo) (tg : target) : Prop :=
  let no_connection := forall s,
    SocketTable t !! flipSocketKeyFields (ti_key ci) = Some (Normal s) -> state s = SYN_RECEIVED in
  match tg with
  | ToNormal k => k = flipSocketKeyFields (ti_key ci) /\
      exists s, SocketTable t !! k = Some (Normal s) /\ sk s = k /\ state s <> SYN_RECEIVED
  | ToListen k => k = listen_key (RemotePort (ti_key ci)) /\ no_connection /\
      exists l, SocketTable t !! k = Some (Listening l) /\ localPort l = RemotePort (ti_key ci)
  | Dropped => SocketTable t !! listen_key (RemotePort (ti_key ci)) = None /\ no_connection
  end.

(** C14. Demultiplexing on every reachable stack: a segment from a valid address
    never trips the dispatcher's type assertions; it goes to the connection with
    exactly the mirrored four-tuple if there is one that is past SYN_RECEIVED,
    otherwise to the socket listening on its destination port, and otherwise it
    is dropped. *)
Theorem dispatch_correct (n : Node) (t : TCPStack) (ci : TCPInfo) :
  stack_reachable n t -> Addr_wf (LocalAddr (ti_key ci)) ->
  exists tg, dispatch t ci = Ret tg /\ dispatched t ci tg.
Proof.
  intros Ht%reachable_tables_ok Ha%Addr_wf_nonzero.
  assert (Hl : (forall s, SocketTable t !! flipSocketKeyFields (ti_key ci) = Some (Normal s) ->
    state s = SYN_RECEIVED) -> exists tg, dispatch_listen t ci = Ret tg /\ dispatched t ci tg).
  { intros Hs. unfold dispatch_listen. destruct (SocketTable t !! listen_key _) as [[l|s]|] eqn:E.
    - eexists. split; [done|]. split; [done|]. split; [done|]. exists l. split; [done|].
      pose proof (Ht _ _ E) as Hk. cbv beta iota in Hk. injection Hk as ->. done.
    - by destruct (Ht _ _ E) as [_ Hnz%Addr_wf_nonzero].
    - eexists. split; [done|]. done. }
  unfold dispatch. destruct (SocketTable t !! flipSocketKeyFields (ti_key ci)) as [[l|s]|] eqn:E.
  - pose proof (Ht _ _ E) as Hk. cbv beta iota in Hk. unfold flipSocketKeyFields, listen_key in Hk.
    injection Hk as _ _ Hk _. by destruct Ha.
  - case_bool_decide as Hst.
    + eexists. split; [done|]. split; [done|]. exists s. destruct (Ht _ _ E) as [? _]. done.
    + apply Hl. intros s' [= <-]. by destruct (decide (state s = SYN_RECEIVED)).
  - apply Hl. done.
Qed.
End stack.
