(* ===== verification/TcpClose.v ===== *)
(** * Closing a connection ([VClose], its goroutine, TIME_WAIT)

    The goroutine [VClose] starts takes three steps after the ACK arrives: it
    receives from [finChan] (a rendezvous with [ReceiverThread]), deletes the
    number under [unackedMtx], and changes the state under [stateMtx]. *)
From S2P Require Import Prelude Netip Netstack Utils Config Node Pq TcpTypes TcpRing TcpReceiver TcpStack.
Local Open Scope Z_scope.
Local Open Scope go_scope.

(** [(NXT - UNA + WINDOW_SIZE) % WINDOW_SIZE] of the send ring. *)
Definition distUNA (w : WriteBuffer) : Z := u32 (w_NXT w - w_UNA w + WINDOW_SIZE) mod WINDOW_SIZE.

Definition fin_segment (s : NormalSocket) : TCPPacket :=
  let k := sk s in
  mkSeg (LocalAddr k) (RemoteAddr k) [] FINACK (LocalPort k) (RemotePort k)
    (distUNA (writeBuffer s) ⊕ cumWriteUNA s) (cumReadNXT s) (adv_window (readBuffer s)).

(** The state a close leads to, or none where it is refused. *)
Definition close_state (st : tcp_state) : option tcp_state :=
  match st with
  | ESTABLISHED => Some FIN_WAIT_1
  | CLOSE_WAIT => Some LAST_ACK
  | _ => None
  end.

Section close.
Context `{NS : Netstack} `{MI : MapIter}.

Definition VClose (n : Node) (s : NormalSocket) : outcome (option string * NormalSocket * list event) :=
  if bool_decide (state s = SYN_SENT) then Panic "nil pointer dereference"
  else
    let packet := fin_segment s in
    if stateMtx s then Block "stateMtx"
    else match close_state (state s) with
         | None => Ret (Some "current socket state is invalid", s, [])
         | Some st =>
             if unackedMtx s then Block "unackedMtx"
             else
               let ack := seqNum packet ⊕ 1 in
               let s' := set_unackedFINs (set_state s st) ({[ack]} ∪ unackedFINs s) in
               evs ← send_segment n packet;
               Ret (None, set_closer s' (Waiting ack), evs)
         end.

Definition VClose_listen (t : TCPStack) (l : ListenSocket) : TCPStack := deleteTCB t (Listening l).
End close.

(** [delete(sock.unackedFINs, receivedAck)] under [unackedMtx]. *)
Definition closer_delete (s : NormalSocket) : outcome NormalSocket :=
  match closer s with
  | Got e =>
      if unackedMtx s then Block "unackedMtx"
      else Ret (set_closer (set_unackedFINs s (unackedFINs s ∖ {[e]})) Deleted)
  | _ => Ret s
  end.

(** The state change under [stateMtx]; the last step of the passive side deletes
    the socket from the stack. *)
Definition closer_finish (t : TCPStack) (s : NormalSocket) : outcome (TCPStack * NormalSocket) :=
  match closer s with
  | Deleted =>
      if stateMtx s then Block "stateMtx"
      else
        let s' := set_closer s NoCloser in
        match state s with
        | FIN_WAIT_1 => Ret (t, set_state s' FIN_WAIT_2)
        | LAST_ACK => Ret (deleteTCB t (Normal s'), s')
        | _ => Ret (t, s')
        end
  | _ => Ret (t, s)
  end.

(** The goroutine that sleeps 120 seconds in TIME_WAIT. *)
Definition reap (t : TCPStack) (s : NormalSocket) : TCPStack * NormalSocket :=
  match reapers s with
  | O => (t, s)
  | S k => (deleteTCB t (Normal s), set_reapers s k)
  end.

(** ** The state machine of a connection *)
Inductive edge : tcp_state -> tcp_state -> Prop :=
  | edge_passive : edge ESTABLISHED CLOSE_WAIT
  | edge_last : edge CLOSE_WAIT LAST_ACK
  | edge_active : edge ESTABLISHED FIN_WAIT_1
  | edge_acked : edge FIN_WAIT_1 FIN_WAIT_2
  | edge_both : edge FIN_WAIT_2 TIME_WAIT.

(** What the sending goroutines may change. *)
Definition sender_only (s s' : NormalSocket) : Prop :=
  readBuffer s' = readBuffer s /\ state s' = state s /\ stateMtx s' = stateMtx s /\
  closer s' = closer s /\ reapers s' = reapers s /\ unackedFINs s' = unackedFINs s /\
  earlyPQ s' = earlyPQ s /\ sk s' = sk s /\ baseAck s' = baseAck s /\ cumReadNXT s' = cumReadNXT s.

Inductive conn_step `{Netstack} `{MapIter} : NormalSocket -> NormalSocket -> Prop :=
  | c_receive s ti s' r : ReceiverThread_body s ti = Ret (s', r) -> conn_step s s'
  | c_read s num nb we r s' : VRead_locked s num nb we = Ret (r, s') -> conn_step s s'
  | c_send s s' : sender_only s s' -> conn_step s s'
  | c_close n s e s' evs : VClose n s = Ret (e, s', evs) -> conn_step s s'
  | c_delete s s' : closer_delete s = Ret s' -> conn_step s s'
  | c_finish t s t' s' : closer_finish t s = Ret (t', s') -> conn_step s s'
  | c_reap t s t' s' : reap t s = (t', s') -> conn_step s s'.

(** Bookkeeping of the close: the numbers awaiting an ACK, the goroutine and the
    state agree. *)
Definition fin_inv (s : NormalSocket) : Prop :=
  match closer s with
  | NoCloser => unackedFINs s = ∅ /\ state s <> FIN_WAIT_1
  | Waiting e | Got e => unackedFINs s = {[e]} /\ (state s = FIN_WAIT_1 \/ state s = LAST_ACK)
  | Deleted => unackedFINs s = ∅ /\ (state s = FIN_WAIT_1 \/ state s = LAST_ACK)
  end.

(** What handling a FIN, or the data path, leaves alone. *)
Definition fin_edge (a b : tcp_state) : Prop :=
  a = b \/ (a = ESTABLISHED /\ b = CLOSE_WAIT) \/ (a = FIN_WAIT_2 /\ b = TIME_WAIT).

Definition rx_frame (s s' : NormalSocket) : Prop :=
  fin_edge (state s) (state s') /\ closer s' = closer s /\ unackedFINs s' = unackedFINs s /\ sk s' = sk s.

Lemma fin_edge_trans a b c : fin_edge a b -> fin_edge b c -> fin_edge a c.
Proof. unfold fin_edge. intros [->|[[-> ->]|[-> ->]]] [<-|[[H ->]|[H ->]]]; try done; auto. Qed.

Lemma rx_frame_refl s : rx_frame s s.
Proof. by repeat split; left. Qed.

Lemma rx_frame_trans s1 s2 s3 : rx_frame s1 s2 -> rx_frame s2 s3 -> rx_frame s1 s3.
Proof.
  intros (A1 & A2 & A3 & A4) (B1 & B2 & B3 & B4). split; [by eapply fin_edge_trans|]. repeat split; congruence.
Qed.

Ltac rx_frame_done := by (repeat split; left).

Lemma fin_transition_frame s s' : fin_transition s = Ret s' -> rx_frame s s'.
Proof.
  unfold fin_transition, rx_frame, fin_edge. destruct (stateMtx s); [done|].
  destruct (state s) eqn:E; intros [= <-]; cbn; rewrite ?E; auto 10.
Qed.

Lemma drain_early_frame fuel s s' : drain_early fuel s = Ret s' -> rx_frame s s'.
Proof.
  revert s. induction fuel as [|fuel IH]; intros s; [intros [= <-]; rx_frame_done|].
  cbn [drain_early]. destruct (earlyPQ s) as [|root q]; [intros [= <-]; rx_frame_done|].
  case_bool_decide; [|intros [= <-]; rx_frame_done].
  case_bool_decide; intros ([x q'] & _ & H2)%bind_Ret_inv.
  - by apply IH in H2.
  - cbv zeta in H2. revert H2. case_bool_decide.
    + intros (s1 & Hf%fin_transition_frame & H2%IH)%bind_Ret_inv. by eapply rx_frame_trans.
    + intros H2%IH. done.
Qed.

Lemma finish_receive_frame s ti s' r : finish_receive s ti = Ret (s', r) -> rx_frame s s'.
Proof. unfold finish_receive. by intros (s1 & Hd%drain_early_frame & [= <- <-])%bind_Ret_inv. Qed.

Lemma receive_ordered_frame s ti s' r : receive_ordered s ti = Ret (s', r) -> rx_frame s s'.
Proof.
  unfold receive_ordered. case_bool_decide; [intros [= <- <-]; rx_frame_done|].
  case_bool_decide.
  - intros (s1 & Hf%fin_transition_frame & Hd%finish_receive_frame)%bind_Ret_inv. by eapply rx_frame_trans.
  - case_bool_decide; [|intros [= <- <-]; rx_frame_done]. intros Hd%finish_receive_frame. done.
Qed.

(** An iteration either keeps the close bookkeeping or passes the awaited ACK to
    the goroutine of [VClose]. *)
Lemma ReceiverThread_body_frame s ti s' r :
  ReceiverThread_body s ti = Ret (s', r) ->
  rx_frame s s' \/
  (exists e, closer s = Waiting e /\ closer s' = Got e /\ state s' = state s /\
     unackedFINs s' = unackedFINs s /\ sk s' = sk s).
Proof.
  unfold ReceiverThread_body. case_bool_decide; [|intros [= <- <-]; left; rx_frame_done].
  cbv zeta. set (s1 := set_ClientWindowSize s (WindowSize ti)).
  destruct (unackedMtx s1); [done|]. case_bool_decide.
  - destruct (closer s1) as [|e|e|] eqn:Ec; intros [= <- <-]; try (left; rx_frame_done).
    case_bool_decide; [|left; rx_frame_done]. right. by exists e.
  - case_bool_decide.
    + case_bool_decide; [|done]. intros [= <- <-]. left. rx_frame_done.
    + intros Hr%receive_ordered_frame. left. done.
Qed.

Lemma fin_inv_frame s s' : rx_frame s s' -> fin_inv s -> fin_inv s'.
Proof.
  unfold rx_frame, fin_inv, fin_edge. intros (He & Hc & Hf & _). rewrite Hc, Hf.
  destruct (closer s); intros [Hu Hst]; (split; [done|]);
    destruct He as [<-|[[E ->]|[E ->]]]; try done; rewrite E in Hst; destruct Hst; done.
Qed.

Lemma VRead_locked_frame s num nb we r s' : VRead_locked s num nb we = Ret (r, s') -> rx_frame s s'.
Proof.
  unfold VRead_locked. case_bool_decide; [done|]. destruct (read_bytes _ _ _) as [bs r'].
  destruct we; intros [= <- <-]; rx_frame_done.
Qed.

Lemma VRead_frame s nb we r s' : VRead s nb we = Ret (r, s') -> rx_frame s s'.
Proof.
  unfold VRead. intros ([e|] & _ & H)%bind_Ret_inv; [injection H as <- <-; rx_frame_done|].
  by eapply VRead_locked_frame.
Qed.

Section machine.
Context `{NS : Netstack} `{MI : MapIter}.

Lemma conn_step_ok s s' :
  conn_step s s' -> fin_inv s ->
  fin_inv s' /\ sk s' = sk s /\ (state s' = state s \/ edge (state s) (state s')).
Proof.
  assert (Hframe : forall s s', rx_frame s s' -> fin_inv s ->
    fin_inv s' /\ sk s' = sk s /\ (state s' = state s \/ edge (state s) (state s'))).
  { intros s0 s1 Hf Hi. split; [by eapply fin_inv_frame|]. destruct Hf as (He & _ & _ & Hk).
    split; [done|]. destruct He as [->|[[-> ->]|[-> ->]]]; [by left|right; constructor..]. }
  intros [s0 ti s1 r H|s0 num nb we r s1 H|s0 s1 H|n s0 e s1 evs H|s0 s1 H|t s0 t' s1 H|t s0 t' s1 H] Hi.
  - apply ReceiverThread_body_frame in H as [Hf|(e & E1 & E2 & E3 & E4 & E5)]; [by apply Hframe|].
    split; [|by split; [|left]]. unfold fin_inv in *. rewrite E1 in Hi. by rewrite E2, E3, E4.
  - by apply Hframe; [eapply VRead_locked_frame|].
  - apply Hframe; [|done]. destruct H as (_ & E1 & _ & E2 & _ & E3 & _ & E4 & _). split; [by left|]. by repeat split.
  - unfold VClose in H. case_bool_decide; [done|]. cbv zeta in H. destruct (stateMtx s0); [done|].
    destruct (close_state (state s0)) as [st|] eqn:Ec; [|injection H as <- <- <-; by split; [|split; [|left]]].
    destruct (unackedMtx s0); [done|]. apply bind_Ret_inv in H as (ev & _ & [= <- <- <-]).
    assert (Hst : state s0 <> FIN_WAIT_1 /\ state s0 <> LAST_ACK /\ edge (state s0) st /\
      (st = FIN_WAIT_1 \/ st = LAST_ACK)).
    { destruct (state s0); try done; injection Ec as <-; (split; [done|]); (split; [done|]); (split; [constructor|auto]). }
    destruct Hst as (H1 & H2 & H3 & H4).
    split; [|split; [done|by right]]. unfold fin_inv in *. cbn. split; [|done].
    destruct (closer s0); destruct Hi as [Hu Hs]; try (by destruct Hs).
    rewrite Hu. by rewrite (right_id_L ∅ (∪)).
  - unfold closer_delete, fin_inv in *. destruct (closer s0) as [|e|e|] eqn:Ec.
    3: destruct (unackedMtx s0); [done|]; injection H as <-; cbn; destruct Hi as [-> Hs];
       split; [split; [apply difference_diag_L|done]|by split; [|left]].
    all: injection H as <-; rewrite Ec; split; [done|by split; [|left]].
  - unfold closer_finish, fin_inv in *. destruct (closer s0) as [|e|e|] eqn:Ec.
    4: destruct (stateMtx s0); [done|]; destruct Hi as [Hu [Hs|Hs]]; rewrite Hs in H; injection H as <- <-;
       cbn; rewrite Hs; (split; [done|]); (split; [done|]); [right; constructor|by left].
    all: injection H as <- <-; rewrite Ec; split; [done|by split; [|left]].
  - unfold reap in H. destruct (reapers s0); injection H as <- <-; by split; [|split; [|left]].
Qed.

(** Which operation takes which edge. *)
Lemma receive_edge s ti s' r :
  ReceiverThread_body s ti = Ret (s', r) -> state s' <> state s ->
  state s = ESTABLISHED /\ state s' = CLOSE_WAIT \/ state s = FIN_WAIT_2 /\ state s' = TIME_WAIT.
Proof.
  intros [([E|[E|E]] & _)|(e & _ & _ & E & _)]%ReceiverThread_body_frame Hne; [congruence|by left|by right|done].
Qed.

Lemma VClose_edge n s e s' evs :
  VClose n s = Ret (e, s', evs) ->
  match close_state (state s) with
  | Some st => e = None /\ state s' = st
  | None => e = Some "current socket state is invalid" /\ s' = s
  end.
Proof.
  unfold VClose. case_bool_decide; [done|]. cbv zeta. destruct (stateMtx s); [done|].
  destruct (close_state (state s)) as [st|]; [|by intros [= <- <- <-]].
  destruct (unackedMtx s); [done|]. by intros (ev & _ & [= <- <- <-])%bind_Ret_inv.
Qed.

Lemma closer_finish_edge t s t' s' :
  closer_finish t s = Ret (t', s') -> state s' <> state s -> state s = FIN_WAIT_1 /\ state s' = FIN_WAIT_2.
Proof.
  unfold closer_finish. destruct (closer s); try by intros [= <- <-].
  destruct (stateMtx s); [done|]. destruct (state s) eqn:E; intros [= <- <-]; cbn; by rewrite ?E.
Qed.

Lemma VRead_locked_state s num nb we r s' : VRead_locked s num nb we = Ret (r, s') -> state s' = state s.
Proof.
  unfold VRead_locked. case_bool_decide; [done|]. destruct (read_bytes _ _ _). by destruct we; intros [= <- <-].
Qed.

Lemma closer_delete_state s s' : closer_delete s = Ret s' -> state s' = state s.
Proof.
  unfold closer_delete. destruct (closer s); try by intros [= <-]. by destruct (unackedMtx s); [|intros [= <-]].
Qed.

Lemma reap_state t s : state (reap t s).2 = state s.
Proof. unfold reap. by destruct (reapers s). Qed.

Lemma conn_steps_ok s s' :
  rtc conn_step s s' -> fin_inv s -> rtc edge (state s) (state s') /\ fin_inv s' /\ sk s' = sk s.
Proof.
  induction 1 as [x|x y z Hxy _ IH]; intros Hi; [by split|].
  destruct (conn_step_ok x y Hxy Hi) as (Hi' & Hk & He). destruct (IH Hi') as (R & F & K).
  split; [|split; [done|congruence]]. destruct He as [<-|He]; [done|by eapply rtc_l].
Qed.

(** C5. The connection's state only moves along RFC 9293's edges for an
    established connection (passive: CLOSE_WAIT, LAST_ACK; active: FIN_WAIT_1,
    FIN_WAIT_2, TIME_WAIT).  In every state reachable under any arrivals and any
    interleaving of the calls and goroutines, each further step keeps the state or
    takes one edge, and the edge belongs to its operation: a segment moves ESTABLISHED
    to CLOSE_WAIT and FIN_WAIT_2 to TIME_WAIT only, [VClose] does exactly what
    [close_state] says and refuses elsewhere, its goroutine moves FIN_WAIT_1 to
    FIN_WAIT_2 only, and the other operations change nothing.  The socket's key never
    changes, and the goroutine waiting for the FIN's ACK, the set of unacknowledged
    FINs and the state always agree. *)
Theorem connection_states (s0 s : NormalSocket) :
  state s0 = ESTABLISHED -> closer s0 = NoCloser -> unackedFINs s0 = ∅ -> rtc conn_step s0 s ->
  rtc edge ESTABLISHED (state s) /\ fin_inv s /\ sk s = sk s0 /\
  (forall s', conn_step s s' -> (state s' = state s \/ edge (state s) (state s')) /\ fin_inv s') /\
  (forall ti s' r, ReceiverThread_body s ti = Ret (s', r) -> state s' <> state s ->
     state s = ESTABLISHED /\ state s' = CLOSE_WAIT \/ state s = FIN_WAIT_2 /\ state s' = TIME_WAIT) /\
  (forall n e s' evs, VClose n s = Ret (e, s', evs) ->
     match close_state (state s) with
     | Some st => e = None /\ state s' = st
     | None => e = Some "current socket state is invalid" /\ s' = s
     end) /\
  (forall t t' s', closer_finish t s = Ret (t', s') -> state s' <> state s ->
     state s = FIN_WAIT_1 /\ state s' = FIN_WAIT_2) /\
  (forall num nb we r s', VRead_locked s num nb we = Ret (r, s') -> state s' = state s) /\
  (forall s', closer_delete s = Ret s' -> state s' = state s) /\
  (forall t, state (reap t s).2 = state s).
Proof.
  intros Hs Hc Hu Hr. assert (Hi : fin_inv s0) by (unfold fin_inv; rewrite Hc, Hu, Hs; done).
  destruct (conn_steps_ok s0 s Hr Hi) as (He & Hi' & Hk). rewrite Hs in He.
  split; [done|]. split; [done|]. split; [done|]. split.
  { intros s' H. by destruct (conn_step_ok s s' H Hi') as (? & _ & ?). }
  split; [intros ti s' r; apply receive_edge|]. split; [intros n e s' evs; apply VClose_edge|].
  split; [intros t t' s'; apply closer_finish_edge|].
  split; [intros num nb we r s'; apply VRead_locked_state|].
  split; [intros s'; apply closer_delete_state|]. intros t. apply reap_state.
Qed.
End machine.

(** ** An orderly close *)
(** A connection at rest: no lock held, nothing early, in flight or closing. *)
Definition quiet (s : NormalSocket) : Prop :=
  stateMtx s = false /\ unackedMtx s = false /\ unackedFINs s = ∅ /\ closer s = NoCloser /\
  earlyPQ s = [] /\ w_NXT (writeBuffer s) = w_UNA (writeBuffer s) /\
  0 <= cumReadNXT s < 2 ^ 32 /\ 0 <= cumWriteUNA s < 2 ^ 32.

(** No segment the socket has sent is still recorded, in the map [ReceiverThread]
    never deletes from, under the number [x]; a socket that has sent data fails this
    for the number after it. *)
Definition unrecorded (s : NormalSocket) (x : Z) : Prop := unackedNums s !! x = None.

(** The two ends of one connection, each expecting what the other sends next. *)
Definition peers (a b : NormalSocket) : Prop :=
  sk b = flipSocketKeyFields (sk a) /\ cumReadNXT a = cumWriteUNA b /\ cumReadNXT b = cumWriteUNA a.

Lemma distUNA_quiet w : w_NXT w = w_UNA w -> distUNA w = 0.
Proof. intros E. unfold distUNA. rewrite E, Z.sub_diag. reflexivity. Qed.

(** A FIN that arrives in order, at a socket whose bookkeeping does not claim its
    acknowledgement number. *)
Lemma receive_fin s ti st :
  stateMtx s = false -> unackedMtx s = false -> earlyPQ s = [] -> Flag ti = FINACK ->
  AckNum ti ∉ unackedFINs s -> unackedNums s !! AckNum ti = None -> SeqNum ti = cumReadNXT s ->
  (state s = ESTABLISHED /\ st = CLOSE_WAIT \/ state s = FIN_WAIT_2 /\ st = TIME_WAIT) ->
  exists s', ReceiverThread_body s ti = Ret (s', Reply (ack_segment s' ti)) /\
    state s' = st /\ cumReadNXT s' = u32 (cumReadNXT s + 1) /\
    stateMtx s' = false /\ unackedMtx s' = false /\ unackedFINs s' = unackedFINs s /\
    unackedNums s' = unackedNums s /\ closer s' = closer s /\ earlyPQ s' = [] /\ sk s' = sk s /\
    writeBuffer s' = writeBuffer s /\ cumWriteUNA s' = cumWriteUNA s /\ SID s' = SID s /\
    reapers s' = (if decide (st = TIME_WAIT) then S (reapers s) else reapers s).
Proof.
  intros Hm Hu Hq Hf Hfin Hnum Hseq Hst. unfold ReceiverThread_body. rewrite Hf.
  change (bool_decide (0 < Z.land FINACK TCPFlagAck)) with true. cbv iota zeta.
  set (s1 := set_ClientWindowSize s (WindowSize ti)).
  change (unackedMtx s1) with (unackedMtx s). change (unackedFINs s1) with (unackedFINs s).
  change (unackedNums s1) with (unackedNums s). rewrite Hu, bool_decide_false by done.
  rewrite bool_decide_false by (rewrite Hnum; by intros [[? ?] _]).
  unfold receive_ordered. rewrite Hf, Hseq. change (cumReadNXT s1) with (cumReadNXT s).
  rewrite bool_decide_false by lia. change (bool_decide (0 < Z.land FINACK TCPFlagFin)) with true. cbv iota.
  unfold fin_transition. cbn [set_cumReadNXT stateMtx state s1 set_ClientWindowSize]. rewrite Hm.
  destruct Hst as [[Es ->]|[Es ->]]; rewrite Es; cbn [mbind outcome_bind]; unfold finish_receive;
    cbn [set_cumReadNXT set_state set_reapers earlyPQ s1 set_ClientWindowSize]; rewrite Hq;
    cbn [length drain_early mbind outcome_bind]; eexists; (split; [reflexivity|]); cbn;
    rewrite ?Hm, ?Hu, ?Hq; done.
Qed.

(** A FIN whose acknowledgement number is recorded passes for an ACK. *)
Lemma receive_recorded_fin s p s' r :
  flags p = FINACK -> payload p = [] -> unackedFINs s = ∅ -> ~ unrecorded s (ackNum p) -> state s = ESTABLISHED ->
  ReceiverThread_body s (seg_info (LocalAddr (sk s)) p) = Ret (s', r) -> state s' = ESTABLISHED /\ r = NoReply.
Proof.
  intros Hf Hp Hfin Hn Hs. unfold ReceiverThread_body. cbn [seg_info Flag AckNum Payload]. rewrite Hf.
  change (bool_decide (0 < Z.land FINACK TCPFlagAck)) with true. cbv iota zeta.
  set (s1 := set_ClientWindowSize s _). change (unackedFINs s1) with (unackedFINs s).
  change (unackedNums s1) with (unackedNums s). destruct (unackedMtx s1); [done|].
  rewrite Hfin, bool_decide_false by set_solver. rewrite Hp, bool_decide_true.
  - case_bool_decide; [|done]. by intros [= <- <-].
  - split; [|done]. unfold unrecorded in Hn. destruct (unackedNums s !! ackNum p); [by eexists|done].
Qed.

(** The awaited ACK reaches the goroutine of [VClose], which finishes. *)
Lemma receive_fin_ack s ti e st :
  stateMtx s = false -> unackedMtx s = false -> unackedFINs s = {[e]} -> closer s = Waiting e ->
  Flag ti = TCPFlagAck -> AckNum ti = e -> (st = FIN_WAIT_1 \/ st = LAST_ACK) -> state s = st ->
  forall t, exists s1 s2,
    ReceiverThread_body s ti = Ret (s1, NoReply) /\ closer_delete s1 = Ret s2 /\
    unackedFINs s2 = ∅ /\
    match st with
    | FIN_WAIT_1 => closer_finish t s2 = Ret (t, set_state (set_closer s2 NoCloser) FIN_WAIT_2)
    | _ => closer_finish t s2 = Ret (deleteTCB t (Normal (set_closer s2 NoCloser)), set_closer s2 NoCloser)
    end /\
    stateMtx s2 = false /\ unackedMtx s2 = false /\ unackedNums s2 = unackedNums s /\
    earlyPQ s2 = earlyPQ s /\ cumReadNXT s2 = cumReadNXT s /\ sk s2 = sk s /\ SID s2 = SID s /\
    reapers s2 = reapers s.
Proof.
  intros Hm Hu Hf Hc Hfl Ha Hst Hs t. unfold ReceiverThread_body. rewrite Hfl.
  change (bool_decide (0 < Z.land TCPFlagAck TCPFlagAck)) with true. cbv iota zeta.
  set (s1 := set_ClientWindowSize s (WindowSize ti)).
  change (unackedMtx s1) with (unackedMtx s). change (unackedFINs s1) with (unackedFINs s).
  change (closer s1) with (closer s). rewrite Hu, Hf, Hc, Ha.
  rewrite bool_decide_true by set_solver. rewrite bool_decide_true by done.
  eexists _, _. split; [reflexivity|]. split.
  { unfold closer_delete. cbn. rewrite Hu. reflexivity. }
  cbn. rewrite Hf. split; [apply difference_diag_L|]. rewrite Hm, Hu, Hs.
  destruct Hst as [-> | ->]; split; try done; unfold closer_finish; cbn; by rewrite Hm, Hs.
Qed.

Section orderly.
Context `{NS : Netstack} `{MI : MapIter}.

(** [VClose] from a state in which it is allowed. *)
Lemma VClose_ok n s st evs :
  state s <> SYN_SENT -> stateMtx s = false -> unackedMtx s = false -> unackedFINs s = ∅ ->
  w_NXT (writeBuffer s) = w_UNA (writeBuffer s) -> 0 <= cumWriteUNA s < 2 ^ 32 ->
  close_state (state s) = Some st -> send_segment n (fin_segment s) = Ret evs ->
  seqNum (fin_segment s) = cumWriteUNA s /\
  exists s', VClose n s = Ret (None, s', evs) /\
    s' = set_closer (set_unackedFINs (set_state s st) {[u32 (cumWriteUNA s + 1)]})
           (Waiting (u32 (cumWriteUNA s + 1))).
Proof.
  intros H0 Hm Hu Hf Hw Hc Hst Hs.
  assert (Hseq : seqNum (fin_segment s) = cumWriteUNA s).
  { cbn. rewrite distUNA_quiet by done. by apply u32_small. }
  split; [done|]. eexists. split; [|reflexivity]. unfold VClose. rewrite bool_decide_false by done.
  cbv zeta. rewrite Hm, Hst, Hu, Hs, Hseq, Hf. cbn [mbind outcome_bind].
  by rewrite (right_id_L ∅ (∪)).
Qed.

(** C12. Closing between two ends that are at rest and have sent no data under the
    numbers involved: neither end's [unackedNums] may hold the number the other's FIN
    acknowledges.  Then [VClose] on one end, the FIN/ACK exchange, then [VClose] on the
    other, takes the first end through FIN_WAIT_1 and FIN_WAIT_2 to TIME_WAIT, where a
    goroutine will delete it, and the second through CLOSE_WAIT and LAST_ACK out of its
    stack's table.  And the condition is needed: where the peer's map does hold the
    number (entries are never deleted, so an end that has sent data fails it), the peer
    takes the FIN for an ACK, answers nothing and stays ESTABLISHED. *)
Theorem orderly_close (na nb : Node) (ta tb : TCPStack) (a b : NormalSocket) :
  quiet a -> quiet b -> state a = ESTABLISHED -> state b = ESTABLISHED -> peers a b ->
  (forall p, payload p = [] -> destIp p = RemoteAddr (sk a) -> exists e, send_segment na p = Ret e) ->
  (forall p, payload p = [] -> destIp p = RemoteAddr (sk b) -> exists e, send_segment nb p = Ret e) ->
  SID_to_sk tb !! SID b = Some (sk b) ->
  (unrecorded b (cumReadNXT a) -> unrecorded a (u32 (cumWriteUNA a + 1)) ->
  exists a1 a2 a3 a4 a5 b1 b2 b3 b4 b5 tb' ack1 ack2 e1 e2,
    VClose na a = Ret (None, a1, e1) /\ state a1 = FIN_WAIT_1 /\
    ReceiverThread_body b (seg_info (LocalAddr (sk b)) (fin_segment a)) = Ret (b1, Reply ack1) /\
    state b1 = CLOSE_WAIT /\
    ReceiverThread_body a1 (seg_info (LocalAddr (sk a)) ack1) = Ret (a2, NoReply) /\
    closer_delete a2 = Ret a3 /\ closer_finish ta a3 = Ret (ta, a4) /\ state a4 = FIN_WAIT_2 /\
    VClose nb b1 = Ret (None, b2, e2) /\ state b2 = LAST_ACK /\
    ReceiverThread_body a4 (seg_info (LocalAddr (sk a)) (fin_segment b1)) = Ret (a5, Reply ack2) /\
    state a5 = TIME_WAIT /\ reapers a5 = S (reapers a) /\
    ReceiverThread_body b2 (seg_info (LocalAddr (sk b)) ack2) = Ret (b3, NoReply) /\
    closer_delete b3 = Ret b4 /\ closer_finish tb b4 = Ret (tb', b5) /\
    SocketTable tb' !! sk b = None) /\
  (~ unrecorded b (cumReadNXT a) -> forall b' r,
    ReceiverThread_body b (seg_info (LocalAddr (sk b)) (fin_segment a)) = Ret (b', r) ->
    state b' = ESTABLISHED /\ r = NoReply).
Proof.
  intros (Am & Au & Af & Ac & Aq & Aw & Ar & As) (Bm & Bu & Bf & Bc & Bq & Bw & Br & Bs) Ea Eb (Pk & P1 & P2)
    Sa Sb Hsid.
  split; [|intros Nb b' r Hr; by apply (receive_recorded_fin b (fin_segment a)) in Hr].
  intros Nb Na.
  destruct (Sa (fin_segment a)) as [e1 He1]; [done..|].
  destruct (VClose_ok na a FIN_WAIT_1 e1) as (Sq & a1 & V1 & Ea1); [by rewrite Ea|done..|by rewrite Ea|done|].
  destruct (receive_fin b (seg_info (LocalAddr (sk b)) (fin_segment a)) CLOSE_WAIT)
    as (b1 & R1 & T1 & C1 & M1 & U1 & F1 & N1 & Cl1 & Q1 & K1 & W1 & L1 & I1 & _); try done.
  { rewrite Bf. set_solver. }
  { cbn [seg_info SeqNum]. by rewrite Sq. }
  { by left. }
  set (ti1 := seg_info (LocalAddr (sk b)) (fin_segment a)) in *.
  destruct (receive_fin_ack a1 (seg_info (LocalAddr (sk a)) (ack_segment b1 ti1)) (u32 (cumWriteUNA a + 1)) FIN_WAIT_1)
    with (t := ta) as (a2 & a3 & R2 & D2 & F2 & X2 & M2 & U2 & N2 & Q2 & C2 & K2 & I2 & Rp2);
    try (by subst a1); try (by left).
  { cbn [seg_info AckNum ack_segment ackNum]. by rewrite C1, P2. }
  cbv iota in X2. set (a4 := set_state (set_closer a3 NoCloser) FIN_WAIT_2) in *.
  destruct (Sb (fin_segment b1)) as [e2 He2]; [done|cbn; by rewrite K1|].
  destruct (VClose_ok nb b1 LAST_ACK e2) as (Sq2 & b2 & V2 & Eb2);
    [by rewrite T1|done|done|by rewrite F1|by rewrite W1|by rewrite L1|by rewrite T1|done|].
  destruct (receive_fin a4 (seg_info (LocalAddr (sk a)) (fin_segment b1)) TIME_WAIT)
    as (a5 & R3 & T3 & C3 & _ & _ & _ & _ & _ & _ & _ & _ & _ & _ & Rp3).
  { exact M2. }
  { exact U2. }
  { change (earlyPQ a4) with (earlyPQ a3). rewrite Q2, Ea1. exact Aq. }
  { reflexivity. }
  { change (unackedFINs a4) with (unackedFINs a3). rewrite F2. set_solver. }
  { change (unackedNums a4) with (unackedNums a3). rewrite N2, Ea1. cbn. by rewrite C1, P2. }
  { cbn [seg_info SeqNum]. rewrite Sq2, L1. change (cumReadNXT a4) with (cumReadNXT a3). rewrite C2, Ea1. by cbn. }
  { right. by split. }
  set (ti2 := seg_info (LocalAddr (sk a)) (fin_segment b1)) in *.
  destruct (receive_fin_ack b2 (seg_info (LocalAddr (sk b)) (ack_segment a5 ti2)) (u32 (cumWriteUNA b1 + 1)) LAST_ACK)
    with (t := tb) as (b3 & b4 & R4 & D4 & F4 & X4 & M4 & U4 & N4 & Q4 & C4 & K4 & I4 & _);
    try (by subst b2); try (by right).
  { cbn [seg_info AckNum ack_segment ackNum]. rewrite C3, L1, <- P1.
    change (cumReadNXT a4) with (cumReadNXT a3). rewrite C2, Ea1. by cbn. }
  eexists a1, a2, a3, a4, a5, b1, b2, b3, b4, _, _, _, _, e1, e2.
  split; [exact V1|]. split; [by rewrite Ea1|]. split; [exact R1|]. split; [done|]. split; [exact R2|].
  split; [exact D2|]. split; [exact X2|]. split; [done|]. split; [exact V2|]. split; [by rewrite Eb2|].
  split; [exact R3|]. split; [done|]. split.
  { rewrite Rp3. simpl. change (reapers a4) with (reapers a3). by rewrite Rp2, Ea1. }
  split; [exact R4|]. split; [exact D4|]. split; [exact X4|].
  unfold deleteTCB. cbn [SocketTable getSID]. cbn [set_closer SID]. rewrite I4, Eb2. cbn [set_closer set_unackedFINs set_state SID].
  rewrite I1, Hsid. cbn. apply lookup_delete_eq.
Qed.
End orderly.
