(* ===== verification/TcpSender.v ===== *)
(** * The sending side up to the sliding window ([VWrite], [SenderThread])

    [VWrite] copies a message into the send ring in rounds and hands the new
    [LBW] to [SenderThread] over the unbuffered [writeChan]; the sender cuts the
    new bytes out of the ring and runs [slidingWindow] on them.  Here are the
    operations on the ring; [TcpStream] interleaves the goroutines. *)
From S2P Require Import Prelude Netip Netstack Node Pq TcpTypes TcpRing.
Local Open Scope Z_scope.
Local Open Scope go_scope.

(** ** One round of [VWrite]'s loop *)
(** The free space the round computes; [new_message] and [notFirstWrite] select
    the formula that ignores [UNA]. *)
Definition write_space (w : WriteBuffer) (notFirst new_message : bool) : Z :=
  if negb notFirst || new_message then u32 (WINDOW_SIZE - 1 - w_LBW w)
  else u32 (w_UNA w - 1 - w_LBW w + WINDOW_SIZE) mod WINDOW_SIZE.

(** Copy [to_write] bytes after [LBW], in two pieces when they wrap. *)
Definition ring_write (w : WriteBuffer) (bs : list byte) : WriteBuffer :=
  let to_write := zlen bs in
  let first_seg := Z.min (u32 (WINDOW_SIZE - w_LBW w - 1)) to_write in
  let buf1 := zcopy (w_buffer w) (w_LBW w + 1) (ztake first_seg bs) in
  let buf2 := zcopy buf1 0 (zdrop first_seg bs) in
  mkWrite buf2 (w_UNA w) (w_NXT w) (u32 (w_LBW w + to_write) mod WINDOW_SIZE).

(** The bytes of [message] the round writes. *)
Definition round_bytes (w : WriteBuffer) (notFirst new_message : bool) (message : list byte) (bytesSent : Z) :
    list byte :=
  let to_write := Z.min (zlen message - bytesSent)
    (Z.min (write_space w notFirst new_message) (MaxMessageSize - 40)) in
  zsub bytesSent (bytesSent + to_write) message.

(** ** The sender's cut *)
(** The payload for a received [lbw], or none when the ring holds nothing new. *)
Definition sender_payload (w : WriteBuffer) (lbw : Z) : option (list byte) :=
  let distLBW := u32 (lbw - w_UNA w) mod WINDOW_SIZE in
  let distNXT := u32 (w_NXT w - w_UNA w) mod WINDOW_SIZE in
  if bool_decide (distNXT <= distLBW) then
    let amount := u32 (lbw - w_NXT w + 1 + WINDOW_SIZE) mod WINDOW_SIZE in
    let first_seg := Z.min (u32 (WINDOW_SIZE - w_NXT w)) amount in
    let second_seg := amount - first_seg in
    Some (zsub (w_NXT w) (w_NXT w + first_seg) (w_buffer w) ++ zsub 0 second_seg (w_buffer w))
  else None.

(** The state test [VWrite] starts with, under [stateMtx]; the result is the error. *)
Definition VWrite_test (s : NormalSocket) : outcome (option string) :=
  if bool_decide (state s = SYN_SENT) then Panic "nil pointer dereference"
  else if stateMtx s then Block "stateMtx"
  else if bool_decide (state s = FIN_WAIT_1 \/ state s = FIN_WAIT_2 \/ state s = TIME_WAIT)
  then Ret (Some "sock closed")
  else Ret None.

Definition write_wf (w : WriteBuffer) : Prop :=
  zlen (w_buffer w) = WINDOW_SIZE /\ 0 <= w_UNA w < WINDOW_SIZE /\ 0 <= w_NXT w < WINDOW_SIZE /\
  0 <= w_LBW w < WINDOW_SIZE.

(** ** Ring lemmas *)
Lemma ring_write_spec w bs :
  write_wf w -> zlen bs < WINDOW_SIZE ->
  let w' := ring_write w bs in
  write_wf w' /\ w_UNA w' = w_UNA w /\ w_NXT w' = w_NXT w /\
  w_LBW w' = (w_LBW w + zlen bs) mod WINDOW_SIZE /\
  ring_slice (w_buffer w') ((w_LBW w + 1) mod WINDOW_SIZE) (zlen bs) = bs.
Proof.
  intros (Hb & HU & HN & HL) Hl w'. zlen_facts.
  subst w'. unfold ring_write. cbv zeta.
  rewrite (u32_small (WINDOW_SIZE - w_LBW w - 1)) by (unfold WINDOW_SIZE in *; lia).
  set (fs := Z.min (WINDOW_SIZE - w_LBW w - 1) (zlen bs)).
  assert (Hfs : 0 <= fs <= zlen bs /\ w_LBW w + 1 + fs <= WINDOW_SIZE) by lia.
  assert (H1 : zlen (ztake fs bs) = fs) by (apply zlen_ztake; lia).
  assert (H2 : zlen (zdrop fs bs) = zlen bs - fs) by (apply zlen_zdrop; lia).
  set (buf1 := zcopy (w_buffer w) (w_LBW w + 1) (ztake fs bs)).
  assert (Hb1 : zlen buf1 = WINDOW_SIZE) by (subst buf1; rewrite zlen_zcopy; lia).
  assert (Hb2 : zlen (zcopy buf1 0 (zdrop fs bs)) = WINDOW_SIZE) by (rewrite zlen_zcopy; lia).
  cbn [w_UNA w_NXT w_LBW w_buffer]. rewrite u32_mod_W.
  split; [split; [done|split; [done|split; [done|apply Z.mod_pos_bound; done]]]|].
  split; [done|]. split; [done|]. split; [done|].
  pose proof (Z.mod_pos_bound (w_LBW w + 1) WINDOW_SIZE ltac:(done)).
  apply zget_ext; [apply zlen_ring_slice; [done|lia|lia]|].
  intros k Hk. rewrite zlen_ring_slice in Hk by (done || lia).
  rewrite zget_ring by (done || lia). rewrite Zplus_mod_idemp_l.
  assert (Hpos : (w_LBW w + 1 + k) mod WINDOW_SIZE = if decide (k < WINDOW_SIZE - w_LBW w - 1)
    then w_LBW w + 1 + k else w_LBW w + 1 + k - WINDOW_SIZE)
    by (case_decide; unfold WINDOW_SIZE in *; Z.div_mod_to_equations; lia).
  rewrite Hpos. case_decide.
  - rewrite zget_zcopy by lia. rewrite decide_False by lia. subst buf1. rewrite zget_zcopy by lia.
    rewrite decide_True by lia. rewrite zget_ztake by lia. f_equal. lia.
  - rewrite zget_zcopy by lia. rewrite decide_True by lia. rewrite zget_zdrop by lia. f_equal. lia.
Qed.

Lemma ring_cut buf start len :
  zlen buf = WINDOW_SIZE -> 0 <= start < WINDOW_SIZE -> 0 <= len < WINDOW_SIZE ->
  zsub start (start + Z.min (WINDOW_SIZE - start) len) buf ++
    zsub 0 (len - Z.min (WINDOW_SIZE - start) len) buf = ring_slice buf start len.
Proof.
  intros Hb Hs Hl. set (fs := Z.min (WINDOW_SIZE - start) len).
  apply zget_ext.
  - rewrite zlen_app, !zlen_zsub, zlen_ring_slice by lia. lia.
  - intros k Hk. rewrite zlen_app, !zlen_zsub in Hk by lia.
    rewrite zget_app, zlen_zsub by lia. rewrite zget_ring by lia. case_decide.
    + rewrite zget_zsub by lia. f_equal. rewrite Z.mod_small; lia.
    + rewrite zget_zsub by lia. f_equal. unfold WINDOW_SIZE in *. Z.div_mod_to_equations. lia.
Qed.

(** ** The bytes of a round *)
Lemma round_bytes_spec w nf nm message sent :
  write_wf w -> 0 <= sent <= zlen message ->
  let bs := round_bytes w nf nm message sent in
  zlen bs <= MSS /\ sent + zlen bs <= zlen message /\
  ztake sent message ++ bs = ztake (sent + zlen bs) message.
Proof.
  intros (_ & _ & _ & HL) Hs bs. unfold round_bytes, MaxMessageSize in bs. cbv zeta in bs.
  set (to := Z.min (zlen message - sent) _) in bs.
  assert (Hsp : 0 <= write_space w nf nm).
  { unfold write_space. destruct (_ || _); [apply u32_range|]. apply Z.mod_pos_bound. done. }
  assert (Hto : 0 <= to <= MSS /\ sent + to <= zlen message) by (unfold MSS; lia).
  assert (Hbs : zlen bs = to) by (subst bs; rewrite zlen_zsub by lia; lia).
  split; [lia|]. split; [lia|]. rewrite Hbs, !ztake_zsub. symmetry. apply zsub_split; lia.
Qed.

(** What the sender cuts out is exactly what the last round wrote. *)
Lemma sender_payload_spec w bs :
  write_wf w -> w_UNA w = w_NXT w -> zlen bs <= MSS ->
  ring_slice (w_buffer w) (w_NXT w) (zlen bs) = bs ->
  (w_NXT w + zlen bs) mod WINDOW_SIZE = (w_LBW w + 1) mod WINDOW_SIZE ->
  sender_payload w (w_LBW w) = Some bs.
Proof.
  intros (Hb & HU & HN & HL) Hun Hl Hr Hpos. zlen_facts. unfold sender_payload.
  rewrite !u32_mod_W, Hun, Z.sub_diag. rewrite bool_decide_true by (apply Z.mod_pos_bound; done).
  assert (Ham : (w_LBW w - w_NXT w + 1 + WINDOW_SIZE) mod WINDOW_SIZE = zlen bs)
    by (unfold MSS, WINDOW_SIZE in *; Z.div_mod_to_equations; lia).
  rewrite Ham, (u32_small (WINDOW_SIZE - w_NXT w)) by (unfold WINDOW_SIZE in *; lia).
  rewrite ring_cut by (unfold MSS, WINDOW_SIZE in *; lia). by rewrite Hr.
Qed.

(** A round writes something when there is space and something left. *)
Lemma round_bytes_pos w nf nm message sent :
  write_wf w -> 0 <= sent < zlen message -> 0 < write_space w nf nm -> 0 < zlen (round_bytes w nf nm message sent).
Proof. intros _ Hs Hsp. unfold round_bytes, MaxMessageSize. cbv zeta. rewrite zlen_zsub by lia. lia. Qed.

(** The space while [k] bytes are in flight and everything written has been taken. *)
Lemma space_in_flight w k :
  write_wf w -> 0 < k < WINDOW_SIZE -> (w_UNA w + k) mod WINDOW_SIZE = (w_LBW w + 1) mod WINDOW_SIZE ->
  write_space w true false = WINDOW_SIZE - k.
Proof.
  intros (_ & HU & _ & HL) Hk E. unfold write_space. cbn [negb orb]. rewrite u32_mod_W.
  unfold WINDOW_SIZE in *. Z.div_mod_to_equations. lia.
Qed.

(** Once everything has been acknowledged the formula gives no space at all. *)
Lemma starved_round w message sent :
  write_wf w -> w_UNA w = (w_LBW w + 1) mod WINDOW_SIZE -> round_bytes w true false message sent = [].
Proof.
  intros (_ & HU & _ & HL) E. unfold round_bytes, write_space. cbn [negb orb]. rewrite u32_mod_W.
  replace ((w_UNA w - 1 - w_LBW w + WINDOW_SIZE) mod WINDOW_SIZE) with 0
    by (unfold WINDOW_SIZE in *; Z.div_mod_to_equations; lia).
  apply ztake_nil_nonpos. unfold MaxMessageSize. lia.
Qed.
