(* ===== verification/TcpFaults.v ===== *)
(** * Where the connection handling goes wrong

    Theorems about inputs on which [ReceiverThread] and [VClose] lose a segment,
    leave a mutex locked or deadlock. *)
From S2P Require Import Prelude Netip Netstack Utils Config Node Pq TcpTypes TcpRing TcpReceiver TcpStack TcpClose TcpSender.
Local Open Scope Z_scope.

(** C40. A FIN is lost when the receiver has sent data before: entries of
    [unackedNums] are never removed, so a FIN that acknowledges everything sent is
    taken for a pure acknowledgement and queued for the sender.  State and
    expected number stay as they were, and nothing is sent back; the closing peer
    waits in FIN_WAIT_1 for ever, since FINs are not retransmitted. *)
Theorem fin_swallowed (s : NormalSocket) (ti : TCPInfo) :
  unackedMtx s = false -> Flag ti = FINACK -> Payload ti = [] -> AckNum ti ∉ unackedFINs s ->
  is_Some (unackedNums s !! AckNum ti) -> (length (ackChan s) < 100)%nat ->
  exists s', ReceiverThread_body s ti = Ret (s', NoReply) /\ ackChan s' = ackChan s ++ [ti] /\
    state s' = state s /\ cumReadNXT s' = cumReadNXT s /\ readBuffer s' = readBuffer s /\
    earlyPQ s' = earlyPQ s.
Proof.
  intros Hu Hf Hp Hfin Hnum Hch. unfold ReceiverThread_body. rewrite Hf.
  change (bool_decide (0 < Z.land FINACK TCPFlagAck)) with true. cbv iota zeta.
  set (s1 := set_ClientWindowSize s (WindowSize ti)).
  change (unackedMtx s1) with (unackedMtx s). change (unackedFINs s1) with (unackedFINs s).
  change (unackedNums s1) with (unackedNums s). change (ackChan s1) with (ackChan s).
  rewrite Hu, bool_decide_false, bool_decide_true, bool_decide_true by done. by eexists.
Qed.

(** ** [stateMtx] *)
(** A mutex left locked stays locked: nothing unlocks it but the call that locked it. *)
Section locked.
Context `{NS : Netstack} `{MI : MapIter}.

Definition rx_locked (s s' : NormalSocket) : Prop := stateMtx s = true -> stateMtx s' = true.

Lemma fin_transition_locked s s' : fin_transition s = Ret s' -> rx_locked s s'.
Proof. unfold fin_transition, rx_locked. destruct (stateMtx s); [done|]. intros _. discriminate. Qed.

Lemma drain_early_locked fuel s s' : drain_early fuel s = Ret s' -> rx_locked s s'.
Proof.
  revert s. induction fuel as [|fuel IH]; intros s; [intros [= <-]; exact id|].
  cbn [drain_early]. destruct (earlyPQ s) as [|root q]; [intros [= <-]; exact id|].
  case_bool_decide; [|intros [= <-]; exact id].
  case_bool_decide; intros ([x q'] & _ & H2)%bind_Ret_inv; [exact (IH _ H2)|].
  cbv zeta in H2. revert H2. case_bool_decide; [|exact (IH _)].
  intros (s1 & Hf%fin_transition_locked & H2%IH)%bind_Ret_inv. intros Hlk. by apply H2, Hf.
Qed.

Lemma ReceiverThread_body_locked s ti s' r : ReceiverThread_body s ti = Ret (s', r) -> rx_locked s s'.
Proof.
  unfold ReceiverThread_body. case_bool_decide; [|intros [= <- <-]; exact id]. cbv zeta.
  destruct (unackedMtx _); [done|]. case_bool_decide.
  { destruct (closer _); intros [= <- <-]; try exact id. case_bool_decide; exact id. }
  case_bool_decide; [case_bool_decide; [intros [= <- <-]; exact id|done]|].
  unfold receive_ordered, finish_receive. case_bool_decide; [intros [= <- <-]; exact id|]. case_bool_decide.
  - intros (s1 & Hf%fin_transition_locked & (s2 & Hd%drain_early_locked & [= <- <-])%bind_Ret_inv)%bind_Ret_inv.
    intros Hlk. by apply Hd, Hf.
  - case_bool_decide; [|intros [= <- <-]; exact id].
    intros (s2 & Hd%drain_early_locked & [= <- <-])%bind_Ret_inv. exact Hd.
Qed.

Lemma conn_step_locked s s' : conn_step s s' -> rx_locked s s'.
Proof.
  intros [s0 ti s1 r H|s0 num nb we r s1 H|s0 s1 H|n s0 e s1 evs H|s0 s1 H|t s0 t' s1 H|t s0 t' s1 H] Hl.
  - by apply (ReceiverThread_body_locked _ _ _ _ H).
  - unfold VRead_locked in H. case_bool_decide; [done|]. destruct (read_bytes _ _ _) as [bs rb].
    by destruct r as [?|?], we; injection H as _ <-.
  - destruct H as (_ & _ & E & _). by rewrite E.
  - unfold VClose in H. rewrite Hl in H. by case_bool_decide.
  - unfold closer_delete in H. destruct (closer s0); try (by injection H as <-).
    destruct (unackedMtx s0); [done|]. by injection H as <-.
  - unfold closer_finish in H. rewrite Hl in H. destruct (closer s0); try done; by injection H as <- <-.
  - unfold reap in H. by destruct (reapers s0); injection H as <- <-.
Qed.

(** A FIN in a state other than ESTABLISHED and FIN_WAIT_2 (a retransmitted FIN
    in CLOSE_WAIT, a simultaneous close in FIN_WAIT_1) locks [stateMtx] for good:
    after it, in every later state of the connection, [VRead], [VWrite] and
    [VClose] block for ever. *)
Theorem fin_locks_socket (s s' s'' : NormalSocket) (ti : TCPInfo) (r : rx_end) :
  stateMtx s = false -> unackedMtx s = false -> earlyPQ s = [] ->
  (state s = FIN_WAIT_1 \/ state s = CLOSE_WAIT \/ state s = LAST_ACK \/ state s = TIME_WAIT) ->
  Flag ti = FINACK -> AckNum ti ∉ unackedFINs s -> unackedNums s !! AckNum ti = None ->
  SeqNum ti <= cumReadNXT s ->
  ReceiverThread_body s ti = Ret (s', r) -> rtc conn_step s' s'' -> state s'' <> SYN_SENT ->
  VRead s'' 1 None = Block "stateMtx" /\ VWrite_test s'' = Block "stateMtx" /\
  forall n, VClose n s'' = Block "stateMtx".
Proof.
  intros Hm Hu Hq Hst Hf Hfin Hnum Hseq Hr Hsteps Hss.
  assert (Hl : stateMtx s' = true).
  { revert Hr. unfold ReceiverThread_body. rewrite Hf.
    change (bool_decide (0 < Z.land FINACK TCPFlagAck)) with true. cbv iota zeta.
    set (s1 := set_ClientWindowSize s (WindowSize ti)).
    change (unackedMtx s1) with (unackedMtx s). change (unackedFINs s1) with (unackedFINs s).
    change (unackedNums s1) with (unackedNums s). rewrite Hu, bool_decide_false by done.
    rewrite bool_decide_false by (rewrite Hnum; by intros [[? ?] _]).
    unfold receive_ordered. rewrite Hf. change (cumReadNXT s1) with (cumReadNXT s).
    rewrite bool_decide_false by lia. change (bool_decide (0 < Z.land FINACK TCPFlagFin)) with true. cbv iota.
    intros (s2 & Hft & (s3 & Hd%drain_early_locked & [= <- <-])%bind_Ret_inv)%bind_Ret_inv.
    apply Hd. revert Hft. unfold fin_transition. cbn. rewrite Hm.
    destruct Hst as [E|[E|[E|E]]]; rewrite E; by intros [= <-]. }
  assert (Hl' : stateMtx s'' = true).
  { clear -Hl Hsteps. induction Hsteps as [|x y z Hxy _ IH]; [done|]. apply IH. by apply (conn_step_locked _ _ Hxy). }
  unfold VRead, VRead_test, VWrite_test, VClose. rewrite Hl', !bool_decide_false by done. done.
Qed.

(** The ACK of a FIN arriving twice before the goroutine of [VClose] has run
    (the peer's ACK followed by its own FIN, which carries the same number)
    deadlocks the connection: the receiver waits on [finChan] holding
    [unackedMtx], which the goroutine needs before it can end. *)
Theorem fin_ack_deadlock (s : NormalSocket) (ti : TCPInfo) (e : Z) :
  unackedMtx s = false -> closer s = Got e -> unackedFINs s = {[e]} ->
  0 < Z.land (Flag ti) TCPFlagAck -> AckNum ti = e ->
  exists s', ReceiverThread_body s ti = Ret (s', StuckFin) /\
    closer_delete s' = Block "unackedMtx" /\
    forall ti', 0 < Z.land (Flag ti') TCPFlagAck -> ReceiverThread_body s' ti' = Block "unackedMtx".
Proof.
  intros Hu Hc Hf Hfl Ha. unfold ReceiverThread_body. rewrite bool_decide_true by done. cbv zeta.
  set (s1 := set_ClientWindowSize s (WindowSize ti)).
  change (unackedMtx s1) with (unackedMtx s). change (unackedFINs s1) with (unackedFINs s).
  change (closer s1) with (closer s). rewrite Hu, Hf, Ha, Hc, bool_decide_true by set_solver.
  eexists. split; [reflexivity|]. split.
  - unfold closer_delete. cbn. by rewrite Hc.
  - intros ti' Hfl'. by rewrite bool_decide_true.
Qed.
End locked.

(** An old segment (a duplicate whose ACK was lost) moves the receiver back:
    the expected number becomes the one after that segment, although later bytes
    had arrived, and the peer's next new segment is then treated as early and not
    acknowledged. *)
Theorem stale_segment_regresses (s : NormalSocket) (old new : TCPInfo) :
  rx_inv s -> unackedMtx s = false -> earlyPQ s = [] -> free_space (readBuffer s) <> 0 ->
  Flag old = TCPFlagAck -> Flag new = TCPFlagAck -> Payload old <> [] -> Payload new <> [] ->
  AckNum old ∉ unackedFINs s -> AckNum new ∉ unackedFINs s ->
  0 <= SeqNum old -> SeqNum old + zlen (Payload old) < cumReadNXT s -> SeqNum new = cumReadNXT s ->
  exists s1 s2 ack, ReceiverThread_body s old = Ret (s1, Reply ack) /\
    cumReadNXT s1 = SeqNum old + zlen (Payload old) /\ ackNum ack = cumReadNXT s1 /\
    ReceiverThread_body s1 new = Ret (s2, NoReply) /\ cumReadNXT s2 = cumReadNXT s1 /\
    (content <$> earlyPQ s2) = [(SeqNum new, TCPFlagAck, Payload new)].
Proof.
  intros (_ & Hc & _) Hu Hq Hfs Hf1 Hf2 Hp1 Hp2 Ha1 Ha2 H0 Hold Hnew. zlen_facts.
  assert (Hrun : forall s ti, unackedMtx s = false -> Flag ti = TCPFlagAck -> Payload ti <> [] ->
    AckNum ti ∉ unackedFINs s ->
    ReceiverThread_body s ti = receive_ordered (set_ClientWindowSize s (WindowSize ti)) ti).
  { intros x ti Hx Hfl Hpl Hac. unfold ReceiverThread_body. rewrite Hfl.
    change (bool_decide (0 < Z.land TCPFlagAck TCPFlagAck)) with true. cbv iota zeta.
    cbn [set_ClientWindowSize unackedMtx unackedFINs unackedNums]. rewrite Hx, bool_decide_false by done.
    by rewrite bool_decide_false by (by intros [_ ?]). }
  rewrite (Hrun s old) by done. unfold receive_ordered at 1.
  cbn [set_ClientWindowSize cumReadNXT readBuffer]. rewrite bool_decide_false by lia. rewrite Hf1.
  change (bool_decide (0 < Z.land TCPFlagAck TCPFlagFin)) with false. cbv iota. rewrite bool_decide_true by done.
  unfold finish_receive.
  cbn [store_payload set_read set_cumReadNXT earlyPQ set_ClientWindowSize]. rewrite Hq.
  cbn [length drain_early mbind outcome_bind].
  set (s1 := store_payload (set_ClientWindowSize s (WindowSize old)) (SeqNum old) (Payload old)).
  assert (Hcum : cumReadNXT s1 = SeqNum old + zlen (Payload old)).
  { cbn. rewrite (u32_small (zlen (Payload old))) by lia. apply u32_small. lia. }
  eexists s1, _, (ack_segment s1 old). split; [reflexivity|]. split; [done|]. split; [done|].
  rewrite (Hrun s1 new) by done. unfold receive_ordered.
  change (cumReadNXT (set_ClientWindowSize s1 (WindowSize new))) with (cumReadNXT s1).
  rewrite bool_decide_true by lia. split; [reflexivity|]. split; [done|].
  cbn [push_early set_earlyPQ set_index earlyPQ].
  change (earlyPQ (set_ClientWindowSize s1 (WindowSize new))) with (earlyPQ s). rewrite Hq.
  destruct (heap_Push_spec [] (mkEarly (SeqNum new) (index (set_ClientWindowSize s1 (WindowSize new)))
    (Flag new) (Payload new)) pq_inv_nil) as [_ Hperm].
  apply Permutation_singleton_r in Hperm. rewrite Hperm. unfold content. cbn. by rewrite Hf2.
Qed.
