(* ===== verification/TcpTimer.v ===== *)
(** * The retransmission timeout ([recomputeRTO])

    [RTO] and [SRTT] are Go [float64] values, binary64 numbers of the Standard
    Library's [SpecFloat]; the untyped constants are rounded to binary64 as the
    compiler does, and no operations are fused (as on amd64).  [min] and [max] are Go's built-ins: NaN if an argument is. *)
From Stdlib Require Import Floats.SpecFloat.
From S2P Require Import Prelude.
Local Open Scope Z_scope.

Definition f64_mul : spec_float -> spec_float -> spec_float := SFmul 53 1024.
Definition f64_add : spec_float -> spec_float -> spec_float := SFadd 53 1024.

Definition RTO_MIN : spec_float := S754_finite false 8796093022208000 (-44).
Definition RTO_MAX : spec_float := S754_finite false 5497558138880000 (-40).
(** 0.85, 0.15 (the exact constant 1 - 0.85, then rounded), 1.65, 2 and 0. *)
Definition RTO_ALPHA : spec_float := S754_finite false 7656119366529843 (-53).
Definition ONE_MINUS_ALPHA : spec_float := S754_finite false 5404319552844595 (-55).
Definition RTO_BETA : spec_float := S754_finite false 7430939385161318 (-52).
Definition two : spec_float := S754_finite false 4503599627370496 (-51).
Definition zero : spec_float := S754_zero false.
Definition minus_one : spec_float := S754_finite true 4503599627370496 (-52).

Definition is_nan (x : spec_float) : bool := match x with S754_nan => true | _ => false end.

Definition go_min (x y : spec_float) : spec_float :=
  if is_nan x || is_nan y then S754_nan else if SFltb y x then y else x.
Definition go_max (x y : spec_float) : spec_float :=
  if is_nan x || is_nan y then S754_nan else if SFltb x y then y else x.

Definition clamp_RTO (x : spec_float) : spec_float := go_max RTO_MIN (go_min RTO_MAX x).

Record rto_state := mkRTO { RTO : spec_float; SRTT : spec_float }.

(** A new connection: [RTO: RTO_MIN, SRTT: -1]. *)
Definition rto_init : rto_state := mkRTO RTO_MIN minus_one.

Definition recomputeRTO (s : rto_state) (RTT : spec_float) : rto_state :=
  if SFltb RTT zero then mkRTO (clamp_RTO (f64_mul two (RTO s))) (SRTT s)
  else
    let srtt :=
      if SFltb (SRTT s) zero then RTT
      else f64_add (f64_mul RTO_ALPHA (SRTT s)) (f64_mul ONE_MINUS_ALPHA RTT) in
    mkRTO (clamp_RTO (f64_mul RTO_BETA srtt)) srtt.

#[local] Ltac quot_pos := apply Z.div_pos; [assumption || lia | first [lia | apply Z.pow_pos_nonneg; lia]].

(** Shifting right with the rounding bits, which is how binary64 results are rounded. *)
Lemma shr_1_half r : 0 <= shr_m r -> shr_m (shr_1 r) = shr_m r / 2.
Proof.
  destruct r as [m rb st]. cbn [shr_m]. intros H. rewrite <- Z.div2_div.
  by destruct m as [|[p|p|]|p].
Qed.

Lemma shr_iter p r : 0 <= shr_m r -> shr_m (SpecFloat.iter_pos shr_1 p r) = shr_m r / 2 ^ Zpos p.
Proof.
  revert r. induction p as [p IH|p IH|]; intros r H; cbn [SpecFloat.iter_pos].
  - assert (H1 : 0 <= shr_m (shr_1 r)) by (rewrite shr_1_half by done; quot_pos).
    assert (H2 : 0 <= shr_m (SpecFloat.iter_pos shr_1 p (shr_1 r))) by (rewrite IH by done; quot_pos).
    rewrite (IH _ H2), (IH _ H1), shr_1_half by done. rewrite !Z.div_div by lia. f_equal.
    rewrite (Pos2Z.inj_xI p). replace (2 * Zpos p + 1) with (1 + (Zpos p + Zpos p)) by lia.
    rewrite !Z.pow_add_r by lia. change (2 ^ 1) with 2. lia.
  - assert (H2 : 0 <= shr_m (SpecFloat.iter_pos shr_1 p r)) by (rewrite IH by done; quot_pos).
    rewrite (IH _ H2), (IH _ H), Z.div_div by lia. f_equal. rewrite <- Z.pow_add_r by lia. f_equal. lia.
  - by apply shr_1_half.
Qed.

Lemma shr_iter_exact p m : 0 <= m ->
  SpecFloat.iter_pos shr_1 p (Build_shr_record (m * 2 ^ Zpos p) false false) = Build_shr_record m false false.
Proof.
  assert (H1 : forall m, 0 <= m -> shr_1 (Build_shr_record (2 * m) false false) = Build_shr_record m false false)
    by (intros [|k|k] Hk; done || lia).
  revert m. induction p as [p IH|p IH|]; intros m H; cbn [SpecFloat.iter_pos].
  - replace (m * 2 ^ Zpos (xI p)) with (2 * ((m * 2 ^ Zpos p) * 2 ^ Zpos p)).
    + rewrite H1, IH, IH by (try apply Z.mul_nonneg_nonneg; lia). done.
    + rewrite (Pos2Z.inj_xI p). replace (2 * Zpos p + 1) with (Z.succ (Zpos p + Zpos p)) by lia.
      rewrite Z.pow_succ_r, Z.pow_add_r by lia. lia.
  - replace (m * 2 ^ Zpos (xO p)) with ((m * 2 ^ Zpos p) * 2 ^ Zpos p).
    + rewrite IH, IH by (try apply Z.mul_nonneg_nonneg; lia). done.
    + rewrite (Pos2Z.inj_xO p). replace (2 * Zpos p) with (Zpos p + Zpos p) by lia. rewrite Z.pow_add_r by lia. lia.
  - change (2 ^ 1) with 2. rewrite Z.mul_comm. by apply H1.
Qed.

Lemma digits_bounds m : 0 < m -> 2 ^ (Zdigits2 m - 1) <= m < 2 ^ Zdigits2 m.
Proof.
  destruct m as [|p|p]; [lia| |lia]. intros _. cbn [Zdigits2].
  induction p as [p IH|p IH|]; cbn [digits2_pos]; [| |by cbn].
  all: rewrite Pos2Z.inj_succ; unfold Z.succ.
  all: replace (2 ^ (Zpos (digits2_pos p) + 1 - 1)) with (2 * 2 ^ (Zpos (digits2_pos p) - 1))
         by (rewrite <- Z.pow_succ_r by lia; f_equal; lia).
  all: rewrite Z.pow_add_r by lia; change (2 ^ 1) with 2; lia.
Qed.

Lemma digits_unique m d : 0 < m -> 2 ^ (d - 1) <= m < 2 ^ d -> 0 < d -> Zdigits2 m = d.
Proof.
  intros Hm Hd Hp. pose proof (digits_bounds m Hm) as Hb.
  assert (Hz : 0 < Zdigits2 m) by (destruct m; cbn; lia).
  destruct (Z.lt_trichotomy (Zdigits2 m) d) as [H|[H|H]]; [|done|].
  - pose proof (Z.pow_le_mono_r 2 (Zdigits2 m) (d - 1) ltac:(lia) ltac:(lia)). lia.
  - pose proof (Z.pow_le_mono_r 2 d (Zdigits2 m - 1) ltac:(lia) ltac:(lia)). lia.
Qed.

Lemma shr_fexp_spec m e l : 0 <= m ->
  let n := fexp 53 1024 (Zdigits2 m + e) - e in
  shr_m (shr_fexp 53 1024 m e l).1 = m / 2 ^ Z.max 0 n /\ (shr_fexp 53 1024 m e l).2 = Z.max e (e + n).
Proof.
  intros H. cbv zeta. unfold shr_fexp, shr.
  assert (Hl : shr_m (shr_record_of_loc m l) = m) by (by destruct l as [|[]]).
  destruct (fexp 53 1024 (Zdigits2 m + e) - e) as [|p|p] eqn:E; cbn [fst snd].
  - rewrite Hl, Z.div_1_r. split; [done|lia].
  - rewrite shr_iter by (by rewrite Hl). rewrite Hl. split; [done|lia].
  - rewrite Hl. replace (Z.max 0 (Zneg p)) with 0 by lia. rewrite Z.div_1_r. split; [done|lia].
Qed.

Lemma round_even_step m l : round_nearest_even m l = m \/ round_nearest_even m l = m + 1.
Proof. destruct l as [|[]]; cbn; [by left|destruct (Z.even m); auto..]; auto. Qed.

(** What rounding returns: never NaN, and a normal number of 53 binary places unless
    the exponent is at its least. *)
Definition sign_is (s : bool) (x : spec_float) : Prop :=
  match x with S754_zero s' | S754_infinity s' | S754_finite s' _ _ => s' = s | S754_nan => False end.

Definition normal (x : spec_float) : Prop :=
  match x with
  | S754_finite _ m e => 2 ^ 52 <= Zpos m < 2 ^ 53
  | S754_infinity _ => True
  | _ => False
  end.

Definition tiny (x : spec_float) : Prop :=
  match x with S754_finite _ m e => e = -1074 | S754_zero _ => True | _ => False end.

Lemma round_sign s mx ex : 0 <= mx -> sign_is s (binary_round_aux 53 1024 s mx ex loc_Exact).
Proof.
  intros H. unfold binary_round_aux.
  destruct (shr_fexp_spec mx ex loc_Exact H) as [H1 _]. destruct (shr_fexp 53 1024 mx ex loc_Exact) as [r1 e1].
  cbn [fst] in H1. assert (0 <= shr_m r1) by (rewrite H1; quot_pos).
  set (mr := round_nearest_even (shr_m r1) (loc_of_shr_record r1)).
  assert (Hr : 0 <= mr) by (unfold mr; destruct (round_even_step (shr_m r1) (loc_of_shr_record r1)); lia).
  destruct (shr_fexp_spec mr e1 loc_Exact Hr) as [H2 _]. destruct (shr_fexp 53 1024 mr e1 loc_Exact) as [r2 e2].
  cbn [fst] in H2. assert (0 <= shr_m r2) by (rewrite H2; quot_pos).
  destruct (shr_m r2) as [|p|p]; [done| |lia]. by destruct (e2 <=? 1024 - 53).
Qed.

Lemma fexp_max e : fexp 53 1024 e = Z.max (e - 53) (-1074).
Proof. done. Qed.

(** The second shift, after rounding to the nearest, only renormalises a carry. *)
Lemma renormalise mr e : 0 <= mr <= 2 ^ 53 -> -1074 <= e -> 2 ^ 52 <= mr \/ e = -1074 ->
  let r := shr_fexp 53 1024 mr e loc_Exact in
  (2 ^ 52 <= shr_m r.1 < 2 ^ 53) \/ (0 <= shr_m r.1 /\ r.2 = -1074).
Proof.
  intros Hm He Hn. cbv zeta. destruct (shr_fexp_spec mr e loc_Exact ltac:(lia)) as [E1 E2]; rewrite E1, E2.
  rewrite fexp_max. destruct (decide (mr = 0)) as [->|Hz].
  { right. destruct Hn as [Hn| ->]; [lia|]. cbn [Zdigits2]. split; [by vm_compute|lia]. }
  destruct (decide (mr = 2 ^ 53)) as [->|H53].
  { left. change (Zdigits2 (2 ^ 53)) with 54. replace (Z.max 0 _) with 1 by lia. vm_compute. split; [discriminate|done]. }
  destruct (Z.le_gt_cases (2 ^ 52) mr) as [Hb|Hb].
  { left. rewrite (digits_unique mr 53) by lia. replace (Z.max 0 _) with 0 by lia. rewrite Z.div_1_r. lia. }
  right. destruct Hn as [Hn| ->]; [lia|]. pose proof (digits_bounds mr ltac:(lia)) as Hd.
  assert (Zdigits2 mr <= 52).
  { apply Z.nlt_ge. intros Hc. pose proof (Z.pow_le_mono_r 2 52 (Zdigits2 mr - 1) ltac:(lia) ltac:(lia)). lia. }
  replace (Z.max 0 _) with 0 by lia. rewrite Z.div_1_r. lia.
Qed.

Lemma round_shape s mx ex : 2 ^ 52 <= mx ->
  let r := binary_round_aux 53 1024 s mx ex loc_Exact in
  sign_is s r /\ (normal r \/ tiny r).
Proof.
  intros Hm. cbv zeta. split; [apply round_sign; lia|]. unfold binary_round_aux.
  destruct (shr_fexp_spec mx ex loc_Exact ltac:(lia)) as [H1 H2].
  destruct (shr_fexp 53 1024 mx ex loc_Exact) as [r1 e1]. cbn [fst snd] in H1, H2.
  pose proof (digits_bounds mx ltac:(lia)) as Hd.
  assert (Hd53 : 53 <= Zdigits2 mx).
  { apply Z.nlt_ge. intros Hc. pose proof (Z.pow_le_mono_r 2 (Zdigits2 mx) 52 ltac:(lia) ltac:(lia)). lia. }
  rewrite fexp_max in H1, H2. set (n := Z.max (Zdigits2 mx + ex - 53) (-1074) - ex) in *.
  assert (Hn : Zdigits2 mx - 53 <= n) by lia. rewrite Z.max_r in H1 by lia.
  assert (Hp : 0 < 2 ^ n) by (apply Z.pow_pos_nonneg; lia).
  assert (Hlt : shr_m r1 < 2 ^ 53).
  { rewrite H1. apply Z.div_lt_upper_bound; [done|]. rewrite <- Z.pow_add_r by lia.
    pose proof (Z.pow_le_mono_r 2 (Zdigits2 mx) (n + 53) ltac:(lia) ltac:(lia)). lia. }
  assert (H0 : 0 <= shr_m r1) by (rewrite H1; apply Z.div_pos; lia).
  assert (Hbig : 2 ^ 52 <= shr_m r1 \/ e1 = -1074).
  { destruct (Z.le_gt_cases (-1074) (Zdigits2 mx + ex - 53)) as [Hc|Hc]; [left|right; lia].
    rewrite H1. apply Z.div_le_lower_bound; [done|]. rewrite <- Z.pow_add_r by lia.
    replace (n + 52) with (Zdigits2 mx - 1) by lia. lia. }
  set (mr := round_nearest_even (shr_m r1) (loc_of_shr_record r1)).
  assert (Hmr : shr_m r1 <= mr <= shr_m r1 + 1)
    by (unfold mr; destruct (round_even_step (shr_m r1) (loc_of_shr_record r1)); lia).
  pose proof (renormalise mr e1 ltac:(lia) ltac:(lia) ltac:(lia)) as Hr. cbv zeta in Hr.
  destruct (shr_fexp 53 1024 mr e1 loc_Exact) as [r2 e2]. cbn [fst snd] in Hr.
  destruct (shr_m r2) as [|p|p]; [right; done| |lia].
  destruct (Z.leb_spec e2 (1024 - 53)); [|by left].
  destruct Hr as [Hr|[_ Hr]]; [by left|by right].
Qed.

Lemma mul_shape c m e x : c = S754_finite false m e -> 2 ^ 52 <= Zpos m -> sign_is false x ->
  sign_is false (f64_mul c x) /\ (normal (f64_mul c x) \/ tiny (f64_mul c x)).
Proof.
  intros -> Hm Hx. destruct x as [s|s| |s mx ex]; cbn [sign_is] in Hx; [subst; cbn; auto..|done|subst].
  cbn [f64_mul SFmul xorb]. apply round_shape. rewrite Pos2Z.inj_mul. nia.
Qed.

Lemma normalize_sign m e : 0 <= m -> sign_is false (binary_normalize 53 1024 m e false).
Proof.
  destruct m as [|p|p]; [done| |lia]. intros _. cbn [binary_normalize]. unfold binary_round.
  destruct (shl_align p e _) as [mz ez]. by apply round_sign.
Qed.

Lemma add_sign x y : sign_is false x -> sign_is false y -> sign_is false (f64_add x y).
Proof.
  intros Hx Hy.
  destruct x as [s|s| |s mx ex], y as [t|t| |t my ey]; cbn [sign_is] in Hx, Hy; try done; subst; try done.
  cbn [f64_add SFadd cond_Zopp]. apply normalize_sign. lia.
Qed.

Lemma sign_not_negative x : sign_is false x -> SFltb x zero = false.
Proof. by destruct x as [s|s| |s m e]; cbn [sign_is]; [intros ->..|done|intros ->]. Qed.

Lemma SFltb_finite m1 e1 m2 e2 :
  SFltb (S754_finite false m1 e1) (S754_finite false m2 e2) = true <->
  e1 < e2 \/ (e1 = e2 /\ Zpos m1 < Zpos m2).
Proof.
  unfold SFltb. cbn [SFcompare]. change (Pos.compare_cont Eq m1 m2) with (Pos.compare m1 m2).
  destruct (Z.compare_spec e1 e2); [destruct (Pos.compare_spec m1 m2)|..]; split; intros; done || lia || auto.
Qed.

(** Two is a power of two: doubling only moves the exponent. *)
Lemma double_exact m e : 2 ^ 52 <= Zpos m < 2 ^ 53 -> -1000 <= e <= 900 ->
  f64_mul two (S754_finite false m e) = S754_finite false m (e + 1).
Proof.
  intros Hm He. cbn [f64_mul two SFmul xorb]. unfold binary_round_aux.
  replace (Zpos (4503599627370496 * m)) with (Zpos m * 2 ^ 52) by lia.
  assert (Hd : Zdigits2 (Zpos m) = 53) by (apply digits_unique; lia).
  unfold shr_fexp at 1. rewrite (digits_unique (Zpos m * 2 ^ 52) 105), fexp_max by lia.
  replace (Z.max (105 + (-51 + e) - 53) (-1074) - (-51 + e)) with 52 by lia. unfold shr at 1.
  cbn [shr_record_of_loc]. rewrite shr_iter_exact by lia. cbn [shr_m loc_of_shr_record round_nearest_even].
  unfold shr_fexp. rewrite Hd, fexp_max. replace (Z.max _ _ - _) with 0 by lia.
  cbn [shr shr_record_of_loc shr_m]. destruct (Z.leb_spec (-51 + e + 52) (1024 - 53)); [|lia]. f_equal. lia.
Qed.

(** A number in units of 2^-44 milliseconds, exact for exponents from -44 on, and
    the numbers of 53 binary places between the two bounds. *)
Definition units (x : spec_float) : Z :=
  match x with S754_finite false m e => Z.shiftl (Zpos m) (e + 44) | _ => 0 end.

Definition in_range (x : spec_float) : Prop :=
  exists m e, x = S754_finite false m e /\ 2 ^ 52 <= Zpos m < 2 ^ 53 /\ -44 <= e <= -40 /\
    500 * 2 ^ 44 <= units x <= 5000 * 2 ^ 44.

Lemma RTO_MIN_range : in_range RTO_MIN.
Proof. exists 8796093022208000%positive, (-44). repeat split; vm_compute; done. Qed.
Lemma RTO_MAX_range : in_range RTO_MAX.
Proof. exists 5497558138880000%positive, (-40). repeat split; vm_compute; done. Qed.

Lemma units_cases m e : -44 <= e <= -40 -> units (S754_finite false m e) = Zpos m * 2 ^ (e + 44).
Proof. intros He. cbn [units]. apply Z.shiftl_mul_pow2. lia. Qed.

Lemma clamp_cases m e :
  clamp_RTO (S754_finite false m e) =
    if decide (e < -40 \/ (e = -40 /\ Zpos m < 5497558138880000))
    then if decide (-44 < e \/ (-44 = e /\ 8796093022208000 < Zpos m)) then S754_finite false m e else RTO_MIN
    else RTO_MAX.
Proof.
  unfold clamp_RTO, go_min. cbn [is_nan RTO_MAX orb].
  destruct (SFltb (S754_finite false m e) RTO_MAX) eqn:E.
  - rewrite decide_True by exact (proj1 (SFltb_finite _ _ _ _) E). unfold go_max. cbn [is_nan RTO_MIN orb].
    destruct (SFltb RTO_MIN (S754_finite false m e)) eqn:E2.
    + by rewrite decide_True by exact (proj1 (SFltb_finite _ _ _ _) E2).
    + rewrite decide_False; [done|]. intros Hc. apply (SFltb_finite 8796093022208000 (-44)) in Hc.
      change (SFltb RTO_MIN (S754_finite false m e) = true) in Hc. congruence.
  - rewrite decide_False; [done|]. intros Hc. apply (SFltb_finite m e 5497558138880000 (-40)) in Hc.
    change (SFltb (S754_finite false m e) RTO_MAX = true) in Hc. congruence.
Qed.

Lemma clamp_normal m e : 2 ^ 52 <= Zpos m < 2 ^ 53 ->
  let x := S754_finite false m e in
  in_range (clamp_RTO x) /\
  (-44 <= e <= -39 -> units (clamp_RTO x) = Z.max (500 * 2 ^ 44) (Z.min (5000 * 2 ^ 44) (units x))).
Proof.
  intros Hm. cbv zeta. rewrite clamp_cases. repeat case_decide.
  - assert (He : e = -44 \/ e = -43 \/ e = -42 \/ e = -41 \/ e = -40) by lia.
    pose proof (units_cases m e ltac:(lia)) as Hu.
    assert (Hr : 500 * 2 ^ 44 <= units (S754_finite false m e) <= 5000 * 2 ^ 44)
      by (rewrite Hu; destruct He as [He|[He|[He|[He|He]]]]; subst; cbn; lia).
    split; [|lia]. exists m, e. split; [done|]. split; [exact Hm|]. split; [lia|exact Hr].
  - split; [exact RTO_MIN_range|]. intros He. rewrite units_cases by lia.
    assert (e = -44) as -> by lia. change (units RTO_MIN) with (500 * 2 ^ 44). change (2 ^ (-44 + 44)) with 1. lia.
  - split; [exact RTO_MAX_range|]. intros He. cbn [units]. rewrite Z.shiftl_mul_pow2 by lia.
    assert (He' : e = -40 \/ e = -39) by lia. change (units RTO_MAX) with (5000 * 2 ^ 44).
    destruct He' as [-> | ->]; [change (2 ^ (-40 + 44)) with 16|change (2 ^ (-39 + 44)) with 32]; lia.
Qed.

Lemma clamp_range x : sign_is false x -> normal x \/ tiny x -> in_range (clamp_RTO x).
Proof.
  destruct x as [s|s| |s m e]; cbn [sign_is]; intros H [Hn|Hn]; subst; try done.
  - exact RTO_MIN_range.
  - exact RTO_MAX_range.
  - by apply clamp_normal.
  - cbn [tiny] in Hn. subst. rewrite clamp_cases, decide_True, decide_False by lia. exact RTO_MIN_range.
Qed.

Lemma in_range_sign x : in_range x -> sign_is false x.
Proof. by intros (m & e & -> & _). Qed.

Lemma expiry_doubles x : in_range x ->
  in_range (clamp_RTO (f64_mul two x)) /\ units (clamp_RTO (f64_mul two x)) = Z.min (5000 * 2 ^ 44) (2 * units x).
Proof.
  intros (m & e & -> & Hm & He & Hu). rewrite double_exact by lia.
  destruct (clamp_normal m (e + 1) Hm) as [H1 H2]. split; [exact H1|]. rewrite H2 by lia.
  rewrite (units_cases m e) in * by lia. cbn [units]. rewrite Z.shiftl_mul_pow2 by lia.
  replace (e + 1 + 44) with (Z.succ (e + 44)) by lia. rewrite Z.pow_succ_r by lia. lia.
Qed.

(** ** Histories *)
(** What the socket's threads tell [recomputeRTO]: the ticker has expired, or the
    round trip of a segment took so many milliseconds. *)
Inductive timer_event := Expiry | Measured (ms : Z).

Definition event_RTT (ev : timer_event) : spec_float :=
  match ev with Expiry => minus_one | Measured ms => binary_normalize 53 1024 ms 0 false end.

Definition history (evs : list timer_event) : rto_state :=
  foldl (fun s ev => recomputeRTO s (event_RTT ev)) rto_init evs.

(** The clock is monotonic: a round trip does not take negative time. *)
Definition event_ok (ev : timer_event) : Prop := match ev with Expiry => True | Measured ms => 0 <= ms end.

Definition is_measured (ev : timer_event) : bool := match ev with Measured _ => true | Expiry => false end.

Lemma measure_step s ms : 0 <= ms ->
  let s' := recomputeRTO s (event_RTT (Measured ms)) in
  SRTT s' = (if SFltb (SRTT s) zero then event_RTT (Measured ms)
             else f64_add (f64_mul RTO_ALPHA (SRTT s)) (f64_mul ONE_MINUS_ALPHA (event_RTT (Measured ms)))) /\
  RTO s' = clamp_RTO (f64_mul RTO_BETA (SRTT s')).
Proof.
  intros H. cbv zeta. unfold recomputeRTO. cbn [event_RTT]. by rewrite sign_not_negative by (by apply normalize_sign).
Qed.

Definition timer_inv (measured : bool) (s : rto_state) : Prop :=
  in_range (RTO s) /\ if measured then sign_is false (SRTT s) else SRTT s = minus_one.

Lemma timer_step b s ev : timer_inv b s -> event_ok ev ->
  timer_inv (b || is_measured ev) (recomputeRTO s (event_RTT ev)).
Proof.
  intros [Hr Hs] Hev. destruct ev as [|ms]; cbn [is_measured event_ok] in *.
  - rewrite orb_false_r. split; [|done]. by apply (expiry_doubles (RTO s)).
  - rewrite orb_true_r. destruct (measure_step s ms Hev) as [E1 E2].
    assert (Hm : sign_is false (event_RTT (Measured ms))) by (by apply normalize_sign).
    assert (Hsrtt : sign_is false (SRTT (recomputeRTO s (event_RTT (Measured ms))))).
    { rewrite E1. destruct b; [rewrite sign_not_negative by done|by rewrite Hs].
      apply add_sign; (eapply mul_shape; [reflexivity|lia|done]). }
    split; [|exact Hsrtt]. rewrite E2.
    destruct (mul_shape RTO_BETA _ _ _ eq_refl ltac:(lia) Hsrtt) as [F1 F2]. by apply clamp_range.
Qed.

Lemma history_inv evs : Forall event_ok evs -> timer_inv (existsb is_measured evs) (history evs).
Proof.
  induction evs as [|ev evs IH] using rev_ind; intros H.
  - split; [exact RTO_MIN_range|done].
  - apply Forall_app in H as [H1 H2]. inversion_clear H2.
    unfold history. rewrite foldl_app, existsb_app. cbn [existsb foldl]. rewrite orb_false_r.
    by apply timer_step; [apply IH|].
Qed.

(** C37. The retransmission timeout of a connection, after any sequence of expirations and
    measured round trips: it is a number (not NaN or infinite) between RTO_MIN (500 ms) and
    RTO_MAX (5000 ms), in units of 2^-44 ms so that its value is an exact integer; when
    the ticker expires it doubles, exactly, up to RTO_MAX, and SRTT is kept; a measured
    round trip sets SRTT, to the measurement itself if it is the connection's first and
    to the weighted mean of the old SRTT and the measurement otherwise, and RTO to
    RTO_BETA times it within the bounds. *)
Theorem RTO_bounded (evs : list timer_event) (Hevs : Forall event_ok evs) :
  let s := history evs in
  in_range (RTO s) /\
  (let s' := recomputeRTO s (event_RTT Expiry) in
   units (RTO s') = Z.min (5000 * 2 ^ 44) (2 * units (RTO s)) /\ SRTT s' = SRTT s) /\
  forall ms, 0 <= ms ->
    let s' := recomputeRTO s (event_RTT (Measured ms)) in
    SRTT s' = (if existsb is_measured evs
               then f64_add (f64_mul RTO_ALPHA (SRTT s)) (f64_mul ONE_MINUS_ALPHA (event_RTT (Measured ms)))
               else event_RTT (Measured ms)) /\
    RTO s' = clamp_RTO (f64_mul RTO_BETA (SRTT s')).
Proof.
  cbv zeta. destruct (history_inv evs Hevs) as [Hr Hs]. split; [exact Hr|]. split.
  - split; [apply (expiry_doubles _ Hr)|done].
  - intros ms Hms. destruct (measure_step (history evs) ms Hms) as [E1 E2]. split; [|exact E2]. rewrite E1.
    destruct (existsb is_measured evs); [by rewrite sign_not_negative|by rewrite Hs].
Qed.

(** One round trip of 800 ms, then an expiration. *)
Lemma RTO_bounded_witness :
  in_range (RTO (history [Measured 800; Expiry])) /\
  units (RTO (history [Measured 800; Expiry])) = 2 * units (RTO (history [Measured 800])).
Proof.
  assert (H : Forall event_ok [Measured 800; Expiry]) by (repeat constructor; discriminate).
  destruct (RTO_bounded [Measured 800; Expiry] H) as [H1 _]. split; [exact H1|]. vm_compute. reflexivity.
Defined.
