(* ===== verification/TcpWindow.v ===== *)
(** * The sliding window of a connection ([slidingWindow], [retransThread])

    One call of [slidingWindow] with the goroutine it starts.  The call is cut at
    the points where other goroutines can act; the segments are handed to
    [HandleSend] in the order of the output.  [winLock] is held between the test
    of the outer loop and its end, and left locked by a retransmission thread that
    gives up ([TGaveUp]) and by a call that restarts itself ([Again]).  The thread
    of an earlier call that has not ended yet is not modelled. *)
From Stdlib Require Import Floats.SpecFloat.
From S2P Require Import Prelude Netip Netstack Utils Node Pq TcpTypes TcpRing TcpReceiver TcpStack TcpClose TcpTimer.
Local Open Scope Z_scope.
Local Open Scope go_scope.

(** ** Data *)
(** A node of the window; [next] is the following element of the list, [lastSent]
    is [None] for Go's zero time and nanoseconds otherwise. *)
Record WindowNode := mkWNode {
  payloadIndex : Z;
  expectedAck : Z;
  packet : TCPPacket;
  n_index : Z;
  lastSent : option Z;
  retrans : bool
}.

(** [window.head]: the dummy node, a node of the list, or nil.  [window.tail] is
    the last node of the list and the local [tail] the first one. *)
Inductive Head : Type :=
  | Dummy
  | At (i : nat)
  | Nil.

(** [sock.RTO], [sock.SRTT] and [sock.ticker]: its period when it runs, and whether
    its channel (of capacity one) holds an expiration. *)
Record Timer := mkTimer { t_rto : rto_state; t_period : option spec_float; t_chan : bool }.

(** Where [retransThread] is: in its [select] with [last_index] and [cnt], past an
    expiration and waiting for [winLock], returned, or returned after ten tries. *)
Inductive Thread : Type :=
  | TSelect (last_index cnt : Z)
  | TExpired (last_index cnt : Z)
  | TReturned
  | TGaveUp.

(** Where the call is: the test of the outer loop, the test for a probe, waiting
    for the answer to a probe, at [normal], past [HandleSend], the test for a zero
    window, the loop over acknowledgements, returned, or about to restart. *)
Inductive Pc : Type :=
  | LoopTest
  | ProbeTest
  | ProbeWait (probe : TCPPacket) (expected : Z)
  | SendStep
  | AfterSend (expected : Z)
  | ZeroTest
  | AckLoop
  | Done
  | Again.

Record SW := mkSW {
  sock : NormalSocket;
  timer : Timer;
  nodes : list WindowNode;
  win_head : Head;
  rest : list byte;
  payloadSize : Z;
  bytesToSend : Z;
  first : bool;
  bytesSent : Z;
  skip_probe : bool;
  pc : Pc;
  thread : Thread;
  doneChan : bool
}.

(** What is handed to [HandleSend]: a segment's first transmission, a
    retransmission, a zero-window probe. *)
Inductive SwOut : Type :=
  | Fresh (p : TCPPacket)
  | Resent (p : TCPPacket)
  | Probe (p : TCPPacket).

(** ** Field updates *)
Definition with_sock (w : SW) (s : NormalSocket) : SW :=
  mkSW s (timer w) (nodes w) (win_head w) (rest w) (payloadSize w) (bytesToSend w) (first w)
    (bytesSent w) (skip_probe w) (pc w) (thread w) (doneChan w).
Definition with_timer (w : SW) (t : Timer) : SW :=
  mkSW (sock w) t (nodes w) (win_head w) (rest w) (payloadSize w) (bytesToSend w) (first w)
    (bytesSent w) (skip_probe w) (pc w) (thread w) (doneChan w).
Definition with_window (w : SW) (ns : list WindowNode) (h : Head) : SW :=
  mkSW (sock w) (timer w) ns h (rest w) (payloadSize w) (bytesToSend w) (first w)
    (bytesSent w) (skip_probe w) (pc w) (thread w) (doneChan w).
Definition with_rest (w : SW) (bs : list byte) (n : Z) : SW :=
  mkSW (sock w) (timer w) (nodes w) (win_head w) bs (payloadSize w) n (first w)
    (bytesSent w) (skip_probe w) (pc w) (thread w) (doneChan w).
Definition with_first (w : SW) (b : bool) : SW :=
  mkSW (sock w) (timer w) (nodes w) (win_head w) (rest w) (payloadSize w) (bytesToSend w) b
    (bytesSent w) (skip_probe w) (pc w) (thread w) (doneChan w).
Definition with_bytesSent (w : SW) (n : Z) : SW :=
  mkSW (sock w) (timer w) (nodes w) (win_head w) (rest w) (payloadSize w) (bytesToSend w) (first w)
    n (skip_probe w) (pc w) (thread w) (doneChan w).
Definition with_skip (w : SW) (b : bool) : SW :=
  mkSW (sock w) (timer w) (nodes w) (win_head w) (rest w) (payloadSize w) (bytesToSend w) (first w)
    (bytesSent w) b (pc w) (thread w) (doneChan w).
Definition with_pc (w : SW) (p : Pc) : SW :=
  mkSW (sock w) (timer w) (nodes w) (win_head w) (rest w) (payloadSize w) (bytesToSend w) (first w)
    (bytesSent w) (skip_probe w) p (thread w) (doneChan w).
Definition with_thread (w : SW) (t : Thread) : SW :=
  mkSW (sock w) (timer w) (nodes w) (win_head w) (rest w) (payloadSize w) (bytesToSend w) (first w)
    (bytesSent w) (skip_probe w) (pc w) t (doneChan w).
Definition with_done (w : SW) (b : bool) : SW :=
  mkSW (sock w) (timer w) (nodes w) (win_head w) (rest w) (payloadSize w) (bytesToSend w) (first w)
    (bytesSent w) (skip_probe w) (pc w) (thread w) b.

Definition set_w_NXT (w : WriteBuffer) (v : Z) : WriteBuffer := mkWrite (w_buffer w) (w_UNA w) v (w_LBW w).
Definition set_w_UNA (w : WriteBuffer) (v : Z) : WriteBuffer := mkWrite (w_buffer w) v (w_NXT w) (w_LBW w).

(** ** Starting *)
Definition resetTicker (t : Timer) : Timer := mkTimer (t_rto t) (Some (RTO (t_rto t))) (t_chan t).
(** Stop and drain the channel. *)
Definition stopTicker (t : Timer) : Timer := mkTimer (t_rto t) None false.

(** A segment of data of the connection. *)
Definition data_segment (s : NormalSocket) (pl : list byte) (fl seq : Z) : TCPPacket :=
  mkSeg (LocalAddr (sk s)) (RemoteAddr (sk s)) pl fl (LocalPort (sk s)) (RemotePort (sk s))
    seq (cumReadNXT s) (adv_window (readBuffer s)).

Definition slidingWindow_start (s : NormalSocket) (t : Timer) (done : bool) (fl : Z) (pl : list byte) : SW :=
  let n := Z.min (Z.min MSS (zlen pl)) (ClientWindowSize s) in
  let firstPacket := data_segment s (ztake n pl) fl (cumWriteUNA s) in
  let tail := mkWNode 0 (distUNA (writeBuffer s) ⊕ cumWriteUNA s ⊕ u32 n) firstPacket 0 None false in
  mkSW s (stopTicker t) [tail] Dummy (zdrop n pl) (zlen pl) n true 0 true LoopTest (TSelect (-1) 0) done.

(** ** Zero-window probing *)
Definition probe_segment (s : NormalSocket) : TCPPacket :=
  let w := writeBuffer s in
  data_segment s (zsub (w_UNA w) (w_UNA w + 1) (w_buffer w)) TCPFlagAck (u32 (distUNA w + cumWriteUNA s - 1)).

Definition register (s : NormalSocket) (expected : Z) : outcome NormalSocket :=
  if unackedMtx s then Block "unackedMtx"
  else Ret (set_unackedNums s (<[expected := 0]> (unackedNums s))).

(** The ring and the cumulative number after an acknowledgement. *)
Definition advance_UNA (s : NormalSocket) (ack : Z) : NormalSocket :=
  set_write (set_cumWriteUNA s ack)
    (set_w_UNA (writeBuffer s) (u32 (ack - baseSeq s + WINDOW_SIZE) mod WINDOW_SIZE)).

Definition probe_test (w : SW) : outcome (SW * list SwOut) :=
  let s := sock w in
  let wb := writeBuffer s in
  if bool_decide (w_NXT wb = w_UNA wb) && negb (skip_probe w) && bool_decide (ClientWindowSize s = 0) then
    let s1 := set_write s (set_w_NXT wb (u32 (w_NXT wb + 1) mod WINDOW_SIZE)) in
    let probe := probe_segment s1 in
    let expected := distUNA (writeBuffer s1) ⊕ cumWriteUNA s1 in
    s2 ← register s1 expected;
    Ret (with_pc (with_sock w s2) (ProbeWait probe expected), [Probe probe])
  else Ret (with_pc w SendStep, []).

(** Drop the first byte of the first node's segment. *)
Definition trim_payload (p : TCPPacket) : TCPPacket :=
  mkSeg (sourceIp p) (destIp p) (zdrop 1 (payload p)) (flags p) (sourcePort p) (destPort p) (seqNum p)
    (ackNum p) (window p).
Definition trim_node (n : WindowNode) : WindowNode :=
  mkWNode (payloadIndex n) (expectedAck n) (trim_payload (packet n)) (n_index n) (lastSent n) (retrans n).

(** An acknowledgement received while waiting for the answer to a probe. *)
Definition probe_ack (w : SW) (expected : Z) (received : TCPInfo) : outcome (SW * list SwOut) :=
  if bool_decide (AckNum received = expected) && bool_decide (0 < WindowSize received) then
    let s := advance_UNA (set_ClientWindowSize (sock w) (WindowSize received)) (AckNum received) in
    let w := with_skip (with_bytesSent (with_sock w s) (bytesSent w + 1)) true in
    match nodes w with
    | [] => Panic "nil pointer dereference"
    | tail :: ns =>
        if bool_decide (payload (packet tail) = []) then
          if bool_decide (rest w = []) then Panic "slice bounds out of range"
          else if doneChan w then Block "packetDoneChan"
          else Ret (with_done (with_pc (with_rest w (zdrop 1 (rest w)) (bytesToSend w)) Again) true, [])
        else Ret (with_pc (with_window w (trim_node tail :: ns) (win_head w)) SendStep, [])
    end
  else Ret (w, []).

(** ** Sending *)
Definition head_ack (ns : list WindowNode) (h : Head) : option Z :=
  match h with
  | Dummy => Some 0
  | At i => expectedAck <$> ns !! i
  | Nil => None
  end.

Definition next_head (ns : list WindowNode) (h : Head) : Head :=
  let at_or_nil i := if bool_decide (i < length ns)%nat then At i else Nil in
  match h with
  | Dummy => at_or_nil 0%nat
  | At i => at_or_nil (S i)
  | Nil => Nil
  end.

(** [(window.head != nil && window.head.next == nil) ||
    window.tail.index-window.head.next.index < WINDOW_SIZE]. *)
Definition window_open (ns : list WindowNode) (h : Head) : outcome bool :=
  match h with
  | Nil => Panic "nil pointer dereference"
  | _ =>
      match next_head ns h with
      | At i =>
          match list.last ns, ns !! i with
          | Some tl, Some nx => Ret (bool_decide (u32 (n_index tl - n_index nx) < WINDOW_SIZE))
          | _, _ => Panic "nil pointer dereference"
          end
      | _ => Ret true
      end
  end.

(** The condition at [normal], evaluated from the left. *)
Definition send_cond (w : SW) : outcome bool :=
  if bool_decide (0 < ClientWindowSize (sock w)) && bool_decide (0 < bytesToSend w)
  then window_open (nodes w) (win_head w)
  else Ret false.

Definition mark_sent (now : Z) (again : bool) (n : WindowNode) : WindowNode :=
  mkWNode (payloadIndex n) (expectedAck n) (packet n) (n_index n) (Some now) again.

(** Change the last element. *)
Definition set_last {A} (l : list A) (x : A) : list A := removelast l ++ [x].

(** Up to [HandleSend]. *)
Definition send_step (now : Z) (w : SW) : outcome (SW * list SwOut) :=
  go ← send_cond w;
  if (go : bool) then
    match list.last (nodes w) with
    | None => Panic "nil pointer dereference"
    | Some tl =>
        let s := sock w in
        let wb := writeBuffer s in
        let wb := set_w_NXT wb (u32 (w_NXT wb + u32 (bytesToSend w)) mod WINDOW_SIZE) in
        let expected := distUNA wb ⊕ cumWriteUNA s in
        s ← register (set_write s wb) expected;
        let w := with_window (with_sock w s) (set_last (nodes w) (mark_sent now false tl)) (win_head w) in
        Ret (with_pc w (AfterSend expected), [Fresh (packet tl)])
    end
  else Ret (with_pc w ZeroTest, []).

(** From the adjustment of [ClientWindowSize] to the next node; [len(p) - 20] is the
    length of the payload ([TcpSegments.zlen_marshall]). *)
Definition after_send (w : SW) (expected : Z) : outcome (SW * list SwOut) :=
  match list.last (nodes w) with
  | None => Panic "nil pointer dereference"
  | Some tl =>
      let s := set_ClientWindowSize (sock w)
        (u16 (ClientWindowSize (sock w) - u16 (zlen (payload (packet tl))))) in
      let w := with_sock w s in
      let w := if first w then with_timer (with_first w false) (resetTicker (timer w)) else w in
      let n := Z.min (Z.min MSS (payloadSize w - payloadIndex tl)) (zlen (rest w)) in
      if bool_decide (0 < n) then
        let p := packet tl in
        let nextPacket := mkSeg (sourceIp p) (destIp p) (ztake n (rest w)) (flags p) (sourcePort p) (destPort p)
          expected (cumReadNXT s) (adv_window (readBuffer s)) in
        let nextNode := mkWNode (u16 (payloadIndex tl + MSS)) (expected ⊕ u32 n) nextPacket
          (n_index tl ⊕ 1) None false in
        let w := with_window w (nodes w ++ [nextNode]) (win_head w) in
        Ret (with_pc (with_rest w (zdrop n (rest w)) n) ZeroTest, [])
      else Ret (with_pc (with_rest w (rest w) n) ZeroTest, [])
  end.

(** ** Acknowledgements *)
(** A measured round trip, for a node sent once. *)
Definition measure (now : Z) (n : WindowNode) (t : Timer) : Timer :=
  match retrans n, lastSent n with
  | false, Some sent =>
      let t := resetTicker t in
      let diff := Z.quot (now - sent) 1000000 in
      mkTimer (recomputeRTO (t_rto t) (binary_normalize 53 1024 diff 0 false)) (t_period t) (t_chan t)
  | _, _ => t
  end.

(** [for window.head.expectedAck <= receivedAck]; each round moves the head on. *)
Fixpoint shrink (fuel : nat) (now ack : Z) (ns : list WindowNode) (h : Head) (t : Timer) : Head * Timer :=
  match fuel with
  | O => (h, t)
  | S fuel' =>
      match head_ack ns h with
      | None => (h, t)
      | Some e =>
          if bool_decide (e <= ack) then
            let t := match h with
                     | At i => from_option (fun n => measure now n t) t (ns !! i)
                     | _ => t
                     end in
            shrink fuel' now ack ns (next_head ns h) t
          else (h, t)
      end
  end.

(** One round of the loop over [ackChan]; a number counted before leaves
    [unackedMtx] locked. *)
Definition ack_step (now : Z) (w : SW) : outcome (SW * list SwOut) :=
  let s := sock w in
  match ackChan s with
  | [] => Ret (with_pc w LoopTest, [])
  | received :: q =>
      let ack := AckNum received in
      if unackedMtx s then Block "unackedMtx"
      else
        let s := set_ackChan s q in
        let seen := default 0 (unackedNums s !! ack) in
        if bool_decide (seen = 0) then
          let s := set_unackedNums s (<[ack := seen + 1]> (unackedNums s)) in
          let s := set_ClientWindowSize s (WindowSize received) in
          if bool_decide (cumWriteUNA s < ack) then
            let w := with_bytesSent w (bytesSent w + u32 (ack - cumWriteUNA s)) in
            let '(h, t) := shrink (S (S (length (nodes w)))) now ack (nodes w) (win_head w) (timer w) in
            Ret (with_timer (with_window (with_sock w (advance_UNA s ack)) (nodes w) h) t, [])
          else Ret (with_sock w s, [])
        else Ret (with_sock w (set_unackedMtx s true), [])
  end.

(** ** The call *)
Definition sw_advance (now : Z) (w : SW) : outcome (SW * list SwOut) :=
  match pc w with
  | LoopTest =>
      if bool_decide (bytesSent w < payloadSize w) then
        match thread w with
        | TGaveUp => Block "winLock"
        | _ => Ret (with_pc w ProbeTest, [])
        end
      else if doneChan w then Block "packetDoneChan"
      else Ret (with_done (with_pc w Done) true, [])
  | ProbeTest => probe_test w
  | ProbeWait _ expected =>
      match ackChan (sock w) with
      | [] => Block "select"
      | received :: q => probe_ack (with_sock w (set_ackChan (sock w) q)) expected received
      end
  | SendStep => send_step now w
  | AfterSend expected => after_send w expected
  | ZeroTest =>
      Ret (with_pc (if bool_decide (ClientWindowSize (sock w) = 0) then with_skip w false else w) AckLoop, [])
  | AckLoop => ack_step now w
  | Done | Again => Block "returned"
  end.

(** The one-second ticker of the probe. *)
Definition probe_timeout (w : SW) : outcome (SW * list SwOut) :=
  match pc w with
  | ProbeWait probe _ => Ret (w, [Probe probe])
  | _ => Block "select"
  end.

(** ** The retransmission thread *)
Definition thread_done (w : SW) : outcome (SW * list SwOut) :=
  match thread w with
  | TSelect _ _ => if doneChan w then Ret (with_done (with_thread w TReturned) false, []) else Block "select"
  | _ => Block "select"
  end.

(** The ticker has expired: stop it and double the timeout. *)
Definition thread_tick (w : SW) : outcome (SW * list SwOut) :=
  match thread w with
  | TSelect l c =>
      if t_chan (timer w)
      then Ret (with_thread (with_timer w (mkTimer (recomputeRTO (t_rto (timer w)) minus_one) None false))
                  (TExpired l c), [])
      else Block "select"
  | _ => Block "select"
  end.

(** A segment sent again carries the current acknowledgement and window. *)
Definition refresh (s : NormalSocket) (p : TCPPacket) : TCPPacket :=
  mkSeg (sourceIp p) (destIp p) (payload p) (flags p) (sourcePort p) (destPort p) (seqNum p)
    (cumReadNXT s) (adv_window (readBuffer s)).
Definition resend_node (now : Z) (s : NormalSocket) (n : WindowNode) : WindowNode :=
  mkWNode (payloadIndex n) (expectedAck n) (refresh s (packet n)) (n_index n) (Some now) true.

(** Unlock [winLock] and restart the ticker. *)
Definition thread_unlock (w : SW) (l c : Z) : SW :=
  with_thread (with_timer w (resetTicker (timer w))) (TSelect l c).

(** Whether [winLock] can be taken by the thread. *)
Definition winLock_free (w : SW) : bool :=
  match pc w with LoopTest | Done => true | _ => false end.

Definition thread_resend (now : Z) (w : SW) (l c : Z) : outcome (SW * list SwOut) :=
  let idle := Ret (thread_unlock w l c, []) in
  let resend i n := with_window w (<[i := resend_node now (sock w) n]> (nodes w)) (win_head w) in
  if bool_decide (0 < ClientWindowSize (sock w)) then
    match win_head w with
    | Nil => idle
    | h =>
        if bool_decide (head_ack (nodes w) h = Some 0) then
          match next_head (nodes w) h with
          | At i =>
              match nodes w !! i with
              | Some n =>
                  match lastSent n with
                  | Some _ => Ret (thread_unlock (resend i n) l c, [Resent (refresh (sock w) (packet n))])
                  | None => idle
                  end
              | None => idle
              end
          | _ => idle
          end
        else
          match h with
          | At i =>
              match nodes w !! i with
              | Some n =>
                  match lastSent n with
                  | Some _ =>
                      let '(l, c) := if bool_decide (u32 l = n_index n) then (l, c + 1) else (n_index n, 1) in
                      if bool_decide (c = 10) then Ret (with_thread (resend i n) TGaveUp, [])
                      else Ret (thread_unlock (resend i n) l c, [Resent (refresh (sock w) (packet n))])
                  | None => idle
                  end
              | None => idle
              end
          | _ => idle
          end
    end
  else idle.

Definition thread_retransmit (now : Z) (w : SW) : outcome (SW * list SwOut) :=
  match thread w with
  | TExpired l c => if winLock_free w then thread_resend now w l c else Block "winLock"
  | _ => Block "select"
  end.

(** ** Interleaving *)
(** The other goroutines: the receiver (with the segments allowed by [good]), the
    application's calls, the goroutines of the close. *)
Section interleaving.
Context `{NS : Netstack} `{MI : MapIter}.
Variable good : TCPInfo -> Prop.

Inductive env_step : NormalSocket -> NormalSocket -> Prop :=
  | env_receive s ti s' r : good ti -> ReceiverThread_body s ti = Ret (s', r) -> env_step s s'
  | env_write s buf lbw nf :
      env_step s (set_notFirstWrite (set_write s
        (mkWrite buf (w_UNA (writeBuffer s)) (w_NXT (writeBuffer s)) lbw)) nf)
  | env_read s num nb we r s' : VRead_locked s num nb we = Ret (r, s') -> env_step s s'
  | env_close n s e s' evs : VClose n s = Ret (e, s', evs) -> env_step s s'
  | env_delete s s' : closer_delete s = Ret s' -> env_step s s'
  | env_finish t s t' s' : closer_finish t s = Ret (t', s') -> env_step s s'
  | env_reap t s t' s' : reap t s = (t', s') -> env_step s s'.

Inductive sw_step : SW -> list SwOut -> SW -> Prop :=
  | st_advance now w w' o : sw_advance now w = Ret (w', o) -> sw_step w o w'
  | st_probe w w' o : probe_timeout w = Ret (w', o) -> sw_step w o w'
  | st_done w w' o : thread_done w = Ret (w', o) -> sw_step w o w'
  | st_tick w w' o : thread_tick w = Ret (w', o) -> sw_step w o w'
  | st_retransmit now w w' o : thread_retransmit now w = Ret (w', o) -> sw_step w o w'
  | st_ticker w p : t_period (timer w) = Some p ->
      sw_step w [] (with_timer w (mkTimer (t_rto (timer w)) (Some p) true))
  | st_env w s' : env_step (sock w) s' -> sw_step w [] (with_sock w s').

(** Executions with everything they hand to [HandleSend]. *)
Inductive sw_exec : SW -> list SwOut -> SW -> Prop :=
  | exec_refl w : sw_exec w [] w
  | exec_step w1 o1 w2 o2 w3 : sw_exec w1 o1 w2 -> sw_step w2 o2 w3 -> sw_exec w1 (o1 ++ o2) w3.
End interleaving.
