(* ===== verification/TcpSliding.v ===== *)
(** * Correctness of the sliding window

    For the payloads [VWrite] produces (at most one maximal segment) and a peer
    that never closes its window, under every interleaving of [slidingWindow] with
    its retransmission thread, the receiver and the application: what is sent are
    consecutive pieces of the payload, and the call returns only when all of it
    has been acknowledged. *)
From S2P Require Import Prelude Netip Netstack Utils Node Pq TcpTypes TcpRing TcpReceiver TcpStack TcpClose TcpSender TcpTimer TcpWindow.
Local Open Scope Z_scope.
Local Open Scope go_scope.

(** ** What the other goroutines leave alone *)
(** The part of a socket the receive path below the acknowledgements keeps. *)
Definition snd_view (s : NormalSocket) :=
  (writeBuffer s, baseSeq s, cumWriteUNA s, unackedNums s, (ackChan s, ClientWindowSize s, sk s)).

Lemma fin_transition_view s s' : fin_transition s = Ret s' -> snd_view s' = snd_view s.
Proof. unfold fin_transition. destruct (stateMtx s); [done|]. by destruct (state s); intros [= <-]. Qed.

Lemma drain_early_view fuel s s' : drain_early fuel s = Ret s' -> snd_view s' = snd_view s.
Proof.
  revert s. induction fuel as [|fuel IH]; intros s; [by intros [= <-]|].
  cbn [drain_early]. destruct (earlyPQ s) as [|root q]; [by intros [= <-]|].
  case_bool_decide; [|by intros [= <-]].
  case_bool_decide; intros ([x q'] & _ & H2)%bind_Ret_inv; [exact (IH _ H2)|].
  cbv zeta in H2. revert H2. case_bool_decide; [|exact (IH _)].
  intros (s1 & Hf%fin_transition_view & H2%IH)%bind_Ret_inv. by rewrite H2, Hf.
Qed.

Lemma receive_ordered_view s ti s' r : receive_ordered s ti = Ret (s', r) -> snd_view s' = snd_view s.
Proof.
  unfold receive_ordered, finish_receive. case_bool_decide; [by intros [= <- _]|]. case_bool_decide.
  - intros (s1 & Hf%fin_transition_view & (s2 & Hd%drain_early_view & [= <- _])%bind_Ret_inv)%bind_Ret_inv.
    by rewrite Hd, Hf.
  - case_bool_decide; [|by intros [= <- _]].
    intros (s2 & Hd%drain_early_view & [= <- _])%bind_Ret_inv. by rewrite Hd.
Qed.

(** What a step of another goroutine may do to the sender's part: set the peer's
    window, queue an acknowledgement of a number sent before. *)
Definition env_frame (good : TCPInfo -> Prop) (s s' : NormalSocket) : Prop :=
  w_UNA (writeBuffer s') = w_UNA (writeBuffer s) /\ w_NXT (writeBuffer s') = w_NXT (writeBuffer s) /\
  baseSeq s' = baseSeq s /\ cumWriteUNA s' = cumWriteUNA s /\ unackedNums s' = unackedNums s /\ sk s' = sk s /\
  (ClientWindowSize s' = ClientWindowSize s \/ exists ti, good ti /\ ClientWindowSize s' = WindowSize ti) /\
  (ackChan s' = ackChan s \/
   exists ti, good ti /\ is_Some (unackedNums s !! AckNum ti) /\ ackChan s' = ackChan s ++ [ti]).

Lemma env_frame_view good s s' : snd_view s' = snd_view s -> env_frame good s s'.
Proof. intros [= E1 E2 E3 E4 E5 E6 E7]. unfold env_frame. rewrite E1. repeat split; try done; by left. Qed.

Lemma receive_frame (good : TCPInfo -> Prop) s ti s' r :
  good ti -> ReceiverThread_body s ti = Ret (s', r) -> env_frame good s s'.
Proof.
  intros Hg. unfold ReceiverThread_body. case_bool_decide; [|intros [= <- _]; by apply env_frame_view]. cbv zeta.
  set (s1 := set_ClientWindowSize s (WindowSize ti)).
  assert (H1 : env_frame good s s1) by (repeat split; try done; [right; by exists ti|by left]).
  destruct (unackedMtx s1); [done|]. case_bool_decide.
  { destruct (closer s1); intros [= <- _]; try exact H1. case_bool_decide; exact H1. }
  case_bool_decide as Hk.
  - case_bool_decide; [|done]. intros [= <- _]. repeat split; try done; right; exists ti; [done|].
    split; [done|]. split; [exact (proj1 Hk)|done].
  - intros [= E1 E2 E3 E4 E5 E6 E7]%receive_ordered_view. unfold env_frame. rewrite E1, E2, E3, E4, E5, E6, E7.
    exact H1.
Qed.

Lemma env_step_frame `{Netstack} `{MapIter} good s s' : env_step good s s' -> env_frame good s s'.
Proof.
  intros [s0 ti s1 r Hg Hr|s0 buf lbw nf|s0 num nb we r s1 Hr|n s0 e s1 evs Hr|s0 s1 Hr|t s0 t' s1 Hr|t s0 t' s1 Hr].
  - by eapply receive_frame.
  - repeat split; by left.
  - apply env_frame_view. unfold VRead_locked in Hr. case_bool_decide; [done|]. destruct (read_bytes _ _ _) as [bs rb]. destruct we; by injection Hr as _ <-.
  - apply env_frame_view. unfold VClose in Hr. case_bool_decide; [done|]. cbv zeta in Hr.
    destruct (stateMtx s0); [done|]. destruct (close_state _); [|by injection Hr as _ <- _].
    destruct (unackedMtx s0); [done|]. by apply bind_Ret_inv in Hr as (? & _ & [= _ <- _]).
  - apply env_frame_view. unfold closer_delete in Hr. destruct (closer s0); try by injection Hr as <-.
    destruct (unackedMtx s0); [done|]. by injection Hr as <-.
  - apply env_frame_view. unfold closer_finish in Hr. destruct (closer s0); try by injection Hr as _ <-.
    destruct (stateMtx s0); [done|]. destruct (state s0); by injection Hr as _ <-.
  - apply env_frame_view. unfold reap in Hr. destruct (reapers s0); by injection Hr as _ <-.
Qed.

(** ** The invariant *)
Section sliding.
Context `{NS : Netstack} `{MI : MapIter}.
Variables (s0 : NormalSocket) (fl : Z) (pl : list byte).

Definition start_ready (s : NormalSocket) (pl : list byte) : Prop :=
  let top := cumWriteUNA s + zlen pl in
  0 < zlen pl <= MSS /\ 0 <= cumWriteUNA s /\ top < 2 ^ 32 /\
  w_UNA (writeBuffer s) = (cumWriteUNA s - baseSeq s) mod WINDOW_SIZE /\
  w_NXT (writeBuffer s) = w_UNA (writeBuffer s) /\
  0 < ClientWindowSize s /\
  (forall k, is_Some (unackedNums s !! k) -> k <= cumWriteUNA s) /\
  Forall (fun ti => AckNum ti <= cumWriteUNA s /\ 0 < WindowSize ti) (ackChan s).

(** A segment that carries the bytes of [pl] its sequence number says. *)
Definition carries (p : TCPPacket) : Prop :=
  sourceIp p = LocalAddr (sk s0) /\ destIp p = RemoteAddr (sk s0) /\
  sourcePort p = LocalPort (sk s0) /\ destPort p = RemotePort (sk s0) /\ flags p = fl /\
  payload p <> [] /\ cumWriteUNA s0 <= seqNum p /\
  seqNum p + zlen (payload p) <= cumWriteUNA s0 + zlen pl /\
  payload p = zsub (seqNum p - cumWriteUNA s0) (seqNum p - cumWriteUNA s0 + zlen (payload p)) pl.

(** Consecutive segments from offset [a] to offset [b]. *)
Fixpoint covers (a : Z) (ps : list TCPPacket) (b : Z) : Prop :=
  match ps with
  | [] => a = b
  | p :: ps' => seqNum p = cumWriteUNA s0 + a /\ carries p /\ covers (a + zlen (payload p)) ps' b
  end.

Definition fresh (o : list SwOut) : list TCPPacket :=
  omap (fun x => match x with Fresh p => Some p | _ => None end) o.

Definition out_ok (x : SwOut) : Prop :=
  match x with Fresh p | Resent p => carries p | Probe _ => False end.

(** [a] and [c] delimit the last segment made, [sent] counts the bytes sent once. *)
Record sw_inv (init : list WindowNode) (tl : WindowNode) (a c sent : Z) (w : SW) : Prop := {
  i_nodes : nodes w = init ++ [tl];
  i_all : Forall (fun n => carries (packet n)) (nodes w);
  i_seq : seqNum (packet tl) = cumWriteUNA s0 + a;
  i_len : zlen (payload (packet tl)) = c - a;
  i_exp : expectedAck tl = cumWriteUNA s0 + c;
  i_range : 0 <= a < c /\ c <= zlen pl;
  i_rest : rest w = zdrop c pl;
  i_last : payloadIndex tl = 0 \/ c = zlen pl;
  i_size : payloadSize w = zlen pl;
  i_index : Forall (fun n => 0 <= n_index n <= n_index tl) (nodes w) /\ n_index tl <= a;
  i_phase : match pc w with
            | AfterSend e => sent = c /\ e = cumWriteUNA s0 + c /\ cumWriteUNA (sock w) < e
            | ProbeWait _ _ | Again => False
            | _ => (sent = a /\ bytesToSend w = c - a) \/ (sent = c /\ c = zlen pl /\ bytesToSend w <= 0)
            end;
  i_sent : 0 <= sent;
  i_cum : cumWriteUNA s0 <= cumWriteUNA (sock w) <= cumWriteUNA s0 + sent;
  i_bytes : bytesSent w = cumWriteUNA (sock w) - cumWriteUNA s0;
  i_base : baseSeq (sock w) = baseSeq s0 /\ sk (sock w) = sk s0;
  i_UNA : w_UNA (writeBuffer (sock w)) = (cumWriteUNA (sock w) - baseSeq s0) mod WINDOW_SIZE;
  i_NXT : w_NXT (writeBuffer (sock w)) = (cumWriteUNA s0 + sent - baseSeq s0) mod WINDOW_SIZE;
  i_keys : forall k, is_Some (unackedNums (sock w) !! k) -> k <= cumWriteUNA s0 + sent;
  i_acks : Forall (fun ti => AckNum ti <= cumWriteUNA s0 + sent /\ 0 < WindowSize ti) (ackChan (sock w));
  i_head : win_head w = Nil -> cumWriteUNA s0 + c <= cumWriteUNA (sock w);
  i_zero : ClientWindowSize (sock w) = 0 -> cumWriteUNA (sock w) < cumWriteUNA s0 + sent;
  i_done : pc w = Done -> zlen pl <= bytesSent w;
  i_window : 0 <= ClientWindowSize (sock w)
}.

Lemma covers_app a ps qs b c : covers a ps b -> covers b qs c -> covers a (ps ++ qs) c.
Proof.
  revert a. induction ps as [|p ps IH]; cbn; [by intros a ->|]. intros a (H1 & H2 & H3) H4. by auto.
Qed.

Lemma carries_piece seq p n a :
  sourceIp p = LocalAddr (sk s0) /\ destIp p = RemoteAddr (sk s0) /\
  sourcePort p = LocalPort (sk s0) /\ destPort p = RemotePort (sk s0) /\ flags p = fl ->
  payload p = ztake n (zdrop a pl) -> seqNum p = seq -> seq = cumWriteUNA s0 + a ->
  0 <= a -> 0 < n -> a + n <= zlen pl -> carries p /\ zlen (payload p) = n.
Proof.
  intros (A1 & A2 & A3 & A4 & A5) Hp Hs -> Ha Hn Hl.
  assert (Hlen : zlen (payload p) = n) by (rewrite Hp, zlen_ztake; [done|rewrite zlen_zdrop; lia]).
  split; [|done]. unfold carries. rewrite Hlen, Hs. repeat (split; [done|]).
  split; [intros E; rewrite E in Hlen; change (zlen (@nil byte)) with 0 in Hlen; lia|].
  split; [lia|]. split; [lia|]. rewrite Hp. unfold zsub. f_equal; [lia|]. f_equal. lia.
Qed.

Lemma refresh_carries s p : carries p -> carries (refresh s p).
Proof. done. Qed.

Lemma distUNA_in_flight w cum top base :
  w_UNA w = (cum - base) mod WINDOW_SIZE -> w_NXT w = (top - base) mod WINDOW_SIZE ->
  cum <= top < cum + WINDOW_SIZE -> distUNA w = top - cum.
Proof.
  intros HU HN Hr. unfold distUNA. rewrite u32_mod_W, HU, HN. unfold WINDOW_SIZE in *.
  Z.div_mod_to_equations. lia.
Qed.

Lemma advance_NXT base x n : 0 <= n -> n < 2 ^ 32 ->
  u32 ((x - base) mod WINDOW_SIZE + u32 n) mod WINDOW_SIZE = (x + n - base) mod WINDOW_SIZE.
Proof.
  intros. rewrite u32_mod_W, (u32_small n) by lia. rewrite Zplus_mod_idemp_l. f_equal. lia.
Qed.

Lemma start_inv t done :
  start_ready s0 pl ->
  exists tl c, sw_inv [] tl 0 c 0 (slidingWindow_start s0 t done fl pl).
Proof.
  intros (Hl & H0 & Htop & HU & HN & Hw & Hk & Ha). unfold MSS in Hl.
  set (n := Z.min (Z.min MSS (zlen pl)) (ClientWindowSize s0)).
  assert (Hn : 0 < n <= zlen pl) by (unfold n, MSS; lia).
  destruct (carries_piece (cumWriteUNA s0) (data_segment s0 (ztake n pl) fl (cumWriteUNA s0)) n 0)
    as [Hc Hlen]; try (done || lia).
  change (zlen (ztake n pl) = n) in Hlen. unfold slidingWindow_start. fold n. cbv zeta.
  exists (mkWNode 0 (distUNA (writeBuffer s0) ⊕ cumWriteUNA s0 ⊕ u32 n)
    (data_segment s0 (ztake n pl) fl (cumWriteUNA s0)) 0 None false), n.
  assert (Hd : distUNA (writeBuffer s0) = 0).
  { rewrite (distUNA_in_flight _ (cumWriteUNA s0) (cumWriteUNA s0) (baseSeq s0)); [lia|done|by rewrite HN|].
    unfold WINDOW_SIZE. lia. }
  constructor; cbn -[distUNA u32 carries Z.mul Z.min]; try done; try lia.
  - apply Forall_singleton. exact Hc.
  - rewrite Hd, Z.add_0_l, (u32_small n), (u32_small (cumWriteUNA s0)), u32_small by lia. lia.
  - split; [|done]. by apply Forall_singleton.
  - by rewrite HN, HU, Z.add_0_r.
  - intros k Hkk. specialize (Hk k Hkk). lia.
  - apply (list.Forall_impl _ _ _ Ha). cbn. intros ti [? ?]. lia.
Qed.

(** ** Steps that leave the window alone *)
Definition plain (p : Pc) : Prop :=
  match p with AfterSend _ | ProbeWait _ _ | Again | Done => False | _ => True end.

Lemma inv_ext init tl a c sent w w' :
  sock w' = sock w -> nodes w' = nodes w -> win_head w' = win_head w -> rest w' = rest w ->
  payloadSize w' = payloadSize w -> bytesToSend w' = bytesToSend w -> bytesSent w' = bytesSent w ->
  pc w' = pc w -> sw_inv init tl a c sent w -> sw_inv init tl a c sent w'.
Proof. destruct w, w'. cbn. intros -> -> -> -> -> -> -> ->. intros []. by constructor. Qed.

Lemma inv_pc init tl a c sent w p :
  plain (pc w) -> plain p -> sw_inv init tl a c sent w -> sw_inv init tl a c sent (with_pc w p).
Proof.
  intros H1 H2 []. constructor; try done; cbn.
  all: revert i_phase0 H1 H2; clear; intros ???; by destruct (pc w), p.
Qed.

Lemma inv_env good init tl a c sent w s' :
  (forall ti, good ti -> 0 < WindowSize ti) ->
  sw_inv init tl a c sent w -> env_frame good (sock w) s' -> sw_inv init tl a c sent (with_sock w s').
Proof.
  intros Hg [] (E1 & E2 & E3 & E4 & E5 & E6 & E7 & E8). destruct i_base0 as [B1 B2].
  constructor; cbn; rewrite ?E1, ?E2, ?E3, ?E4, ?E5, ?E6; try done.
  - destruct E8 as [->|(ti & G & K & ->)]; [done|]. apply Forall_app. split; [done|].
    apply Forall_singleton. split; [by apply i_keys0|by apply Hg].
  - destruct E7 as [->|(ti & G & ->)]; [done|]. specialize (Hg ti G). lia.
  - destruct E7 as [->|(ti & G & ->)]; [done|]. specialize (Hg ti G). lia.
Qed.

(** ** Sending *)
Lemma carries_tl init tl a c sent w :
  sw_inv init tl a c sent w -> carries (packet tl) /\ Forall (fun n => carries (packet n)) init.
Proof.
  intros []. rewrite i_nodes0 in i_all0. apply Forall_app in i_all0 as [H1 H2].
  apply list.Forall_cons_1 in H2 as [H2 _]. by split.
Qed.

Lemma last_nodes init tl a c sent w : sw_inv init tl a c sent w -> list.last (nodes w) = Some tl.
Proof. intros []. rewrite i_nodes0. apply last_snoc. Qed.

Lemma set_last_snoc {A} (l : list A) x y : set_last (l ++ [x]) y = l ++ [y].
Proof. unfold set_last. by rewrite removelast_last. Qed.

Lemma inv_bounds init tl a c sent w :
  start_ready s0 pl -> sw_inv init tl a c sent w ->
  0 <= sent <= zlen pl /\ zlen pl <= 1360 /\ 0 <= cumWriteUNA s0 /\ cumWriteUNA s0 + zlen pl < 2 ^ 32.
Proof.
  intros ((_ & Hl) & H0 & Ht & _) []. unfold MSS in Hl. destruct i_range0.
  destruct (pc w); intuition lia.
Qed.

Lemma window_open_ok init tl a c sent w :
  sw_inv init tl a c sent w -> win_head w <> Nil -> exists b, window_open (nodes w) (win_head w) = Ret b.
Proof.
  intros Hi Hh. pose proof (last_nodes _ _ _ _ _ _ Hi) as Hl. unfold window_open.
  assert (Hnext : forall i, next_head (nodes w) (win_head w) = At i -> (i < length (nodes w))%nat).
  { unfold next_head. intros i. destruct (win_head w); try done; case_bool_decide; congruence. }
  destruct (win_head w) as [|k|] eqn:Eh; [| |done].
  all: destruct (next_head _ _) as [|i|] eqn:E; try by eexists.
  all: rewrite Hl; destruct (lookup_lt_is_Some_2 (nodes w) i (Hnext i eq_refl)) as [x ->]; by eexists.
Qed.

Lemma send_expected init tl a c w :
  start_ready s0 pl -> sw_inv init tl a c a w -> bytesToSend w = c - a ->
  let wb := writeBuffer (sock w) in
  let nxt := u32 (w_NXT wb + u32 (bytesToSend w)) mod WINDOW_SIZE in
  nxt = (cumWriteUNA s0 + c - baseSeq s0) mod WINDOW_SIZE /\
  distUNA (set_w_NXT wb nxt) ⊕ cumWriteUNA (sock w) = cumWriteUNA s0 + c.
Proof.
  intros Hs Hi Hn. pose proof (inv_bounds _ _ _ _ _ _ Hs Hi) as (Hb & Hl & H0 & Ht).
  destruct Hi. destruct i_range0 as [Hac Hcl]. intros wb nxt.
  assert (HNXT : nxt = (cumWriteUNA s0 + c - baseSeq s0) mod WINDOW_SIZE).
  { unfold nxt, wb. rewrite i_NXT0, advance_NXT by lia. f_equal. lia. }
  split; [done|]. rewrite HNXT.
  rewrite (distUNA_in_flight _ (cumWriteUNA (sock w)) (cumWriteUNA s0 + c) (baseSeq s0));
    [rewrite u32_small; lia|done|done|unfold WINDOW_SIZE; lia].
Qed.

Lemma inv_send now init tl a c sent w w' o :
  start_ready s0 pl -> sw_inv init tl a c sent w -> pc w = SendStep -> send_step now w = Ret (w', o) ->
  exists tl' sent', sw_inv init tl' a c sent' w' /\ covers sent (fresh o) sent' /\ Forall out_ok o.
Proof.
  intros Hs Hi Hpc. pose proof (inv_bounds _ _ _ _ _ _ Hs Hi) as (Hb & Hl & H0 & Ht).
  pose proof (carries_tl _ _ _ _ _ _ Hi) as [Hc Hci]. pose proof (last_nodes _ _ _ _ _ _ Hi) as Hlast.
  unfold send_step. intros (go & Hgo & Hr)%bind_Ret_inv. destruct go.
  2: { injection Hr as <- <-. exists tl, sent. split; [|done]. apply inv_pc; [by rewrite Hpc|done|done]. }
  rewrite Hlast in Hr. apply bind_Ret_inv in Hr as (s & Hreg & [= <- <-]).
  unfold register in Hreg. cbn [set_write unackedMtx] in Hreg. destruct (unackedMtx (sock w)); [done|].
  injection Hreg as <-.
  assert (Hbts : 0 < bytesToSend w).
  { unfold send_cond in Hgo. destruct (bool_decide (0 < bytesToSend w)) eqn:E; [by apply bool_decide_eq_true in E|].
    by rewrite andb_false_r in Hgo. }
  pose proof (i_phase _ _ _ _ _ _ Hi) as Hph. rewrite Hpc in Hph. destruct Hph as [[-> Hn]|(_ & _ & ?)]; [|lia].
  destruct (send_expected _ _ _ _ _ Hs Hi Hn) as [HNXT Hexp].
  destruct Hi. destruct i_range0 as [Hac Hcl]. destruct i_base0 as [B1 B2].
  rewrite Hexp, i_nodes0, set_last_snoc.
  exists (mark_sent now false tl), c. split; [constructor; cbn; try done; try lia|split; [|by apply Forall_singleton]].
  - apply Forall_app. split; [done|]. by apply Forall_singleton.
  - destruct i_index0 as [X1 X2]. rewrite i_nodes0 in X1. split; [|done]. revert X1. rewrite !Forall_app, !Forall_singleton. done.
  - intros k Hk. destruct (decide (k = cumWriteUNA s0 + c)) as [->|Hne]; [done|].
    rewrite lookup_insert_ne in Hk by done. specialize (i_keys0 k Hk). lia.
  - apply (list.Forall_impl _ _ _ i_acks0). intros ti [? ?]. lia.
  - cbn. repeat split; [done|apply Hc..|lia].
Qed.

Lemma next_index ns init tl nn a c :
  Forall (fun n => 0 <= n_index n <= n_index tl) ns /\ n_index tl <= a -> ns = init ++ [tl] -> a < c < 2 ^ 32 ->
  n_index nn = n_index tl ⊕ 1 ->
  Forall (fun n => 0 <= n_index n <= n_index nn) (ns ++ [nn]) /\ n_index nn <= c.
Proof.
  intros [X1 X2] E Hc En.
  assert (X0 : 0 <= n_index tl) by (rewrite E, Forall_app, Forall_singleton in X1; lia).
  rewrite u32_small in En by lia. split; [|lia].
  rewrite Forall_app, Forall_singleton. split; [|lia]. apply (list.Forall_impl _ _ _ X1). lia.
Qed.

Lemma inv_after_send e init tl a c sent w w' o :
  start_ready s0 pl -> sw_inv init tl a c sent w -> pc w = AfterSend e -> after_send w e = Ret (w', o) ->
  o = [] /\ exists init' tl' a' c', sw_inv init' tl' a' c' sent w'.
Proof.
  intros Hs Hi Hpc. pose proof (inv_bounds _ _ _ _ _ _ Hs Hi) as (Hb & Hl & H0 & Ht).
  pose proof (carries_tl _ _ _ _ _ _ Hi) as [Hc Hci].
  unfold after_send. rewrite (last_nodes _ _ _ _ _ _ Hi).
  set (s := set_ClientWindowSize _ _). set (w1 := with_sock w s).
  set (w2 := if first w1 then _ else _).
  assert (Hw2 : sock w2 = s /\ nodes w2 = nodes w /\ win_head w2 = win_head w /\ rest w2 = rest w /\
    payloadSize w2 = payloadSize w /\ bytesSent w2 = bytesSent w) by (unfold w2; by destruct (first w1)).
  destruct Hw2 as (W1 & W2 & W3 & W4 & W5 & W6). cbv zeta. rewrite W2, W3, W4, W5.
  destruct Hi. rewrite Hpc in i_phase0. destruct i_phase0 as (-> & -> & Hlt).
  destruct i_range0 as [Hac Hcl]. destruct i_base0 as [B1 B2].
  assert (Hr : zlen (rest w) = zlen pl - c) by (rewrite i_rest0, zlen_zdrop; lia).
  rewrite i_size0, Hr.
  case_bool_decide as Hn; intros [= <- <-]; (split; [done|]).
  - assert (Hn' : Z.min (Z.min MSS (zlen pl - payloadIndex tl)) (zlen pl - c) = zlen pl - c)
      by (unfold MSS in *; lia).
    assert (Hlen : c < zlen pl) by lia. rewrite Hn'. set (n := zlen pl - c) in *.
    set (np := mkSeg _ _ _ _ _ _ _ _ _).
    destruct (carries_piece (cumWriteUNA s0 + c) np n c) as [Hcp Hlp]; try done; try lia.
    { unfold carries in Hc. tauto. }
    { cbn. by rewrite i_rest0. }
    set (nn := mkWNode _ _ np _ _ _). exists (init ++ [tl]), nn, c, (zlen pl).
    constructor; cbn; rewrite ?W1, ?W2, ?W4, ?W6; cbn; try done; try lia.
    + by rewrite i_nodes0.
    + apply Forall_app. split; [done|]. by apply Forall_singleton.
    + rewrite (u32_small n), u32_small by lia. lia.
    + rewrite i_rest0, zdrop_zdrop by lia. f_equal. lia.
    + apply (next_index _ init tl nn a); [done|done|lia|done].
    + intros Hnil%i_head0. lia.
    + apply u16_range.
  - exists init, tl, a, c. constructor; cbn; rewrite ?W1, ?W2, ?W4, ?W5, ?W6; cbn; try done; try lia.
    + right. split; [done|]. split; [|lia]. unfold MSS in *. lia.
    + by rewrite W3.
    + apply u16_range.
Qed.

(** ** Acknowledgements *)
Lemma shrink_spec fuel now ack init tl h t h' t' :
  shrink fuel now ack (init ++ [tl]) h t = (h', t') -> h' = Nil -> h = Nil \/ expectedAck tl <= ack.
Proof.
  revert h t. induction fuel as [|fuel IH]; intros h t; cbn [shrink]; [intros [= <- _]; by left|].
  destruct (head_ack _ h) as [e|] eqn:He; [|intros [= <- _]; by left].
  case_bool_decide as Hle; [|intros [= <- _]; by left].
  intros Hr Hn. destruct (IH _ _ Hr Hn) as [Hnil|]; [|by right].
  right. revert Hnil He. unfold next_head, head_ack. rewrite length_app. cbn [length].
  destruct h as [|i|]; [case_bool_decide; [done|lia]| |done].
  case_bool_decide as Hi; [done|]. intros _. destruct (decide (i = length init)) as [->|Hne].
  - rewrite list_lookup_middle by done. intros [= ->]. done.
  - rewrite lookup_ge_None_2; [done|]. rewrite length_app. cbn [length]. lia.
Qed.

Lemma inv_ack now init tl a c sent w w' o :
  start_ready s0 pl -> sw_inv init tl a c sent w -> pc w = AckLoop -> ack_step now w = Ret (w', o) ->
  o = [] /\ sw_inv init tl a c sent w'.
Proof.
  intros Hs Hi Hpc. pose proof (inv_bounds _ _ _ _ _ _ Hs Hi) as (Hb & Hl & H0 & Ht).
  unfold ack_step. destruct (ackChan (sock w)) as [|ti q] eqn:Hq.
  { intros [= <- <-]. split; [done|]. apply inv_pc; [by rewrite Hpc|done|done]. }
  destruct (unackedMtx (sock w)); [done|]. cbv zeta.
  destruct Hi. rewrite Hpc in i_phase0. rewrite Hq in i_acks0.
  apply list.Forall_cons_1 in i_acks0 as [[Ha1 Ha2] Ha].
  assert (Hkeys : forall k v, is_Some (<[AckNum ti := v]> (unackedNums (sock w)) !! k) -> k <= cumWriteUNA s0 + sent).
  { intros k v Hk. destruct (decide (k = AckNum ti)) as [->|Hne]; [done|].
    rewrite lookup_insert_ne in Hk by done. by apply i_keys0. }
  case_bool_decide; [|intros [= <- <-]; split; [done|]; constructor; cbn; rewrite ?Hpc; done].
  cbn [set_ackChan set_unackedNums set_ClientWindowSize cumWriteUNA WindowSize].
  case_bool_decide as Hlt.
  - destruct (shrink _ _ _ _ _ _) as [h t'] eqn:Hsh. intros [= <- <-]. split; [done|].
    assert (Hd : u32 (AckNum ti - cumWriteUNA (sock w)) = AckNum ti - cumWriteUNA (sock w))
      by (apply u32_small; lia).
    destruct i_base0 as [B1 B2].
    constructor; cbn; rewrite ?Hpc, ?Hd; try done; try lia.
    + rewrite u32_mod_W, B1. unfold WINDOW_SIZE. Z.div_mod_to_equations. lia.
    + intros k. apply Hkeys.
    + intros Hnil. cbn [with_bytesSent nodes win_head timer] in Hsh. rewrite i_nodes0 in Hsh. destruct (shrink_spec _ _ _ _ _ _ _ _ _ Hsh Hnil) as [Hh|Hh].
      * specialize (i_head0 Hh). lia.
      * by rewrite i_exp0 in Hh.
  - intros [= <- <-]. split; [done|]. constructor; cbn; rewrite ?Hpc; try done; try lia. intros k. apply Hkeys.
Qed.

(** ** The retransmission thread *)
Lemma insert_snoc {A} (l : list A) x y i :
  (i < length (l ++ [x]))%nat ->
  exists l' x', <[i := y]> (l ++ [x]) = l' ++ [x'] /\ (x' = x \/ (l ++ [x]) !! i = Some x /\ x' = y).
Proof.
  rewrite length_app. cbn [length]. intros Hi. destruct (decide (i < length l)%nat).
  - exists (<[i := y]> l), x. split; [by rewrite insert_app_l|by left].
  - assert (i = length l) as -> by lia. exists l, y. split; [|right; split; [by apply list_lookup_middle|done]].
    rewrite insert_app_r_alt by lia. by rewrite Nat.sub_diag.
Qed.

Lemma inv_resend now i n init tl a c sent w :
  sw_inv init tl a c sent w -> nodes w !! i = Some n ->
  carries (packet n) /\
  exists init' tl', sw_inv init' tl' a c sent
    (with_window w (<[i := resend_node now (sock w) n]> (nodes w)) (win_head w)).
Proof.
  intros Hi Hn. assert (Hc : carries (packet n)).
  { destruct Hi. by apply (list.Forall_lookup_1 _ _ _ _ i_all0 Hn). }
  split; [done|]. destruct Hi.
  destruct (insert_snoc init tl (resend_node now (sock w) n) i) as (l' & x' & E & Hx).
  { rewrite <- i_nodes0. by eapply lookup_lt_Some. }
  exists l', x'.
  assert (Hx' : seqNum (packet x') = seqNum (packet tl) /\ payload (packet x') = payload (packet tl) /\
    expectedAck x' = expectedAck tl /\ payloadIndex x' = payloadIndex tl /\ n_index x' = n_index tl).
  { destruct Hx as [->|[Hx ->]]; [done|]. rewrite <- i_nodes0, Hn in Hx. injection Hx as ->. done. }
  destruct Hx' as (X1 & X2 & X3 & X4 & X5).
  constructor; cbn; rewrite ?X1, ?X2, ?X3, ?X4, ?X5; try done; [by rewrite i_nodes0|by apply Forall_insert|].
  destruct i_index0 as [Y1 Y2]. split; [|done].
  apply Forall_insert; [done|]. exact (list.Forall_lookup_1 _ _ _ _ Y1 Hn).
Qed.

Lemma inv_unlock init tl a c sent w l k :
  sw_inv init tl a c sent w -> sw_inv init tl a c sent (thread_unlock w l k).
Proof. by apply inv_ext. Qed.

Lemma inv_thread_resend now l k init tl a c sent w w' o :
  sw_inv init tl a c sent w -> thread_resend now w l k = Ret (w', o) ->
  (exists init' tl', sw_inv init' tl' a c sent w') /\ fresh o = [] /\ Forall out_ok o.
Proof.
  intros Hi. unfold thread_resend.
  assert (Hidle : (exists init' tl', sw_inv init' tl' a c sent (thread_unlock w l k)) /\
    fresh [] = [] /\ Forall out_ok []).
  { split; [exists init, tl; by apply inv_unlock|done]. }
  assert (Hone : forall i n l' k', nodes w !! i = Some n ->
    let w' := with_window w (<[i := resend_node now (sock w) n]> (nodes w)) (win_head w) in
    (exists init' tl', sw_inv init' tl' a c sent (thread_unlock w' l' k')) /\
    (exists init' tl', sw_inv init' tl' a c sent (with_thread w' TGaveUp)) /\
    fresh [Resent (refresh (sock w) (packet n))] = [] /\
    Forall out_ok [Resent (refresh (sock w) (packet n))]).
  { intros i n l' k' Hn. destruct (inv_resend now i n _ _ _ _ _ _ Hi Hn) as (Hc & i' & t' & Hi').
    split; [exists i', t'; by apply inv_unlock|]. split; [exists i', t'; revert Hi'; by apply inv_ext|].
    split; [done|]. by apply Forall_singleton. }
  case_bool_decide; [|by intros [= <- <-]].
  destruct (win_head w) as [|i|] eqn:Eh; [| |by intros [= <- <-]]; case_bool_decide.
  all: try (by intros [= <- <-]).
  1,2: destruct (next_head _ _) as [|j|]; try by intros [= <- <-].
  1,2: destruct (nodes w !! j) as [n|] eqn:En; [|by intros [= <- <-]].
  1,2: destruct (lastSent n); [|by intros [= <- <-]]; intros [= <- <-].
  1,2: destruct (Hone j n l k En) as (H1 & _ & H2); by split.
  destruct (nodes w !! i) as [n|] eqn:En; [|by intros [= <- <-]].
  destruct (lastSent n); [|by intros [= <- <-]].
  destruct (if bool_decide (u32 l = n_index n) then _ else _) as [l' k'].
  destruct (Hone i n l' k' En) as (H1 & H2 & H3).
  case_bool_decide; intros [= <- <-]; [by split|by split].
Qed.

(** ** Every step *)
Definition inv (sent : Z) (w : SW) : Prop := exists init tl a c, sw_inv init tl a c sent w.

Definition step_ok (sent : Z) (o : list SwOut) (w' : SW) : Prop :=
  exists sent', inv sent' w' /\ covers sent (fresh o) sent' /\ Forall out_ok o.

Lemma step_quiet sent w' : inv sent w' -> step_ok sent [] w'.
Proof. intros H. by exists sent. Qed.

Lemma no_probe init tl a c sent w :
  start_ready s0 pl -> sw_inv init tl a c sent w -> pc w = ProbeTest ->
  probe_test w = Ret (with_pc w SendStep, []).
Proof.
  intros Hs Hi Hpc. pose proof (inv_bounds _ _ _ _ _ _ Hs Hi) as (Hb & Hl & H0 & Ht).
  unfold probe_test. case_bool_decide as HN; [|done].
  rewrite (bool_decide_false (ClientWindowSize _ = 0)); [by rewrite andb_false_r|].
  intros Hz%(i_zero _ _ _ _ _ _ Hi). destruct Hi. rewrite i_UNA0, i_NXT0 in HN. unfold WINDOW_SIZE in HN.
  revert HN. Z.div_mod_to_equations. lia.
Qed.

Lemma inv_advance now sent w w' o :
  start_ready s0 pl -> inv sent w -> sw_advance now w = Ret (w', o) -> step_ok sent o w'.
Proof.
  intros Hs (init & tl & a & c & Hi). unfold sw_advance. destruct (pc w) eqn:Hpc; try done.
  - case_bool_decide as Hlt.
    + destruct (thread w); intros [= <- <-]; apply step_quiet; exists init, tl, a, c;
        (apply inv_pc; [by rewrite Hpc|done|done]).
    + destruct (doneChan w); [done|]. intros [= <- <-]. apply step_quiet. exists init, tl, a, c.
      destruct Hi. rewrite Hpc in i_phase0. constructor; cbn; try done. intros _. lia.
  - rewrite (no_probe _ _ _ _ _ _ Hs Hi Hpc). intros [= <- <-]. apply step_quiet. exists init, tl, a, c.
    apply inv_pc; [by rewrite Hpc|done|done].
  - exfalso. pose proof (i_phase _ _ _ _ _ _ Hi) as H. by rewrite Hpc in H.
  - intros H. destruct (inv_send _ _ _ _ _ _ _ _ _ Hs Hi Hpc H) as (tl' & sent' & H1 & H2 & H3).
    exists sent'. split; [|done]. by exists init, tl', a, c.
  - intros H. destruct (inv_after_send _ _ _ _ _ _ _ _ _ Hs Hi Hpc H) as (-> & H1). by apply step_quiet.
  - intros [= <- <-]. apply step_quiet. exists init, tl, a, c.
    assert (H : sw_inv init tl a c sent (with_pc w AckLoop)) by (apply inv_pc; [by rewrite Hpc|done|done]).
    case_bool_decide; [|exact H]. by revert H; apply inv_ext.
  - intros H. destruct (inv_ack _ _ _ _ _ _ _ _ _ Hs Hi Hpc H) as (-> & H1). apply step_quiet.
    by exists init, tl, a, c.
Qed.

Lemma inv_step good sent w w' o :
  start_ready s0 pl -> (forall ti, good ti -> 0 < WindowSize ti) -> inv sent w -> sw_step good w o w' ->
  step_ok sent o w'.
Proof.
  intros Hs Hg Hi Hst. destruct Hst as [now w w' o H|w w' o H|w w' o H|w w' o H|now w w' o H|w p H|w s' H].
  - by eapply inv_advance.
  - exfalso. destruct Hi as (init & tl & a & c & Hi). pose proof (i_phase _ _ _ _ _ _ Hi) as Hp.
    unfold probe_timeout in H. by destruct (pc w).
  - unfold thread_done in H. destruct (thread w); try done. destruct (doneChan w); [|done].
    injection H as <- <-. apply step_quiet. destruct Hi as (init & tl & a & c & Hi). exists init, tl, a, c.
    by revert Hi; apply inv_ext.
  - unfold thread_tick in H. destruct (thread w); try done. destruct (t_chan _); [|done].
    injection H as <- <-. apply step_quiet. destruct Hi as (init & tl & a & c & Hi). exists init, tl, a, c.
    by revert Hi; apply inv_ext.
  - unfold thread_retransmit in H. destruct (thread w); try done. destruct (winLock_free w); [|done].
    destruct Hi as (init & tl & a & c & Hi).
    destruct (inv_thread_resend _ _ _ _ _ _ _ _ _ _ _ Hi H) as ((i' & t' & Hi') & E & Ho).
    exists sent. rewrite E. split; [by exists i', t', a, c|done].
  - apply step_quiet. destruct Hi as (init & tl & a & c & Hi). exists init, tl, a, c.
    by revert Hi; apply inv_ext.
  - apply step_quiet. destruct Hi as (init & tl & a & c & Hi). exists init, tl, a, c.
    eapply inv_env; [exact Hg|done|by apply env_step_frame].
Qed.

Lemma fresh_app o1 o2 : fresh (o1 ++ o2) = fresh o1 ++ fresh o2.
Proof. apply omap_app. Qed.

Lemma inv_exec good sent0 w0 o w :
  start_ready s0 pl -> (forall ti, good ti -> 0 < WindowSize ti) -> inv sent0 w0 -> sw_exec good w0 o w ->
  step_ok sent0 o w.
Proof.
  intros Hs Hg Hi. induction 1 as [w|w1 o1 w2 o2 w3 _ IH Hst]; [by apply step_quiet|].
  destruct (IH Hi) as (sent & Hi2 & C1 & F1).
  destruct (inv_step _ _ _ _ _ Hs Hg Hi2 Hst) as (sent' & Hi3 & C2 & F2).
  exists sent'. split; [done|]. rewrite fresh_app. split; [by eapply covers_app|by apply Forall_app].
Qed.

(** A concatenation of consecutive segments is the stretch of the payload. *)
Lemma covers_concat a ps b :
  covers a ps b -> 0 <= a -> a <= b /\ concat (map payload ps) = zsub a b pl.
Proof.
  revert a. induction ps as [|p ps IH]; intros a; cbn.
  - intros -> _. split; [lia|]. unfold zsub. rewrite Z.sub_diag. by rewrite ztake_nil_nonpos.
  - intros (Hq & (_ & _ & _ & _ & _ & _ & _ & H1 & H2) & Hc) Ha. pose proof (zlen_nonneg (payload p)).
    destruct (IH _ Hc) as [Hle ->]; [lia|]. split; [lia|].
    rewrite (zsub_split a (a + zlen (payload p)) b) by lia. f_equal. rewrite H2 at 1.
    rewrite Hq. f_equal; lia.
Qed.

(** ** No panic *)
Lemma inv_no_panic now sent w why :
  start_ready s0 pl -> inv sent w -> sw_advance now w <> Panic why.
Proof.
  intros Hs (init & tl & a & c & Hi). unfold sw_advance. destruct (pc w) eqn:Hpc; try done.
  - case_bool_decide; [by destruct (thread w)|by destruct (doneChan w)].
  - by rewrite (no_probe _ _ _ _ _ _ Hs Hi Hpc).
  - pose proof (i_phase _ _ _ _ _ _ Hi) as H. by rewrite Hpc in H.
  - unfold send_step. rewrite (last_nodes _ _ _ _ _ _ Hi).
    assert (exists b, send_cond w = Ret b) as [b ->].
    { unfold send_cond. destruct (_ && bool_decide (0 < bytesToSend w)) eqn:E; [|by eexists].
      apply andb_true_iff in E as [_ E%bool_decide_eq_true]. apply (window_open_ok _ _ _ _ _ _ Hi).
      intros Hn%(i_head _ _ _ _ _ _ Hi). destruct Hi. rewrite Hpc in i_phase0. lia. }
    cbn [mbind outcome_bind]. destruct b; [|done]. unfold register. by destruct (unackedMtx _).
  - unfold after_send. rewrite (last_nodes _ _ _ _ _ _ Hi). cbv zeta. by case_bool_decide.
  - unfold ack_step. destruct (ackChan _); [done|]. destruct (unackedMtx _); [done|]. cbv zeta.
    repeat case_bool_decide; try done. by destruct (shrink _ _ _ _ _ _).
Qed.
End sliding.

(** The windows the peer advertises are never zero. *)
Definition open_window (ti : TCPInfo) : Prop := 0 < WindowSize ti.

(** What is left of the send ring to [VWrite] alone; and executions in which nobody
    else writes it. *)
Definition own_ring (s s' : NormalSocket) : Prop :=
  w_buffer (writeBuffer s') = w_buffer (writeBuffer s) /\ w_LBW (writeBuffer s') = w_LBW (writeBuffer s) /\
  notFirstWrite s' = notFirstWrite s.

Inductive own_exec `{Netstack} `{MapIter} : SW -> list SwOut -> SW -> Prop :=
  | own_refl w : own_exec w [] w
  | own_step w1 o1 w2 o2 w3 :
      own_exec w1 o1 w2 -> sw_step open_window w2 o2 w3 -> own_ring (sock w2) (sock w3) -> own_exec w1 (o1 ++ o2) w3.

Lemma own_exec_exec `{Netstack} `{MapIter} w o w' : own_exec w o w' -> sw_exec open_window w o w'.
Proof. induction 1; [constructor|by eapply exec_step]. Qed.

Lemma own_ring_trans s1 s2 s3 : own_ring s1 s2 -> own_ring s2 s3 -> own_ring s1 s3.
Proof. intros (A1 & A2 & A3) (B1 & B2 & B3). split; [|split]; congruence. Qed.

Lemma own_exec_ring `{Netstack} `{MapIter} w o w' : own_exec w o w' -> own_ring (sock w) (sock w').
Proof. induction 1 as [w|w1 o1 w2 o2 w3 _ IH _ Hr]; [done|by eapply own_ring_trans]. Qed.

(** What holds after any part of the execution of a call. *)
Lemma sliding_window_exec `{Netstack} `{MapIter} (s : NormalSocket) (t : Timer) (done : bool) (fl : Z)
    (pl : list byte) (o : list SwOut) (w : SW) :
  start_ready s pl -> sw_exec open_window (slidingWindow_start s t done fl pl) o w ->
  Forall (out_ok s fl pl) o /\
  (forall now why, sw_advance now w <> Panic why) /\
  exists sent acked,
    covers s fl pl 0 (fresh o) sent /\ concat (map payload (fresh o)) = ztake sent pl /\
    0 <= acked <= sent /\ sent <= zlen pl /\ cumWriteUNA (sock w) = cumWriteUNA s + acked /\
    w_UNA (writeBuffer (sock w)) = (w_UNA (writeBuffer s) + acked) mod WINDOW_SIZE /\
    w_NXT (writeBuffer (sock w)) = (w_NXT (writeBuffer s) + sent) mod WINDOW_SIZE /\
    (pc w = Done -> acked = zlen pl /\ concat (map payload (fresh o)) = pl).
Proof.
  intros Hs Hx. destruct (start_inv s fl pl t done Hs) as (tl & c & Hi).
  destruct (inv_exec s fl pl open_window 0 _ _ _ Hs (fun ti Hg => Hg) (ex_intro _ _ (ex_intro _ _
    (ex_intro _ _ (ex_intro _ _ Hi)))) Hx) as (sent & Hw & Hc & Ho).
  split; [done|]. split; [intros now why; by apply (inv_no_panic s fl pl _ sent)|].
  destruct Hw as (init' & tl' & a' & c' & Hw). pose proof (inv_bounds _ _ _ _ _ _ _ _ _ Hs Hw) as (Hb & _).
  destruct (covers_concat _ _ _ _ _ _ Hc) as [_ Hcat]; [lia|]. rewrite <- ztake_zsub in Hcat.
  destruct Hs as (_ & _ & _ & HU & HN & _). destruct Hw.
  exists sent, (cumWriteUNA (sock w) - cumWriteUNA s).
  split; [done|]. split; [done|]. split; [lia|]. split; [lia|]. split; [lia|].
  split; [rewrite i_UNA0, HU, Zplus_mod_idemp_l; f_equal; lia|].
  split; [rewrite i_NXT0, HN, HU, Zplus_mod_idemp_l; f_equal; lia|].
  intros Hd%i_done0. split; [lia|]. rewrite Hcat. apply ztake_all. lia.
Qed.

(** C10. A call of [slidingWindow] on a payload of at most one maximal segment,
    while the peer keeps its window open, under every interleaving with the
    retransmission thread, the receiver (any segments, none of which closes the
    window), the application and the close: no step panics and no probe is sent; the segments sent for the first
    time are consecutive pieces of the payload, and everything retransmitted
    carries the payload's bytes at its sequence number; the ring's [UNA] and [NXT]
    follow the acknowledged and the sent bytes; and when the call returns, the
    whole payload has been sent and acknowledged and the ring is at rest again. *)
Theorem sliding_window_stream `{Netstack} `{MapIter} (s : NormalSocket) (t : Timer) (done : bool) (fl : Z)
    (pl : list byte) (o : list SwOut) (w : SW) :
  start_ready s pl -> sw_exec open_window (slidingWindow_start s t done fl pl) o w ->
  Forall (out_ok s fl pl) o /\
  (forall now why, sw_advance now w <> Panic why) /\
  exists sent acked,
    covers s fl pl 0 (fresh o) sent /\ concat (map payload (fresh o)) = ztake sent pl /\
    0 <= acked <= sent /\ sent <= zlen pl /\ cumWriteUNA (sock w) = cumWriteUNA s + acked /\
    w_UNA (writeBuffer (sock w)) = (w_UNA (writeBuffer s) + acked) mod WINDOW_SIZE /\
    w_NXT (writeBuffer (sock w)) = (w_NXT (writeBuffer s) + sent) mod WINDOW_SIZE /\
    (pc w = Done -> acked = zlen pl /\ concat (map payload (fresh o)) = pl).
Proof. apply sliding_window_exec. Qed.

(** ** Completion *)
Section completion.
Context `{NS : Netstack} `{MI : MapIter}.
Variables (s0 : NormalSocket) (fl : Z) (pl : list byte).

(** The acknowledgement a peer with an open window sends. *)
Definition plain_ack (s : NormalSocket) (n : Z) : TCPInfo :=
  mkTCPInfo (sk s) TCPFlagAck (cumReadNXT s) n 65535 [].

(** Nothing queued, no lock lost, no FIN under way. *)
Definition calm (w : SW) : Prop :=
  ackChan (sock w) = [] /\ unackedMtx (sock w) = false /\ unackedFINs (sock w) = ∅ /\
  (exists l c, thread w = TSelect l c) /\ doneChan w = false.

(** Returned, with the retransmission thread ended and nothing queued. *)
Definition settled (w : SW) : Prop :=
  pc w = Done /\ ackChan (sock w) = [] /\ unackedMtx (sock w) = false /\ unackedFINs (sock w) = ∅ /\
  doneChan w = false.

Lemma own_trans w1 o1 w2 o2 w3 : own_exec w1 o1 w2 -> own_exec w2 o2 w3 -> own_exec w1 (o1 ++ o2) w3.
Proof.
  intros H1 H2. induction H2 as [w|w2 o2 w3 o3 w4 _ IH H3 H4]; [by rewrite app_nil_r|].
  rewrite app_assoc. eapply own_step; [by apply IH|done|done].
Qed.

Lemma own_one w o w' : sw_step open_window w o w' -> own_ring (sock w) (sock w') -> own_exec w o w'.
Proof. intros H Hr. change o with ([] ++ o). by eapply own_step; [constructor|..]. Qed.

Lemma register_own s e s' : register s e = Ret s' -> own_ring s s'.
Proof. unfold register. destruct (unackedMtx s); [done|]. by intros [= <-]. Qed.

(** [slidingWindow] itself leaves the bytes of the ring and [LBW] alone. *)
Lemma advance_own now w w' o : sw_advance now w = Ret (w', o) -> own_ring (sock w) (sock w').
Proof.
  unfold sw_advance. destruct (pc w); try done.
  - case_bool_decide; [by destruct (thread w); intros [= <- _]|]. by destruct (doneChan w); [|intros [= <- _]].
  - unfold probe_test. destruct (_ && _); [|by intros [= <- _]].
    intros (s2 & Hr%register_own & [= <- _])%bind_Ret_inv. exact Hr.
  - destruct (ackChan (sock w)) as [|ti q]; [done|]. unfold probe_ack. destruct (_ && _); [|by intros [= <- _]].
    cbv zeta. cbn [with_skip with_bytesSent with_sock nodes]. destruct (nodes w); [done|].
    case_bool_decide; [|by intros [= <- _]]. case_bool_decide; [done|]. cbn. by destruct (doneChan w); [|intros [= <- _]].
  - unfold send_step. intros (go & _ & H)%bind_Ret_inv. destruct go; [|by injection H as <- _].
    destruct (list.last _); [|done]. apply bind_Ret_inv in H as (s & Hr%register_own & [= <- _]). exact Hr.
  - unfold after_send. destruct (list.last _); [|done]. cbv zeta. cbn [with_sock first].
    destruct (first w); case_bool_decide; by intros [= <- _].
  - case_bool_decide; by intros [= <- _].
  - unfold ack_step. destruct (ackChan (sock w)); [by intros [= <- _]|]. destruct (unackedMtx _); [done|]. cbv zeta.
    case_bool_decide; [|by intros [= <- _]]. case_bool_decide; [|by intros [= <- _]].
    destruct (shrink _ _ _ _ _ _). by intros [= <- _].
Qed.

Lemma own_advance w w' o : sw_advance 0 w = Ret (w', o) -> own_exec w o w'.
Proof. intros H. apply own_one; [by eapply (st_advance _ 0)|by eapply advance_own]. Qed.

Lemma receive_ack s n :
  unackedMtx s = false -> unackedFINs s = ∅ -> ackChan s = [] -> is_Some (unackedNums s !! n) ->
  ReceiverThread_body s (plain_ack s n) =
    Ret (set_ackChan (set_ClientWindowSize s 65535) [plain_ack s n], NoReply).
Proof.
  intros H1 H2 H3 H4. unfold ReceiverThread_body.
  change (bool_decide (0 < Z.land (Flag (plain_ack s n)) TCPFlagAck)) with true. cbv iota zeta.
  cbn [set_ClientWindowSize unackedMtx unackedFINs unackedNums ackChan plain_ack AckNum Payload WindowSize].
  rewrite H1, H2, H3. rewrite bool_decide_false by set_solver. by rewrite bool_decide_true.
Qed.


Lemma window_open_true init tl a c sent w :
  start_ready s0 pl -> sw_inv s0 fl pl init tl a c sent w -> win_head w <> Nil ->
  window_open (nodes w) (win_head w) = Ret true.
Proof.
  intros Hs Hi Hh. pose proof (inv_bounds _ _ _ _ _ _ _ _ _ Hs Hi) as (Hb & Hl & _).
  destruct (window_open_ok _ _ _ _ _ _ _ _ _ Hi Hh) as [b Hb']. rewrite Hb'. f_equal. revert Hb'.
  pose proof (last_nodes _ _ _ _ _ _ _ _ _ Hi) as Hlast. unfold window_open. rewrite Hlast.
  destruct (i_index _ _ _ _ _ _ _ _ _ Hi) as [X1 X2]. pose proof (i_range _ _ _ _ _ _ _ _ _ Hi) as [R1 R2].
  assert (Hx : forall i n, nodes w !! i = Some n -> u32 (n_index tl - n_index n) < WINDOW_SIZE).
  { intros i n Hn. pose proof (list.Forall_lookup_1 _ _ _ _ X1 Hn) as Hr. cbn in Hr.
    rewrite u32_small; unfold WINDOW_SIZE; lia. }
  destruct (win_head w) as [|k|]; [| |done].
  all: destruct (next_head _ _) as [|i|]; try by intros [= <-].
  all: destruct (nodes w !! i) as [n|] eqn:En; [|done]; intros [= <-]; by apply bool_decide_true, (Hx i).
Qed.

(** The pending segment is sent. *)
Lemma send_pending init tl a c w :
  start_ready s0 pl -> sw_inv s0 fl pl init tl a c a w -> bytesToSend w = c - a -> pc w = SendStep ->
  calm w -> 0 < ClientWindowSize (sock w) ->
  exists w', sw_advance 0 w = Ret (w', [Fresh (packet tl)]) /\ calm w' /\
    pc w' = AfterSend (cumWriteUNA s0 + c) /\ unackedNums (sock w') !! (cumWriteUNA s0 + c) = Some 0 /\
    cumWriteUNA (sock w') = cumWriteUNA (sock w).
Proof.
  intros Hs Hi Hbts Hpc (C1 & C2 & C3 & C4 & C5) Hw.
  pose proof (i_range _ _ _ _ _ _ _ _ _ Hi) as [Hac Hcl].
  assert (Hh : win_head w <> Nil).
  { intros Hn%(i_head _ _ _ _ _ _ _ _ _ Hi). pose proof (i_cum _ _ _ _ _ _ _ _ _ Hi). lia. }
  destruct (send_expected _ _ _ _ _ _ _ _ Hs Hi Hbts) as [_ Hexp].
  unfold sw_advance, send_step, send_cond. rewrite Hpc, !bool_decide_true by lia. cbn [andb].
  rewrite (window_open_true _ _ _ _ _ _ Hs Hi Hh), (last_nodes _ _ _ _ _ _ _ _ _ Hi).
  cbn [mbind outcome_bind]. unfold register. cbn [set_write unackedMtx]. rewrite C2.
  cbn [mbind outcome_bind set_write cumWriteUNA unackedNums]. rewrite Hexp.
  eexists. split; [reflexivity|]. split; [by repeat split|]. split; [done|].
  split; [apply lookup_insert_eq|done].
Qed.

(** The acknowledgement of everything sent is counted and the loop left. *)
Lemma take_ack init tl a c sent w e :
  start_ready s0 pl -> sw_inv s0 fl pl init tl a c sent w -> pc w = AckLoop ->
  unackedMtx (sock w) = false -> ackChan (sock w) = [plain_ack (sock w) e] ->
  unackedNums (sock w) !! e = Some 0 -> cumWriteUNA (sock w) < e ->
  exists w1 w2, sw_advance 0 w = Ret (w1, []) /\ sw_advance 0 w1 = Ret (w2, []) /\
    pc w2 = LoopTest /\ ackChan (sock w2) = [] /\ cumWriteUNA (sock w2) = e /\
    unackedMtx (sock w2) = false /\ unackedFINs (sock w2) = unackedFINs (sock w) /\
    ClientWindowSize (sock w2) = 65535 /\ thread w2 = thread w /\ doneChan w2 = doneChan w.
Proof.
  intros Hs Hi Hpc Hm Hq Hn Hlt. unfold sw_advance at 1. rewrite Hpc. unfold ack_step.
  rewrite Hq, Hm. cbn [plain_ack AckNum WindowSize set_ackChan unackedNums]. rewrite Hn. cbn [default from_option].
  rewrite bool_decide_true by done.
  cbn [set_ackChan set_unackedNums set_ClientWindowSize cumWriteUNA]. rewrite bool_decide_true by done.
  destruct (shrink _ _ _ _ _ _) as [h t']. eexists _, _. split; [reflexivity|].
  unfold sw_advance. cbn [pc with_timer with_window with_sock with_bytesSent]. rewrite Hpc.
  unfold ack_step. cbn. by split.
Qed.

(** One transmission, up to the loop over acknowledgements. *)
Lemma to_ack_loop init tl a c w :
  start_ready s0 pl -> sw_inv s0 fl pl init tl a c a w -> bytesToSend w = c - a ->
  pc w = LoopTest -> calm w -> 0 < ClientWindowSize (sock w) ->
  exists sent w5, own_exec w [Fresh (packet tl)] w5 /\ inv s0 fl pl sent w5 /\ pc w5 = AckLoop /\ calm w5 /\
    unackedNums (sock w5) !! (cumWriteUNA s0 + c) = Some 0 /\ cumWriteUNA (sock w5) < cumWriteUNA s0 + c.
Proof.
  intros Hs Hi Hbts Hpc Hc Hw. pose proof (i_range _ _ _ _ _ _ _ _ _ Hi) as [Hac Hcl].
  pose proof (i_bytes _ _ _ _ _ _ _ _ _ Hi) as Hbs. pose proof (i_cum _ _ _ _ _ _ _ _ _ Hi) as Hcum.
  pose proof (i_size _ _ _ _ _ _ _ _ _ Hi) as Hsz.
  assert (Hpl : plain (pc w)) by (by rewrite Hpc).
  assert (E1 : sw_advance 0 w = Ret (with_pc w ProbeTest, [])).
  { unfold sw_advance. rewrite Hpc, bool_decide_true by lia. by destruct Hc as (_ & _ & _ & (l & k & ->) & _). }
  assert (E2 : sw_advance 0 (with_pc w ProbeTest) = Ret (with_pc w SendStep, [])).
  { change (probe_test (with_pc w ProbeTest) = Ret (with_pc (with_pc w ProbeTest) SendStep, [])).
    apply (no_probe s0 fl pl init tl a c a _ Hs); [by apply inv_pc|done]. }
  destruct (send_pending init tl a c (with_pc w SendStep)) as (w3 & E3 & C3 & P3 & N3 & U3); try done.
  { by apply inv_pc. }
  assert (I2 : inv s0 fl pl a (with_pc w SendStep)) by (exists init, tl, a, c; by apply inv_pc).
  destruct (inv_advance s0 fl pl 0 a _ _ _ Hs I2 E3) as (s3 & I3 & V3 & _).
  assert (exists w4, sw_advance 0 w3 = Ret (w4, []) /\ calm w4 /\ pc w4 = ZeroTest /\
    unackedNums (sock w4) = unackedNums (sock w3) /\ cumWriteUNA (sock w4) = cumWriteUNA (sock w3))
    as (w4 & E4 & C4 & P4 & N4 & U4).
  { unfold sw_advance. rewrite P3. unfold after_send. destruct I3 as (i3 & t3 & a3 & c3 & I3).
    rewrite (last_nodes _ _ _ _ _ _ _ _ _ I3). cbv zeta. clear -C3.
    case_bool_decide; (eexists; split; [reflexivity|]); cbn; destruct (first w3); by repeat split; apply C3. }
  destruct (inv_advance s0 fl pl 0 s3 _ _ _ Hs I3 E4) as (s4 & I4 & V4 & _). cbn in V4. subst s4.
  set (w5 := with_pc (if bool_decide (ClientWindowSize (sock w4) = 0) then with_skip w4 false else w4) AckLoop).
  assert (E5 : sw_advance 0 w4 = Ret (w5, [])) by (unfold sw_advance; by rewrite P4).
  assert (F5 : sock w5 = sock w4 /\ thread w5 = thread w4 /\ doneChan w5 = doneChan w4 /\ pc w5 = AckLoop)
    by (unfold w5; by case_bool_decide).
  destruct F5 as (F1 & F2 & F3 & F4).
  destruct (inv_advance s0 fl pl 0 s3 _ _ _ Hs I4 E5) as (s5 & I5 & V5 & _). cbn in V5. subst s5.
  exists s3, w5. split; [|split; [done|split; [done|split; [by unfold calm; rewrite F1, F2, F3|]]]].
  - do 2 (eapply (own_trans _ []); [by eapply own_advance; eassumption|]).
    eapply (own_trans _ [_] _ []); [by eapply own_advance; eassumption|].
    eapply (own_trans _ [] _ []); by eapply own_advance; eassumption.
  - rewrite F1, N4, N3, U4, U3. split; [done|]. cbn. lia.
Qed.

(** One transmission and its acknowledgement. *)
Lemma one_round init tl a c w :
  start_ready s0 pl -> sw_inv s0 fl pl init tl a c a w -> bytesToSend w = c - a ->
  pc w = LoopTest -> calm w -> 0 < ClientWindowSize (sock w) ->
  exists o w', own_exec w o w' /\ fresh o = [packet tl] /\ pc w' = LoopTest /\ calm w' /\
    0 < ClientWindowSize (sock w') /\ cumWriteUNA (sock w') = cumWriteUNA s0 + c.
Proof.
  intros Hs Hi Hbts Hpc Hc Hw.
  destruct (to_ack_loop init tl a c w Hs Hi Hbts Hpc Hc Hw) as (sent & w5 & X & I5 & F4 & C5 & N5 & U5).
  set (e := cumWriteUNA s0 + c) in *. destruct C5 as (K1 & K2 & K3 & K4 & K5).
  set (s6 := set_ackChan (set_ClientWindowSize (sock w5) 65535) [plain_ack (sock w5) e]).
  assert (E6 : env_step open_window (sock w5) s6).
  { apply env_receive with (ti := plain_ack (sock w5) e) (r := NoReply); [done|].
    apply receive_ack; [done|done|done|]. rewrite N5. by eexists. }
  destruct I5 as (i5 & t5 & a5 & c5 & I5).
  pose proof (inv_env s0 fl pl _ _ _ _ _ _ _ _ (fun ti H => H) I5 (env_step_frame _ _ _ E6)) as I6.
  destruct (take_ack _ _ _ _ _ (with_sock w5 s6) e Hs I6) as (w7 & w8 & E7 & E8 & Q1 & Q2 & Q3 & Q4 & Q5 & Q6 & Q7 & Q8);
    [done..|].
  exists [Fresh (packet tl)], w8. split.
  - eapply (own_trans _ [_] _ []); [exact X|].
    eapply (own_trans _ [] _ []); [by apply own_one; [apply st_env; exact E6|]|].
    eapply (own_trans _ [] _ []); by eapply own_advance; eassumption.
  - split; [done|]. split; [done|]. split; [|by rewrite Q6, Q3].
    unfold calm. rewrite Q2, Q4, Q5, Q7, Q8. done.
Qed.

Lemma rounds (k : nat) init tl a c w :
  start_ready s0 pl -> k = Z.to_nat (zlen pl - c) ->
  sw_inv s0 fl pl init tl a c a w -> bytesToSend w = c - a ->
  pc w = LoopTest -> calm w -> 0 < ClientWindowSize (sock w) ->
  exists o w', own_exec w o w' /\ settled w'.
Proof.
  intros Hs. revert init tl a c w. induction k as [k IH] using lt_wf_ind. intros init tl a c w Hk Hi Hbts Hpc Hc Hw.
  destruct (one_round init tl a c w Hs Hi Hbts Hpc Hc Hw) as (o & w' & X & Ho & Hpc' & Hc' & Hw' & Hcum).
  assert (Hinv : inv s0 fl pl a w) by (by exists init, tl, a, c).
  destruct (inv_exec s0 fl pl open_window a w o w' Hs (fun ti Hg => Hg) Hinv (own_exec_exec _ _ _ X))
    as (sent & (i' & t' & a' & c' & Hi') & Hcov & _).
  pose proof (i_len _ _ _ _ _ _ _ _ _ Hi) as Hlen. pose proof (i_range _ _ _ _ _ _ _ _ _ Hi) as [Hac Hcl].
  rewrite Ho in Hcov. cbn in Hcov. destruct Hcov as (_ & _ & Hsent). rewrite Hlen in Hsent.
  assert (sent = c) as -> by lia.
  pose proof (i_phase _ _ _ _ _ _ _ _ _ Hi') as Hph. rewrite Hpc' in Hph.
  pose proof (i_range _ _ _ _ _ _ _ _ _ Hi') as [Hac' Hcl'].
  destruct Hph as [[-> Hb]|(-> & -> & Hb)].
  - destruct (IH (Z.to_nat (zlen pl - c')) ltac:(lia) i' t' a' c' w' eq_refl Hi' Hb Hpc' Hc' Hw') as (o2 & w2 & X2 & D).
    exists (o ++ o2), w2. split; [by eapply own_trans|done].
  - destruct Hc' as (K1 & K2 & K3 & (l & k' & K4) & K5).
    exists (o ++ [] ++ []), (with_done (with_thread (with_done (with_pc w' Done) true) TReturned) false). split; [|done].
    eapply own_trans; [exact X|]. eapply (own_trans _ [] (with_done (with_pc w' Done) true)).
    + apply own_advance. unfold sw_advance. rewrite Hpc', K5, bool_decide_false; [done|].
      rewrite (i_size _ _ _ _ _ _ _ _ _ Hi'), (i_bytes _ _ _ _ _ _ _ _ _ Hi'), Hcum. lia.
    + apply own_one; [|done]. apply st_done. unfold thread_done. cbn [with_done with_pc thread doneChan]. by rewrite K4.
Qed.

Lemma sliding_window_run (t : Timer) :
  start_ready s0 pl -> ackChan s0 = [] -> unackedMtx s0 = false -> unackedFINs s0 = ∅ ->
  exists o w, own_exec (slidingWindow_start s0 t false fl pl) o w /\ settled w.
Proof.
  intros Hs Ha Hm Hf. destruct (start_inv s0 fl pl t false Hs) as (tl & c & Hi).
  pose proof (i_phase _ _ _ _ _ _ _ _ _ Hi) as Hph. pose proof (i_range _ _ _ _ _ _ _ _ _ Hi) as [Hac Hcl].
  cbn -[Z.min] in Hph. assert (Hb : bytesToSend (slidingWindow_start s0 t false fl pl) = c - 0) by (cbn -[Z.min]; lia).
  apply (rounds _ _ _ _ _ _ Hs eq_refl Hi Hb); [done|by split_and!; [..|eexists _, _|]|].
  cbn. by destruct Hs as (_ & _ & _ & _ & _ & ? & _).
Qed.

(** C34. A call of [slidingWindow] can always be brought to its end: from any socket
    at rest whose peer has some window there is a schedule, in which the peer
    acknowledges each segment once, that returns with everything acknowledged. *)
Theorem sliding_window_completes (t : Timer) :
  start_ready s0 pl -> ackChan s0 = [] -> unackedMtx s0 = false -> unackedFINs s0 = ∅ ->
  exists o w, sw_exec open_window (slidingWindow_start s0 t false fl pl) o w /\ pc w = Done /\
    concat (map payload (fresh o)) = pl /\ cumWriteUNA (sock w) = cumWriteUNA s0 + zlen pl.
Proof.
  intros Hs Ha Hm Hf. destruct (sliding_window_run t Hs Ha Hm Hf) as (o & w & X%own_exec_exec & D & _).
  exists o, w. split; [exact X|]. split; [exact D|].
  destruct (sliding_window_exec s0 t false fl pl o w Hs X) as (_ & _ & sent & acked & _ & _ & _ & _ & E & _ & _ & F).
  destruct (F D) as [-> ->]. by split.
Qed.
End completion.
