(* ===== verification/TcpStream.v ===== *)
(** * The send stream ([VWrite], [SenderThread] and the calls of [slidingWindow])

    The whole sending side of a connection, interleaved: [VWrite]'s rounds, the sender
    that takes each round's [LBW], cuts the payload out of the ring and runs
    [slidingWindow] on it, and every step of that call, of its retransmission thread
    and of the receiver, the readers and the close ([TcpWindow]).  The ring's [UNA] and
    [NXT] are moved by the call and by nothing else. *)
From S2P Require Import Prelude Netip Netstack Utils Node Pq TcpTypes TcpRing TcpReceiver TcpStack TcpClose TcpSender TcpTimer TcpWindow TcpSliding.
Local Open Scope Z_scope.
Local Open Scope go_scope.

(** ** Data *)
(** Where [SenderThread] is: waiting on [writeChan] before its first call, with the
    timer and [packetDoneChan] that call will start from, or in a call of
    [slidingWindow]; after the call has returned the sender waits again, and the call's
    retransmission thread goes on until it has taken its [packetDoneChan]. *)
Inductive sender : Type :=
  | Idle (s : NormalSocket) (t : Timer) (done : bool)
  | Call (w : SW).

Definition sd_sock (sd : sender) : NormalSocket :=
  match sd with Idle s _ _ => s | Call w => sock w end.

Definition sd_with (sd : sender) (s' : NormalSocket) : sender :=
  match sd with Idle _ t d => Idle s' t d | Call w => Call (with_sock w s') end.

(** What the next call starts from, when the sender is waiting on [writeChan]. *)
Definition at_rest (sd : sender) : option (NormalSocket * Timer * bool) :=
  match sd with
  | Idle s t d => Some (s, t, d)
  | Call w => match pc w with Done => Some (sock w, timer w, doneChan w) | _ => None end
  end.

(** The sender with the socket; [VWrite]'s locals [new_message] and [bytesSent], the
    value it is blocked handing over; every byte given to [slidingWindow] so far, and
    everything handed to [HandleSend]. *)
Record wstate := mkW {
  ws_sender : sender;
  ws_new : bool;
  ws_sent : Z;
  ws_pending : option Z;
  ws_cut : list byte;
  ws_log : list SwOut
}.

Definition ws_sock (st : wstate) : NormalSocket := sd_sock (ws_sender st).

(** ** Operations *)
(** [VWrite] up to its loop. *)
Definition VWrite_start (sd : sender) : outcome (string + wstate) :=
  err ← VWrite_test (sd_sock sd);
  Ret (match err with
       | Some e => inl e
       | None => inr (mkW sd true 0 None [] [])
       end).

(** A round of the loop up to the blocking send. *)
Definition write_round (message : list byte) (st : wstate) : wstate :=
  let s := ws_sock st in
  let bs := round_bytes (writeBuffer s) (notFirstWrite s) (ws_new st) message (ws_sent st) in
  let wb := ring_write (writeBuffer s) bs in
  mkW (sd_with (ws_sender st) (set_notFirstWrite (set_write s wb) true)) false (ws_sent st + zlen bs)
    (Some (w_LBW wb)) (ws_cut st) (ws_log st).

(** [SenderThread] receives [lbw]; [NXT] stays where it is. *)
Definition take_payload (st : wstate) (lbw : Z) : option wstate :=
  match at_rest (ws_sender st) with
  | None => None
  | Some (s, t, d) =>
      Some match sender_payload (writeBuffer s) lbw with
           | None => mkW (ws_sender st) (ws_new st) (ws_sent st) None (ws_cut st) (ws_log st)
           | Some p =>
               mkW (Call (slidingWindow_start s t d TCPFlagAck p)) (ws_new st) (ws_sent st) None
                 (ws_cut st ++ p) (ws_log st)
           end
  end.

(** A step of anything else. *)
Definition set_sender (st : wstate) (sd : sender) (o : list SwOut) : wstate :=
  mkW sd (ws_new st) (ws_sent st) (ws_pending st) (ws_cut st) (ws_log st ++ o).

Section stream.
Context `{NS : Netstack} `{MI : MapIter}.

(** The interleaving, with a peer that keeps its window open ([open_window]) and one
    [VWrite] at a time ([own_ring]). *)
Inductive wstep (message : list byte) : wstate -> wstate -> Prop :=
  | wstep_write st :
      ws_pending st = None -> ws_sent st < zlen message -> wstep message st (write_round message st)
  | wstep_take st lbw st' :
      ws_pending st = Some lbw -> take_payload st lbw = Some st' -> wstep message st st'
  | wstep_call st w o w' :
      ws_sender st = Call w -> sw_step open_window w o w' -> own_ring (sock w) (sock w') ->
      wstep message st (set_sender st (Call w') o)
  | wstep_env st s t d s' :
      ws_sender st = Idle s t d -> env_step open_window s s' -> own_ring s s' ->
      wstep message st (set_sender st (Idle s' t d) []).

(** ** Where the stream stands *)
(** A socket with nothing unacknowledged. *)
Definition resting (s : NormalSocket) : Prop :=
  0 <= cumWriteUNA s /\
  w_UNA (writeBuffer s) = (cumWriteUNA s - baseSeq s) mod WINDOW_SIZE /\
  w_NXT (writeBuffer s) = w_UNA (writeBuffer s) /\
  0 < ClientWindowSize s /\
  (forall k, is_Some (unackedNums s !! k) -> k <= cumWriteUNA s) /\
  Forall (fun ti => AckNum ti <= cumWriteUNA s /\ 0 < WindowSize ti) (ackChan s).

(** A call on an empty payload, which is at its end at once. *)
Definition empty_call (w : SW) : Prop :=
  resting (sock w) /\ payloadSize w = 0 /\ bytesSent w = 0 /\ (pc w = LoopTest \/ pc w = Done) /\
  Forall (fun n => lastSent n = None) (nodes w).

(** The number [top] after everything given to [slidingWindow], and the bytes [left]
    of the running call that have not been sent yet. *)
Inductive sd_at : sender -> Z -> list byte -> Prop :=
  | at_idle s t d : resting s -> sd_at (Idle s t d) (cumWriteUNA s) []
  | at_empty w : empty_call w -> sd_at (Call w) (cumWriteUNA (sock w)) []
  | at_call s0 pl sent w :
      start_ready s0 pl -> inv s0 TCPFlagAck pl sent w ->
      sd_at (Call w) (cumWriteUNA s0 + zlen pl) (zdrop sent pl).

Lemma start_ready_resting s pl :
  resting s -> 0 < zlen pl <= MSS -> cumWriteUNA s + zlen pl < 2 ^ 32 -> start_ready s pl.
Proof. intros (? & ? & ? & ? & ? & ?) [??] ?. by split_and!. Qed.

Lemma resting_env good s s' :
  (forall ti, good ti -> 0 < WindowSize ti) -> resting s -> env_frame good s s' -> resting s'.
Proof.
  intros Hg (R1 & R2 & R3 & R4 & R5 & R6) (E1 & E2 & E3 & E4 & E5 & _ & E7 & E8). unfold resting.
  rewrite E1, E2, E3, E4, E5. split_and!; try done.
  - destruct E7 as [->|(ti & G & ->)]; [done|by apply Hg].
  - destruct E8 as [->|(ti & G & K & ->)]; [done|]. apply Forall_app. split; [done|].
    apply Forall_singleton. split; [by apply R5|by apply Hg].
Qed.

(** The ring's pointers and the numbers. *)
Lemma sd_at_facts sd top left :
  sd_at sd top left ->
  let s := sd_sock sd in
  0 <= cumWriteUNA s <= top - zlen left /\ top - cumWriteUNA s <= MSS /\
  w_UNA (writeBuffer s) = (cumWriteUNA s - baseSeq s) mod WINDOW_SIZE /\
  w_NXT (writeBuffer s) = (top - zlen left - baseSeq s) mod WINDOW_SIZE.
Proof.
  intros [s t d (R1 & R2 & R3 & _)|w ((R1 & R2 & R3 & _) & _)|s0 pl sent w Hs (init & tl & a & c & Hi)]; cbv zeta;
    cbn [sd_sock].
  1,2: change (zlen (@nil byte)) with 0; rewrite Z.sub_0_r; split; [lia|]; split; [unfold MSS; lia|]; split; congruence.
  pose proof (inv_bounds _ _ _ _ _ _ _ _ _ Hs Hi) as (Hb & Hl & H0 & _). destruct Hi. destruct i_base as [B1 B2].
  rewrite zlen_zdrop, B1 by lia. unfold MSS. split; [lia|]. split; [lia|]. split; [done|].
  rewrite i_NXT. f_equal. lia.
Qed.

(** The sender waits only when everything is acknowledged. *)
Lemma sd_at_rest sd top left s t d :
  sd_at sd top left -> at_rest sd = Some (s, t, d) ->
  s = sd_sock sd /\ resting s /\ top = cumWriteUNA s /\ left = [].
Proof.
  intros [s1 t1 d1 Hr|w (Hr & _)|s0 pl sent w Hs (init & tl & a & c & Hi)]; cbn [at_rest sd_sock].
  - intros [= <- _ _]. by split_and!.
  - destruct (pc w); try done. intros [= <- _ _]. by split_and!.
  - destruct (pc w) eqn:Hpc; try done. intros [= <- _ _].
    pose proof (inv_bounds _ _ _ _ _ _ _ _ _ Hs Hi) as (Hb & Hl & H0 & _). destruct Hi. specialize (i_done Hpc).
    destruct i_base as [B1 B2]. assert (sent = zlen pl) as -> by lia.
    assert (Hc : cumWriteUNA s0 + zlen pl = cumWriteUNA (sock w)) by lia.
    split; [done|]. split; [|split; [done|by apply zdrop_all]].
    unfold resting. rewrite B1, i_UNA, i_NXT, Hc. split_and!; try done; try lia.
    + intros k Hk. specialize (i_keys k Hk). lia.
    + apply (list.Forall_impl _ _ _ i_acks). intros ti [??]. lia.
Qed.

(** ** One step *)
Lemma sd_with_sock sd s' : sd_sock (sd_with sd s') = s'.
Proof. by destruct sd. Qed.

(** Steps of other goroutines, and [VWrite]'s own, leave the stream where it is. *)
Lemma sd_at_frame sd top left s' :
  sd_at sd top left -> env_frame open_window (sd_sock sd) s' -> sd_at (sd_with sd s') top left.
Proof.
  intros Hd Hf. assert (Hc : cumWriteUNA s' = cumWriteUNA (sd_sock sd)) by (by destruct Hf as (_ & _ & _ & ? & _)).
  destruct Hd as [s t d Hr|w (Hr & H2)|s0 pl sent w Hs (init & tl & a & c & Hi)]; cbn [sd_sock sd_with] in *.
  - rewrite <- Hc. constructor. by eapply (resting_env open_window).
  - rewrite <- Hc. apply (at_empty (with_sock w s')). split; [|done]. by eapply (resting_env open_window).
  - apply at_call; [done|]. exists init, tl, a, c. by eapply (inv_env s0 TCPFlagAck pl open_window).
Qed.

(** Segments with consecutive numbers from [b] on. *)
Fixpoint chain (fl b : Z) (ps : list TCPPacket) : Prop :=
  match ps with
  | [] => True
  | p :: ps' => seqNum p = b /\ flags p = fl /\ payload p <> [] /\ chain fl (b + zlen (payload p)) ps'
  end.

Lemma covers_chain s fl pl a ps b : covers s fl pl a ps b -> chain fl (cumWriteUNA s + a) ps.
Proof.
  revert a. induction ps as [|p ps IH]; intros a; [done|]. intros (Hs & Hc & Hr%IH).
  destruct Hc as (_ & _ & _ & _ & Hf & Hp & _). split; [done|]. split; [done|]. split; [done|].
  by rewrite Z.add_assoc in Hr.
Qed.

Lemma chain_app fl b l1 l2 :
  chain fl b l1 -> chain fl (b + zlen (concat (map payload l1))) l2 -> chain fl b (l1 ++ l2).
Proof.
  revert b. induction l1 as [|p l1 IH]; intros b; [cbn; by rewrite Z.add_0_r|].
  intros (H1 & H2 & H3 & H4) H5. cbn [app chain]. split; [done|]. split; [done|]. split; [done|].
  apply IH; [done|]. cbn [map concat] in H5. by rewrite zlen_app, Z.add_assoc in H5.
Qed.

(** Nothing of an empty payload's window is ever sent. *)
Lemma resend_nothing now w l c :
  Forall (fun n => lastSent n = None) (nodes w) -> thread_resend now w l c = Ret (thread_unlock w l c, []).
Proof.
  intros Hn. assert (H : forall i n, nodes w !! i = Some n -> lastSent n = None)
    by (intros i n; by apply (list.Forall_lookup_1 _ _ _ _ Hn)).
  unfold thread_resend. case_bool_decide; [|done]. destruct (win_head w) as [|i|]; [| |done].
  - case_bool_decide; [|done]. destruct (next_head _ _) as [|j|]; [done| |done].
    destruct (nodes w !! j) as [n|] eqn:E; [|done]. by rewrite (H j n E).
  - case_bool_decide.
    + destruct (next_head _ _) as [|j|]; [done| |done].
      destruct (nodes w !! j) as [n|] eqn:E; [|done]. by rewrite (H j n E).
    + destruct (nodes w !! i) as [n|] eqn:E; [|done]. by rewrite (H i n E).
Qed.

Lemma empty_step w o w' : empty_call w -> sw_step open_window w o w' -> o = [] /\ empty_call w' /\
  cumWriteUNA (sock w') = cumWriteUNA (sock w) /\ baseSeq (sock w') = baseSeq (sock w).
Proof.
  intros (Hr & Hp & Hb & Hpc & Hn) Hst.
  destruct Hst as [now w w' o H|w w' o H|w w' o H|w w' o H|now w w' o H|w p H|w s' H].
  - unfold sw_advance in H. destruct Hpc as [Hpc|Hpc]; rewrite Hpc in H; [|done].
    rewrite bool_decide_false in H by lia. destruct (doneChan w); [done|]. injection H as <- <-.
    split; [done|]. by split; [split_and!; try done; by right|].
  - unfold probe_timeout in H. by destruct Hpc as [Hpc|Hpc]; rewrite Hpc in H.
  - unfold thread_done in H. destruct (thread w); try done. destruct (doneChan w); [|done].
    by injection H as <- <-.
  - unfold thread_tick in H. destruct (thread w); try done. destruct (t_chan _); [|done]. by injection H as <- <-.
  - unfold thread_retransmit in H. destruct (thread w); try done. destruct (winLock_free w); [|done].
    rewrite resend_nothing in H by done. by injection H as <- <-.
  - done.
  - apply env_step_frame in H. split; [done|]. split; [|by destruct H as (_ & _ & ? & ? & _)].
    split; [by eapply (resting_env open_window)|done].
Qed.

(** What a step of the call sends continues the stream. *)
Lemma call_step w o w' top left :
  sd_at (Call w) top left -> sw_step open_window w o w' ->
  exists left', sd_at (Call w') top left' /\ left = concat (map payload (fresh o)) ++ left' /\
    chain TCPFlagAck (top - zlen left) (fresh o) /\ baseSeq (sock w') = baseSeq (sock w).
Proof.
  intros Hd Hst. inversion Hd as [|w0 He E1 E2 E3|s0 pl sent w0 Hs Hi E1 E2 E3]; subst.
  - destruct (empty_step _ _ _ He Hst) as (-> & He' & Hc & Hb). exists []. rewrite <- Hc.
    split; [by apply at_empty|done].
  - destruct (inv_step s0 TCPFlagAck pl open_window sent w w' o Hs (fun ti H => H) Hi Hst) as (sent' & Hi' & Hcov & _).
    assert (Hb : baseSeq (sock w') = baseSeq (sock w)).
    { destruct Hi as (? & ? & ? & ? & []), Hi' as (? & ? & ? & ? & []). destruct i_base, i_base0. congruence. }
    assert (Hr : 0 <= sent <= zlen pl /\ 0 <= sent' <= zlen pl).
    { destruct Hi as (? & ? & ? & ? & Hi), Hi' as (? & ? & ? & ? & Hi').
      by destruct (inv_bounds _ _ _ _ _ _ _ _ _ Hs Hi), (inv_bounds _ _ _ _ _ _ _ _ _ Hs Hi'). }
    destruct (covers_concat _ _ _ _ _ _ Hcov) as [Hle Hcat]; [lia|]. exists (zdrop sent' pl).
    split; [by constructor|]. split; [|split; [|done]].
    + rewrite Hcat. unfold zsub. rewrite <- (ztake_zdrop (sent' - sent) (zdrop sent pl)) at 1. f_equal.
      rewrite zdrop_zdrop by lia. f_equal. lia.
    + apply covers_chain in Hcov. rewrite zlen_zdrop by lia.
      by replace (cumWriteUNA s0 + zlen pl - (zlen pl - sent)) with (cumWriteUNA s0 + sent) by lia.
Qed.

(** ** The invariant of the interleaving *)
Section invariant.
Variables (top0 : Z) (left0 message : list byte).

(** The position [pos] in the ring up to which bytes have been given to
    [slidingWindow], against [LBW]: the bytes between them are the round the sender
    has not taken yet. *)
Definition ring_at (w : WriteBuffer) (pos : Z) (st : wstate) : Prop :=
  match ws_pending st with
  | None => pos = (w_LBW w + 1) mod WINDOW_SIZE /\ ws_cut st = ztake (ws_sent st) message
  | Some lbw => lbw = w_LBW w /\ exists bs, zlen bs <= MSS /\
      ring_slice (w_buffer w) pos (zlen bs) = bs /\
      (pos + zlen bs) mod WINDOW_SIZE = (w_LBW w + 1) mod WINDOW_SIZE /\
      ws_cut st ++ bs = ztake (ws_sent st) message
  end.

Record winv (left : list byte) (st : wstate) : Prop := mk_winv {
  v_wf : write_wf (writeBuffer (ws_sock st));
  v_at : sd_at (ws_sender st) (top0 + zlen (ws_cut st)) left;
  v_sent : 0 <= ws_sent st <= zlen message;
  v_out : concat (map payload (fresh (ws_log st))) ++ left = left0 ++ ws_cut st;
  v_chain : chain TCPFlagAck (top0 - zlen left0) (fresh (ws_log st));
  v_ring : ring_at (writeBuffer (ws_sock st))
    ((top0 + zlen (ws_cut st) - baseSeq (ws_sock st)) mod WINDOW_SIZE) st
}.

Lemma sd_at_wf sd top left :
  sd_at sd top left -> let w := writeBuffer (sd_sock sd) in
  zlen (w_buffer w) = WINDOW_SIZE -> 0 <= w_LBW w < WINDOW_SIZE -> write_wf w.
Proof.
  intros (_ & _ & HU & HN)%sd_at_facts w Hb HL. split; [done|]. unfold w. rewrite HU, HN.
  split; [by apply Z.mod_pos_bound|]. by split; [apply Z.mod_pos_bound|].
Qed.

(** Anything but [VWrite] and the sender's cut. *)
Lemma winv_move left st sd' left' o :
  winv left st -> sd_at sd' (top0 + zlen (ws_cut st)) left' ->
  left = concat (map payload (fresh o)) ++ left' ->
  chain TCPFlagAck (top0 + zlen (ws_cut st) - zlen left) (fresh o) ->
  baseSeq (sd_sock sd') = baseSeq (ws_sock st) -> own_ring (ws_sock st) (sd_sock sd') ->
  winv left' (set_sender st sd' o).
Proof.
  intros [Hw Ha Hs Ho Hc Hr] Ha' -> Hch Hb (O1 & O2 & _). destruct Hw as (W1 & _ & _ & W4).
  constructor; unfold ws_sock in *; cbn [set_sender ws_sender ws_cut ws_sent ws_log ws_pending] in *; try done.
  - apply (sd_at_wf _ _ _ Ha'); [by rewrite O1|by rewrite O2].
  - rewrite fresh_app, map_app, concat_app, <- app_assoc. done.
  - rewrite fresh_app. apply chain_app; [done|]. apply (f_equal zlen) in Ho. rewrite !zlen_app in *.
    replace (top0 - zlen left0 + zlen (concat (map payload (fresh (ws_log st))))) with
      (top0 + zlen (ws_cut st) - (zlen (concat (map payload (fresh o))) + zlen left')) by lia. done.
  - rewrite Hb. unfold ring_at in *. cbn [set_sender ws_cut ws_sent ws_pending]. by rewrite O1, O2.
Qed.

(** A round of [VWrite]. *)
Lemma winv_write left st : winv left st -> ws_pending st = None -> winv left (write_round message st).
Proof.
  intros [Hw Ha Hs Ho Hc Hr] Hnone. unfold ring_at in Hr. rewrite Hnone in Hr. destruct Hr as [HL Hout].
  unfold write_round, ws_sock in *. set (s := sd_sock (ws_sender st)) in *.
  destruct (round_bytes_spec (writeBuffer s) (notFirstWrite s) (ws_new st) message (ws_sent st) Hw Hs)
    as (B1 & B2 & B3). cbv zeta. set (bs := round_bytes _ _ _ _ _) in *.
  destruct (ring_write_spec (writeBuffer s) bs Hw) as (W1 & W2 & W3 & W4 & W5); [unfold MSS, WINDOW_SIZE in *; lia|].
  set (wb := ring_write (writeBuffer s) bs) in *. zlen_facts.
  assert (Hf : env_frame open_window s (set_notFirstWrite (set_write s wb) true))
    by (apply env_step_frame; apply (env_write _ s (w_buffer wb) (w_LBW wb) true)).
  constructor; unfold ws_sock; cbn [ws_sender ws_cut ws_sent ws_log ws_pending]; rewrite ?sd_with_sock;
    cbn [set_notFirstWrite set_write writeBuffer baseSeq]; try done; try lia.
  - by apply sd_at_frame.
  - unfold ring_at. cbn [ws_cut ws_sent ws_pending]. split; [done|]. exists bs. split; [done|]. rewrite HL.
    split; [done|]. split; [|by rewrite Hout].
    rewrite W4, !Zplus_mod_idemp_l. f_equal. lia.
Qed.

(** The sender's cut is what the last round wrote. *)
Lemma winv_take left st lbw st' :
  top0 + zlen message < 2 ^ 32 ->
  winv left st -> ws_pending st = Some lbw -> take_payload st lbw = Some st' ->
  left = [] /\ exists s t d bs, at_rest (ws_sender st) = Some (s, t, d) /\ s = ws_sock st /\ resting s /\
    cumWriteUNA s = top0 + zlen (ws_cut st) /\ ws_cut st ++ bs = ztake (ws_sent st) message /\
    (bs <> [] -> start_ready s bs) /\
    st' = mkW (Call (slidingWindow_start s t d TCPFlagAck bs)) (ws_new st) (ws_sent st) None (ws_cut st ++ bs) (ws_log st) /\
    winv bs st'.
Proof.
  intros Htop [Hw Ha Hs Ho Hc Hr] Hsome. unfold take_payload.
  destruct (at_rest (ws_sender st)) as [[[s t] d]|] eqn:Erest; [|done].
  destruct (sd_at_rest _ _ _ _ _ _ Ha Erest) as (Es & Hrest & Hcum & ->). intros H. split; [done|].
  unfold ring_at in Hr. rewrite Hsome in Hr. destruct Hr as (-> & bs & B1 & B2 & B3 & B4).
  assert (Es' : ws_sock st = s) by done. rewrite Es' in *. assert (Hrest' := Hrest).
  destruct Hrest' as (R1 & R2 & R3 & R4 & _). rewrite Hcum, <- R2, <- R3 in B2, B3.
  rewrite (sender_payload_spec (writeBuffer s) bs) in H; [|done..].
  injection H as <-. exists s, t, d, bs. zlen_facts.
  assert (Hlen : zlen (ws_cut st) + zlen bs = ws_sent st).
  { apply (f_equal zlen) in B4. by rewrite zlen_app, zlen_ztake in B4 by lia. }
  assert (Hready : bs <> [] -> start_ready s bs).
  { intros Hne. apply start_ready_resting; [done| |lia]. split; [|done]. destruct bs; [done|]. unfold zlen. simpl. lia. }
  split; [done|]. split; [done|]. split; [done|]. split; [done|]. split; [done|]. split; [done|]. split; [done|].
  constructor; unfold ws_sock; cbn [ws_sender ws_cut ws_sent ws_log ws_pending sd_sock]; try done.
  - rewrite zlen_app, Z.add_assoc, Hcum. destruct bs as [|b bs'] eqn:Eb.
    + change (zlen (@nil byte)) with 0. rewrite Z.add_0_r. apply (at_empty (slidingWindow_start s t d TCPFlagAck [])).
      split; [done|]. split; [done|]. split; [done|]. split; [by left|]. by apply Forall_singleton.
    + rewrite <- Eb in *. destruct (start_inv s TCPFlagAck bs t d) as (tl & c & Hi); [apply Hready; by rewrite Eb|].
      apply (at_call s bs 0); [apply Hready; by rewrite Eb|]. by exists [], tl, 0, c.
  - rewrite app_nil_r in Ho. by rewrite Ho, app_assoc.
  - unfold ring_at. cbn [ws_cut ws_sent ws_pending]. split; [|done].
    rewrite zlen_app, Z.add_assoc, Hcum.
    change (sock (slidingWindow_start s t d TCPFlagAck bs)) with s. rewrite <- B3, R3, R2, Zplus_mod_idemp_l. f_equal. lia.
Qed.

Lemma winv_step left st st' :
  top0 + zlen message < 2 ^ 32 -> winv left st -> wstep message st st' -> exists left', winv left' st'.
Proof.
  intros Htop Hi Hst. destruct Hst as [st Hn Hl|st lbw st' Hp Ht|st w o w' Hsd Hst Hr|st s t d s' Hsd He Hr].
  - exists left. by apply winv_write.
  - destruct (winv_take _ _ _ _ Htop Hi Hp Ht) as (_ & s & t & d & bs & _ & _ & _ & _ & _ & _ & _ & Hi'). by exists bs.
  - assert (Ha := v_at _ _ Hi). rewrite Hsd in Ha.
    destruct (call_step _ _ _ _ _ Ha Hst) as (left' & Ha' & Hl & Hc & Hb). exists left'.
    eapply winv_move; try done; unfold ws_sock; by rewrite Hsd.
  - assert (Ha := v_at _ _ Hi). rewrite Hsd in Ha. exists left. apply env_step_frame in He.
    apply (winv_move left st (Idle s' t d) left []); try done; try (unfold ws_sock; by rewrite Hsd).
    + by apply (sd_at_frame (Idle s t d)).
    + unfold ws_sock. rewrite Hsd. by destruct He as (_ & _ & ? & _).
Qed.

Lemma winv_steps left st st' :
  top0 + zlen message < 2 ^ 32 -> winv left st -> rtc (wstep message) st st' -> exists left', winv left' st'.
Proof.
  intros Htop Hi Hr. revert left Hi. induction Hr as [st|st st1 st2 Hs _ IH]; intros left Hi; [by exists left|].
  destruct (winv_step _ _ _ Htop Hi Hs) as (left1 & Hi1). by eapply IH.
Qed.
End invariant.

(** ** A whole [VWrite] *)
(** The sender between two calls of [VWrite]: it waits with everything acknowledged, or
    is anywhere in a call of [slidingWindow] whose bytes [left] it has not sent yet;
    [top] is the number after everything it was given. *)
Inductive sender_at : sender -> Z -> list byte -> Prop :=
  | sender_idle s t d : resting s -> sender_at (Idle s t d) (cumWriteUNA s) []
  | sender_call s t d pl o w left :
      start_ready s pl -> sw_exec open_window (slidingWindow_start s t d TCPFlagAck pl) o w ->
      concat (map payload (fresh o)) ++ left = pl ->
      sender_at (Call w) (cumWriteUNA s + zlen pl) left.

(** And [LBW] is where it was told. *)
Definition sender_ready (sd : sender) (top : Z) (left : list byte) : Prop :=
  let s := sd_sock sd in
  write_wf (writeBuffer s) /\ sender_at sd top left /\
  (top - baseSeq s) mod WINDOW_SIZE = (w_LBW (writeBuffer s) + 1) mod WINDOW_SIZE.

Lemma sender_at_sd sd top left : sender_at sd top left -> sd_at sd top left.
Proof.
  intros [s t d Hr|s t d pl o w left' Hs Hx Hl]; [by constructor|].
  destruct (start_inv s TCPFlagAck pl t d Hs) as (tl & c & Hi).
  assert (H0 : inv s TCPFlagAck pl 0 (slidingWindow_start s t d TCPFlagAck pl)) by (by exists [], tl, 0, c).
  destruct (inv_exec s TCPFlagAck pl open_window 0 _ _ _ Hs (fun ti H => H) H0 Hx) as (sent & Hi' & Hc & _).
  assert (Hb : 0 <= sent <= zlen pl).
  { destruct Hi' as (? & ? & ? & ? & Hi'). by destruct (inv_bounds _ _ _ _ _ _ _ _ _ Hs Hi'). }
  destruct (covers_concat _ _ _ _ _ _ Hc) as [_ Hcat]; [lia|]. rewrite <- ztake_zsub in Hcat.
  assert (left' = zdrop sent pl) as ->; [|by constructor].
  rewrite Hcat in Hl. rewrite <- (ztake_zdrop sent pl) in Hl at 2. by apply app_inv_head in Hl.
Qed.

Lemma winv_start message sd top left :
  sender_ready sd top left -> winv top left message left (mkW sd true 0 None [] []).
Proof.
  intros (Hw & Ha%sender_at_sd & HL). pose proof (zlen_nonneg message).
  constructor; unfold ws_sock; cbn [ws_sender ws_cut ws_sent ws_log ws_pending]; try done.
  - change (zlen (@nil byte)) with 0. by rewrite Z.add_0_r.
  - by rewrite app_nil_r.
  - unfold ring_at. cbn [ws_cut ws_sent ws_pending]. change (zlen (@nil byte)) with 0. by rewrite Z.add_0_r.
Qed.

Lemma VWrite_start_ret sd st0 : VWrite_start sd = Ret (inr st0) -> st0 = mkW sd true 0 None [] [].
Proof. unfold VWrite_start. intros ([e|] & _ & H)%bind_Ret_inv; [done|by injection H as <-]. Qed.

(** What the invariant says of the messages. *)
Lemma winv_facts message top left0 left st :
  winv top left0 message left st ->
  (exists rest, ws_cut st ++ rest = ztake (ws_sent st) message) /\
  (ws_sent st = zlen message -> ws_pending st = None -> ws_cut st = message) /\
  (at_rest (ws_sender st) <> None -> left = [] /\ cumWriteUNA (ws_sock st) = top + zlen (ws_cut st)).
Proof.
  intros [_ Ha Hs _ _ Hr]. unfold ring_at in Hr. split; [|split].
  - destruct (ws_pending st); [destruct Hr as (_ & bs & _ & _ & _ & ?); by exists bs|].
    exists []. rewrite app_nil_r. by destruct Hr.
  - intros E Hn. rewrite Hn in Hr. destruct Hr as [_ ->]. rewrite E. by apply ztake_all.
  - intros Hrest. destruct (at_rest _) as [[[s t] d]|] eqn:E; [|done].
    by destruct (sd_at_rest _ _ _ _ _ _ Ha E) as (-> & _ & -> & ->).
Qed.

(** C9. The send stream, under every interleaving of [VWrite]'s rounds, the sender, the
    steps of [slidingWindow] and of its retransmission thread, the receiver (any
    segments that keep the window open), the readers and the close, and starting in the
    middle of the transmission of an earlier message as well.  What the sender has cut
    out of the ring is the beginning of the message, without loss, duplication or
    corruption at the wrap-around, and all of it once [VWrite] has handed over its last
    round and the sender has taken it.  The segments sent for the first time carry,
    with consecutive numbers and in order, the bytes left of the earlier message and
    then those cut, up to the ones the running call has still to send; when the sender
    is back at its channel there are none, and everything cut has been acknowledged. *)
Theorem vwrite_stream (sd : sender) (top : Z) (left message : list byte) (st0 st : wstate) :
  sender_ready sd top left -> top + zlen message < 2 ^ 32 ->
  VWrite_start sd = Ret (inr st0) -> rtc (wstep message) st0 st ->
  exists rest unsent,
    ws_cut st ++ rest = ztake (ws_sent st) message /\
    (ws_sent st = zlen message -> ws_pending st = None -> ws_cut st = message) /\
    concat (map payload (fresh (ws_log st))) ++ unsent = left ++ ws_cut st /\
    chain TCPFlagAck (top - zlen left) (fresh (ws_log st)) /\
    (at_rest (ws_sender st) <> None -> unsent = [] /\ cumWriteUNA (ws_sock st) = top + zlen (ws_cut st)).
Proof.
  intros Hr Htop ->%VWrite_start_ret Hsteps.
  destruct (winv_steps top left message left _ st Htop (winv_start message sd top left Hr) Hsteps) as (left' & Hi).
  destruct (winv_facts _ _ _ _ _ Hi) as ((rest & H1) & H2 & H3). exists rest, left'.
  split; [done|]. split; [done|]. split; [apply (v_out _ _ _ _ _ Hi)|]. split; [apply (v_chain _ _ _ _ _ Hi)|done].
Qed.

(** ** Completion *)
Definition calm_sock (s : NormalSocket) : Prop :=
  ackChan s = [] /\ unackedMtx s = false /\ unackedFINs s = ∅.

(** The sender waits, with nothing queued and no FIN under way. *)
Definition settled_sender (sd : sender) : Prop :=
  exists s t, at_rest sd = Some (s, t, false) /\ calm_sock s.

(** The sender can come back to its channel: it waits, or the running call has a
    schedule that returns. *)
Definition can_finish (sd : sender) : Prop :=
  match sd with
  | Idle s _ d => calm_sock s /\ d = false
  | Call w => exists o w', own_exec w o w' /\ settled w'
  end.

(** A call started on a calm socket can finish, whatever [VWrite] has written since. *)
Lemma call_finishes s t fl pl buf lbw nf :
  start_ready s pl -> calm_sock s ->
  exists o w', own_exec (with_sock (slidingWindow_start s t false fl pl) (set_notFirstWrite (set_write s
    (mkWrite buf (w_UNA (writeBuffer s)) (w_NXT (writeBuffer s)) lbw)) nf)) o w' /\ settled w'.
Proof.
  intros Hs (Ha & Hm & Hf). destruct (start_inv s fl pl t false Hs) as (tl & c & Hi).
  set (s' := set_notFirstWrite _ nf).
  pose proof (inv_env s fl pl open_window _ _ _ _ _ _ s' (fun ti H => H) Hi
    (env_step_frame _ _ _ (env_write _ s buf lbw nf))) as Hi'.
  pose proof (i_phase _ _ _ _ _ _ _ _ _ Hi) as Hph. pose proof (i_range _ _ _ _ _ _ _ _ _ Hi) as [Hac Hcl].
  cbn -[Z.min] in Hph.
  assert (Hb : bytesToSend (with_sock (slidingWindow_start s t false fl pl) s') = c - 0) by (cbn -[Z.min]; lia).
  apply (rounds s fl pl _ _ _ _ _ _ Hs eq_refl Hi' Hb); [done|by split_and!; [..|eexists _, _|]|].
  cbn. by destruct Hs as (_ & _ & _ & _ & _ & ? & _).
Qed.

Section completes.
Variables (top0 : Z) (left0 message : list byte).
Hypothesis Htop : top0 + zlen message < 2 ^ 32.

Lemma own_exec_steps st w o w' :
  ws_sender st = Call w -> own_exec w o w' -> rtc (wstep message) st (set_sender st (Call w') o).
Proof.
  intros Hsd Hx. induction Hx as [w|w1 o1 w2 o2 w3 _ IH Hst Hr].
  - destruct st. cbn in *. subst. unfold set_sender. cbn. by rewrite app_nil_r.
  - eapply rtc_r; [by apply IH|].
    replace (set_sender st (Call w3) (o1 ++ o2)) with (set_sender (set_sender st (Call w2) o1) (Call w3) o2)
      by (unfold set_sender; cbn; by rewrite app_assoc).
    by apply (wstep_call message _ w2).
Qed.

(** The running call is brought to its end. *)
Lemma finish_call st :
  can_finish (ws_sender st) ->
  exists sd o, rtc (wstep message) st (set_sender st sd o) /\ settled_sender sd /\ own_ring (ws_sock st) (sd_sock sd).
Proof.
  unfold ws_sock. destruct (ws_sender st) as [s t d|w] eqn:Hsd; cbn [can_finish sd_sock].
  - intros [Hc ->]. exists (Idle s t false), []. split; [|split; [by exists s, t|done]].
    destruct st. cbn in *. subst. unfold set_sender. cbn. by rewrite app_nil_r.
  - intros (o & w' & Hx & Hpc & H1 & H2 & H3 & H4). exists (Call w'), o.
    split; [by eapply own_exec_steps|]. split; [|by apply (own_exec_ring _ _ _ Hx)].
    exists (sock w'), (timer w'). cbn [at_rest]. by rewrite Hpc, H4.
Qed.

(** The sender has just started a call on the last chunk written. *)
Definition started (st : wstate) : Prop :=
  ws_pending st = None /\ ws_new st = false /\ zlen (ws_cut st) = ws_sent st /\
  exists s t p, ws_sender st = Call (slidingWindow_start s t false TCPFlagAck p) /\
    start_ready s p /\ calm_sock s /\ notFirstWrite s = true.

Lemma take_settled left st lbw :
  winv top0 left0 message left st -> ws_pending st = Some lbw -> settled_sender (ws_sender st) ->
  zlen (ws_cut st) < ws_sent st -> notFirstWrite (ws_sock st) = true -> ws_new st = false ->
  exists left' st', wstep message st st' /\ winv top0 left0 message left' st' /\ started st' /\ ws_sent st' = ws_sent st.
Proof.
  intros Hi Hp (s & t & Hrest & Hcalm) Hlt Hnf Hnew.
  assert (exists st', take_payload st lbw = Some st') as (st' & Ht)
    by (unfold take_payload; rewrite Hrest; by eexists).
  destruct (winv_take _ _ _ _ _ _ _ Htop Hi Hp Ht) as
    (_ & s1 & t1 & d1 & bs & Hrest1 & Es & _ & _ & Hcut & Hready & Est & Hi').
  rewrite Hrest in Hrest1. injection Hrest1 as -> -> <-.
  assert (Hlen : zlen (ws_cut st) + zlen bs = ws_sent st).
  { pose proof (v_sent _ _ _ _ _ Hi). apply (f_equal zlen) in Hcut. by rewrite zlen_app, zlen_ztake in Hcut by lia. }
  exists bs, st'. split; [by eapply wstep_take|]. split; [done|]. subst st'. split; [|done].
  split; [done|]. split; [done|]. cbn [ws_cut ws_sent]. split; [by rewrite zlen_app|].
  exists s1, t1, bs. split; [done|]. split; [|split; [done|by rewrite Es]].
  apply Hready. intros ->. change (zlen (@nil byte)) with 0 in Hlen. lia.
Qed.

Lemma started_top top left s t p fl :
  start_ready s p -> sd_at (Call (slidingWindow_start s t false fl p)) top left -> top = cumWriteUNA s + zlen p.
Proof.
  intros ((Hl & _) & _) Ha. inversion Ha as [|w0 He E1 E2 E3|s1 pl sent w0 Hs1 Hi1 E1 E2 E3]; subst.
  - destruct He as (_ & He & _). cbn in He. lia.
  - destruct Hi1 as (? & ? & ? & ? & []). cbn in i_size, i_bytes. lia.
Qed.

(** One more chunk: written while the previous one is in flight, then handed over. *)
Lemma hand_over left st :
  winv top0 left0 message left st -> started st -> ws_sent st < zlen message ->
  exists left' st', rtc (wstep message) st st' /\ winv top0 left0 message left' st' /\ started st' /\
    ws_sent st < ws_sent st' <= zlen message.
Proof.
  intros Hi (Hp & Hnew & Hcut & s & t & p & Hsd & Hready & Hcalm & Hnf) Hlt.
  assert (Hw := v_wf _ _ _ _ _ Hi). assert (Hs := v_sent _ _ _ _ _ Hi).
  assert (Hr := v_ring _ _ _ _ _ Hi). unfold ring_at in Hr. rewrite Hp in Hr. destruct Hr as [HL _].
  assert (Ha := v_at _ _ _ _ _ Hi). unfold ws_sock in *. rewrite Hsd in Hw, HL, Ha. cbn [sd_sock slidingWindow_start sock] in *.
  assert (Htl : top0 + zlen (ws_cut st) = cumWriteUNA s + zlen p) by (by apply (started_top _ _ s t p _ Hready Ha)).
  assert (Hsp : 0 < write_space (writeBuffer s) (notFirstWrite s) (ws_new st)).
  { destruct Hready as (Hl & _ & _ & HU & _). unfold MSS in Hl.
    rewrite Hnf, Hnew. rewrite (space_in_flight _ (zlen p)); [unfold WINDOW_SIZE; lia|done|unfold WINDOW_SIZE; lia|].
    rewrite <- HL, HU, Zplus_mod_idemp_l, Htl. f_equal. lia. }
  pose proof (winv_write _ _ _ _ _ Hi Hp) as Hi1. set (st1 := write_round message st) in *.
  assert (E1 : ws_sent st1 = ws_sent st + zlen (round_bytes (writeBuffer s) (notFirstWrite s) (ws_new st) message (ws_sent st))).
  { subst st1. unfold write_round, ws_sock. by rewrite Hsd. }
  pose proof (round_bytes_pos (writeBuffer s) (notFirstWrite s) (ws_new st) message (ws_sent st) Hw ltac:(lia) Hsp) as Hpos.
  assert (Hfin : can_finish (ws_sender st1)).
  { subst st1. unfold write_round, ws_sock. rewrite Hsd. cbn [sd_sock sd_with can_finish ws_sender slidingWindow_start sock].
    by apply call_finishes. }
  destruct (finish_call st1 Hfin) as (sd & o & R & Hset & Hown).
  destruct (winv_steps _ _ _ _ _ _ Htop Hi1 R) as (left2 & Hi2).
  destruct (take_settled left2 (set_sender st1 sd o) (w_LBW (ring_write (writeBuffer s)
    (round_bytes (writeBuffer s) (notFirstWrite s) (ws_new st) message (ws_sent st)))) Hi2)
    as (left3 & st3 & H3 & Hi3 & Hst3 & E3).
  { subst st1. unfold write_round, ws_sock. by rewrite Hsd. }
  { done. }
  { cbn [set_sender ws_cut ws_sent]. change (ws_cut st1) with (ws_cut st). lia. }
  { destruct Hown as (_ & _ & Hn). unfold ws_sock. cbn [set_sender ws_sender]. rewrite Hn.
    subst st1. unfold write_round, ws_sock. by rewrite Hsd. }
  { done. }
  exists left3, st3. split; [|split; [done|split; [done|]]].
  - eapply rtc_l; [by constructor|]. eapply rtc_r; [exact R|exact H3].
  - rewrite E3. cbn [set_sender ws_sent]. pose proof (v_sent _ _ _ _ _ Hi2) as Hs2. cbn [set_sender ws_sent] in Hs2. lia.
Qed.

Lemma vwrite_continue left st :
  winv top0 left0 message left st -> started st ->
  exists left' st', rtc (wstep message) st st' /\ winv top0 left0 message left' st' /\ started st' /\
    ws_sent st' = zlen message.
Proof.
  remember (Z.to_nat (zlen message - ws_sent st)) as fuel eqn:E. revert left st E.
  induction fuel as [fuel IH] using lt_wf_ind. intros left st E Hi Hst.
  destruct (decide (ws_sent st = zlen message)) as [|Hne]; [by exists left, st|].
  pose proof (v_sent _ _ _ _ _ Hi) as Hs.
  destruct (hand_over left st Hi Hst ltac:(lia)) as (left1 & st1 & R1 & Hi1 & Hst1 & Hlt).
  destruct (IH (Z.to_nat (zlen message - ws_sent st1)) ltac:(lia) left1 st1 eq_refl Hi1 Hst1)
    as (left2 & st2 & R2 & H2). exists left2, st2. split; [by etransitivity|done].
Qed.

(** The first round, with the sender waiting. *)
Lemma first_round left st :
  winv top0 left0 message left st -> settled_sender (ws_sender st) -> ws_pending st = None -> ws_new st = true ->
  ws_sent st = 0 -> 0 < zlen message -> w_LBW (writeBuffer (ws_sock st)) < WINDOW_SIZE - 1 ->
  exists left' st', rtc (wstep message) st st' /\ winv top0 left0 message left' st' /\ started st'.
Proof.
  intros Hi (s & t & Hrest & Hcalm) Hp Hnew H0 Hm HL.
  destruct (sd_at_rest _ _ _ _ _ _ (v_at _ _ _ _ _ Hi) Hrest) as (Es & _).
  assert (Hcalm' : calm_sock (ws_sock st)) by (unfold ws_sock; by rewrite <- Es).
  assert (Hw := v_wf _ _ _ _ _ Hi). assert (HL' := Hw). destruct HL' as (_ & _ & _ & HL').
  assert (Hcut : ws_cut st = []).
  { pose proof (v_ring _ _ _ _ _ Hi) as Hr. unfold ring_at in Hr. rewrite Hp, H0 in Hr. destruct Hr as [_ ->].
    by apply ztake_nil_nonpos. }
  assert (Hsp : 0 < write_space (writeBuffer (ws_sock st)) (notFirstWrite (ws_sock st)) (ws_new st)).
  { unfold write_space. rewrite Hnew, orb_true_r. rewrite u32_small by (unfold WINDOW_SIZE in *; lia). lia. }
  pose proof (winv_write _ _ _ _ _ Hi Hp) as Hi1.
  pose proof (round_bytes_pos _ _ _ message (ws_sent st) Hw ltac:(lia) Hsp) as Hpos.
  destruct (take_settled left (write_round message st) (w_LBW (ring_write (writeBuffer (ws_sock st))
    (round_bytes (writeBuffer (ws_sock st)) (notFirstWrite (ws_sock st)) (ws_new st) message (ws_sent st)))) Hi1)
    as (left' & st' & H1 & H2 & H3 & _); [done| | | |done|].
  - unfold write_round. cbn [ws_sender]. unfold settled_sender.
    destruct (ws_sender st) as [s1 t1 d1|w]; cbn [at_rest sd_with] in *.
    + injection Hrest as -> -> ->. eexists _, _. split; [reflexivity|exact Hcalm'].
    + cbn [with_sock pc]. destruct (pc w); try done. injection Hrest as <- <- Hd.
      eexists _, _. split; [cbn; by rewrite Hd|exact Hcalm'].
  - unfold write_round. cbn [ws_cut ws_sent]. rewrite Hcut. change (zlen (@nil byte)) with 0. lia.
  - unfold write_round, ws_sock. cbn [ws_sender]. by rewrite sd_with_sock.
  - exists left', st'. split; [|by split]. eapply rtc_l; [constructor; [done|lia]|]. by apply rtc_once.
Qed.
End completes.

(** C33. [VWrite] can complete: unless the ring's last byte was the last one
    written, and provided the call of [slidingWindow] it may find running can return,
    there is a schedule (each chunk is written while the previous one is in flight, and
    the peer acknowledges every segment) that hands over, sends and has acknowledged the
    whole message. *)
Theorem vwrite_completes (sd : sender) (top : Z) (left message : list byte) (st0 : wstate) :
  sender_ready sd top left -> top + zlen message < 2 ^ 32 -> VWrite_start sd = Ret (inr st0) ->
  w_LBW (writeBuffer (sd_sock sd)) < WINDOW_SIZE - 1 -> can_finish sd ->
  exists st, rtc (wstep message) st0 st /\ ws_sent st = zlen message /\ ws_pending st = None /\
    ws_cut st = message /\ at_rest (ws_sender st) <> None /\
    concat (map payload (fresh (ws_log st))) = left ++ message /\
    cumWriteUNA (ws_sock st) = top + zlen message.
Proof.
  intros Hr Htop ->%VWrite_start_ret HL Hfin. pose proof (winv_start message sd top left Hr) as Hi0.
  set (st0 := mkW sd true 0 None [] []) in *.
  destruct (finish_call message st0 Hfin) as (sd1 & o1 & R1 & Hset1 & Hown1).
  destruct (winv_steps _ _ _ _ _ _ Htop Hi0 R1) as (left1 & Hi1). set (st1 := set_sender st0 sd1 o1) in *.
  assert (exists left2 st2, rtc (wstep message) st1 st2 /\ winv top left message left2 st2 /\
    ws_sent st2 = zlen message /\ ws_pending st2 = None /\ at_rest (ws_sender st2) <> None)
    as (left2 & st2 & R2 & Hi2 & S2 & P2 & A2).
  { destruct (decide (zlen message = 0)) as [E0|E0].
    { exists left1, st1. split; [done|]. split; [done|]. split; [done|]. split; [done|].
      destruct Hset1 as (s & t & E & _). cbn [st1 set_sender ws_sender]. by rewrite E. }
    zlen_facts.
    destruct (first_round top left message Htop left1 st1 Hi1) as (la & sa & Ra & Ia & Sa); [done|done|done|done|lia| |].
    { destruct Hown1 as (_ & E & _). change (w_LBW (writeBuffer (sd_sock sd1)) < WINDOW_SIZE - 1). rewrite E. exact HL. }
    destruct (vwrite_continue top left message Htop la sa Ia Sa) as (lb & sb & Rb & Ib & Sb & Eb).
    destruct Sb as (Pb & Nb & Cb & s & t & p & Hsd & Hready & Hcalm & _).
    assert (Hfin2 : can_finish (ws_sender sb)).
    { rewrite Hsd. cbn [can_finish]. destruct Hcalm as (C1 & C2 & C3). by apply sliding_window_run. }
    destruct (finish_call message sb Hfin2) as (sd3 & o3 & R3 & (s3 & t3 & Hset3 & _) & _).
    destruct (winv_steps _ _ _ _ _ _ Htop Ib R3) as (lc & Ic).
    exists lc, (set_sender sb sd3 o3). split; [etransitivity; [exact Ra|]; by etransitivity|]. split; [done|].
    cbn [set_sender ws_sent ws_pending ws_sender]. by rewrite Hset3. }
  destruct (winv_facts _ _ _ _ _ Hi2) as (_ & H2 & H3). specialize (H2 S2 P2).
  destruct (H3 A2) as [-> H4]. exists st2. split; [by etransitivity|]. rewrite H4, H2.
  split_and!; try done. pose proof (v_out _ _ _ _ _ Hi2) as Ho. by rewrite app_nil_r, H2 in Ho.
Qed.

(** ** Livelock *)
(** Every byte of the ring has been acknowledged and the round is not the first of its
    message: the computed space is zero.  The sender waits, or is in a call with
    nothing to do. *)
Definition idle_call (sd : sender) : Prop :=
  match sd with
  | Idle _ _ _ => True
  | Call w => pc w = Done \/ (pc w = LoopTest /\ payloadSize w <= bytesSent w)
  end.

Definition starved (sent : Z) (cut : list byte) (st : wstate) : Prop :=
  let w := writeBuffer (ws_sock st) in
  notFirstWrite (ws_sock st) = true /\ ws_new st = false /\ ws_sent st = sent /\ ws_cut st = cut /\
  idle_call (ws_sender st) /\ write_wf w /\ w_UNA w = (w_LBW w + 1) mod WINDOW_SIZE /\ w_NXT w = w_UNA w /\
  (ws_pending st = None \/ ws_pending st = Some (w_LBW w)).

Lemma idle_call_step w o w' :
  idle_call (Call w) -> sw_step open_window w o w' -> own_ring (sock w) (sock w') ->
  idle_call (Call w') /\ w_UNA (writeBuffer (sock w')) = w_UNA (writeBuffer (sock w)) /\
  w_NXT (writeBuffer (sock w')) = w_NXT (writeBuffer (sock w)).
Proof.
  intros Hi Hst _. destruct Hst as [now w w' o H|w w' o H|w w' o H|w w' o H|now w w' o H|w p H|w s' H]; cbn [idle_call] in *.
  - unfold sw_advance in H. destruct Hi as [Hpc|[Hpc Hb]]; rewrite Hpc in H; [done|].
    rewrite bool_decide_false in H by lia. destruct (doneChan w); [done|]. injection H as <- <-. split; [by left|done].
  - unfold probe_timeout in H. by destruct Hi as [Hpc|[Hpc _]]; rewrite Hpc in H.
  - unfold thread_done in H. destruct (thread w); try done. destruct (doneChan w); [|done]. by injection H as <- <-.
  - unfold thread_tick in H. destruct (thread w); try done. destruct (t_chan _); [|done]. by injection H as <- <-.
  - unfold thread_retransmit in H. destruct (thread w); try done. destruct (winLock_free w); [|done].
    revert H. unfold thread_resend. cbv zeta.
    repeat (case_bool_decide || case_match); try done; intros [= <- <-]; by split.
  - done.
  - apply env_step_frame in H as (E1 & E2 & _). done.
Qed.
Lemma starved_write message sent cut st : starved sent cut st -> starved sent cut (write_round message st).
Proof.
  intros (E1 & E2 & E3 & E4 & Hc & Hw & HU & HN & _). unfold write_round, starved, ws_sock in *.
  set (s := sd_sock (ws_sender st)) in *. rewrite E1, E2, starved_round by done. cbv zeta.
  destruct (ring_write_spec (writeBuffer s) [] Hw) as (W1 & W2 & W3 & W4 & _); [done|].
  change (zlen (@nil byte)) with 0 in *. rewrite Z.add_0_r, Z.mod_small in W4 by (by destruct Hw as (_ & _ & _ & ?)).
  cbn [ws_sender ws_new ws_sent ws_cut ws_pending]. rewrite sd_with_sock. cbn [set_notFirstWrite set_write writeBuffer notFirstWrite].
  rewrite W2, W3, W4, Z.add_0_r. split_and!; try done; [|by right]. by destruct (ws_sender st).
Qed.

Lemma starved_step message sent cut st st' :
  starved sent cut st -> wstep message st st' -> starved sent cut st'.
Proof.
  intros Hs Hst. destruct Hst as [st Hn Hl|st lbw st' Hp Ht|st w o w' Hsd Hst Hr|st s t d s' Hsd He Hr].
  - by apply starved_write.
  - destruct Hs as (E1 & E2 & E3 & E4 & Hc & Hw & HU & HN & Hpd). unfold take_payload, ws_sock in *.
    assert (Hrest : forall s t d, at_rest (ws_sender st) = Some (s, t, d) -> s = sd_sock (ws_sender st)).
    { destruct (ws_sender st) as [s0 t0 d0|w]; cbn; [by intros ??? [= ->]|].
      destruct (pc w); try done. by intros ??? [= <-]. }
    destruct (at_rest (ws_sender st)) as [[[s t] d]|]; [|done]. rewrite (Hrest s t d eq_refl) in *.
    set (s0 := sd_sock (ws_sender st)) in *.
    destruct Hpd as [Hpd|Hpd]; [congruence|]. rewrite Hpd in Hp. injection Hp as <-.
    rewrite (sender_payload_spec (writeBuffer s0) []) in Ht; [|done|done|done|by apply ztake_nil_nonpos|].
    + injection Ht as <-. unfold starved. cbn. rewrite app_nil_r. split_and!; try done; [|by left].
      right. split; [done|]. change (0 <= 0). lia.
    + change (zlen (@nil byte)) with 0. destruct Hw as (_ & ? & _). rewrite Z.add_0_r, HN, HU. by apply Z.mod_mod.
  - destruct Hs as (E1 & E2 & E3 & E4 & Hc & Hw & HU & HN & Hpd). unfold ws_sock in *. rewrite Hsd in *. cbn [sd_sock] in *.
    destruct (idle_call_step _ _ _ Hc Hst Hr) as (Hc' & U' & N'). destruct Hr as (R1 & R2 & R3).
    unfold starved, ws_sock. cbn [set_sender ws_sender ws_new ws_sent ws_cut ws_pending sd_sock].
    rewrite U', N', R2, R3. split_and!; try done. destruct Hw as (? & ? & ? & ?). unfold write_wf. by rewrite R1, U', N', R2.
  - destruct Hs as (E1 & E2 & E3 & E4 & Hc & Hw & HU & HN & Hpd). unfold ws_sock in *. rewrite Hsd in *. cbn [sd_sock] in *.
    apply env_step_frame in He as (U' & N' & _). destruct Hr as (R1 & R2 & R3).
    unfold starved, ws_sock. cbn [set_sender ws_sender ws_new ws_sent ws_cut ws_pending sd_sock].
    rewrite U', N', R2, R3. split_and!; try done. destruct Hw as (? & ? & ? & ?). unfold write_wf. by rewrite R1, U', N', R2.
Qed.

(** [VWrite] can spin for ever: once everything handed over has been acknowledged
    before the next round computes its space, the space is zero, and then no
    continuation whatsoever writes another byte of the message. *)
Theorem vwrite_livelock (message : list byte) (st st' : wstate) :
  starved (ws_sent st) (ws_cut st) st -> ws_sent st < zlen message ->
  rtc (wstep message) st st' ->
  ws_sent st' < zlen message /\ ws_cut st' = ws_cut st /\
  (ws_pending st' = None -> wstep message st' (write_round message st')).
Proof.
  intros Hs Hl Hr.
  assert (starved (ws_sent st) (ws_cut st) st') as (_ & _ & E3 & E4 & _).
  { remember (ws_sent st) as n eqn:En. remember (ws_cut st) as o eqn:Eo. clear En Eo Hl.
    induction Hr as [|x y z Hxy _ IH]; [done|]. apply IH. by eapply starved_step. }
  split; [lia|]. split; [done|]. intros Hn. constructor; [done|lia].
Qed.
End stream.
