(* ===== verification/TcpWindowFaults.v ===== *)
(** * Where the sliding window goes wrong

    Theorems about [slidingWindow] and [retransThread] on inputs they do not
    handle: a repeated acknowledgement, a window that opens late, a probe in the
    middle of a payload, and giving up. *)
From S2P Require Import Prelude Netip Netstack Utils Node Pq TcpTypes TcpRing TcpReceiver TcpStack TcpClose TcpSender TcpTimer TcpWindow TcpSliding.
Local Open Scope Z_scope.
Local Open Scope go_scope.

Section faults.
Context `{NS : Netstack} `{MI : MapIter}.

(** A property of the call's state that every step preserves holds for ever. *)
Lemma exec_invariant (good : TCPInfo -> Prop) (P : SW -> Prop) (Q : SwOut -> Prop) :
  (forall w o w', P w -> sw_step good w o w' -> P w' /\ Forall Q o) ->
  forall w o w', P w -> sw_exec good w o w' -> P w' /\ Forall Q o.
Proof.
  intros H w o w' HP. induction 1 as [w|w1 o1 w2 o2 w3 _ IH Hst]; [done|].
  destruct (IH HP) as [H1 H2]. destruct (H _ _ _ H1 Hst) as [H3 H4]. split; [done|]. by apply Forall_app.
Qed.

(** ** A mutex left locked *)
Lemma receive_locked s ti s' r :
  unackedMtx s = true -> ReceiverThread_body s ti = Ret (s', r) -> s' = s.
Proof.
  intros H. unfold ReceiverThread_body. case_bool_decide; [|by intros [= <- _]]. cbn. by rewrite H.
Qed.

Lemma env_locked good s s' : unackedMtx s = true -> env_step good s s' -> unackedMtx s' = true.
Proof.
  intros Hm Hst.
  destruct Hst as [s0 ti s1 r Hg Hr|s0 buf lbw nf|s0 num nb we r s1 Hr|n s0 e s1 evs Hr|s0 s1 Hr|t s0 t' s1 Hr|t s0 t' s1 Hr].
  - by rewrite (receive_locked _ _ _ _ Hm Hr).
  - done.
  - unfold VRead_locked in Hr. case_bool_decide; [done|]. destruct (read_bytes _ _ _) as [bs rb]. destruct we; by injection Hr as _ <-.
  - unfold VClose in Hr. case_bool_decide; [done|]. cbv zeta in Hr. rewrite Hm in Hr.
    destruct (stateMtx s0); [done|]. destruct (close_state _); [done|by injection Hr as _ <- _].
  - unfold closer_delete in Hr. rewrite Hm in Hr. by destruct (closer s0); try injection Hr as <-.
  - unfold closer_finish in Hr. destruct (closer s0); try by injection Hr as _ <-.
    destruct (stateMtx s0); [done|]. destruct (state s0); by injection Hr as _ <-.
  - unfold reap in Hr. destruct (reapers s0); by injection Hr as _ <-.
Qed.

Lemma advance_locked now w w' o :
  unackedMtx (sock w) = true -> sw_advance now w = Ret (w', o) -> unackedMtx (sock w') = true.
Proof.
  intros Hm. unfold sw_advance. destruct (pc w); try done.
  - case_bool_decide; [by destruct (thread w); intros [= <- _]|]. by destruct (doneChan w); [|intros [= <- _]].
  - unfold probe_test, register. destruct (_ && _); [|by intros [= <- _]].
    cbn [set_write unackedMtx]. by rewrite Hm.
  - destruct (ackChan _) as [|ti q]; [done|]. unfold probe_ack. destruct (_ && _); [|by intros [= <- _]].
    cbn. destruct (nodes w); [done|]. case_bool_decide; [|by intros [= <- _]].
    case_bool_decide; [done|]. by destruct (doneChan w); [|intros [= <- _]].
  - unfold send_step. intros (go & _ & Hr)%bind_Ret_inv. destruct go; [|by injection Hr as <- _].
    destruct (list.last _); [|done]. unfold register in Hr. cbn [set_write unackedMtx] in Hr. by rewrite Hm in Hr.
  - unfold after_send. destruct (list.last _); [|done]. cbv zeta.
    case_bool_decide; intros [= <- _]; cbn; by destruct (first w).
  - intros [= <- _]. by case_bool_decide.
  - unfold ack_step. destruct (ackChan _); [by intros [= <- _]|]. by rewrite Hm.
Qed.

(** What the thread does leaves the socket and the position of the call alone. *)
Lemma thread_resend_frame now w l c w' o :
  thread_resend now w l c = Ret (w', o) ->
  sock w' = sock w /\ pc w' = pc w /\ bytesSent w' = bytesSent w /\ payloadSize w' = payloadSize w /\
  bytesToSend w' = bytesToSend w /\ rest w' = rest w /\ win_head w' = win_head w /\ first w' = first w.
Proof.
  unfold thread_resend. case_bool_decide; [|by intros [= <- _]].
  destruct (win_head w) as [|i|] eqn:Eh; [| |by intros [= <- _]]; case_bool_decide; try by intros [= <- _].
  1,2: destruct (next_head _ _) as [|j|]; try by intros [= <- _].
  1,2: destruct (nodes w !! j) as [n|]; [|by intros [= <- _]].
  1,2: destruct (lastSent n); by intros [= <- _].
  destruct (nodes w !! i) as [n|]; [|by intros [= <- _]].
  destruct (lastSent n); [|by intros [= <- _]].
  destruct (if bool_decide (u32 l = n_index n) then _ else _) as [l' k'].
  case_bool_decide; by intros [= <- _].
Qed.

Lemma step_locked good w o w' :
  unackedMtx (sock w) = true -> sw_step good w o w' -> unackedMtx (sock w') = true /\ Forall (fun _ => True) o.
Proof.
  intros Hm Hst. split; [|by apply Forall_true].
  destruct Hst as [now w w' o H|w w' o H|w w' o H|w w' o H|now w w' o H|w p H|w s' H].
  - by eapply advance_locked.
  - unfold probe_timeout in H. destruct (pc w); try done. by injection H as <- _.
  - unfold thread_done in H. destruct (thread w); try done. destruct (doneChan w); [|done]. by injection H as <- _.
  - unfold thread_tick in H. destruct (thread w); try done. destruct (t_chan _); [|done]. by injection H as <- _.
  - unfold thread_retransmit in H. destruct (thread w); try done. destruct (winLock_free w); [|done].
    apply thread_resend_frame in H as (-> & _). done.
  - done.
  - by eapply env_locked.
Qed.

(** C35. One repeated acknowledgement freezes the receiver: when the acknowledgement
    of a segment arrives twice while [slidingWindow] waits for it, the loop over
    [ackChan] leaves by [continue] with [unackedMtx] locked, and whatever happens
    afterwards, [ReceiverThread] blocks on every segment with the ACK flag. *)
Theorem duplicate_ack_freezes (good : TCPInfo -> Prop) (w : SW) (ti : TCPInfo) :
  pc w = AckLoop -> ackChan (sock w) = [] -> unackedMtx (sock w) = false ->
  AckNum ti ∉ unackedFINs (sock w) -> unackedNums (sock w) !! AckNum ti = Some 0 ->
  Flag ti = TCPFlagAck -> Payload ti = [] -> good ti ->
  exists w2, sw_exec good w [] w2 /\
    forall o w3, sw_exec good w2 o w3 ->
      forall ti', 0 < Z.land (Flag ti') TCPFlagAck -> ReceiverThread_body (sock w3) ti' = Block "unackedMtx".
Proof.
  intros Hpc Hq Hm Hf Hn Hfl Hp Hg.
  assert (Hrx : forall s, unackedMtx s = false -> AckNum ti ∉ unackedFINs s ->
    unackedNums s !! AckNum ti = Some 0 -> (length (ackChan s) < 100)%nat ->
    env_step good s (set_ackChan (set_ClientWindowSize s (WindowSize ti)) (ackChan s ++ [ti]))).
  { intros s H1 H2 H3 H4. apply env_receive with (ti := ti) (r := NoReply); [done|].
    unfold ReceiverThread_body. rewrite Hfl. change (bool_decide (0 < Z.land TCPFlagAck TCPFlagAck)) with true.
    cbn [set_ClientWindowSize unackedMtx unackedFINs unackedNums ackChan]. rewrite H1, Hp, H3.
    rewrite bool_decide_false by done. rewrite bool_decide_true by (by split; [eexists|]).
    by rewrite bool_decide_true. }
  pose proof (Hrx (sock w) Hm Hf Hn ltac:(rewrite Hq; simpl; lia)) as E1.
  set (s1 := set_ackChan _ _) in E1. pose proof (Hrx s1 Hm Hf Hn ltac:(unfold s1; cbn; rewrite Hq; simpl; lia)) as E2.
  set (s2 := set_ackChan _ _) in E2. set (w2 := with_sock (with_sock w s1) s2).
  assert (Hq2 : ackChan (sock w2) = [ti; ti]) by (cbn; by rewrite Hq).
  assert (exists w3, sw_advance 0 w2 = Ret (w3, []) /\ pc w3 = AckLoop /\ ackChan (sock w3) = [ti] /\
    unackedMtx (sock w3) = false /\ unackedNums (sock w3) !! AckNum ti = Some 1) as (w3 & A1 & A2 & A3 & A4 & A5).
  { unfold sw_advance. change (pc w2) with (pc w). rewrite Hpc. unfold ack_step. rewrite Hq2.
    change (unackedMtx (sock w2)) with (unackedMtx (sock w)). rewrite Hm.
    cbn [set_ackChan unackedNums]. change (unackedNums (sock w2)) with (unackedNums (sock w)). rewrite Hn.
    cbn [default from_option]. rewrite bool_decide_true by done. case_bool_decide.
    - destruct (shrink _ _ _ _ _ _). eexists. split; [reflexivity|]. cbn. rewrite Hpc, Hm.
      repeat (split; [done|]). apply lookup_insert_eq.
    - eexists. split; [reflexivity|]. cbn. rewrite Hpc, Hm. repeat (split; [done|]). apply lookup_insert_eq. }
  assert (exists w4, sw_advance 0 w3 = Ret (w4, []) /\ unackedMtx (sock w4) = true) as (w4 & B1 & B2).
  { unfold sw_advance. rewrite A2. unfold ack_step. rewrite A3, A4. cbn [set_ackChan unackedNums]. rewrite A5.
    cbn [default from_option]. rewrite bool_decide_false by done. by eexists. }
  exists w4. split.
  - change (@nil SwOut) with (((([] ++ []) ++ []) ++ []) ++ [] : list SwOut).
    eapply exec_step; [eapply exec_step; [eapply exec_step; [eapply exec_step; [constructor|]|]|]|].
    + by apply st_env.
    + apply st_env. exact E2.
    + by apply (st_advance _ 0).
    + by apply (st_advance _ 0).
  - intros o w5 Hx ti' Hfl'.
    destruct (exec_invariant good _ _ (step_locked good) _ _ _ B2 Hx) as [Hm5 _].
    unfold ReceiverThread_body. rewrite bool_decide_true by done. cbn. by rewrite Hm5.
Qed.

(** ** Giving up *)
Definition hung (w : SW) : Prop :=
  thread w = TGaveUp /\ pc w = LoopTest /\ bytesSent w < payloadSize w.

Lemma step_hung good w o w' : hung w -> sw_step good w o w' -> hung w' /\ Forall (fun _ => False) o.
Proof.
  intros (H1 & H2 & H3) Hst.
  destruct Hst as [now w w' o H|w w' o H|w w' o H|w w' o H|now w w' o H|w p H|w s' H].
  - unfold sw_advance in H. rewrite H2, bool_decide_true, H1 in H by done. done.
  - unfold probe_timeout in H. by rewrite H2 in H.
  - unfold thread_done in H. by rewrite H1 in H.
  - unfold thread_tick in H. by rewrite H1 in H.
  - unfold thread_retransmit in H. by rewrite H1 in H.
  - by split.
  - by split.
Qed.

(** After nine retransmissions of the same node the next expiration makes the
    thread return (to close the connection) with [winLock] locked, so
    [slidingWindow] (and with it [SenderThread] and every later [VWrite]) hangs:
    whatever happens afterwards, nothing is sent and the call does not return. *)
Theorem giving_up_hangs (good : TCPInfo -> Prop) (now : Z) (w w' : SW) (o o' : list SwOut) (l : Z) (i : nat) (n : WindowNode) :
  thread w = TExpired l 9 -> pc w = LoopTest -> bytesSent w < payloadSize w ->
  0 < ClientWindowSize (sock w) -> win_head w = At i -> nodes w !! i = Some n -> expectedAck n <> 0 ->
  is_Some (lastSent n) -> u32 l = n_index n ->
  thread_retransmit now w = Ret (w', o) ->
  o = [] /\ forall w'', sw_exec good w' o' w'' -> o' = [] /\ pc w'' = LoopTest.
Proof.
  intros Ht Hpc Hlt Hw Hh Hn He [sent Hs] Hl. unfold thread_retransmit, winLock_free. rewrite Ht, Hpc.
  unfold thread_resend. rewrite bool_decide_true, Hh by done. cbn [head_ack]. rewrite Hn. cbn [fmap option_fmap option_map].
  rewrite bool_decide_false by congruence. rewrite Hs, bool_decide_true by done. cbn [Z.add].
  intros [= <- <-]. split; [done|]. intros w'' Hx.
  match type of Hx with sw_exec _ ?x _ _ => assert (hung x) as Hg by done end.
  destruct (exec_invariant good hung _ (step_hung good) _ _ _ Hg Hx) as [(_ & H & _) Hf].
  split; [|done]. destruct o' as [|x o']; [done|]. by apply list.Forall_cons_1 in Hf as [[] _].
Qed.

(** ** A window that opens without a probe *)
Definition stalled (top : Z) (w : SW) : Prop :=
  bytesToSend w = 0 /\ bytesSent w < payloadSize w /\ win_head w = Dummy /\
  (exists n, nodes w = [n] /\ lastSent n = None) /\
  match pc w with LoopTest | ProbeTest | SendStep | ZeroTest | AckLoop => True | _ => False end /\
  0 < ClientWindowSize (sock w) /\ cumWriteUNA (sock w) = top /\
  (forall k, is_Some (unackedNums (sock w) !! k) -> k <= top) /\
  Forall (fun ti => AckNum ti <= top /\ 0 < WindowSize ti) (ackChan (sock w)).

Lemma advance_stalled top now w w' o :
  stalled top w -> sw_advance now w = Ret (w', o) -> stalled top w' /\ o = [].
Proof.
  intros (H1 & H2 & H3 & (n & H4 & H4') & H5 & H6 & H7 & H8 & H9). unfold sw_advance.
  assert (Hkeep : forall p b, match p with LoopTest | ProbeTest | SendStep | ZeroTest | AckLoop => True | _ => False end ->
    stalled top (with_pc w p) /\ stalled top (with_pc (with_skip w b) p)).
  { intros p b Hp. split; repeat (split; [done|]); (split; [by exists n|]); by repeat split. }
  destruct (pc w) eqn:Hpc; try done.
  - rewrite bool_decide_true by done. destruct (thread w); intros [= <- <-]; split; try done; by apply (Hkeep _ true).
  - unfold probe_test. rewrite (bool_decide_false (ClientWindowSize _ = 0)) by lia. rewrite andb_false_r.
    intros [= <- <-]. split; [|done]. by apply (Hkeep _ true).
  - unfold send_step, send_cond. rewrite (bool_decide_false (0 < bytesToSend w)) by lia. rewrite andb_false_r.
    intros [= <- <-]. split; [|done]. by apply (Hkeep _ true).
  - rewrite bool_decide_false by lia. intros [= <- <-]. split; [|done]. by apply (Hkeep _ true).
  - unfold ack_step. destruct (ackChan (sock w)) as [|ti q] eqn:Hq.
    { intros [= <- <-]. split; [|done]. by apply (Hkeep _ true). }
    apply list.Forall_cons_1 in H9 as [[A1 A2] H9]. destruct (unackedMtx _); [done|]. cbv zeta.
    case_bool_decide.
    + rewrite bool_decide_false by (cbn; lia). intros [= <- <-]. split; [|done].
      repeat (split; [done|]). split; [by exists n|]. cbn. rewrite Hpc. repeat (split; [done|]). split; [|done].
      intros k Hk. destruct (decide (k = AckNum ti)) as [->|]; [done|].
      rewrite lookup_insert_ne in Hk by done. by apply H8.
    + intros [= <- <-]. split; [|done]. repeat (split; [done|]). split; [by exists n|]. cbn. rewrite Hpc. by repeat (split; [done|]).
Qed.

Lemma step_stalled top w o w' :
  stalled top w -> sw_step open_window w o w' -> stalled top w' /\ Forall (fun _ => False) o.
Proof.
  intros Hs Hst. destruct Hst as [now w w' o H|w w' o H|w w' o H|w w' o H|now w w' o H|w p H|w s' H].
  - destruct (advance_stalled _ _ _ _ _ Hs H) as [H1 ->]. by split.
  - unfold probe_timeout in H. destruct Hs as (_ & _ & _ & _ & Hp & _). by destruct (pc w).
  - unfold thread_done in H. destruct (thread w); try done. destruct (doneChan w); [|done]. injection H as <- <-.
    by split.
  - unfold thread_tick in H. destruct (thread w); try done. destruct (t_chan _); [|done]. injection H as <- <-.
    by split.
  - unfold thread_retransmit in H. destruct (thread w) as [|l c| |]; try done. destruct (winLock_free w); [|done].
    unfold thread_resend in H. assert (Hs' := Hs). destruct Hs' as (_ & _ & Hh & (n & Hn & Hl) & _).
    rewrite Hh, Hn in H. cbn [head_ack] in H. rewrite (bool_decide_true (Some 0 = Some 0)) in H by done.
    change (next_head [n] Dummy) with (At 0) in H. cbn [lookup list_lookup] in H. rewrite Hl in H.
    case_bool_decide; injection H as <- <-; by split.
  - by split.
  - destruct Hs as (H1 & H2 & H3 & H4 & H5 & H6 & H7 & H8 & H9).
    apply env_step_frame in H as (E1 & E2 & E3 & E4 & E5 & E6 & E7 & E8).
    split; [|done]. unfold stalled. cbn. rewrite E4, E5. repeat (split; [done|]).
    split; [by destruct E7 as [->|(ti & Hg & ->)]|]. repeat (split; [done|]).
    destruct E8 as [->|(ti & Hg & Hk & ->)]; [done|]. apply Forall_app. split; [done|].
    apply Forall_singleton. split; [by apply H8|done].
Qed.

(** A window that opens without a probe stalls the sender: a call started on a
    closed window makes an empty first segment; if a segment of the peer then opens
    the window before the first probe, then as long as the window stays open nothing
    is ever sent, not even a probe, and the call never returns. *)
Theorem late_window_stalls (s s' : NormalSocket) (t : Timer) (done : bool) (fl : Z) (pl : list byte)
    (o : list SwOut) (w : SW) :
  ClientWindowSize s = 0 -> pl <> [] ->
  (forall k, is_Some (unackedNums s !! k) -> k <= cumWriteUNA s) ->
  Forall (fun ti => AckNum ti <= cumWriteUNA s /\ 0 < WindowSize ti) (ackChan s) ->
  env_step open_window s s' -> 0 < ClientWindowSize s' ->
  sw_exec open_window (with_sock (slidingWindow_start s t done fl pl) s') o w ->
  o = [] /\ pc w <> Done.
Proof.
  intros Hw Hpl Hk Ha He Hw' Hx. apply env_step_frame in He as (E1 & E2 & E3 & E4 & E5 & E6 & E7 & E8).
  assert (Hlen : 0 < zlen pl) by (destruct pl; [done|]; unfold zlen; simpl; lia).
  assert (Hs : stalled (cumWriteUNA s) (with_sock (slidingWindow_start s t done fl pl) s')).
  { unfold stalled. cbn -[Z.min]. rewrite Hw, E4, E5. unfold MSS. split; [lia|]. split; [lia|]. split; [done|].
    split; [by eexists|]. repeat (split; [done|]).
    destruct E8 as [->|(ti & Hg & Hi & ->)]; [done|]. apply Forall_app. split; [done|].
    apply Forall_singleton. split; [by apply Hk|done]. }
  destruct (exec_invariant open_window _ _ (step_stalled _) _ _ _ Hs Hx) as [(_ & _ & _ & _ & Hp & _) Hf].
  split; [|by intros E; rewrite E in Hp].
  destruct o as [|x o]; [done|]. by apply list.Forall_cons_1 in Hf as [[] _].
Qed.

(** ** A probe in the middle of a payload *)
(** The first segment of the payload has been acknowledged with a closed window, the
    second one is waiting. *)
Definition probing (w : SW) (n0 n1 : WindowNode) : Prop :=
  let s := sock w in
  pc w = ProbeTest /\ skip_probe w = false /\ ClientWindowSize s = 0 /\ ackChan s = [] /\
  unackedMtx s = false /\ nodes w = [n0; n1] /\ win_head w = At 1 /\ payload (packet n0) <> [] /\
  seqNum (packet n1) = cumWriteUNA s /\ bytesToSend w = zlen (payload (packet n1)) /\
  2 <= bytesToSend w <= MSS /\ 0 <= cumWriteUNA s /\ cumWriteUNA s + MSS + 1 < 2 ^ 32 /\
  w_UNA (writeBuffer s) = (cumWriteUNA s - baseSeq s) mod WINDOW_SIZE /\
  w_NXT (writeBuffer s) = w_UNA (writeBuffer s).

(** A probe answered in the middle of a payload breaks the connection: the probe
    carries the first byte of the waiting segment and moves [NXT] past it, but the
    byte is then removed from the first segment, which was sent long ago, and the
    waiting one is sent whole with its old sequence number.  [NXT] ends one past the
    payload, the number awaited is one more than the peer can acknowledge, and the
    number with which the peer does acknowledge the segment is not registered. *)
Theorem probe_shifts_stream (w : SW) (n0 n1 : WindowNode) (answer : TCPInfo) (now : Z) :
  probing w n0 n1 -> AckNum answer = cumWriteUNA (sock w) + 1 -> 0 < WindowSize answer ->
  exists probe w1 w2 w3,
    sw_advance now w = Ret (w1, [Probe probe]) /\
    seqNum probe = seqNum (packet n1) /\
    sw_advance now (with_sock w1 (set_ackChan (sock w1) [answer])) = Ret (w2, []) /\
    sw_advance now w2 = Ret (w3, [Fresh (packet n1)]) /\
    let fin := seqNum (packet n1) + zlen (payload (packet n1)) in
    pc w3 = AfterSend (fin + 1) /\
    w_NXT (writeBuffer (sock w3)) = (fin + 1 - baseSeq (sock w)) mod WINDOW_SIZE /\
    unackedNums (sock w3) !! fin = unackedNums (sock w) !! fin.
Proof.
  intros (P1 & P2 & P3 & P4 & P5 & P6 & P7 & P8 & P9 & P10 & P11 & P12 & P13 & P14 & P15) Ha Hwin.
  unfold MSS in *. set (cum := cumWriteUNA (sock w)) in *. set (base := baseSeq (sock w)) in *.
  set (wb := writeBuffer (sock w)) in *.
  assert (N1 : u32 (w_NXT wb + 1) mod WINDOW_SIZE = (cum + 1 - base) mod WINDOW_SIZE).
  { rewrite u32_mod_W, P15, P14, Zplus_mod_idemp_l. f_equal. lia. }
  assert (D1 : distUNA (set_w_NXT wb (u32 (w_NXT wb + 1) mod WINDOW_SIZE)) = 1).
  { rewrite N1, (distUNA_in_flight _ cum (cum + 1) base); [lia|done|done|unfold WINDOW_SIZE; lia]. }
  assert (A1 : u32 (1 + cum) = cum + 1) by (rewrite u32_small; lia).
  set (s1 := set_write (sock w) (set_w_NXT wb (u32 (w_NXT wb + 1) mod WINDOW_SIZE))) in *.
  set (s2 := set_unackedNums s1 (<[cum + 1 := 0]> (unackedNums (sock w)))).
  set (w1 := with_pc (with_sock w s2) (ProbeWait (probe_segment s1) (cum + 1))).
  assert (E1 : sw_advance now w = Ret (w1, [Probe (probe_segment s1)])).
  { unfold sw_advance. rewrite P1. unfold probe_test. fold wb.
    rewrite (bool_decide_true (_ = _)), P2, (bool_decide_true (_ = 0)) by done. cbn [negb andb]. fold s1.
    unfold register. change (unackedMtx s1) with (unackedMtx (sock w)). rewrite P5.
    change (writeBuffer s1) with (set_w_NXT wb (u32 (w_NXT wb + 1) mod WINDOW_SIZE)). rewrite D1.
    change (cumWriteUNA s1) with cum. rewrite A1. done. }
  set (w1' := with_sock w1 (set_ackChan (sock w1) [answer])).
  set (s3 := advance_UNA (set_ClientWindowSize (set_ackChan s2 []) (WindowSize answer)) (AckNum answer)).
  set (w2 := with_pc (with_window (with_skip (with_bytesSent (with_sock w1 s3) (bytesSent w + 1)) true)
    [trim_node n0; n1] (At 1)) SendStep).
  assert (E2 : sw_advance now w1' = Ret (w2, [])).
  { unfold sw_advance. change (pc w1') with (ProbeWait (probe_segment s1) (cum + 1)). cbv iota.
    change (ackChan (sock w1')) with [answer]. unfold probe_ack.
    rewrite Ha, !bool_decide_true by done. cbn [andb].
    match goal with |- context [nodes ?x] => change (nodes x) with (nodes w) end. rewrite P6.
    rewrite bool_decide_false by done.
    match goal with |- context [win_head ?x] => change (win_head x) with (win_head w) end. rewrite P7.
    unfold w2, s3. by rewrite Ha. }
  set (bts := bytesToSend w) in *.
  assert (U3 : w_UNA (writeBuffer s3) = (cum + 1 - base) mod WINDOW_SIZE).
  { change (u32 (AckNum answer - base + WINDOW_SIZE) mod WINDOW_SIZE = (cum + 1 - base) mod WINDOW_SIZE).
    rewrite u32_mod_W, Ha. unfold WINDOW_SIZE. Z.div_mod_to_equations. lia. }
  assert (N3 : u32 (w_NXT (writeBuffer s3) + u32 bts) mod WINDOW_SIZE = (cum + 1 + bts - base) mod WINDOW_SIZE).
  { change (w_NXT (writeBuffer s3)) with (u32 (w_NXT wb + 1) mod WINDOW_SIZE). rewrite N1.
    apply advance_NXT; lia. }
  set (wb4 := set_w_NXT (writeBuffer s3) ((cum + 1 + bts - base) mod WINDOW_SIZE)).
  assert (D4 : distUNA wb4 ⊕ cumWriteUNA s3 = cum + 1 + bts).
  { change (cumWriteUNA s3) with (AckNum answer). rewrite Ha.
    rewrite (distUNA_in_flight wb4 (cum + 1) (cum + 1 + bts) base) by (done || (unfold WINDOW_SIZE; lia)).
    rewrite u32_small; lia. }
  assert (exists w3, sw_advance now w2 = Ret (w3, [Fresh (packet n1)]) /\ pc w3 = AfterSend (cum + 1 + bts) /\
    writeBuffer (sock w3) = wb4 /\ unackedNums (sock w3) = <[cum + 1 + bts := 0]> (unackedNums s3))
    as (w3 & E3 & F1 & F2 & F3).
  { unfold sw_advance. change (pc w2) with SendStep. cbv iota. unfold send_step, send_cond.
    change (ClientWindowSize (sock w2)) with (WindowSize answer). change (bytesToSend w2) with bts.
    rewrite !bool_decide_true by lia. cbn [andb].
    change (window_open (nodes w2) (win_head w2)) with (Ret (A := bool) true). cbn [mbind outcome_bind].
    change (list.last (nodes w2)) with (Some n1). cbv iota zeta. change (sock w2) with s3. rewrite N3. fold wb4.
    unfold register. change (unackedMtx (set_write s3 wb4)) with (unackedMtx (sock w)). rewrite P5.
    cbn [mbind outcome_bind]. rewrite D4. eexists. split; [reflexivity|]. by repeat split. }
  exists (probe_segment s1), w1, w2, w3. split; [done|]. split.
  { change (seqNum (probe_segment s1)) with (u32 (distUNA (writeBuffer s1) + cum - 1)).
    change (writeBuffer s1) with (set_w_NXT wb (u32 (w_NXT wb + 1) mod WINDOW_SIZE)). rewrite D1, P9.
    rewrite u32_small; lia. }
  split; [done|]. split; [done|]. cbv zeta. rewrite P9, <- P10, F1, F2, F3.
  split; [f_equal; lia|]. split; [cbn; f_equal; lia|].
  rewrite lookup_insert_ne by lia. change (unackedNums s3) with (<[cum + 1 := 0]> (unackedNums (sock w))).
  by rewrite lookup_insert_ne by lia.
Qed.
End faults.
