(* ===== verification/FileTransfer.v ===== *)
(** * File transfer ([SendFile], [ReceiveFile])

    [SendFile] connects, writes the file's bytes and closes; [ReceiveFile] accepts
    a connection and loops, moving what is readable into a file until the peer has
    closed.  A round of the loop is several steps, cut where the code takes or
    releases a mutex or reads shared fields under none, so that segments may arrive
    between the tests of the state, the count of the bytes and the read. *)
From S2P Require Import Prelude Netip Netstack Utils Node Pq TcpTypes TcpRing TcpReceiver TcpReassembly TcpStack TcpClose TcpSender TcpTimer TcpWindow TcpSliding TcpStream.
Local Open Scope Z_scope.
Local Open Scope go_scope.

(** ** Data *)
(** Where the loop is: at its test of the state, at its test for readable bytes, at
    [VRead]'s own test of the state, at its count of the bytes, at the part under
    [readMtx] with the number counted, at the close, or past the loop. *)
Inductive RfPc : Type :=
  | RfCheck
  | RfTest
  | RfEnter
  | RfCount
  | RfRead (num : Z)
  | RfClose
  | RfFinished.

Record RF := mkRF { rf_sock : NormalSocket; rf_file : list byte; rf_pc : RfPc }.

(** What happens while the loop runs: a segment reaches [ReceiverThread], or the loop
    takes a step; the step's argument is what [file.Write] does, [None] for success
    and an error with the number of bytes written before it otherwise. *)
Inductive rf_event : Type :=
  | Deliver (ti : TCPInfo)
  | Reader (write_err : option (string * Z)).

Section operations.
Context `{NS : Netstack} `{MI : MapIter}.

(** ** [ReceiveFile] *)
Definition rf_step (n : Node) (write_err : option (string * Z)) (r : RF) : outcome RF :=
  let s := rf_sock r in
  match rf_pc r with
  | RfCheck =>
      if bool_decide (state s = SYN_SENT) then Panic "nil pointer dereference"
      else if stateMtx s then Block "stateMtx"
      else if bool_decide (state s = CLOSE_WAIT) then Ret (mkRF s (rf_file r) RfClose)
      else Ret (mkRF s (rf_file r) RfTest)
  | RfTest => Ret (mkRF s (rf_file r) (if bool_decide (0 < num_buf (readBuffer s)) then RfEnter else RfCheck))
  | RfEnter =>
      err ← VRead_test s;
      Ret (mkRF s (rf_file r) (match err with Some _ => RfCheck | None => RfCount end))
  | RfCount => Ret (mkRF s (rf_file r) (RfRead (num_buf (readBuffer s))))
  | RfRead num =>
      '(res, s') ← VRead_locked s num 65535 (fst <$> write_err);
      let written := match res, write_err with
                     | inr bs, _ => bs
                     | inl _, Some (_, k) => ztake k (read_bytes (readBuffer s) num 65535).1
                     | inl _, None => []
                     end in
      Ret (mkRF s' (rf_file r ++ written) RfCheck)
  | RfClose =>
      '(_, s', _) ← VClose n s;
      Ret (mkRF s' (rf_file r) RfFinished)
  | RfFinished => Ret r
  end.

Definition rf_event_step (n : Node) (e : rf_event) (r : RF) : outcome RF :=
  match e with
  | Deliver ti => '(s', _) ← ReceiverThread_body (rf_sock r) ti; Ret (mkRF s' (rf_file r) (rf_pc r))
  | Reader we => rf_step n we r
  end.

Fixpoint rf_run (n : Node) (es : list rf_event) (r : RF) : outcome RF :=
  match es with
  | [] => Ret r
  | e :: es' => r' ← rf_event_step n e r; rf_run n es' r'
  end.

(** The goroutine up to its loop; the file is created or truncated. *)
Definition ReceiveFile_accept (n : Node) (t : TCPStack) (lsock : ListenSocket) (queue : list TCPInfo)
    (open_err : option string) : outcome (option RF * TCPStack * list event) :=
  '(s, t', _, evs) ← VAccept n t lsock queue;
  match open_err with
  | Some e => Ret (None, t', evs ++ [EPrint "connection established"; EPrint e])
  | None => Ret (Some (mkRF s [] RfCheck), t', evs ++ [EPrint "connection established"])
  end.

(** The call itself; the listening socket is handed to the goroutine. *)
Definition ReceiveFile (t : TCPStack) (port : Z) : (string + ListenSocket) * TCPStack := VListen t port.

(** ** [SendFile] *)
(** A slice of the file's size, filled with what one [Read] returned. *)
Definition file_bytes (size : Z) (data : list byte) : list byte :=
  zcopy (replicate (Z.to_nat size) Byte.x00) 0 data.

(** Up to [VWrite]; [stat] and [read] are the results of the file operations, the end
    of the file counting as an empty read. *)
Definition SendFile (n : Node) (t : TCPStack) (stat : string + Z) (read : string + list byte)
    (addr : Addr) (port : Z) (draws : list Z) (waits : list wait_event) :
    outcome ((string + (NormalSocket * list byte)) * TCPStack * list event) :=
  match stat, read with
  | inl e, _ => Ret (inl e, t, [])
  | inr _, inl e => Ret (inl e, t, [])
  | inr size, inr data =>
      let bs := file_bytes size data in
      '(r, t', evs) ← VConnect n t addr port draws waits;
      match r with
      | inl e => Ret (inl e, t', evs)
      | inr s =>
          err ← VWrite_test s;
          let evs := evs ++ [EPrint (fmt_d (zlen bs))] in
          match err with
          | Some e => Ret (inl e, t', evs ++ [EPrint e])
          | None => Ret (inr (s, bs), t', evs)
          end
      end
  end.

(** After [VWrite], which leaves the sender and its call running. *)
Definition SendFile_close (n : Node) (st : wstate) : outcome (option string * NormalSocket * list event) :=
  VClose n (ws_sock st).
End operations.

(** ** The reading loop *)
Section receiving.
Context `{NS : Netstack} `{MI : MapIter} (n : Node).
Context (chunks : list (list byte)) (b0 : Z) (R0 : list byte) (F : gset Z) (nums : gmap Z Z).
Context (Hne : Forall (fun c => c <> []) chunks) (Hb0 : 0 <= b0) (Hfit : b0 + zlen (concat chunks) < 2 ^ 32).
#[local] Abbreviation ST := (ESTABLISHED, false, nums).

(** What is known of the ring at each point of the loop: the loop is its only reader,
    so bytes once counted stay there. *)
Definition rf_pc_ok (nb : Z) (p : RfPc) : Prop :=
  match p with
  | RfCheck | RfTest => True
  | RfEnter | RfCount => 0 < nb
  | RfRead num => 0 < num <= nb
  | RfClose | RfFinished => False
  end.

(** [m] chunks stored, those of [E] waiting, the file holding what has been read. *)
Definition rf_at (m : nat) (E : list nat) (r : RF) : Prop :=
  progress chunks b0 R0 F ST (rf_file r) (rf_sock r) m E /\ (m ∉ E) /\
  rf_pc_ok (num_buf (readBuffer (rf_sock r))) (rf_pc r).

(** How many steps at most until the ring has been emptied, if nothing arrives. *)
Definition rf_due (r : RF) : nat :=
  let nb := num_buf (readBuffer (rf_sock r)) in
  match rf_pc r with
  | RfCheck => if bool_decide (nb = 0) then 0 else 5
  | RfTest => if bool_decide (nb = 0) then 0 else 4
  | RfEnter => 3
  | RfCount => 2
  | RfRead num => if bool_decide (num = nb) then 1 else 6
  | _ => 0
  end.

Lemma rf_due_le r : (rf_due r <= 6)%nat.
Proof. unfold rf_due. destruct (rf_pc r); repeat case_bool_decide; lia. Qed.

(** A read that takes [num] bytes. *)
Lemma VRead_some got s m E num :
  progress chunks b0 R0 F ST got s m E -> 0 < num <= num_buf (readBuffer s) ->
  exists s', VRead_locked s num 65535 None = Ret (inr (ztake num (readable (readBuffer s))), s') /\
    progress chunks b0 R0 F ST (got ++ ztake num (readable (readBuffer s))) s' m E /\
    rx_edge s <= rx_edge s' /\ num_buf (readBuffer s') = num_buf (readBuffer s) - num.
Proof.
  intros [Hi Hc Hr Hroom Hpq Hm HE Hnd Hmtx Hf Hst] Hpos. injection Hst as Hs Hl Hn.
  destruct Hi as (Hw & Hcr & Hnx & Hq). pose proof (num_buf_range (readBuffer s)) as Hnb.
  pose proof (zlen_readable _ Hw) as Hlen.
  destruct (readable_advance (readBuffer s) num Hw ltac:(lia)) as (W & Hrd & Hfs).
  set (rb := mkRead (r_buffer (readBuffer s)) ((r_LBR (readBuffer s) + num) mod WINDOW_SIZE)
    (r_NXT (readBuffer s))) in *.
  assert (He : rx_edge s <= rx_edge (set_read s rb)) by (unfold rx_edge; cbn [set_read readBuffer cumReadNXT]; lia).
  exists (set_read s rb). split; [|split; [|split; [done|]]].
  - unfold VRead_locked. rewrite bool_decide_false by lia. rewrite read_bytes_spec by (done || lia). cbv zeta.
    by rewrite Z.min_l by (unfold WINDOW_SIZE in *; lia).
  - constructor; try done.
    + cbn [set_read readBuffer]. rewrite Hrd, <- app_assoc. by rewrite ztake_zdrop.
    + rewrite list.Forall_forall in Hroom |- *. intros k Hk. specialize (Hroom k Hk). cbv beta in *. lia.
    + cbn [set_read state stateMtx unackedNums]. congruence.
  - cbn [set_read readBuffer]. rewrite <- (zlen_readable rb W), Hrd, zlen_zdrop by lia. lia.
Qed.

(** One step of the loop. *)
Lemma rf_step_at m E r :
  rf_at m E r ->
  exists r', rf_step n None r = Ret r' /\ rf_at m E r' /\ rx_edge (rf_sock r) <= rx_edge (rf_sock r') /\
    (rf_due r' <= rf_due r - 1)%nat.
Proof.
  intros (P & Hm & Hpc). pose proof (pg_state _ _ _ _ _ _ _ _ _ P) as Hst. injection Hst as Hs Hl _.
  pose proof (num_buf_range (readBuffer (rf_sock r))) as Hnb.
  unfold rf_step, rf_due, rf_at. destruct (rf_pc r) as [| | | |num| |] eqn:Ep; cbn [rf_pc_ok] in Hpc; try done.
  - rewrite Hl, Hs. do 2 rewrite bool_decide_false by done. eexists. split; [reflexivity|].
    cbn [rf_sock rf_file rf_pc rf_pc_ok]. repeat (split; [done || lia|]). case_bool_decide; lia.
  - eexists. split; [reflexivity|]. cbn [rf_sock rf_file rf_pc]. split; [split; [done|split; [done|]]|].
    { by case_bool_decide. }
    split; [lia|]. repeat case_bool_decide; try lia; done.
  - unfold VRead_test. rewrite Hs, Hl. do 2 rewrite bool_decide_false by (done || by intros [?|?]).
    eexists. split; [reflexivity|]. cbn [rf_sock rf_file rf_pc rf_pc_ok]. repeat (split; [done || lia|]). lia.
  - eexists. split; [reflexivity|]. cbn [rf_sock rf_file rf_pc rf_pc_ok]. rewrite bool_decide_true by done.
    split; [split; [done|split; [done|lia]]|]. split; [lia|done].
  - destruct (VRead_some _ _ m E num P Hpc) as (s' & Hv & P' & He & Hn). cbn [fmap option_fmap option_map].
    rewrite Hv. cbn [mbind outcome_bind]. eexists. split; [reflexivity|]. cbn [rf_sock rf_file rf_pc rf_pc_ok].
    split; [split; [exact P'|done]|]. split; [done|]. repeat case_bool_decide; lia.
Qed.

(** Steps of the loop while nothing arrives: the ring is emptied into the file. *)
Lemma rf_steps_at k m E r :
  rf_at m E r ->
  exists r', rf_run n (repeat (Reader None) k) r = Ret r' /\ rf_at m E r' /\ (rf_due r' <= rf_due r - k)%nat.
Proof.
  revert r. induction k as [|k IH]; intros r Hr; [exists r; split; [done|split; [done|lia]]|].
  destruct (rf_step_at m E r Hr) as (r1 & H1 & H2 & _ & H3). destruct (IH r1 H2) as (r2 & G1 & G2 & G3).
  exists r2. split; [|split; [done|lia]]. cbn [repeat rf_run rf_event_step]. by rewrite H1.
Qed.

Lemma rf_due_empty m E r :
  rf_at m E r -> rf_due r = 0%nat ->
  num_buf (readBuffer (rf_sock r)) = 0 /\ (rf_pc r = RfCheck \/ rf_pc r = RfTest).
Proof.
  intros (_ & _ & Hpc). unfold rf_due. destruct (rf_pc r); try done; case_bool_decide; try done; by auto.
Qed.

(** A segment's arrival. *)
Lemma rf_pc_ok_le nb nb' p : nb <= nb' -> rf_pc_ok nb p -> rf_pc_ok nb' p.
Proof. destruct p; cbn; lia. Qed.

Lemma rf_at_deliver m E r s' m' E' E0 :
  rf_at m E r -> advanced chunks b0 R0 F ST (rf_file r) (rf_sock r) s' m m' E0 E' ->
  rf_at m' E' (mkRF s' (rf_file r) (rf_pc r)).
Proof.
  intros (P & Hm & Hpc) (P' & He & Hm' & Hle & _). split; [done|]. split; [done|]. cbn [rf_sock rf_pc].
  eapply rf_pc_ok_le; [|exact Hpc].
  assert (off chunks b0 m <= off chunks b0 m').
  { apply off_le; [done|]. split; [done|]. apply (pg_m _ _ _ _ _ _ _ _ _ P'). }
  pose proof (num_buf_free (readBuffer s')). pose proof (num_buf_free (readBuffer (rf_sock r))).
  unfold rx_edge in He. rewrite (pg_cum _ _ _ _ _ _ _ _ _ P), (pg_cum _ _ _ _ _ _ _ _ _ P') in He. lia.
Qed.

(** A schedule of deliveries ([Some k] for chunk [k]) and steps of the loop. *)
Context (info : nat -> TCPInfo) (Hinfo : forall k, (k < length chunks)%nat -> is_segment chunks b0 F (info k) k).

Definition rf_sched (sched : list (option nat)) : list rf_event :=
  map (fun e => match e with Some k => Deliver (info k) | None => Reader None end) sched.
Definition delivered (sched : list (option nat)) : list nat := omap id sched.

(** The sender respects the window: a chunk ends at or before its right edge when it
    arrives. *)
Fixpoint in_window (sched : list (option nat)) (r : RF) : Prop :=
  match sched with
  | [] => True
  | e :: sched' =>
      match e with Some k => off chunks b0 (S k) <= rx_edge (rf_sock r) | None => True end /\
      forall r', rf_run n (rf_sched [e]) r = Ret r' -> in_window sched' r'
  end.

Lemma rf_run_app es1 es2 r : rf_run n (es1 ++ es2) r = (r' ← rf_run n es1 r; rf_run n es2 r').
Proof.
  revert r. induction es1 as [|e es1 IH]; intros r; [done|]. cbn [app rf_run].
  destruct (rf_event_step n e r) as [r1| |]; cbn [mbind outcome_bind]; [apply IH|done|done].
Qed.

Lemma rf_run_one e r : rf_run n [e] r = rf_event_step n e r.
Proof. cbn [rf_run]. by destruct (rf_event_step n e r). Qed.

Lemma rf_run_progress todo sched m E r :
  rf_at m E r -> in_window sched r -> (delivered sched ++ todo ++ E) ≡ₚ seq m (length chunks - m) ->
  exists r' m' E', rf_run n (rf_sched sched) r = Ret r' /\ rf_at m' E' r' /\
    (todo ++ E') ≡ₚ seq m' (length chunks - m').
Proof.
  revert m E r. induction sched as [|[j|] sched IH]; intros m E r Hr Hw Hperm.
  - by exists r, m, E.
  - destruct Hw as [Hedge Hw]. change (delivered (Some j :: sched)) with (j :: delivered sched) in Hperm.
    rewrite app_assoc in Hperm. destruct (deliver_next chunks m E j (delivered sched ++ todo) Hperm) as [Hj HjE].
    assert (Hr' := Hr). destruct Hr' as (P & Hm & _).
    destruct (progress_receive chunks b0 R0 F ST Hne Hb0 Hfit (rf_file r) (rf_sock r) m E j (info j))
      as (s' & m' & E' & rx & Hrx & A); [done|done|done|done|done|apply Hinfo; lia|].
    assert (Hstep : rf_run n (rf_sched [Some j]) r = Ret (mkRF s' (rf_file r) (rf_pc r))).
    { cbn [rf_sched map]. rewrite rf_run_one. cbn [rf_event_step]. by rewrite Hrx. }
    pose proof (deliver_rest _ _ _ _ _ _ _ _ _ _ _ _ _ _ A Hperm) as Hrest. rewrite <- app_assoc in Hrest.
    pose proof (rf_at_deliver _ _ _ _ _ _ _ Hr A) as Hat.
    destruct (IH m' E' (mkRF s' (rf_file r) (rf_pc r))) as (r2 & m2 & E2 & Hrun & H2); [done|by apply Hw|done|].
    exists r2, m2, E2. split; [|done]. change (rf_sched (Some j :: sched)) with (rf_sched [Some j] ++ rf_sched sched).
    rewrite rf_run_app, Hstep. exact Hrun.
  - destruct Hw as [_ Hw]. destruct (rf_step_at m E r Hr) as (r1 & Hstep & Hr1 & _).
    assert (Hone : rf_run n (rf_sched [None]) r = Ret r1) by (cbn [rf_sched map]; by rewrite rf_run_one).
    destruct (IH m E r1) as (r2 & m2 & E2 & Hrun & H2); [done|by apply Hw|done|].
    exists r2, m2, E2. split; [|done]. change (rf_sched (None :: sched)) with (rf_sched [None] ++ rf_sched sched).
    rewrite rf_run_app, Hone. exact Hrun.
Qed.
End receiving.

(** The FIN after the whole stream. *)
Lemma receive_last_fin chunks b0 R0 F nums got s m ti :
  progress chunks b0 R0 F (ESTABLISHED, false, nums) got s m [] ->
  Flag ti = FINACK -> SeqNum ti = off chunks b0 m -> AckNum ti ∉ F -> nums !! AckNum ti = None ->
  exists s' rx, ReceiverThread_body s ti = Ret (s', rx) /\ state s' = CLOSE_WAIT /\ stateMtx s' = false /\
    readBuffer s' = readBuffer s.
Proof.
  intros P Hfl Hsq HF Hn. pose proof (progress_len _ _ _ _ _ _ _ _ _ P) as Hq%length_zero_iff_nil.
  destruct P as [Hi Hc _ _ _ _ _ _ Hmtx Hf Hst]. injection Hst as Hs Hl Hnu.
  unfold ReceiverThread_body. rewrite Hfl. change (bool_decide (0 < Z.land FINACK TCPFlagAck)) with true. cbv iota zeta.
  set (s1 := set_ClientWindowSize s (WindowSize ti)).
  change (unackedMtx s1) with (unackedMtx s). change (unackedFINs s1) with (unackedFINs s).
  change (unackedNums s1) with (unackedNums s). rewrite Hmtx, Hf, Hnu.
  rewrite (bool_decide_false (AckNum ti ∈ F)) by done.
  rewrite bool_decide_false by (rewrite Hn; intros [[? ?] _]; done).
  unfold receive_ordered. rewrite Hfl, Hsq. change (cumReadNXT s1) with (cumReadNXT s). rewrite Hc.
  rewrite bool_decide_false by lia. change (bool_decide (0 < Z.land FINACK TCPFlagFin)) with true. cbv iota.
  set (s2 := set_cumReadNXT s1 _). unfold fin_transition.
  change (stateMtx s2) with (stateMtx s). change (state s2) with (state s). rewrite Hs, Hl.
  cbn [mbind outcome_bind]. unfold finish_receive.
  change (earlyPQ (set_state s2 CLOSE_WAIT)) with (earlyPQ s). rewrite Hq.
  eexists _, _. split; [reflexivity|]. split; [done|]. split; [exact Hl|done].
Qed.

(** ** The sender's segments *)
Lemma chain_lookup fl b ps k p :
  chain fl b ps -> ps !! k = Some p ->
  seqNum p = off (map payload ps) b k /\ flags p = fl /\ payload p = chunk (map payload ps) k.
Proof.
  revert b k. induction ps as [|q ps IH]; intros b [|k]; [done..| |].
  - intros (H1 & H2 & _) [= <-]. split; [|done]. rewrite H1. symmetry. apply Z.add_0_r.
  - intros (_ & _ & _ & H) Hk. destruct (IH _ k H Hk) as (H1 & H2 & H3). split; [|done].
    rewrite H1. unfold off. cbn [map take concat]. rewrite zlen_app. lia.
Qed.

Lemma chain_nonempty fl b ps : chain fl b ps -> Forall (fun c => c <> []) (map payload ps).
Proof.
  revert b. induction ps as [|p ps IH]; intros b; [constructor|].
  intros (_ & _ & H1 & H2). constructor; [done|by eapply IH].
Qed.

(** Successive calls of [slidingWindow], one for every round of [VWrite], with
    anything the other goroutines do in between: the bytes sent and the segments
    that carry them for the first time. *)
Inductive sender_run `{Netstack} `{MapIter} : NormalSocket -> list byte -> list TCPPacket -> NormalSocket -> Prop :=
  | sr_done s : sender_run s [] [] s
  | sr_env s s1 bs segs s2 : env_step open_window s s1 -> sender_run s1 bs segs s2 -> sender_run s bs segs s2
  | sr_call s t done pl o w bs segs s2 :
      start_ready s pl -> sw_exec open_window (slidingWindow_start s t done TCPFlagAck pl) o w -> pc w = Done ->
      sender_run (sock w) bs segs s2 -> sender_run s (pl ++ bs) (fresh o ++ segs) s2.

Lemma sender_run_chain `{Netstack} `{MapIter} s bs segs s2 :
  sender_run s bs segs s2 -> cumWriteUNA s < 2 ^ 32 ->
  chain TCPFlagAck (cumWriteUNA s) segs /\ concat (map payload segs) = bs /\
  cumWriteUNA s2 = cumWriteUNA s + zlen bs /\ cumWriteUNA s2 < 2 ^ 32.
Proof.
  induction 1 as [s|s s1 bs segs s2 He _ IH|s t done pl o w bs segs s2 Hs Hx Hpc _ IH]; intros Hlt.
  - rewrite Z.add_0_r. done.
  - apply env_step_frame in He as (_ & _ & _ & He & _). rewrite He in IH. by apply IH.
  - destruct (sliding_window_exec s t done TCPFlagAck pl o w Hs Hx) as (_ & _ & sent & acked & Hc & _ & _ & _ & Hcum & _ & _ & Hd).
    destruct (Hd Hpc) as [-> Hcat]. destruct Hs as (_ & _ & Htop & _). cbv zeta in Htop.
    destruct IH as (I1 & I2 & I3 & I4); [lia|]. apply covers_chain in Hc. rewrite Z.add_0_r in Hc.
    split; [apply chain_app; [done|by rewrite Hcat, <- Hcum]|].
    split; [by rewrite map_app, concat_app, Hcat, I2|]. rewrite zlen_app. lia.
Qed.

(** ** A file goes through *)
Section transfer.
Context `{NS : Netstack} `{MI : MapIter} (n : Node).

(** What the receiver gets for the [k]-th segment. *)
Definition seg_infos (local : Addr) (segs : list TCPPacket) (k : nat) : TCPInfo :=
  from_option (seg_info local) (mkTCPInfo (mkKey local 0 local 0) 0 0 0 0 []) (segs !! k).

Lemma seg_infos_segment local segs b F k :
  chain TCPFlagAck b segs -> Forall (fun p => ackNum p ∉ F) segs -> (k < length (map payload segs))%nat ->
  is_segment (map payload segs) b F (seg_infos local segs k) k.
Proof.
  intros Hc HF Hk. rewrite length_map in Hk. destruct (lookup_lt_is_Some_2 segs k Hk) as [p Hp].
  unfold seg_infos. rewrite Hp. cbn [from_option]. destruct (chain_lookup _ _ _ _ _ Hc Hp) as (H1 & H2 & H3).
  rewrite list.Forall_forall in HF. split; [done|]. split; [done|]. split; [done|].
  exact (HF p (list_elem_of_lookup_2 _ _ _ Hp)).
Qed.

Lemma rf_run_S k r r1 : rf_step n None r = Ret r1 ->
  rf_run n (repeat (Reader None) (S k)) r = rf_run n (repeat (Reader None) k) r1.
Proof. intros H. cbn [repeat rf_run rf_event_step]. by rewrite H. Qed.

(** Taking the FIN with an empty ring, the loop comes to its close. *)
Lemma rf_leave r :
  state (rf_sock r) = CLOSE_WAIT -> stateMtx (rf_sock r) = false -> num_buf (readBuffer (rf_sock r)) = 0 ->
  rf_pc r = RfCheck \/ rf_pc r = RfTest ->
  exists k, rf_run n (repeat (Reader None) k) r = Ret (mkRF (rf_sock r) (rf_file r) RfClose).
Proof.
  intros Hst Hm Hnb Hpc.
  assert (Hc : rf_step n None (mkRF (rf_sock r) (rf_file r) RfCheck) = Ret (mkRF (rf_sock r) (rf_file r) RfClose)).
  { unfold rf_step. cbn [rf_pc rf_sock rf_file]. by rewrite Hst, Hm. }
  destruct r as [s f p]. cbn [rf_sock rf_file rf_pc] in *. destruct Hpc as [-> | ->].
  - exists 1%nat. by rewrite (rf_run_S _ _ _ Hc).
  - exists 2%nat. rewrite (rf_run_S _ _ (mkRF s f RfCheck)).
    + by rewrite (rf_run_S _ _ _ Hc).
    + unfold rf_step. cbn [rf_pc rf_sock rf_file]. by rewrite Hnb.
Qed.

(** The last rounds: the ring is emptied into the file, the FIN is taken, and the loop
    comes to its close. *)
Lemma rf_finish chunks b0 R0 F nums r ti :
  rf_at chunks b0 R0 F nums (length chunks) [] r ->
  Flag ti = FINACK -> SeqNum ti = off chunks b0 (length chunks) -> AckNum ti ∉ F -> nums !! AckNum ti = None ->
  exists k r', rf_run n (repeat (Reader None) 6 ++ [Deliver ti] ++ repeat (Reader None) k) r = Ret r' /\
    rf_pc r' = RfClose /\ rf_file r' = R0 ++ concat chunks.
Proof.
  intros Hr Hfl Hsq HF Hn. destruct (rf_steps_at n _ _ _ _ _ 6 _ _ _ Hr) as (r1 & S1 & A1 & D1).
  pose proof (rf_due_le r). destruct (rf_due_empty _ _ _ _ _ _ _ _ A1) as [Hnb Hpc]; [lia|].
  assert (P := proj1 A1). destruct (receive_last_fin _ _ _ _ _ _ _ _ ti P) as (s' & rx & Hrx & Hs' & Hl' & Hb'); [done..|].
  destruct (rf_leave (mkRF s' (rf_file r1) (rf_pc r1))) as (k & Hk); [done|done|by cbn [rf_sock]; rewrite Hb'|done|].
  exists k, (mkRF s' (rf_file r1) RfClose). split.
  - rewrite rf_run_app, S1. cbn [mbind outcome_bind app rf_run rf_event_step]. rewrite Hrx. exact Hk.
  - split; [done|]. cbn [rf_file]. pose proof (pg_read _ _ _ _ _ _ _ _ _ P) as Hrd.
    rewrite firstn_all in Hrd. rewrite <- Hrd.
    assert (Hnil : readable (readBuffer (rf_sock r1)) = []).
    { pose proof (zlen_readable _ (proj1 (pg_inv _ _ _ _ _ _ _ _ _ P))) as Hz. rewrite Hnb in Hz.
      destruct (readable _); [done|]. unfold zlen in Hz. simpl in Hz. lia. }
    by rewrite Hnil, app_nil_r.
Qed.

(** C1. A file is transferred: the segments the sliding window sends for
    successive rounds of [VWrite] to a peer that keeps its window open ([sender_run]),
    delivered to that peer in any order, interleaved in any way with the steps of
    [ReceiveFile]'s loop, as long as each arrives inside the receiver's window: nothing blocks or fails; what is in the file and still
    readable is at every moment the beginning of the bytes sent; and once all
    segments have arrived, six steps of the loop and the peer's FIN bring the loop
    to its close with exactly the bytes sent in the file. *)
Theorem file_transfer (local : Addr) (a a' s : NormalSocket) (bs : list byte) (segs : list TCPPacket)
    (sched : list (option nat)) (todo : list nat) :
  sender_run a bs segs a' ->
  rx_inv s -> readable (readBuffer s) = [] -> earlyPQ s = [] -> unackedMtx s = false -> stateMtx s = false ->
  state s = ESTABLISHED -> cumReadNXT s = cumWriteUNA a ->
  Forall (fun p => ackNum p ∉ unackedFINs s) segs ->
  in_window n (map payload segs) (cumReadNXT s) (seg_infos local segs) sched (mkRF s [] RfCheck) ->
  (delivered sched ++ todo) ≡ₚ seq 0 (length segs) ->
  exists r, rf_run n (rf_sched (seg_infos local segs) sched) (mkRF s [] RfCheck) = Ret r /\
    (exists later, rf_file r ++ readable (readBuffer (rf_sock r)) ++ later = bs) /\
    (todo = [] -> forall fin,
      Flag fin = FINACK -> SeqNum fin = cumWriteUNA a' -> AckNum fin ∉ unackedFINs s ->
      unackedNums s !! AckNum fin = None ->
      exists k r', rf_run n (repeat (Reader None) 6 ++ [Deliver fin] ++ repeat (Reader None) k) r = Ret r' /\
        rf_pc r' = RfClose /\ rf_file r' = bs).
Proof.
  intros Hrun Hi Hrd Hq Hm Hl Hst Hseq HF Hw Hperm. assert (Hcr := Hi). destruct Hcr as (_ & Hcr & _).
  destruct (sender_run_chain a bs segs a' Hrun) as (Hc & Hcat & Hcum & Htop); [lia|]. rewrite <- Hseq in *.
  set (chunks := map payload segs) in *. set (F := unackedFINs s) in *.
  assert (Hfit : cumReadNXT s + zlen (concat chunks) < 2 ^ 32) by (rewrite Hcat; lia).
  assert (Hseg : forall k, (k < length chunks)%nat -> is_segment chunks (cumReadNXT s) F (seg_infos local segs k) k)
    by (intros k Hk; by apply seg_infos_segment).
  replace (length segs) with (length chunks) in Hperm by (unfold chunks; apply length_map).
  pose proof (progress_start s chunks Hi Hq Hm) as P. rewrite Hrd, Hl, Hst in P.
  destruct (rf_run_progress n chunks (cumReadNXT s) [] F (unackedNums s) (chain_nonempty _ _ _ Hc) (proj1 Hcr) Hfit
    (seg_infos local segs) Hseg todo sched 0 [] (mkRF s [] RfCheck)) as (r & m & E & Hrr & Hat & Htodo).
  { split; [exact P|]. split; [apply not_elem_of_nil|done]. }
  { exact Hw. }
  { by rewrite app_nil_r, Nat.sub_0_r. }
  exists r. split; [done|]. split.
  - exists (concat (drop m chunks)). destruct Hat as (P' & _). pose proof (pg_read _ _ _ _ _ _ _ _ _ P') as Hr.
    rewrite app_assoc, Hr. cbn [app]. rewrite <- concat_app, take_drop. done.
  - intros -> fin Hfl Hsq Hfi Hfn. cbn [app] in Htodo.
    destruct (delivered_all _ _ _ _ _ _ _ _ _ (proj1 Hat) (proj1 (proj2 Hat)) Htodo) as [-> ->].
    destruct (rf_finish chunks (cumReadNXT s) [] F (unackedNums s) r fin) as (k & r' & H1 & H2 & H3);
      [done|done|by rewrite off_all, Hcat, Hsq|done|done|].
    exists k, r'. by rewrite H3, Hcat.
Qed.
End transfer.

(** A stream that fits the window at the start is in the window in any order. *)
Lemma in_window_small `{Netstack} `{MapIter} n chunks b0 R0 F nums info todo sched m E r :
  Forall (fun c => c <> []) chunks -> 0 <= b0 -> b0 + zlen (concat chunks) < 2 ^ 32 ->
  (forall k, (k < length chunks)%nat -> is_segment chunks b0 F (info k) k) ->
  rf_at chunks b0 R0 F nums m E r -> off chunks b0 (length chunks) <= rx_edge (rf_sock r) ->
  (delivered sched ++ todo ++ E) ≡ₚ seq m (length chunks - m) ->
  in_window n chunks b0 info sched r.
Proof.
  intros Hne Hb Hfit Hinfo. revert m E r. induction sched as [|[j|] sched IH]; intros m E r Hr Hedge Hperm; [done| |].
  - change (delivered (Some j :: sched)) with (j :: delivered sched) in Hperm.
    rewrite app_assoc in Hperm. destruct (deliver_next chunks m E j (delivered sched ++ todo) Hperm) as [Hj HjE].
    assert (off chunks b0 (S j) <= off chunks b0 (length chunks)) by (apply off_le; [done|lia]).
    split; [lia|]. intros r'. cbn [rf_sched map]. rewrite rf_run_one. cbn [rf_event_step].
    assert (Hr' := Hr). destruct Hr' as (P & Hm & _).
    destruct (progress_receive chunks b0 R0 F (ESTABLISHED, false, nums) Hne Hb Hfit (rf_file r) (rf_sock r) m E j (info j))
      as (s' & m' & E' & rx & -> & A); [done|done|done|done|lia|apply Hinfo; lia|].
    intros [= <-]. pose proof (deliver_rest _ _ _ _ _ _ _ _ _ _ _ _ _ _ A Hperm) as Hrest.
    rewrite <- app_assoc in Hrest. assert (Hat : rf_at chunks b0 R0 F nums m' E' (mkRF s' (rf_file r) (rf_pc r))) by (by eapply rf_at_deliver).
    destruct A as (P' & He & _). apply (IH m' E'); [done|cbn [rf_sock]; lia|done].
  - split; [done|]. intros r'. cbn [rf_sched map]. rewrite rf_run_one. cbn [rf_event_step].
    destruct (rf_step_at n chunks b0 R0 F nums m E r Hr) as (r1 & -> & Hr1 & He & _). intros [= <-].
    apply (IH m E); [done|lia|done].
Qed.

(** ** A close that comes too early *)
Lemma fin_edge_closed a b : fin_edge a b -> a = CLOSE_WAIT \/ a = LAST_ACK -> b = a.
Proof. unfold fin_edge. intros [->|[[-> ->]|[-> ->]]] [H|H]; done. Qed.

Lemma receive_closed s ti s' r :
  ReceiverThread_body s ti = Ret (s', r) -> state s = CLOSE_WAIT \/ state s = LAST_ACK -> state s' = state s.
Proof.
  intros [(H & _)|(e & _ & _ & H & _)]%ReceiverThread_body_frame Hs; [by apply fin_edge_closed|done].
Qed.

Section early_close.
Context `{NS : Netstack} `{MI : MapIter} (n : Node).

Lemma VClose_closed s e s' evs :
  VClose n s = Ret (e, s', evs) -> state s = CLOSE_WAIT \/ state s = LAST_ACK ->
  state s' = CLOSE_WAIT \/ state s' = LAST_ACK.
Proof.
  unfold VClose. intros H Hs. case_bool_decide; [done|]. cbv zeta in H. destruct (stateMtx s); [done|].
  destruct (close_state (state s)) as [st|] eqn:Ec; [|by injection H as _ <- _].
  destruct (unackedMtx s); [done|]. apply bind_Ret_inv in H as (ev & _ & [= _ <- _]). cbn.
  destruct Hs as [Hs|Hs]; rewrite Hs in Ec; [|done]. injection Ec as <-. by right.
Qed.

Lemma VRead_test_closed s e :
  VRead_test s = Ret e -> state s = CLOSE_WAIT \/ state s = LAST_ACK -> e = Some "sock closed".
Proof.
  unfold VRead_test. intros H Hs. case_bool_decide; [done|]. destruct (stateMtx s); [done|].
  rewrite bool_decide_true in H by done. by injection H as <-.
Qed.

Definition closed (s : NormalSocket) : Prop := state s = CLOSE_WAIT \/ state s = LAST_ACK.

(** Past the test [VRead] makes of the state, before its bytes are written. *)
Definition past_test (p : RfPc) : Prop := match p with RfCount | RfRead _ => True | _ => False end.

(** What one read of a ring can put into the file. *)
Definition one_read (bs : list byte) : Prop :=
  exists rb num k, bs = ztake k (read_bytes rb num 65535).1 \/ bs = (read_bytes rb num 65535).1.

Lemma VRead_locked_result s num we res s' :
  VRead_locked s num 65535 we = Ret (res, s') ->
  state s' = state s /\ match res with inr bs => bs = (read_bytes (readBuffer s) num 65535).1 | inl _ => True end.
Proof.
  unfold VRead_locked. case_bool_decide; [done|]. destruct (read_bytes _ _ _) as [bs rb].
  by destruct we; intros [= <- <-].
Qed.

(** A step of anything after the FIN has been taken: the file grows only by the read
    the loop was past the test of. *)
Lemma rf_step_closed e r r' :
  rf_event_step n e r = Ret r' -> closed (rf_sock r) ->
  closed (rf_sock r') /\
  ((rf_file r' = rf_file r /\ (past_test (rf_pc r') -> past_test (rf_pc r))) \/
   (past_test (rf_pc r) /\ ~ past_test (rf_pc r') /\ exists bs, rf_file r' = rf_file r ++ bs /\ one_read bs)).
Proof.
  intros H Hs. unfold closed in *. destruct e as [ti|we]; cbn [rf_event_step] in H.
  - apply bind_Ret_inv in H as ([s' rx] & Hr & [= <-]). cbn [rf_sock rf_file rf_pc].
    rewrite (receive_closed _ _ _ _ Hr Hs). split; [done|]. by left.
  - unfold rf_step in H. destruct (rf_pc r) eqn:Ep.
    + case_bool_decide; [done|]. destruct (stateMtx _); [done|]. case_bool_decide; injection H as <-; (split; [done|left]); by split.
    + injection H as <-. split; [done|]. left. split; [done|]. cbn [rf_pc]. by case_bool_decide.
    + apply bind_Ret_inv in H as (err & Hv%VRead_test_closed & [= <-]); [|done]. subst err. split; [done|left]. by split.
    + injection H as <-. split; [done|left]. by split.
    + apply bind_Ret_inv in H as ([res s'] & Hv & [= <-]). cbn [rf_sock rf_file rf_pc].
      destruct (VRead_locked_result _ _ _ _ _ Hv) as [-> Hres]. split; [done|].
      destruct res as [err|bs].
      * destruct we as [[e k]|]; [right|left; by rewrite app_nil_r].
        split; [done|]. split; [intros []|]. eexists. split; [done|]. eexists _, _, _. by left.
      * right. split; [done|]. split; [intros []|]. eexists. split; [done|]. exists (readBuffer (rf_sock r)), num, 0. by right.
    + apply bind_Ret_inv in H as ([[e s'] evs] & Hv & [= <-]). cbn [rf_sock rf_file].
      split; [by eapply VClose_closed|by left].
    + injection H as <-. rewrite Ep. split; [done|left]. by split.
Qed.

Lemma rf_run_closed es r r' :
  rf_run n es r = Ret r' -> closed (rf_sock r) ->
  rf_file r' = rf_file r \/ (past_test (rf_pc r) /\ exists bs, rf_file r' = rf_file r ++ bs /\ one_read bs).
Proof.
  revert r. induction es as [|e es IH]; intros r; cbn [rf_run]; [intros [= ->]; by left|].
  intros (r1 & H1 & H2)%bind_Ret_inv Hs. destruct (rf_step_closed e r r1 H1 Hs) as [Hs1 Hf].
  destruct (IH r1 H2 Hs1) as [E|(Hp & bs & E & Hb)]; destruct Hf as [[F1 F2]|(F1 & F2 & bs' & F3 & F4)].
  - left. congruence.
  - right. split; [done|]. exists bs'. by rewrite E.
  - right. split; [by apply F2|]. exists bs. by rewrite E, F1.
  - done.
Qed.

(** From the CLOSE_WAIT state the loop leaves at once, unless it is past the test. *)
Lemma rf_leave_closed r :
  state (rf_sock r) = CLOSE_WAIT -> stateMtx (rf_sock r) = false ->
  rf_pc r = RfCheck \/ rf_pc r = RfTest \/ rf_pc r = RfEnter ->
  exists k, (k <= 3)%nat /\
    rf_run n (repeat (Reader None) k) r = Ret (mkRF (rf_sock r) (rf_file r) RfClose).
Proof.
  destruct r as [s f p]. cbn [rf_sock rf_file rf_pc]. intros Hst Hm Hpc.
  assert (H0 : rf_step n None (mkRF s f RfCheck) = Ret (mkRF s f RfClose))
    by (unfold rf_step; cbn [rf_pc rf_sock rf_file]; by rewrite Hst, Hm).
  assert (H1 : rf_step n None (mkRF s f RfEnter) = Ret (mkRF s f RfCheck))
    by (unfold rf_step, VRead_test; cbn [rf_pc rf_sock rf_file]; by rewrite Hst, Hm).
  assert (H2 : exists p', rf_step n None (mkRF s f RfTest) = Ret (mkRF s f p') /\ (p' = RfCheck \/ p' = RfEnter)).
  { unfold rf_step. cbn [rf_pc rf_sock rf_file]. eexists. split; [done|]. case_bool_decide; auto. }
  destruct H2 as (p' & H2 & Hp'). destruct Hpc as [->|[->| ->]].
  - exists 1%nat. split; [lia|]. by rewrite (rf_run_S n _ _ _ H0).
  - destruct Hp' as [-> | ->]; [exists 2%nat|exists 3%nat]; (split; [lia|]); rewrite (rf_run_S n _ _ _ H2);
      [by rewrite (rf_run_S n _ _ _ H0)|by rewrite (rf_run_S n _ _ _ H1), (rf_run_S n _ _ _ H0)].
  - exists 2%nat. split; [lia|]. by rewrite (rf_run_S n _ _ _ H1), (rf_run_S n _ _ _ H0).
Qed.

(** C39. A FIN truncates the file.  Once an iteration of [ReceiverThread] has moved
    the connection to CLOSE_WAIT - with the FIN itself, or with the missing segment in
    front of an early FIN - nothing that is still in the ring then, or arrives later,
    gets into the file, whatever happens, unless the loop is already past [VRead]'s
    test of the state, which the code makes before it takes [readMtx]: then one read,
    and no other, still can, and the one of a loop about to read does.  A loop that is
    not past the test leaves for its close within three steps with the ring unread. *)
Theorem fin_truncates_file (r : RF) (ti : TCPInfo) (s' : NormalSocket) (rx : rx_end) :
  ReceiverThread_body (rf_sock r) ti = Ret (s', rx) -> state s' = CLOSE_WAIT ->
  (forall es r', rf_run n (Deliver ti :: es) r = Ret r' ->
     (~ past_test (rf_pc r) -> rf_file r' = rf_file r) /\
     (rf_file r' = rf_file r \/ exists bs, rf_file r' = rf_file r ++ bs /\ one_read bs)) /\
  (forall num, rf_pc r = RfRead num -> num <> 0 -> exists r',
     rf_run n [Deliver ti; Reader None] r = Ret r' /\ rf_pc r' = RfCheck /\
     rf_file r' = rf_file r ++ (read_bytes (readBuffer s') num 65535).1) /\
  (stateMtx s' = false -> rf_pc r = RfCheck \/ rf_pc r = RfTest \/ rf_pc r = RfEnter ->
   exists k r', (k <= 3)%nat /\ rf_run n (Deliver ti :: repeat (Reader None) k) r = Ret r' /\
     rf_pc r' = RfClose /\ rf_file r' = rf_file r /\ readBuffer (rf_sock r') = readBuffer s').
Proof.
  intros Hrx Hst. assert (Hstep : rf_event_step n (Deliver ti) r = Ret (mkRF s' (rf_file r) (rf_pc r)))
    by (cbn [rf_event_step]; by rewrite Hrx).
  assert (Hrun : forall es, rf_run n (Deliver ti :: es) r = rf_run n es (mkRF s' (rf_file r) (rf_pc r)))
    by (intros es; cbn [rf_run]; by rewrite Hstep).
  split; [|split].
  - intros es r' H. rewrite Hrun in H. apply rf_run_closed in H as [E|(Hp & bs & E & Hb)]; [| |by left].
    + split; [done|by left].
    + split; [done|]. right. by exists bs.
  - intros num Hp Hnum. rewrite Hrun, Hp. cbn [rf_run rf_event_step]. unfold rf_step. cbn [rf_pc rf_sock rf_file].
    unfold VRead_locked. rewrite bool_decide_false by done. cbn [fmap option_fmap option_map].
    destruct (read_bytes _ _ _) as [bs rb]. cbn [mbind outcome_bind]. eexists. by split; [|split].
  - intros Hm Hpc. destruct (rf_leave_closed (mkRF s' (rf_file r) (rf_pc r)) Hst Hm Hpc) as (k & Hk & H).
    exists k. rewrite Hrun, H. eexists. by split; [|split; [|split; [|split]]].
Qed.

(** ** Sending a file *)
Lemma file_bytes_spec size data :
  zlen data <= size -> file_bytes size data = data ++ replicate (Z.to_nat (size - zlen data)) Byte.x00.
Proof.
  intros Hs. pose proof (zlen_nonneg data). unfold file_bytes, zcopy, ztake, zdrop.
  rewrite Z.add_0_l, drop_replicate. change (Z.to_nat 0) with 0%nat. rewrite take_0. cbn [app].
  do 2 f_equal. lia.
Qed.
End early_close.

(** ** The sender of a fresh connection *)
Section sending.
Context `{NS : Netstack} `{MI : MapIter}.

Lemma connected_ready sid k ci t d :
  0 <= AckNum ci < 2 ^ 32 -> 0 < WindowSize ci ->
  sender_ready (Idle (connected_socket sid k ci) t d) (AckNum ci) [].
Proof.
  intros Ha Hw.
  assert (HU : (AckNum ci - u32 (AckNum ci - 1)) mod WINDOW_SIZE = 1).
  { unfold u32, WINDOW_SIZE. change (2 ^ 32) with (65536 * 65536). Z.div_mod_to_equations. lia. }
  split; [|split].
  - split; [|done]. cbn [sd_sock connected_socket writeBuffer new_send w_buffer].
    unfold zero_buffer, zlen. rewrite length_replicate. done.
  - apply (sender_idle (connected_socket sid k ci)). split; [cbn; lia|]. split; [symmetry; exact HU|].
    split; [done|]. split; [done|]. split; [|constructor]. cbn. intros x. rewrite lookup_empty. by intros [? ?].
  - exact HU.
Qed.

Lemma VConnect_socket n t addr port draws waits s t' evs :
  VConnect n t addr port draws waits = Ret (inr s, t', evs) -> exists sid k ci, s = connected_socket sid k ci.
Proof.
  unfold VConnect. destruct (pick_port t draws) as [p|]; [|done].
  intros ([r e1] & _ & H2)%bind_Ret_inv. destruct r as [u|ci]; [done|].
  apply bind_Ret_inv in H2 as (e2 & _ & [= <- _ _]). by eexists _, _, _.
Qed.

(** The number a FIN carries: after the bytes sent, not after those still to send. *)
Lemma fin_number sd top left :
  sd_at sd top left -> 0 <= top - zlen left < 2 ^ 32 -> seqNum (fin_segment (sd_sock sd)) = top - zlen left.
Proof.
  intros (H1 & H2 & HU & HN)%sd_at_facts Ht. unfold fin_segment. cbn [seqNum]. zlen_facts.
  rewrite (distUNA_in_flight _ (cumWriteUNA (sd_sock sd)) (top - zlen left) (baseSeq (sd_sock sd)));
    [|done|done|unfold MSS, WINDOW_SIZE in *; lia].
  rewrite u32_small; lia.
Qed.

(** A message of one chunk, written and taken: nothing of it has been sent. *)
Lemma one_chunk_taken s t d top message :
  sender_ready (Idle s t d) top [] -> notFirstWrite s = false -> w_LBW (writeBuffer s) = 0 ->
  0 < zlen message <= MSS -> top + zlen message < 2 ^ 32 ->
  exists st, rtc (wstep message) (mkW (Idle s t d) true 0 None [] []) st /\
    ws_sent st = zlen message /\ ws_pending st = None /\ ws_log st = [].
Proof.
  intros Hr Hnf HL Hm Htop. set (st0 := mkW _ _ _ _ _ _). pose proof (winv_start message _ _ _ Hr) as Hi.
  assert (Hlen : zlen (round_bytes (writeBuffer s) (notFirstWrite s) true message 0) = zlen message).
  { unfold round_bytes, write_space, MaxMessageSize. rewrite Hnf, HL. cbn [negb orb]. unfold MSS in Hm.
    rewrite (u32_small (WINDOW_SIZE - 1 - 0)) by (unfold WINDOW_SIZE; lia). unfold WINDOW_SIZE.
    rewrite zlen_zsub by lia. lia. }
  pose proof (winv_write _ _ _ _ st0 Hi eq_refl) as Hi1.
  assert (exists st2, take_payload (write_round message st0) (w_LBW (ring_write (writeBuffer s)
    (round_bytes (writeBuffer s) (notFirstWrite s) true message 0))) = Some st2) as (st2 & Ht).
  { unfold take_payload, write_round, ws_sock. cbn [ws_sender st0 sd_sock sd_with at_rest]. by eexists. }
  exists st2. split; [|].
  - eapply rtc_l; [apply wstep_write; [done|cbn; lia]|]. apply rtc_once. by eapply wstep_take.
  - destruct (winv_take _ _ _ _ _ _ _ Htop Hi1 eq_refl Ht) as (_ & s1 & t1 & d1 & bs & _ & _ & _ & _ & _ & _ & -> & _).
    cbn [ws_sent ws_pending ws_log]. split; [|done]. unfold write_round. cbn [ws_sent].
    change (ws_sent st0) with 0. unfold ws_sock. cbn [ws_sender st0 sd_sock ws_new]. lia.
Qed.

(** C38. [SendFile] hands over the file: when it gets as far as [VWrite], the message
    has the file's size and is what the one [Read] returned, followed by zeros where
    the read came short; under every interleaving of [VWrite], the sender, its calls of
    [slidingWindow] and the acknowledgements of a peer that keeps its window open, the
    segments carry its bytes in order with consecutive numbers from the connection's
    first one, and once [VWrite] has returned and the sender has taken the last round
    the bytes cut are all of it.  The FIN of the close is numbered after the bytes sent
    so far, which is after the file only when none are left to send; and for a file of
    one chunk the close can indeed come with nothing sent and the FIN on the file's
    first number. *)
Theorem sendfile_stream (n : Node) (t t' : TCPStack) (size : Z) (data : list byte)
    (addr : Addr) (port : Z) (draws : list Z) (waits : list wait_event) (s : NormalSocket) (bs : list byte)
    (tm : Timer) (done : bool) (evs : list event) :
  zlen data <= size ->
  SendFile n t (inr size) (inr data) addr port draws waits = Ret (inr (s, bs), t', evs) ->
  0 < ClientWindowSize s -> 0 <= cumWriteUNA s -> cumWriteUNA s + zlen bs < 2 ^ 32 ->
  let st0 := mkW (Idle s tm done) true 0 None [] [] in
  bs = data ++ replicate (Z.to_nat (size - zlen data)) Byte.x00 /\
  VWrite_start (Idle s tm done) = Ret (inr st0) /\
  (forall st, rtc (wstep bs) st0 st -> exists rest unsent,
     ws_cut st ++ rest = ztake (ws_sent st) bs /\
     concat (map payload (fresh (ws_log st))) ++ unsent = ws_cut st /\
     chain TCPFlagAck (cumWriteUNA s) (fresh (ws_log st)) /\
     (ws_sent st = zlen bs -> ws_pending st = None ->
      ws_cut st = bs /\ (at_rest (ws_sender st) <> None -> unsent = [])) /\
     forall s2 e, SendFile_close n st = Ret (None, s2, e) ->
       (state s2 = FIN_WAIT_1 \/ state s2 = LAST_ACK) /\
       closer s2 = Waiting (seqNum (fin_segment (ws_sock st)) ⊕ 1) /\
       seqNum (fin_segment (ws_sock st)) = cumWriteUNA s + zlen (ws_cut st) - zlen unsent) /\
  (0 < zlen bs <= MSS -> exists st, rtc (wstep bs) st0 st /\ ws_sent st = zlen bs /\ ws_pending st = None /\
     ws_log st = [] /\ seqNum (fin_segment (ws_sock st)) = cumWriteUNA s).
Proof.
  intros Hsize Hsf Hwin Hc0 Htop st0. unfold SendFile in Hsf. apply bind_Ret_inv in Hsf as ([[r t1] e1] & Hv & Hsf).
  destruct r as [e|s']; [done|]. apply bind_Ret_inv in Hsf as (v & Hw & Hsf). destruct v as [e|]; [done|].
  injection Hsf as -> Hbs <- <-. destruct (VConnect_socket _ _ _ _ _ _ _ _ _ Hv) as (sid & k & ci & ->).
  pose proof (zlen_nonneg bs).
  assert (Hr : sender_ready (Idle (connected_socket sid k ci) tm done) (AckNum ci) []).
  { apply connected_ready; [cbn in Hc0, Htop; lia|exact Hwin]. }
  assert (Hfin : forall left st, winv (AckNum ci) [] bs left st ->
    seqNum (fin_segment (ws_sock st)) = AckNum ci + zlen (ws_cut st) - zlen left).
  { intros left st Hi. destruct (sd_at_facts _ _ _ (v_at _ _ _ _ _ Hi)) as (F & _).
    destruct (winv_facts _ _ _ _ _ Hi) as ((rest & Hrest) & _). apply (f_equal zlen) in Hrest.
    destruct (v_sent _ _ _ _ _ Hi). rewrite zlen_app, zlen_ztake in Hrest by lia. zlen_facts.
    apply (fin_number _ _ _ (v_at _ _ _ _ _ Hi)). cbn in Hc0, Htop. pose proof (zlen_nonneg rest). split; [|lia].
    pose proof (v_out _ _ _ _ _ Hi) as Ho. apply (f_equal zlen) in Ho. rewrite !zlen_app in Ho.
    change (zlen (@nil byte)) with 0 in Ho. pose proof (zlen_nonneg (concat (map payload (fresh (ws_log st))))). lia. }
  split; [subst bs; by apply file_bytes_spec|]. split; [unfold VWrite_start; cbn [sd_sock]; by rewrite Hw|]. split.
  - intros st Hsteps. destruct (winv_steps _ _ _ _ _ _ Htop (winv_start bs _ _ _ Hr) Hsteps) as (left & Hi).
    destruct (winv_facts _ _ _ _ _ Hi) as ((rest & H1) & H2 & H3). exists rest, left.
    split; [done|]. split; [exact (v_out _ _ _ _ _ Hi)|].
    split; [by pose proof (v_chain _ _ _ _ _ Hi) as Hch; change (zlen (@nil byte)) with 0 in Hch; rewrite Z.sub_0_r in Hch|].
    split; [intros E1 E2; split; [by apply H2|intros E3; by apply H3]|].
    intros s2 e Hc. unfold SendFile_close in Hc.
    assert (Hc' := Hc). apply VClose_edge in Hc'. unfold VClose in Hc. case_bool_decide; [done|]. cbv zeta in Hc.
    destruct (stateMtx _); [done|]. destruct (close_state (state (ws_sock st))) as [st'|] eqn:Ec; [|by destruct Hc'].
    destruct (unackedMtx _); [done|]. apply bind_Ret_inv in Hc as (ev & _ & [= <- <-]).
    split; [|split; [done|by apply Hfin]]. cbn. destruct (state (ws_sock st)); try done; injection Ec as <-; auto.
  - intros Hb. destruct (one_chunk_taken _ tm done _ bs Hr) as (st & R & E1 & E2 & E3); [done..|].
    exists st. split; [done|]. split; [done|]. split; [done|]. split; [done|].
    destruct (winv_steps _ _ _ _ _ _ Htop (winv_start bs _ _ _ Hr) R) as (left & Hi). rewrite (Hfin left st Hi).
    pose proof (v_out _ _ _ _ _ Hi) as Ho. rewrite E3 in Ho. cbn in Ho. rewrite Ho. cbn. lia.
Qed.
End sending.
