(* ===== verification/Printing.v ===== *)
(** * Tables for the terminal ([PrintInterfaces], [PrintNeighbors], [PrintRoutes], [PrintTable])

    The lines the commands [li], [ln], [lr] and [ls] print, with the padding of
    [fmt.Printf].  The order of a map's lines is an arbitrary enumeration of it. *)
From Stdlib Require Import Strings.Ascii.
From S2P Require Import Prelude Netip Netstack Config Node Routing TcpTypes.
Local Open Scope Z_scope.

(** ** Padding *)
Fixpoint blanks (n : nat) : string :=
  match n with O => EmptyString | S n' => String " "%char (blanks n') end.

(** [%ws] and [%-ws]. *)
Definition pad_left (w : nat) (s : string) : string := blanks (w - String.length s) +:+ s.
Definition pad_right (w : nat) (s : string) : string := s +:+ blanks (w - String.length s).

(** [Prefix.String] and [AddrPort.String]. *)
Definition Prefix_String (p : Prefix) : string :=
  match pAddr p with
  | AddrZero => "invalid Prefix"
  | a => Addr_String a +:+ ("/" +:+ fmt_d (pBits p))
  end.
Definition AddrPort_String (ap : AddrPort) : string :=
  match apAddr ap with
  | AddrZero => "invalid AddrPort"
  | a => Addr_String a +:+ (":" +:+ fmt_d (apPort ap))
  end.

(** ** The node's tables *)
Section tables.
Context `{MI : MapIter}.

Definition interface_line (iface : Interface) : string :=
  pad_left 4 (if_Name (i_cfg iface)) +:+ ("  " +:+ (Addr_String (AssignedIP (i_cfg iface)) +:+ ("/" +:+
    (fmt_d (pBits (AssignedPrefix (i_cfg iface))) +:+ (" " +:+
      pad_left 4 (if i_enabled iface then "up" else "down")))))).
Definition PrintInterfaces (n : Node) : list event :=
  EPrint "Name  Addr/Prefix State" :: map (fun e => EPrint (interface_line e.2)) (iter_if (interfaces n)).

Definition neighbor_line (nb : NeighborConfig) : string :=
  pad_left 4 (InterfaceName nb) +:+ ("    " +:+ (pad_left 9 (Addr_String (DestAddr nb)) +:+ ("  " +:+
    pad_left 15 (AddrPort_String (nb_UDPAddr nb))))).
Definition PrintNeighbors (n : Node) : list event :=
  EPrint "Iface          VIP          UDPAddr" :: map (fun nb => EPrint (neighbor_line nb)) (neighbors n).

Definition route_line (info : ForwardingInfo) : string :=
  if bool_decide (route_type info = "L") then
    route_type info +:+ ("  " +:+ (pad_right 11 (Prefix_String (pre info)) +:+ ("  LOCAL:" +:+
      (pad_right 5 (ifname info) +:+ "    0"))))
  else
    route_type info +:+ ("  " +:+ (pad_left 11 (Prefix_String (pre info)) +:+ (" " +:+
      (pad_left 10 (Addr_String (next info)) +:+
       (if bool_decide (route_type info = "R") then "     " +:+ pad_left 2 (fmt_d (cost info)) else "      -"))))).
Definition PrintRoutes (n : Node) : list event :=
  EPrint "T       Prefix   Next hop   Cost" :: map (fun e => EPrint (route_line e.2)) (iter_fwd (forwardingTable n)).
End tables.

(** ** The socket table *)
Definition stateMap (st : tcp_state) : string :=
  match st with
  | LISTEN => "LISTEN"
  | SYN_SENT => "SYN_SENT"
  | SYN_RECEIVED => "SYN_RECEIVED"
  | ESTABLISHED => "ESTABLISHED"
  | FIN_WAIT_1 => "FIN_WAIT_1"
  | FIN_WAIT_2 => "FIN_WAIT_2"
  | CLOSE_WAIT => "CLOSE_WAIT"
  | LAST_ACK => "LAST_ACK"
  | TIME_WAIT => "TIME_WAIT"
  end.

Definition printSocket (s : Socket) : string :=
  match s with
  | Normal s =>
      let k := sk s in
      "  " +:+ (fmt_d (SID s) +:+ ("   " +:+ (pad_left 8 (Addr_String (LocalAddr k)) +:+ (" " +:+
        (pad_left 5 (fmt_d (LocalPort k)) +:+ ("   " +:+ (pad_left 8 (Addr_String (RemoteAddr k)) +:+ (" " +:+
          (pad_left 5 (fmt_d (RemotePort k)) +:+ (" " +:+ pad_left 12 (stateMap (state s))))))))))))
  | Listening l =>
      "  " +:+ (fmt_d (l_SID l) +:+ ("    0.0.0.0 " +:+ (pad_left 5 (fmt_d (localPort l)) +:+
        "    0.0.0.0     0       LISTEN")))
  end.

(** [entries] enumerates [t.SocketTable]. *)
Definition PrintTable (entries : list (SocketTableKey * Socket)) : list event :=
  EPrint "SID      LAddr LPort      RAddr RPort       Status" :: map (fun e => EPrint (printSocket e.2)) entries.

Example route_line_ex :
  route_line (mkFwd "R" (ip4 10 0 0 2) (mkPrefix (ip4 10 1 0 0) 24) 2 0 "") = "R  10.1.0.0/24   10.0.0.2      2".
Proof. reflexivity. Qed.
