(* ===== verification/Repl.v ===== *)
(** * The command line ([pkg/repl/repl.go]) and the programs ([cmd/vhost], [cmd/vrouter])

    One iteration of [REPL]: the line is cleaned, cut into words and dispatched; a
    command calls the operations of the node and of the TCP stack.  The router
    passes no stack ([None], Go's nil).  Text is ASCII; the prompt itself is left out
    of the output.  A goroutine a command starts is part of the result, and a
    command that goes on in [VWrite], past its test of the state, ends in the socket and
    the message it was called with. *)
From Stdlib Require Import Strings.Ascii Strings.String Strings.Byte.
From S2P Require Import Prelude Rip Netip Ipv4Header Netstack Config Node Routing RipProto LnxConfig Packets TcpTypes TcpRing TcpReceiver TcpStack TcpClose TcpSender FileTransfer Printing.
Local Open Scope Z_scope.
Local Open Scope go_scope.
#[local] Arguments String.append : simpl nomatch.

(** ** Cleaning a line *)
Fixpoint TrimRight (s : string) : string :=
  match s with
  | EmptyString => EmptyString
  | String c s' =>
      match TrimRight s' with
      | EmptyString => if isSpace c then EmptyString else String c EmptyString
      | t => String c t
      end
  end.
(** [strings.TrimSpace] and [strings.ToLower]. *)
Definition TrimSpace (s : string) : string := TrimRight (SkipSpace s).

Definition lower (c : ascii) : ascii :=
  let n := N_of_ascii c in
  if bool_decide (65 <= n <= 90)%N then ascii_of_N (n + 32) else c.
Fixpoint ToLower (s : string) : string :=
  match s with
  | EmptyString => EmptyString
  | String c s' => String (lower c) (ToLower s')
  end.

Definition cleanInput (text : string) : string := ToLower (TrimSpace text).

(** [strings.Join(ws, " ")] and [[]byte(s)]. *)
Definition Join (ws : list string) : string := String.concat " " ws.
Definition bytes_of (s : string) : list byte := list_byte_of_string s.

(** ** Results *)
Inductive goroutine : Type :=
  | GListenAndAccept (port : Z)
  | GThreads (s : NormalSocket)
  | GReceiveFile (filename : string) (l : ListenSocket).

(** Back at the prompt; in [VWrite]'s loop, past its test, with the socket and the
    message ([TcpStream.VWrite_start]); in the one of [SendFile]. *)
Inductive repl_result : Type :=
  | Prompt (t : option TCPStack) (out : list event) (gs : list goroutine)
  | InWrite (t : TCPStack) (s : NormalSocket) (message : list byte)
  | InSendFile (t : TCPStack) (s : NormalSocket) (message : list byte) (out : list event).

(** What the command's environment provides: the ports drawn and the events waited
    for by [VConnect], and for a file name the error of [os.Open] or the results of
    [Stat] and [Read]. *)
Record world := mkWorld {
  draws : list Z;
  waits : list wait_event;
  os_Open : string -> string + ((string + Z) * (string + list byte))
}.

(** A method of a nil stack that reads a field. *)
Definition with_stack {A} (t : option TCPStack) (f : TCPStack -> outcome A) : outcome A :=
  match t with
  | None => Panic "nil pointer dereference"
  | Some t => f t
  end.

Section repl.
Context `{NS : Netstack} `{MI : MapIter}.
(** An enumeration of the socket table. *)
Variable iter_sk : gmap SocketTableKey Socket -> list (SocketTableKey * Socket).

Definition say (t : option TCPStack) (line : string) : outcome repl_result := Ret (Prompt t [EPrint line] []).

(** ** [listenAndAccept] *)
(** Connections are accepted until the call waits for a message; each takes two of
    the queue, so its length is enough fuel. *)
Fixpoint accept_loop (fuel : nat) (n : Node) (t : TCPStack) (l : ListenSocket) (queue : list TCPInfo) :
    outcome (list NormalSocket * TCPStack * list event) :=
  match fuel with
  | O => Ret ([], t, [])
  | S fuel' =>
      match VAccept n t l queue with
      | Ret (s, t', queue', evs) =>
          '(ss, t'', evs') ← accept_loop fuel' n t' l queue';
          Ret (s :: ss, t'', evs ++ evs')
      | Block _ => Ret ([], t, [])
      | Panic w => Panic w
      end
  end.

Definition listenAndAccept (n : Node) (t : option TCPStack) (port : Z) (queue : list TCPInfo) :
    outcome (string + (list NormalSocket * TCPStack * list event)) :=
  with_stack t (fun t =>
    match VListen t port with
    | (inl e, _) => Ret (inl e)
    | (inr l, t') => r ← accept_loop (length queue) n t' l queue; Ret (inr r)
    end).

(** ** Commands *)
Definition repl_toggle (n : Node) (t : option TCPStack) (usage : string) (tokens : list string) (up : bool) :
    outcome repl_result :=
  match tokens with
  | [_; name] =>
      e ← ToggleInterface n name up;
      Ret (Prompt t (match e with Some _ => [EPrint "Invalid interface"] | None => [] end) [])
  | _ => say t usage
  end.

Definition repl_send (n : Node) (t : option TCPStack) (tokens : list string) : outcome repl_result :=
  match tokens with
  | _ :: dst :: w :: message =>
      a ← MustParseAddr dst;
      match FindNext n a with
      | None => say t "Error: No match in forwarding table."
      | Some _ => evs ← HandleSend n a (bytes_of (Join (w :: message))) 0; Ret (Prompt t evs [])
      end
  | _ => say t "send usage: send <vip> <message ...>"
  end.

Definition repl_a (t : option TCPStack) (tokens : list string) : outcome repl_result :=
  match tokens with
  | [_; p] =>
      let '(port, ok) := ParseUint16 p in
      Ret (Prompt t (if ok then [] else [EPrint "Could not parse port as int"]) [GListenAndAccept port])
  | _ => say t "a usage: a <port>"
  end.

Definition repl_c (n : Node) (t : option TCPStack) (w : world) (tokens : list string) : outcome repl_result :=
  match tokens with
  | [_; dst; p] =>
      match ParseUint16 p with
      | (_, false) => say t "Could not parse port as int"
      | (port, true) =>
          a ← MustParseAddr dst;
          with_stack t (fun t =>
            '(r, t', evs) ← VConnect n t a port (draws w) (waits w);
            match r with
            | inl e => Ret (Prompt (Some t') (evs ++ [EPrint ("Error: " +:+ e)]) [])
            | inr s => Ret (Prompt (Some t') evs [GThreads s])
            end)
      end
  | _ => say t "c usage: c <vip> <port>"
  end.

(** The lookup shared by [s], [r] and [cl]. *)
Definition find_socket (t : option TCPStack) (sid : Z) (f : TCPStack -> SocketTableKey -> Socket -> outcome repl_result) :
    outcome repl_result :=
  with_stack t (fun t =>
    match SID_to_sk t !! sid with
    | None => say (Some t) "Could not find socket"
    | Some k =>
        match SocketTable t !! k with
        | None => say (Some t) "Could not find socket"
        | Some s => f t k s
        end
    end).

(** [socket.( *tcpstack.NormalSocket)] *)
Definition as_normal {A} (s : Socket) (f : NormalSocket -> outcome A) : outcome A :=
  match s with
  | Normal s => f s
  | Listening _ => Panic "interface conversion"
  end.

Definition repl_s (t : option TCPStack) (tokens : list string) : outcome repl_result :=
  match tokens with
  | _ :: sid :: w :: message =>
      match ParseUint16 sid with
      | (_, false) => say t "could not parse socket ID as int"
      | (sock, true) =>
          find_socket t sock (fun t k s => as_normal s (fun s =>
            let message := bytes_of (Join (w :: message)) in
            err ← VWrite_test s;
            match err with
            | Some _ => Ret (Prompt (Some t) [] [])
            | None => Ret (InWrite t s message)
            end))
      end
  | _ => say t "s usage: s <socketID> <bytes>"
  end.

Definition repl_r (t : option TCPStack) (tokens : list string) : outcome repl_result :=
  match tokens with
  | [_; sid; num] =>
      match ParseUint16 sid with
      | (_, false) => say t "Could not parse socket ID as int"
      | (sock, true) =>
          match ParseUint16 num with
          | (_, false) => say t "Could not parse numbytes as int"
          | (num, true) =>
              find_socket t sock (fun t k s => as_normal s (fun s =>
                '(r, s') ← VRead s num None;
                let out := match r with
                           | inl _ => []
                           | inr bs => [EPrint ("Read " +:+ (fmt_d (zlen bs) +:+ (" bytes: " +:+ string_of_list_byte bs)))]
                           end in
                Ret (Prompt (Some (set_socket t k (Normal s'))) out [])))
          end
      end
  | _ => say t "r usage: r <socket ID> <numbytes>"
  end.

Definition repl_cl (n : Node) (t : option TCPStack) (tokens : list string) : outcome repl_result :=
  match tokens with
  | _ :: sid :: _ =>
      match ParseUint16 sid with
      | (_, false) => say t "Could not parse socket ID as int"
      | (sock, true) =>
          find_socket t sock (fun t k s =>
            match s with
            | Normal s =>
                '(_, s', evs) ← VClose n s;
                Ret (Prompt (Some (set_socket t k (Normal s'))) evs [])
            | Listening l => Ret (Prompt (Some (VClose_listen t l)) [] [])
            end)
      end
  | _ => say t "cl usage: cl <socketID>"
  end.

Definition repl_sf (n : Node) (t : option TCPStack) (w : world) (tokens : list string) : outcome repl_result :=
  match tokens with
  | _ :: filename :: dst :: p :: _ =>
      match os_Open w filename with
      | inl e => say t e
      | inr (stat, read) =>
          match ParseUint16 p with
          | (_, false) => say t "Could not parse port as int"
          | (port, true) =>
              a ← MustParseAddr dst;
              match stat, read with
              | inl e, _ => say t e
              | inr _, inl e => say t e
              | _, _ =>
                  with_stack t (fun t =>
                    '(r, t', evs) ← SendFile n t stat read a port (draws w) (waits w);
                    match r with
                    | inl e => Ret (Prompt (Some t') (evs ++ [EPrint e]) [])
                    | inr (s, bs) => Ret (InSendFile t' s bs evs)
                    end)
              end
          end
      end
  | _ => say t "sf usage: sf <filename> <vip> <port>"
  end.

Definition repl_rf (t : option TCPStack) (tokens : list string) : outcome repl_result :=
  match tokens with
  | _ :: filename :: p :: _ =>
      match ParseUint16 p with
      | (_, false) => say t "Could not parse port as int"
      | (port, true) =>
          with_stack t (fun t =>
            match ReceiveFile t port with
            | (inl _, t') => Ret (Prompt (Some t') [] [])
            | (inr l, t') => Ret (Prompt (Some t') [] [GReceiveFile filename l])
            end)
      end
  | _ => say t "rf usage: rf <filename> <port>"
  end.

(** ** One line *)
Definition dispatch_command (n : Node) (t : option TCPStack) (w : world) (tokens : list string) : outcome repl_result :=
  let head := default EmptyString (tokens !! 0%nat) in
  if bool_decide (head = "li") then Ret (Prompt t (PrintInterfaces n) [])
  else if bool_decide (head = "ln") then Ret (Prompt t (PrintNeighbors n) [])
  else if bool_decide (head = "lr") then Ret (Prompt t (PrintRoutes n) [])
  else if bool_decide (head = "down") then repl_toggle n t "down usage: down <ifname>" tokens false
  else if bool_decide (head = "up") then repl_toggle n t "up usage: up <ifname>" tokens true
  else if bool_decide (head = "send") then repl_send n t tokens
  else if bool_decide (head = "a") then repl_a t tokens
  else if bool_decide (head = "c") then repl_c n t w tokens
  else if bool_decide (head = "ls") then
    with_stack t (fun t => Ret (Prompt (Some t) (PrintTable (iter_sk (SocketTable t))) []))
  else if bool_decide (head = "s") then repl_s t tokens
  else if bool_decide (head = "r") then repl_r t tokens
  else if bool_decide (head = "cl") then repl_cl n t tokens
  else if bool_decide (head = "sf") then repl_sf n t w tokens
  else if bool_decide (head = "rf") then repl_rf t tokens
  else Ret (Prompt t [] []).

Definition REPL (n : Node) (t : option TCPStack) (w : world) (text : string) : outcome repl_result :=
  dispatch_command n t w (Split " "%char (cleanInput text)).
End repl.

(** ** The programs *)
(** What [main] comes to: the usage line, [log.Fatal], or the command line of a
    started node with or without a TCP stack. *)
Inductive started : Type :=
  | Usage
  | Fatal (e : option (Z * parse_error))
  | Running (n : Node) (t : option TCPStack) (out : list event).

Section main.
Context `{NS : Netstack} `{MI : MapIter}.

(** [lnxPath] is the value of [--config] and [file] the lines of that file. *)
Definition start (stack : Node -> option TCPStack) (lnxPath : string) (file : option (list string)) : outcome started :=
  if bool_decide (lnxPath = EmptyString) then Ret Usage
  else
    r ← ParseConfig file;
    match r with
    | inl e => Ret (Fatal e)
    | inr lnxConfig =>
        '(n, out) ← Initialize lnxConfig;
        Ret (Running n (stack n) out)
    end.

Definition vhost_main : string -> option (list string) -> outcome started := start (fun host => Some (Initialize_stack host)).
Definition vrouter_main : string -> option (list string) -> outcome started := start (fun _ => None).
End main.

(** ** What the cleaning keeps *)
Lemma ToLower_app a b : ToLower (a +:+ b) = ToLower a +:+ ToLower b.
Proof. induction a as [|c a IH]; [done|]. simpl. by rewrite IH. Qed.

(** Text that [ToLower] keeps. *)
Fixpoint lowered (s : string) : bool :=
  match s with
  | EmptyString => true
  | String c s' => bool_decide (lower c = c) && lowered s'
  end.

Lemma ToLower_lowered s : lowered s = true -> ToLower s = s.
Proof.
  induction s as [|c s IH]; [done|]. simpl. intros [->%bool_decide_eq_true Hs]%andb_true_iff. by rewrite IH.
Qed.

Lemma lowered_app a b : lowered (a +:+ b) = lowered a && lowered b.
Proof. induction a as [|c a IH]; [done|]. simpl. rewrite IH. apply andb_assoc. Qed.

Lemma digits_lowered t : all_digits t = true -> lowered t = true.
Proof.
  induction t as [|c t IH]; [done|]. simpl. unfold digit_val. case_bool_decide as Hc; [|done]. intros Ht.
  rewrite IH by done. rewrite bool_decide_true; [done|].
  unfold lower. rewrite bool_decide_false; [done|]. intros [? ?]. destruct Hc as [_ Hc]. lia.
Qed.

Lemma num_lowered n : 0 <= n < 65536 -> lowered (fmt_d n) = true.
Proof. intros. by apply digits_lowered, fmt_d_digits. Qed.

Lemma addr_lowered a : Addr_wf a -> lowered (Addr_String a) = true.
Proof.
  destruct a as [|z]; [done|]. intros Hz. cbn [Addr_String]. unfold dotted. rewrite !lowered_app.
  assert (Ho : forall i, 0 <= i -> lowered (fmt_d (octet z i)) = true).
  { intros i Hi. apply num_lowered. pose proof (octet_range z i Hi). lia. }
  by rewrite !Ho by lia.
Qed.

(** A message that does not end in a space. *)
Definition ends_ok (m : string) : Prop := m <> EmptyString /\ TrimRight m = m.

Lemma TrimRight_app a m : ends_ok m -> TrimRight (a +:+ m) = a +:+ m.
Proof.
  intros [Hn Hm]. induction a as [|c a IH]; [done|]. simpl. rewrite IH. by destruct a; [destruct m|].
Qed.

Lemma Split_nonempty s : exists w ws, Split " "%char s = w :: ws.
Proof.
  destruct s as [|c s]; [by exists EmptyString, []|]. cbn [Split].
  case_bool_decide; [by eexists _, _|]. destruct (Split _ s); by eexists _, _.
Qed.

Lemma Join_char c w ws : Join (String c w :: ws) = String c (Join (w :: ws)).
Proof. by destruct ws. Qed.

Lemma Join_Split s : Join (Split " "%char s) = s.
Proof.
  induction s as [|c s IH]; [done|]. cbn [Split]. destruct (Split_nonempty s) as (w & ws & E). rewrite E in *.
  case_bool_decide as Hc; [|by rewrite Join_char, IH]. subst c.
  change (Join (EmptyString :: w :: ws)) with (String " "%char (Join (w :: ws))). by rewrite IH.
Qed.

(** The words of a command with one argument and a message. *)
Lemma command_words head arg m :
  word head -> lowered head = true -> no_space arg = true -> lowered arg = true -> ends_ok m ->
  Split " "%char (cleanInput (head +:+ (String " "%char (arg +:+ (String " "%char m))))) =
    head :: arg :: Split " "%char (ToLower m).
Proof.
  intros Hh Hl Ha Hla Hm. unfold cleanInput, TrimSpace.
  assert (Hs : SkipSpace (head +:+ String " "%char (arg +:+ String " "%char m)) =
    head +:+ String " "%char (arg +:+ String " "%char m)) by (by apply SkipSpace_word).
  rewrite Hs.
  assert (Happ : head +:+ String " "%char (arg +:+ String " "%char m) =
    (head +:+ (" " +:+ (arg +:+ " "))) +:+ m).
  { rewrite !string_app_assoc. done. }
  rewrite Happ, TrimRight_app, <- Happ by done.
  rewrite ToLower_app. cbn [ToLower]. rewrite ToLower_app. cbn [ToLower].
  change (lower " ") with " "%char. rewrite !ToLower_lowered by done.
  rewrite Split_cons by apply Hh. by rewrite Split_cons.
Qed.

(** ** Commands *)
Section commands.
Context `{NS : Netstack} `{MI : MapIter} (iter_sk : gmap SocketTableKey Socket -> list (SocketTableKey * Socket)).

(** C23. A typed message arrives as typed, in lower case: [send] hands the text
    after the address, and [s] the text after the socket number, to the node or the
    socket with every letter lowered and nothing else changed, blanks inside it
    included. *)
Theorem typed_message (n : Node) (t : option TCPStack) (ts : TCPStack) (w : world) (a : Addr) (sid : Z)
    (k : SocketTableKey) (s : NormalSocket) (m : string) :
  ends_ok m ->
  (Addr_wf a -> FindNext n a <> None ->
   REPL iter_sk n t w ("send" +:+ (" " +:+ (Addr_String a +:+ (" " +:+ m)))) =
     (evs ← HandleSend n a (bytes_of (ToLower m)) 0; Ret (Prompt t evs []))) /\
  (0 <= sid < 65536 -> SID_to_sk ts !! sid = Some k -> SocketTable ts !! k = Some (Normal s) ->
   REPL iter_sk n (Some ts) w ("s" +:+ (" " +:+ (fmt_d sid +:+ (" " +:+ m)))) =
     (err ← VWrite_test s;
      match err with
      | Some _ => Ret (Prompt (Some ts) [] [])
      | None => Ret (InWrite ts s (bytes_of (ToLower m)))
      end)).
Proof.
  intros Hm. destruct (Split_nonempty (ToLower m)) as (x & xs & Ex). split.
  - intros Ha Hf. unfold REPL.
    pose proof (command_words "send" (Addr_String a) m ltac:(done) eq_refl (proj2 (word_Addr a Ha))
      (addr_lowered a Ha) Hm) as E.
    change (String " "%char (Addr_String a +:+ String " "%char m)) with (" " +:+ (Addr_String a +:+ (" " +:+ m))) in E.
    rewrite E. change (dispatch_command iter_sk n t w ("send" :: Addr_String a :: Split " " (ToLower m)))
      with (repl_send n t ("send" :: Addr_String a :: Split " " (ToLower m))).
    rewrite Ex. unfold repl_send. rewrite MustParseAddr_String by done. cbn [mbind outcome_bind].
    destruct (FindNext n a); [|done]. by rewrite <- Ex, Join_Split.
  - intros Hs Hk Hso. unfold REPL. destruct (num_text sid) as (Hw & _ & Hp); [lia|].
    pose proof (command_words "s" (fmt_d sid) m ltac:(done) eq_refl (proj2 Hw) (num_lowered sid Hs) Hm) as E.
    change (String " "%char (fmt_d sid +:+ String " "%char m)) with (" " +:+ (fmt_d sid +:+ (" " +:+ m))) in E.
    rewrite E. change (dispatch_command iter_sk n (Some ts) w ("s" :: fmt_d sid :: Split " " (ToLower m)))
      with (repl_s (Some ts) ("s" :: fmt_d sid :: Split " " (ToLower m))).
    rewrite Ex. unfold repl_s. rewrite Hp. unfold find_socket, with_stack. rewrite Hk, Hso. unfold as_normal.
    cbv zeta. by rewrite <- Ex, Join_Split.
Qed.

(** ** Crashes *)
Definition panics {A} (m : outcome A) : Prop := exists why, m = Panic why.

(** The socket a number names, if there is one, and is such that [P]. *)
Definition names_socket (P : Socket -> Prop) (t : TCPStack) (sid : Z) : Prop :=
  exists k x, SID_to_sk t !! sid = Some k /\ SocketTable t !! k = Some x /\ P x.

(** A connection whose handshake has not ended; a socket that cannot be written or read. *)
Definition in_handshake (x : Socket) : Prop := match x with Normal s => state s = SYN_SENT | Listening _ => False end.
Definition no_stream (x : Socket) : Prop := match x with Normal s => state s = SYN_SENT | Listening _ => True end.

(** [P] of the socket a word names; a missing stack counts as such a socket. *)
Definition on_socket (P : Socket -> Prop) (t : option TCPStack) (sid : string) : Prop :=
  (ParseUint16 sid).2 = true /\ match t with None => True | Some ts => names_socket P ts (ParseUint16 sid).1 end.

(** The lines that crash the program: switching an existing interface (its mutex in the
    map is nil), an address that does not parse, a socket that is the wrong kind of
    socket, and whatever needs the stack of a router. *)
Definition crashes (n : Node) (t : option TCPStack) (w : world) (tokens : list string) : Prop :=
  match tokens with
  | [] => False
  | head :: args =>
      if bool_decide (head = "down") || bool_decide (head = "up") then
        match args with [name] => is_Some (interfaces n !! name) | _ => False end
      else if bool_decide (head = "send") then
        match args with dst :: _ :: _ => ParseAddr dst = None | _ => False end
      else if bool_decide (head = "c") then
        match args with [dst; p] => (ParseUint16 p).2 = true /\ (ParseAddr dst = None \/ t = None) | _ => False end
      else if bool_decide (head = "ls") then t = None
      else if bool_decide (head = "s") then match args with sid :: _ :: _ => on_socket no_stream t sid | _ => False end
      else if bool_decide (head = "r") then
        match args with [sid; num] => (ParseUint16 num).2 = true /\ on_socket no_stream t sid | _ => False end
      else if bool_decide (head = "cl") then match args with sid :: _ => on_socket in_handshake t sid | _ => False end
      else if bool_decide (head = "sf") then
        match args with
        | filename :: dst :: p :: _ =>
            match os_Open w filename with
            | inr (stat, read) =>
                (ParseUint16 p).2 = true /\
                (ParseAddr dst = None \/ t = None /\ (exists size, stat = inr size) /\ exists data, read = inr data)
            | inl _ => False
            end
        | _ => False
        end
      else if bool_decide (head = "rf") then
        match args with _ :: p :: _ => (ParseUint16 p).2 = true /\ t = None | _ => False end
      else False
  end.

Lemma panics_Ret {A} (a : A) : panics (Ret a) <-> False.
Proof. split; [by intros [? ?]|done]. Qed.

Lemma panics_Block {A} (why : string) : panics (Block why : outcome A) <-> False.
Proof. split; [by intros [? ?]|done]. Qed.

Lemma panics_Panic {A} (why : string) : panics (Panic why : outcome A) <-> True.
Proof. split; [done|by eexists]. Qed.

Lemma panics_bind {A B} (m : outcome A) (f : A -> outcome B) :
  panics (mbind f m) <-> panics m \/ exists a, m = Ret a /\ panics (f a).
Proof.
  split.
  - intros [why H]. destruct m as [a|w|w]; [right; exists a; split; [done|by exists why]|left; by exists w|done].
  - intros [[why ->]|(a & -> & why & H)]; exists why; [done|exact H].
Qed.

Lemma panics_map {A B} (m : outcome A) (f : A -> B) : panics (a ← m; Ret (f a)) <-> panics m.
Proof. rewrite panics_bind. split; [intros [?|(a & _ & [? ?])]; done|by left]. Qed.

Lemma MustParseAddr_panics dst : panics (MustParseAddr dst) <-> ParseAddr dst = None.
Proof. unfold MustParseAddr. destruct (ParseAddr dst); [rewrite panics_Ret|rewrite panics_Panic]; done. Qed.

Lemma MustParseAddr_wf s a : MustParseAddr s = Ret a -> Addr_wf a.
Proof. unfold MustParseAddr. destruct (ParseAddr s) eqn:E; [|done]. intros [= <-]. by eapply ParseAddr_wf. Qed.

(** *** Sending does not crash *)
Section sending.
Context `{ML : !MapIterLaws}.

(** Every interface has an address. *)
Definition node_addrs (n : Node) : Prop := forall k i, interfaces n !! k = Some i -> Addr_wf (AssignedIP (i_cfg i)).

Lemma makePacket_no_panic src dst proto ttl data :
  Addr_wf src -> Addr_wf dst -> ~ panics (makePacket src dst proto ttl data).
Proof.
  intros Hs Hd. unfold makePacket. rewrite !MustParseAddr_String by done. cbn [mbind outcome_bind]. cbv zeta.
  assert (H4 : Is4 dst = true) by (by destruct dst). intros [why H]. revert H.
  unfold Marshal. cbn [h_Len h_Dst set_Checksum]. rewrite H4. by rewrite bool_decide_false by (unfold HeaderLen; lia).
Qed.

Lemma chan_send_no_panic n i p a : ~ panics (chan_send n i p a).
Proof. unfold chan_send. by destruct (i_chan _); intros [? ?]. Qed.

Lemma send_on_no_panic n ifs iface dst next_addr proto data :
  (forall k i, (k, i) ∈ ifs -> Addr_wf (AssignedIP (i_cfg i))) -> Addr_wf dst ->
  ~ panics (send_on_interfaces n ifs iface dst next_addr proto data).
Proof.
  intros Hi Hd. induction ifs as [|[k i] ifs IH]; cbn [send_on_interfaces]; [by intros [? ?]|].
  assert (IH' : ~ panics (send_on_interfaces n ifs iface dst next_addr proto data))
    by (apply IH; intros k' i' H; apply (Hi k'); by right).
  case_bool_decide; [|done]. rewrite panics_bind. intros [H'|(p & _ & H')].
  - revert H'. apply makePacket_no_panic; [|done]. by apply (Hi k); left.
  - rewrite panics_bind in H'. destruct H' as [H'|(ev & _ & H')]; [by apply chan_send_no_panic in H'|].
    by rewrite panics_map in H'.
Qed.

Lemma HandleSend_no_panic n dst data proto : node_addrs n -> Addr_wf dst -> ~ panics (HandleSend n dst data proto).
Proof.
  intros Hn Hd. unfold HandleSend. destruct (FindNext n dst) as [[nx ty]|]; [|by intros [? ?]].
  destruct (neighborUDP n _); [|by intros [? ?]]. apply send_on_no_panic; [|done].
  intros k i Hk%elem_of_iter_if. by apply (Hn k).
Qed.

Lemma send_segment_no_panic n p : node_addrs n -> Addr_wf (destIp p) -> ~ panics (send_segment n p).
Proof. apply HandleSend_no_panic. Qed.

Lemma connect_loop_no_panic n syn i ws :
  node_addrs n -> Addr_wf (destIp syn) -> ~ panics (connect_loop n syn i ws).
Proof.
  intros Hn Hd. revert i. induction ws as [|wv ws IH]; intros i; cbn [connect_loop]; rewrite panics_bind;
    (intros [H|(e & _ & H)]; [by apply send_segment_no_panic in H|]); [by rewrite panics_Block in H|].
  destruct wv as [ci|]; repeat case_bool_decide; rewrite ?panics_Ret in H; try done.
  all: apply panics_bind in H as [H|([r e2] & _ & H)]; [by apply IH in H|by rewrite panics_Ret in H].
Qed.

Lemma VConnect_no_panic n t a port ds ws : node_addrs n -> Addr_wf a -> ~ panics (VConnect n t a port ds ws).
Proof.
  intros Hn Ha. unfold VConnect. destruct (pick_port t ds) as [sp|]; [|by intros [? ?]].
  rewrite panics_bind. intros [H|([r e] & _ & H)]; [by apply connect_loop_no_panic in H|].
  destruct r as [u|ci]; [by rewrite panics_Ret in H|]. cbv zeta in H.
  rewrite panics_map in H. by apply send_segment_no_panic in H.
Qed.

Lemma VWrite_test_panics s : panics (VWrite_test s) <-> state s = SYN_SENT.
Proof.
  unfold VWrite_test. case_bool_decide; [by rewrite panics_Panic|]. split; [|done].
  destruct (stateMtx s); [by rewrite panics_Block|]. by case_bool_decide; rewrite panics_Ret.
Qed.

Lemma VRead_panics s nb : panics (VRead s nb None) <-> state s = SYN_SENT.
Proof.
  unfold VRead, VRead_test. case_bool_decide as Hs; [by rewrite panics_bind, panics_Panic; split; [|left]|]. split; [|done].
  destruct (stateMtx s); [by rewrite panics_bind, panics_Block; intros [?|(? & ? & _)]|].
  case_bool_decide; cbn [mbind outcome_bind]; [by rewrite panics_Ret|].
  unfold VRead_locked. case_bool_decide; [by rewrite panics_Block|].
  destruct (read_bytes _ _ _). by rewrite panics_Ret.
Qed.

Lemma VClose_panics n s : node_addrs n -> Addr_wf (RemoteAddr (sk s)) -> panics (VClose n s) <-> state s = SYN_SENT.
Proof.
  intros Hn Ha. unfold VClose. case_bool_decide; [by rewrite panics_Panic|]. split; [|done]. cbv zeta.
  destruct (stateMtx s); [by rewrite panics_Block|]. destruct (close_state (state s)); [|by rewrite panics_Ret].
  destruct (unackedMtx s); [by rewrite panics_Block|]. rewrite panics_map. by intros Hp%send_segment_no_panic.
Qed.

(** *** The commands *)
Lemma find_socket_panics P t sid (f : TCPStack -> SocketTableKey -> Socket -> outcome repl_result) :
  (forall ts k x, t = Some ts -> SocketTable ts !! k = Some x -> panics (f ts k x) <-> P x) ->
  panics (find_socket t sid f) <-> match t with None => True | Some ts => names_socket P ts sid end.
Proof.
  intros Hf. unfold find_socket, with_stack, names_socket. destruct t as [ts|]; [|by rewrite panics_Panic].
  destruct (SID_to_sk ts !! sid) as [k|] eqn:Ek.
  2:{ unfold say. rewrite panics_Ret. split; [done|by intros (? & ? & ? & _)]. }
  destruct (SocketTable ts !! k) as [x|] eqn:Ex.
  2:{ unfold say. rewrite panics_Ret. split; [done|]. intros (k' & ? & [= <-] & ? & _). congruence. }
  rewrite (Hf ts k x eq_refl Ex). split; [by exists k, x|].
  intros (k' & x' & [= <-] & Hx & H'). rewrite Ex in Hx. by injection Hx as ->.
Qed.

Lemma say_no_panic t line : panics (say t line) <-> False.
Proof. apply panics_Ret. Qed.

Section on_node.
Variables (n : Node) (t : option TCPStack) (w : world).
Hypothesis Hn : node_addrs n.
Hypothesis Hm : forall name b, panics (ToggleInterface n name b) <-> is_Some (interfaces n !! name).
Hypothesis Ht : forall ts, t = Some ts -> tables_ok ts.

Lemma toggle_panics head args usage up :
  panics (repl_toggle n t usage (head :: args) up) <->
    match args with [name] => is_Some (interfaces n !! name) | _ => False end.
Proof.
  unfold repl_toggle. destruct args as [|name [|? ?]]; [apply say_no_panic| |apply say_no_panic].
  rewrite panics_map. apply Hm.
Qed.

Lemma send_panics head args :
  panics (repl_send n t (head :: args)) <-> match args with dst :: _ :: _ => ParseAddr dst = None | _ => False end.
Proof.
  unfold repl_send. destruct args as [|dst [|x ms]]; [apply say_no_panic..|].
  rewrite panics_bind, MustParseAddr_panics. split; [|by left]. intros [?|(a & Ha%MustParseAddr_wf & H)]; [done|].
  destruct (FindNext n a); [|by apply say_no_panic in H]. rewrite panics_map in H. by apply HandleSend_no_panic in H.
Qed.

Lemma c_panics head args :
  panics (repl_c n t w (head :: args)) <->
    match args with [dst; p] => (ParseUint16 p).2 = true /\ (ParseAddr dst = None \/ t = None) | _ => False end.
Proof.
  unfold repl_c. destruct args as [|dst [|p [|? ?]]]; [apply say_no_panic..| |apply say_no_panic].
  destruct (ParseUint16 p) as [port [|]]; [|rewrite say_no_panic; by split; [|intros [? _]]]. cbn [snd].
  rewrite panics_bind, MustParseAddr_panics. split.
  - intros [?|(a & Ha%MustParseAddr_wf & H)]; (split; [done|]); [by left|]. right. destruct t as [ts|]; [|done].
    cbn [with_stack] in H. rewrite panics_bind in H. destruct H as [H|([[v t'] e] & _ & H)]; [by apply VConnect_no_panic in H|].
    destruct v; by rewrite panics_Ret in H.
  - intros [_ [?| ->]]; [by left|]. destruct (ParseAddr dst) as [a|] eqn:E; [|by left]. right. exists a.
    unfold MustParseAddr. rewrite E. split; [done|]. by apply panics_Panic.
Qed.

Lemma s_panics head args :
  panics (repl_s t (head :: args)) <-> match args with sid :: _ :: _ => on_socket no_stream t sid | _ => False end.
Proof.
  unfold repl_s, on_socket. destruct args as [|sid [|x ms]]; [apply say_no_panic..|].
  destruct (ParseUint16 sid) as [v [|]]; [|rewrite say_no_panic; by split; [|intros [? _]]]. cbn [fst snd].
  rewrite (find_socket_panics no_stream); [by split; [|intros [_ ?]]|].
  intros ts k [l|s] _ _; cbn [as_normal no_stream]; [by rewrite panics_Panic|]. cbv zeta. rewrite panics_bind.
  rewrite VWrite_test_panics. split; [|by left]. intros [?|([e|] & _ & H)]; [done|by rewrite panics_Ret in H..].
Qed.

Lemma r_panics head args :
  panics (repl_r t (head :: args)) <->
    match args with [sid; num] => (ParseUint16 num).2 = true /\ on_socket no_stream t sid | _ => False end.
Proof.
  unfold repl_r, on_socket. destruct args as [|sid [|num [|? ?]]]; [apply say_no_panic..| |apply say_no_panic].
  destruct (ParseUint16 sid) as [v [|]]; [|rewrite say_no_panic; by split; [|intros [_ [? _]]]].
  destruct (ParseUint16 num) as [k [|]]; [|rewrite say_no_panic; by split; [|intros [? _]]]. cbn [fst snd].
  rewrite (find_socket_panics no_stream); [by split; [|intros [_ [_ ?]]]|].
  intros ts k' [l|s] _ _; cbn [as_normal no_stream]; [by rewrite panics_Panic|]. rewrite panics_bind, VRead_panics.
  split; [|by left]. intros [?|([res s'] & _ & H)]; [done|by rewrite panics_Ret in H].
Qed.

Lemma cl_panics head args :
  panics (repl_cl n t (head :: args)) <-> match args with sid :: _ => on_socket in_handshake t sid | _ => False end.
Proof.
  unfold repl_cl, on_socket. destruct args as [|sid ms]; [apply say_no_panic|].
  destruct (ParseUint16 sid) as [v [|]]; [|rewrite say_no_panic; by split; [|intros [? _]]]. cbn [fst snd].
  rewrite (find_socket_panics in_handshake); [by split; [|intros [_ ?]]|].
  intros ts k [l|s] Ets Hk; cbn [in_handshake]; [by rewrite panics_Ret|].
  destruct (Ht ts Ets k _ Hk) as [Hsk Ha]. rewrite <- Hsk in Ha.
  rewrite panics_bind, VClose_panics by done. split; [|by left].
  intros [?|([[e s'] evs] & _ & H)]; [done|by rewrite panics_Ret in H].
Qed.

Lemma SendFile_no_panic ts stat read a port ds ws :
  Addr_wf a -> ~ panics (SendFile n ts stat read a port ds ws).
Proof.
  intros Ha. unfold SendFile. destruct stat as [e|size], read as [e'|data]; try by intros [? ?].
  rewrite panics_bind. intros [H|([[v t'] e] & Hv & H)]; [by apply VConnect_no_panic in H|].
  destruct v as [e2|s]; [by rewrite panics_Ret in H|]. destruct (VConnect_socket _ _ _ _ _ _ _ _ _ Hv) as (sid & k & ci & ->).
  change (VWrite_test (connected_socket sid k ci)) with (Ret None : outcome (option string)) in H.
  cbn [mbind outcome_bind] in H. by rewrite panics_Ret in H.
Qed.

Lemma sf_panics head args :
  panics (repl_sf n t w (head :: args)) <->
    match args with
    | filename :: dst :: p :: _ =>
        match os_Open w filename with
        | inr (stat, read) =>
            (ParseUint16 p).2 = true /\
            (ParseAddr dst = None \/ t = None /\ (exists size, stat = inr size) /\ exists data, read = inr data)
        | inl _ => False
        end
    | _ => False
    end.
Proof.
  unfold repl_sf. destruct args as [|f [|dst [|p ms]]]; [apply say_no_panic..|].
  destruct (os_Open w f) as [e|[stat read]]; [apply say_no_panic|].
  destruct (ParseUint16 p) as [port [|]]; [|rewrite say_no_panic; by split; [|intros [? _]]]. cbn [snd].
  rewrite panics_bind, MustParseAddr_panics. split.
  - intros [?|(a & Ha%MustParseAddr_wf & H)]; (split; [done|]); [by left|]. right.
    destruct stat as [e|size]; [by apply say_no_panic in H|]. destruct read as [e|data]; [by apply say_no_panic in H|].
    destruct t as [ts|]; [|by split; [|split; eexists]].
    cbn [with_stack] in H. rewrite panics_bind in H. destruct H as [H|([[v t'] e] & _ & H)]; [by apply SendFile_no_panic in H|].
    destruct v as [?|[? ?]]; by rewrite panics_Ret in H.
  - intros [_ [?|(-> & [size ->] & [data ->])]]; [by left|]. destruct (ParseAddr dst) as [a|] eqn:E; [|by left]. right. exists a.
    unfold MustParseAddr. rewrite E. split; [done|]. by apply panics_Panic.
Qed.

Lemma rf_panics head args :
  panics (repl_rf t (head :: args)) <-> match args with _ :: p :: _ => (ParseUint16 p).2 = true /\ t = None | _ => False end.
Proof.
  unfold repl_rf. destruct args as [|f [|p ms]]; [apply say_no_panic..|].
  destruct (ParseUint16 p) as [port [|]]; [|rewrite say_no_panic; by split; [|intros [? _]]]. cbn [snd].
  destruct t as [ts|]; cbn [with_stack]; [|by rewrite panics_Panic; split].
  destruct (ReceiveFile ts port) as [[e|l] t']; rewrite panics_Ret; by split; [|intros [_ ?]].
Qed.

Ltac decide_head :=
  repeat match goal with
         | |- context [bool_decide (?a = ?b)] =>
             first [rewrite (bool_decide_true (a = b)) by reflexivity
                   |rewrite (bool_decide_false (a = b)) by discriminate]
         end.

Ltac command tac := subst; first [rewrite tac | rewrite tac by done]; unfold crashes; decide_head; cbn [orb]; done.

Lemma dispatch_panics tokens : tokens <> [] -> panics (dispatch_command iter_sk n t w tokens) <-> crashes n t w tokens.
Proof.
  destruct tokens as [|head args]; [done|]. intros _. unfold dispatch_command.
  change (default EmptyString ((head :: args) !! 0%nat)) with head. cbv zeta.
  case_bool_decide as E1; [command @panics_Ret|]. case_bool_decide as E2; [command @panics_Ret|].
  case_bool_decide as E3; [command @panics_Ret|]. case_bool_decide as E4; [command toggle_panics|].
  case_bool_decide as E5; [command toggle_panics|]. case_bool_decide as E6; [command send_panics|].
  case_bool_decide as E7.
  { subst. unfold repl_a, crashes. decide_head. cbn [orb].
    destruct args as [|p [|? ?]]; [apply say_no_panic| |apply say_no_panic].
    destruct (ParseUint16 p). apply panics_Ret. }
  case_bool_decide as E8; [command c_panics|].
  case_bool_decide as E9.
  { subst. unfold crashes. decide_head. cbn [orb].
    destruct t as [ts|]; cbn [with_stack]; [by rewrite panics_Ret|by rewrite panics_Panic]. }
  case_bool_decide as E10; [command s_panics|]. case_bool_decide as E11; [command r_panics|].
  case_bool_decide as E12; [command cl_panics|]. case_bool_decide as E13; [command sf_panics|].
  case_bool_decide as E14; [command rf_panics|].
  unfold crashes. rewrite !bool_decide_false by done. apply panics_Ret.
Qed.
End on_node.

(** The interfaces of a reachable node have addresses. *)
Lemma reachable_addrs c n : config_wf c -> reachable c n -> node_addrs n.
Proof.
  intros Hc Hr. destruct (reachable_ok c n Hr) as [(_ & Hi & _) _]. unfold node_addrs. rewrite Hi. cbn [initial_node interfaces].
  pose proof (wf_interfaces c Hc) as Hif. rewrite list.Forall_forall in Hif.
  assert (H0 : forall k i, (∅ : gmap string Interface) !! k = Some i -> Addr_wf (AssignedIP (i_cfg i)))
    by (intros k i; by rewrite lookup_empty).
  revert H0 Hif. generalize (∅ : gmap string Interface).
  induction (c_Interfaces c) as [|x xs IH]; intros m Hm Hif; [done|]. simpl. apply IH.
  - intros k i. rewrite lookup_insert. case_decide; [|apply Hm]. intros [= <-]. by apply (Hif x); left.
  - intros y Hy. apply Hif. by right.
Qed.

(** C24. Exactly which lines crash the program, whatever is typed, on a node started
    from a configuration and a router (no stack) or a host on any stack its operations
    reach: [up] and [down] of an interface that exists; [send], [c] and [sf] with an
    address that does not parse, once their other words have been checked; [s] and [r]
    on a listening socket or one whose handshake has not ended, [cl] on the latter; and
    on a router every command whose words lead it to the stack.  Nothing else panics:
    not the rest of the commands, and not the sends of the ones above.  On a router the
    goroutine of [a] crashes too. *)
Theorem repl_panics_iff (c : IPConfig) (m n : Node) (t : option TCPStack) (w : world) (text : string) :
  config_wf c -> reachable c n -> match t with Some ts => stack_reachable m ts | None => True end ->
  (panics (REPL iter_sk n t w text) <-> crashes n t w (Split " "%char (cleanInput text))) /\
  forall port queue, listenAndAccept n None port queue = Panic "nil pointer dereference".
Proof.
  intros Hc Hr Ht. split; [|done]. apply dispatch_panics.
  - by apply (reachable_addrs c).
  - intros name b. pose proof (ToggleInterface_crashes c n name b Hr) as H.
    destruct (interfaces n !! name); [rewrite H, panics_Panic; split; [by eexists|done]|].
    destruct H as [e ->]. rewrite panics_Ret. split; [done|by intros [? ?]].
  - intros ts ->. by apply (reachable_tables_ok m).
  - destruct (Split_nonempty (cleanInput text)) as (h & args & ->). done.
Qed.
End sending.
End commands.

(** ** The stack's tables *)
Definition result_stack (r : repl_result) : option TCPStack :=
  match r with
  | Prompt t _ _ => t
  | InWrite t _ _ | InSendFile t _ _ _ => Some t
  end.

(** The socket a word names. *)
Definition named (t : TCPStack) (sid : Z) : option (SocketTableKey * Socket) :=
  match SID_to_sk t !! sid with
  | None => None
  | Some k => match SocketTable t !! k with None => None | Some x => Some (k, x) end
  end.

Section tables.
Context `{NS : Netstack} `{MI : MapIter} (iter_sk : gmap SocketTableKey Socket -> list (SocketTableKey * Socket)).

(** What a line does to the stack [t] of a host, in terms of the stack's operations:
    [c] and [sf] run one [VConnect] with the port and the address typed, [rf] one
    [VListen]; [r] replaces the named connection by the one its [VRead] leaves, [cl] by
    the one its [VClose] leaves, or deletes the named listening socket; every other
    line, and every line whose words are refused, leaves the stack alone. *)
Definition connects (n : Node) (t : TCPStack) (w : world) (dst p : string) (t' : TCPStack) : Prop :=
  exists a v evs, ParseAddr dst = Some a /\
    VConnect n t a (ParseUint16 p).1 (draws w) (waits w) = Ret (v, t', evs).

Definition effect (n : Node) (t : TCPStack) (w : world) (tokens : list string) (t' : TCPStack) : Prop :=
  match tokens with
  | [] => t' = t
  | head :: args =>
      if bool_decide (head = "c") then
        match args with
        | [dst; p] => if (ParseUint16 p).2 then connects n t w dst p t' else t' = t
        | _ => t' = t
        end
      else if bool_decide (head = "r") then
        match args with
        | [sid; num] =>
            if (ParseUint16 sid).2 && (ParseUint16 num).2 then
              match named t (ParseUint16 sid).1 with
              | Some (k, Normal s) => exists res s', VRead s (ParseUint16 num).1 None = Ret (res, s') /\
                  t' = set_socket t k (Normal s')
              | _ => t' = t
              end
            else t' = t
        | _ => t' = t
        end
      else if bool_decide (head = "cl") then
        match args with
        | sid :: _ =>
            if (ParseUint16 sid).2 then
              match named t (ParseUint16 sid).1 with
              | Some (k, Normal s) => exists e s' evs, VClose n s = Ret (e, s', evs) /\ t' = set_socket t k (Normal s')
              | Some (k, Listening l) => t' = deleteTCB t (Listening l)
              | None => t' = t
              end
            else t' = t
        | _ => t' = t
        end
      else if bool_decide (head = "sf") then
        match args with
        | filename :: dst :: p :: _ =>
            match os_Open w filename with
            | inr (inr size, inr data) => if (ParseUint16 p).2 then connects n t w dst p t' else t' = t
            | _ => t' = t
            end
        | _ => t' = t
        end
      else if bool_decide (head = "rf") then
        match args with
        | _ :: p :: _ => if (ParseUint16 p).2 then t' = (VListen t (ParseUint16 p).1).2 else t' = t
        | _ => t' = t
        end
      else t' = t
  end.

Lemma VClose_sk n s e s' evs : VClose n s = Ret (e, s', evs) -> sk s' = sk s.
Proof.
  unfold VClose. case_bool_decide; [done|]. cbv zeta. destruct (stateMtx s); [done|].
  destruct (close_state (state s)); [|by intros [= _ <- _]]. destruct (unackedMtx s); [done|].
  by intros (ev & _ & [= _ <- _])%bind_Ret_inv.
Qed.

(** The effects are steps of the stack. *)
Lemma named_lookup t sid k x : named t sid = Some (k, x) -> SocketTable t !! k = Some x.
Proof.
  unfold named. destruct (SID_to_sk t !! sid) as [k'|]; [|done].
  destruct (SocketTable t !! k') eqn:E; [|done]. by intros [= <- <-].
Qed.

Lemma set_socket_step t sid k s s' :
  tables_ok t -> named t sid = Some (k, Normal s) -> sk s' = sk s -> rtc stack_step t (set_socket t k (Normal s')).
Proof.
  intros Ht Hk%named_lookup Hs. destruct (Ht k _ Hk) as [<- _]. apply rtc_once. by apply step_socket.
Qed.

Lemma connects_step n t w dst p t' : connects n t w dst p t' -> rtc stack_step t t'.
Proof.
  intros (a & v & evs & Ha & Hv). apply rtc_once. eapply step_connect; [|exact Hv]. by eapply ParseAddr_wf.
Qed.

Lemma effect_steps n t w tokens t' : tables_ok t -> effect n t w tokens t' -> rtc stack_step t t'.
Proof.
  intros Ht. unfold effect. destruct tokens as [|head args]; [by intros ->|].
  repeat (case_bool_decide as Hd; clear Hd; [|]).
  - destruct args as [|dst [|p [|? ?]]]; try by intros ->. destruct (ParseUint16 p).2; [apply connects_step|by intros ->].
  - destruct args as [|sid [|num [|? ?]]]; try by intros ->. destruct (_ && _); [|by intros ->].
    destruct (named t _) as [[k [l|s]]|] eqn:E; try by intros ->. intros (res & s' & Hv & ->).
    apply (set_socket_step _ _ _ _ _ Ht E). by apply VRead_frame in Hv as (_ & _ & _ & ?).
  - destruct args as [|sid ms]; [by intros ->|]. destruct (ParseUint16 sid).2; [|by intros ->].
    destruct (named t _) as [[k [l|s]]|] eqn:E; [intros ->; apply rtc_once, step_delete| |by intros ->].
    intros (e & s' & evs & Hv & ->). apply (set_socket_step _ _ _ _ _ Ht E). by eapply VClose_sk.
  - destruct args as [|f [|dst [|p ms]]]; try by intros ->. destruct (os_Open w f) as [e|[[e|size] [e'|data]]]; try by intros ->.
    destruct (ParseUint16 p).2; [apply connects_step|by intros ->].
  - destruct args as [|f [|p ms]]; try by intros ->. destruct (ParseUint16 p).2; [|by intros ->]. intros ->.
    apply rtc_once. eapply step_listen. apply surjective_pairing.
  - by intros ->.
Qed.

(** The commands have these effects. *)
Ltac same_stack := by (intros [= <-]; eexists; split; [reflexivity|]).

Lemma ParseAddr_Must s a : MustParseAddr s = Ret a -> ParseAddr s = Some a.
Proof. unfold MustParseAddr. destruct (ParseAddr s); [|done]. by intros [= <-]. Qed.

Lemma c_effect n t w args r :
  repl_c n (Some t) w ("c" :: args) = Ret r -> exists t', result_stack r = Some t' /\ effect n t w ("c" :: args) t'.
Proof.
  unfold repl_c, effect. rewrite bool_decide_true by done.
  destruct args as [|dst [|p [|? ?]]]; try same_stack. destruct (ParseUint16 p) as [port [|]] eqn:Ep; [|same_stack].
  intros (a & Ha%ParseAddr_Must & H)%bind_Ret_inv. cbn [with_stack] in H. apply bind_Ret_inv in H as ([[v t'] evs] & Hv & H).
  cbn [snd]. exists t'. split; [by destruct v; injection H as <-|]. exists a, v, evs. rewrite Ep. done.
Qed.

Lemma sf_effect n t w args r :
  repl_sf n (Some t) w ("sf" :: args) = Ret r -> exists t', result_stack r = Some t' /\ effect n t w ("sf" :: args) t'.
Proof.
  unfold repl_sf, effect. do 3 rewrite (bool_decide_false ("sf" = _)) by done. rewrite bool_decide_true by done.
  destruct args as [|f [|dst [|p ms]]]; try same_stack.
  destruct (os_Open w f) as [e|[stat read]]; [same_stack|].
  destruct (ParseUint16 p) as [port [|]] eqn:Ep.
  2:{ intros [= <-]. exists t. split; [done|]. by destruct stat, read. }
  intros (a & Ha%ParseAddr_Must & H)%bind_Ret_inv.
  destruct stat as [e|size]; [revert H; same_stack|]. destruct read as [e|data]; [revert H; same_stack|].
  cbn [with_stack] in H. apply bind_Ret_inv in H as ([[v t'] evs] & Hv & H). unfold SendFile in Hv.
  apply bind_Ret_inv in Hv as ([[c t1] e1] & Hc & Hv). cbn [snd].
  assert (t' = t1) as ->.
  { destruct c as [e|c]; [by injection Hv as _ <- _|].
    apply bind_Ret_inv in Hv as (v' & _ & Hv). by destruct v'; injection Hv as _ <- _. }
  exists t1. split; [by destruct v as [e|[? bs]]; injection H as <-|]. exists a, c, e1. rewrite Ep. done.
Qed.

Lemma find_socket_effect t sid f r :
  find_socket (Some t) sid f = Ret r ->
  match named t sid with
  | None => result_stack r = Some t
  | Some (k, x) => f t k x = Ret r
  end.
Proof.
  unfold find_socket, with_stack, named. destruct (SID_to_sk t !! sid) as [k|]; [|by intros [= <-]].
  destruct (SocketTable t !! k); [done|by intros [= <-]].
Qed.

Lemma s_effect t args r : repl_s (Some t) ("s" :: args) = Ret r -> result_stack r = Some t.
Proof.
  unfold repl_s. destruct args as [|sid [|x ms]]; try by intros [= <-].
  destruct (ParseUint16 sid) as [v [|]]; [|by intros [= <-]]. intros H%find_socket_effect.
  destruct (named t v) as [[k [l|s]]|]; [done| |done]. cbn [as_normal] in H. cbv zeta in H.
  apply bind_Ret_inv in H as ([e|] & _ & H); by injection H as <-.
Qed.

Lemma r_effect n t w args r :
  repl_r (Some t) ("r" :: args) = Ret r -> exists t', result_stack r = Some t' /\ effect n t w ("r" :: args) t'.
Proof.
  unfold repl_r, effect. rewrite (bool_decide_false ("r" = _)) by done. rewrite bool_decide_true by done.
  destruct args as [|sid [|num [|? ?]]]; try same_stack. destruct (ParseUint16 sid) as [v [|]]; [|same_stack].
  destruct (ParseUint16 num) as [v2 [|]]; [|same_stack]. intros H%find_socket_effect. cbn [fst snd andb].
  destruct (named t v) as [[k [l|s]]|]; [done| |by exists t]. cbn [as_normal] in H.
  apply bind_Ret_inv in H as ([res s'] & Hv & [= <-]). eexists. split; [reflexivity|]. by exists res, s'.
Qed.

Lemma cl_effect n t w args r :
  repl_cl n (Some t) ("cl" :: args) = Ret r -> exists t', result_stack r = Some t' /\ effect n t w ("cl" :: args) t'.
Proof.
  unfold repl_cl, effect. do 2 rewrite (bool_decide_false ("cl" = _)) by done. rewrite bool_decide_true by done.
  destruct args as [|sid ms]; try same_stack. destruct (ParseUint16 sid) as [v [|]]; [|same_stack].
  intros H%find_socket_effect. cbn [fst snd]. destruct (named t v) as [[k [l|s]]|]; [| |by exists t].
  - injection H as <-. by eexists.
  - apply bind_Ret_inv in H as ([[e s'] evs] & Hv & [= <-]). eexists. split; [reflexivity|]. by exists e, s', evs.
Qed.

Lemma rf_effect n t w args r :
  repl_rf (Some t) ("rf" :: args) = Ret r -> exists t', result_stack r = Some t' /\ effect n t w ("rf" :: args) t'.
Proof.
  unfold repl_rf, effect. do 4 rewrite (bool_decide_false ("rf" = _)) by done. rewrite bool_decide_true by done.
  destruct args as [|f [|p ms]]; try same_stack. destruct (ParseUint16 p) as [port [|]]; [|same_stack].
  cbn [with_stack fst snd]. unfold ReceiveFile. destruct (VListen t port) as [v t'] eqn:E. intros H.
  exists t'. split; [|done]. by destruct v; injection H as <-.
Qed.

Lemma repl_node_same n t tokens r up usage :
  repl_toggle n (Some t) usage tokens up = Ret r \/ repl_send n (Some t) tokens = Ret r \/
  repl_a (Some t) tokens = Ret r -> result_stack r = Some t.
Proof.
  intros [H|[H|H]]; revert H.
  - unfold repl_toggle. destruct tokens as [|? [|? [|? ?]]]; try by intros [= <-]. by intros (e & _ & [= <-])%bind_Ret_inv.
  - unfold repl_send. destruct tokens as [|? [|? [|? ?]]]; try by intros [= <-].
    intros (a & _ & H)%bind_Ret_inv. destruct (FindNext n a); [|by injection H as <-].
    by apply bind_Ret_inv in H as (evs & _ & [= <-]).
  - unfold repl_a. destruct tokens as [|? [|? [|? ?]]]; try by intros [= <-]. destruct (ParseUint16 _). by intros [= <-].
Qed.

Lemma other_effect n t w head args r :
  head <> "c" -> head <> "r" -> head <> "cl" -> head <> "sf" -> head <> "rf" -> result_stack r = Some t ->
  exists t', result_stack r = Some t' /\ effect n t w (head :: args) t'.
Proof. intros H1 H2 H3 H4 H5 Hst. exists t. split; [done|]. unfold effect. by rewrite !bool_decide_false by done. Qed.

Lemma dispatch_effect n t w head args r :
  dispatch_command iter_sk n (Some t) w (head :: args) = Ret r ->
  exists t', result_stack r = Some t' /\ effect n t w (head :: args) t'.
Proof.
  unfold dispatch_command. change (default EmptyString ((head :: args) !! 0%nat)) with head. cbv zeta. 
  do 3 (case_bool_decide; [intros [= <-]; subst; by apply other_effect|]).
  do 2 (case_bool_decide; [intros Hr; subst; apply other_effect; try done; eapply repl_node_same; by left|]).
  case_bool_decide; [intros Hr; subst; apply other_effect; try done; eapply (repl_node_same n _ _ _ true ""); right; by left|].
  case_bool_decide; [intros Hr; subst; apply other_effect; try done; eapply (repl_node_same n _ _ _ true ""); by right; right|].
  case_bool_decide; [intros Hr; subst; by apply c_effect|].
  case_bool_decide; [intros [= <-]; subst; by apply other_effect|].
  case_bool_decide; [intros Hr; subst; apply other_effect; try done; by eapply s_effect|].
  case_bool_decide; [intros Hr; subst; by apply r_effect|]. case_bool_decide; [intros Hr; subst; by apply cl_effect|].
  case_bool_decide; [intros Hr; subst; by apply sf_effect|]. case_bool_decide; [intros Hr; subst; by apply rf_effect|].
  intros [= <-]. by apply other_effect.
Qed.

(** C21. What a line typed on a host does to the TCP stack is exactly its command's
    operation of the stack ([effect]: [VConnect], [VListen], the [VRead] or [VClose] of
    the one socket named, or nothing), the tables move by the stack's own steps only,
    and so a reachable stack stays reachable and keeps the guarantees of the
    demultiplexer. *)
Theorem repl_refines_stack (m n : Node) (t : TCPStack) (w : world) (text : string) (r : repl_result) :
  stack_reachable m t -> REPL iter_sk n (Some t) w text = Ret r ->
  exists t', result_stack r = Some t' /\ effect n t w (Split " "%char (cleanInput text)) t' /\
    rtc stack_step t t' /\ stack_reachable m t' /\ tables_ok t'.
Proof.
  intros Hr H. pose proof (reachable_tables_ok m t Hr) as Ht. unfold REPL in H.
  destruct (Split_nonempty (cleanInput text)) as (head & args & E). rewrite E in *.
  destruct (dispatch_effect _ _ _ _ _ _ H) as (t' & H1 & He). pose proof (effect_steps _ _ _ _ _ Ht He) as Hs.
  exists t'. split; [done|]. split; [done|]. split; [done|].
  assert (Hr' : stack_reachable m t') by (unfold stack_reachable in *; by etrans). split; [done|]. by eapply reachable_tables_ok.
Qed.
End tables.

(** ** Accepting connections *)
Section accepting.
Context `{NS : Netstack} `{MI : MapIter}.

(** A client's SYN and its ACK, as they reach the listening socket. *)
Definition handshake_of (port : Z) (c : TCPInfo * TCPInfo) : Prop :=
  Flag c.1 = TCPFlagSyn /\ RemotePort (ti_key c.1) = port /\ Flag c.2 = TCPFlagAck /\ RemotePort (ti_key c.2) = port.
Definition client_key_of (c : TCPInfo * TCPInfo) : SocketTableKey := flipSocketKeyFields (ti_key c.1).
Definition handshakes (cs : list (TCPInfo * TCPInfo)) : list TCPInfo := concat (map (fun c => [c.1; c.2]) cs).

(** The socket of a client. *)
Definition serves (c : TCPInfo * TCPInfo) (s : NormalSocket) : Prop :=
  sk s = client_key_of c /\ state s = ESTABLISHED /\ ClientWindowSize s = WindowSize c.2 /\
  cumReadNXT s = SeqNum c.1 ⊕ 1 /\ cumWriteUNA s = 6001.

Lemma VAccept_handshake n t l c queue evs :
  handshake_of (localPort l) c -> send_segment n (synack_segment c.1) = Ret evs ->
  exists s t', VAccept n t l (c.1 :: c.2 :: queue) = Ret (s, t', queue, evs) /\ serves c s /\
    SocketTable t' = <[client_key_of c := Normal s]> (SocketTable t).
Proof.
  intros (H1 & H2 & H3 & H4) Hs. unfold VAccept. cbn [wait_flag]. rewrite bool_decide_true by done.
  rewrite Hs. cbn [mbind outcome_bind wait_flag]. rewrite bool_decide_true by done.
  eexists _, _. split; [reflexivity|]. split; [done|].
  cbn [set_socket add_socket SocketTable]. by rewrite insert_insert_eq.
Qed.

Lemma accept_loop_all fuel n t l cs :
  (length (handshakes cs) <= fuel)%nat ->
  Forall (handshake_of (localPort l)) cs -> NoDup (map client_key_of cs) ->
  Forall (fun c => exists evs, send_segment n (synack_segment c.1) = Ret evs) cs ->
  exists ss t' evs, accept_loop fuel n t l (handshakes cs) = Ret (ss, t', evs) /\
    Forall2 (fun c s => serves c s /\ SocketTable t' !! client_key_of c = Some (Normal s)) cs ss /\
    forall k, k ∉ map client_key_of cs -> SocketTable t' !! k = SocketTable t !! k.
Proof.
  revert fuel t. induction cs as [|c cs IH]; intros fuel t Hf Hc Hk Hs.
  - exists [], t, []. split; [by destruct fuel|]. split; [constructor|done].
  - apply list.Forall_cons in Hc as [Hc Hcs]. apply list.Forall_cons in Hs as [[evs Hs] Hss].
    cbn [map] in Hk. apply list.NoDup_cons in Hk as [Hk Hks].
    change (handshakes (c :: cs)) with (c.1 :: c.2 :: handshakes cs) in *. destruct fuel as [|fuel]; [simpl in Hf; lia|].
    destruct (VAccept_handshake n t l c (handshakes cs) evs Hc Hs) as (s & t1 & Ha & Hsv & Ht1).
    destruct (IH fuel t1) as (ss & t' & evs' & Hl & HF & Ho); [simpl in Hf; lia|done..|].
    exists (s :: ss), t', (evs ++ evs'). cbn [accept_loop]. rewrite Ha, Hl. split; [done|].
    assert (Hlook : SocketTable t' !! client_key_of c = Some (Normal s)).
    { rewrite Ho by done. rewrite Ht1. apply lookup_insert_eq. }
    split; [by constructor|]. intros k Hn. cbn [map] in Hn. rewrite not_elem_of_cons in Hn. destruct Hn as [Hne Hn].
    rewrite Ho by done. rewrite Ht1. by apply lookup_insert_ne.
Qed.

(** C22. The goroutine of [a] serves every client: on a free port, when the SYN and
    the ACK of each client arrive without another client's in between and the SYN/ACKs
    can be sent, each gets an established socket of its own, registered under its
    key with the numbers and the window of its handshake, in the order of arrival,
    and the port goes on listening. *)
Theorem listen_accepts_all (n : Node) (t : TCPStack) (port : Z) (cs : list (TCPInfo * TCPInfo)) :
  SocketTable t !! listen_key port = None ->
  Forall (handshake_of port) cs -> NoDup (map client_key_of cs) ->
  Forall (fun c => RemoteAddr (client_key_of c) <> AddrZero) cs ->
  Forall (fun c => exists evs, send_segment n (synack_segment c.1) = Ret evs) cs ->
  exists ss t' evs l, listenAndAccept n (Some t) port (handshakes cs) = Ret (inr (ss, t', evs)) /\
    Forall2 (fun c s => serves c s /\ SocketTable t' !! client_key_of c = Some (Normal s)) cs ss /\
    SocketTable t' !! listen_key port = Some (Listening l).
Proof.
  intros Hfree Hc Hk Hz Hs. unfold listenAndAccept, with_stack, VListen. rewrite Hfree.
  set (l := mkListen port (nextSID t)).
  destruct (accept_loop_all (length (handshakes cs)) n (add_socket t (listen_key port) (Listening l)) l cs)
    as (ss & t' & evs & Hl & HF & Ho); [done..|].
  exists ss, t', evs, l. rewrite Hl. split; [done|]. split; [done|].
  rewrite Ho; [apply lookup_insert_eq|]. intros Hin%list_elem_of_In%in_map_iff. destruct Hin as (c & Ec & Hin).
  rewrite list.Forall_forall in Hz. apply (Hz c); [by apply list_elem_of_In|]. by rewrite Ec.
Qed.
End accepting.

(** ** Starting *)
(** What [main] may end in: [host] says whether the program has a TCP stack. *)
Definition main_result `{NS : Netstack} `{MI : MapIter} (host : bool) (lnxPath : string)
    (file : option (list string)) (s : started) : Prop :=
  match s with
  | Usage => lnxPath = EmptyString
  | Fatal e => lnxPath <> EmptyString /\ ParseConfig file = Ret (inl e)
  | Running n t out =>
      exists c, lnxPath <> EmptyString /\ ParseConfig file = Ret (inr c) /\ config_wf c /\
        Initialize c = Ret (n, out) /\ n = initial_node c /\
        match t with
        | Some ts => host = true /\ SocketTable ts = ∅ /\ SID_to_sk ts = ∅ /\ ip ts = IpAddr n
        | None => host = false
        end /\
        forall n', reachable c n' -> table_ok (forwardingTable n') /\ IpAddr n' = IpAddr n /\
          interfaces n' = interfaces n
  end.

Lemma start_result `{NS : Netstack} `{MI : MapIter} `{ML : !MapIterLaws} (host : bool) stack lnxPath file s :
  (forall n, match stack n with
             | Some ts => host = true /\ SocketTable ts = ∅ /\ SID_to_sk ts = ∅ /\ ip ts = IpAddr n
             | None => host = false
             end) ->
  start stack lnxPath file = Ret s -> main_result host lnxPath file s.
Proof.
  intros Hst. unfold start. case_bool_decide as Hp; [by intros [= <-]|]. intros (r & Hr & H)%bind_Ret_inv.
  destruct r as [e|c]; [by injection H as <-|]. apply bind_Ret_inv in H as ([n out] & Hi & [= <-]).
  exists c. assert (n = initial_node c) as -> by (apply bind_Ret_inv in Hi as (evs & _ & [= <- _]); done).
  destruct (parsed_config_type file c (initial_node c) Hr) as [Hwf _].
  do 5 (split; [done|]). split; [apply Hst|].
  intros n' Hn'. destruct (parsed_config_type file c n' Hr) as [_ Htab]. split; [by apply Htab|].
  destruct (reachable_ok c n' Hn') as [(_ & Hif & _ & _ & Hip) _]. done.
Qed.

(** The RIP request a node sends to the neighbour [r] when it starts. *)
Definition rip_request `{NS : Netstack} (n : Node) (r : Addr) (e : event) : Prop :=
  let iface := InterfaceName (get_neighbor n r) in
  exists i p, interfaces n !! iface = Some i /\
    makePacket (AssignedIP (i_cfg i)) r 200 16 (MarshalRIP (mkRipPacket 1 0 [])) = Ret p /\ e = EQueue iface p r.

(** Every RIP neighbour is reached over an interface the node has. *)
Definition rip_wired (n : Node) (rips : list Addr) : Prop :=
  Forall (fun r => Addr_wf r /\ is_Some (interfaces n !! InterfaceName (get_neighbor n r))) rips.

Lemma makePacket_ret `{NS : Netstack} src dst proto ttl data :
  Addr_wf src -> Addr_wf dst -> exists p, makePacket src dst proto ttl data = Ret p.
Proof.
  intros Hs Hd. unfold makePacket. rewrite !MustParseAddr_String by done. cbn [mbind outcome_bind]. cbv zeta.
  assert (H4 : Is4 dst = true) by (by destruct dst).
  unfold Marshal. cbn [h_Len h_Dst set_Checksum]. rewrite H4. rewrite bool_decide_false by (unfold HeaderLen; lia).
  by eexists.
Qed.

Lemma initial_chan c k i : interfaces (initial_node c) !! k = Some i -> i_chan i = true.
Proof.
  cbn [initial_node interfaces].
  assert (H0 : forall k i, (∅ : gmap string Interface) !! k = Some i -> i_chan i = true)
    by (intros k' i'; by rewrite lookup_empty).
  revert k i H0. generalize (∅ : gmap string Interface).
  induction (c_Interfaces c) as [|x xs IH]; intros m k i Hm; [apply Hm|]. simpl. apply IH.
  intros k' i'. rewrite lookup_insert. case_decide; [by intros [= <-]|apply Hm].
Qed.

Lemma initial_requests_sent `{NS : Netstack} n rips :
  node_addrs n -> (forall k i, interfaces n !! k = Some i -> i_chan i = true) -> rip_wired n rips ->
  exists out, initial_requests n rips = Ret out /\ Forall2 (rip_request n) rips out.
Proof.
  intros Hn Hch. induction 1 as [|r rips [Hr [i Hi]] _ (out & IH & HF)]; [by exists []|].
  destruct (makePacket_ret (AssignedIP (i_cfg i)) r 200 16 (MarshalRIP (mkRipPacket 1 0 [])))
    as (p & Hp); [by apply (Hn _ i Hi)|done|].
  exists (EQueue (InterfaceName (get_neighbor n r)) p r :: out). cbn [initial_requests]. cbv zeta.
  assert (Hg : get_interface n (InterfaceName (get_neighbor n r)) = i) by (unfold get_interface; by rewrite Hi).
  unfold chan_send. rewrite Hg, Hp. cbn [mbind outcome_bind]. rewrite (Hch _ i Hi). cbn [mbind outcome_bind].
  rewrite IH. split; [done|]. constructor; [|done]. by exists i, p.
Qed.

(** C20. What the two programs start.  Whatever the file, [vhost] and [vrouter] end in
    the usage line only without a file name and in the fatal error exactly when the
    configuration is refused; a node that comes up was initialised from a configuration
    of the type the node assumes, keeps a well-formed forwarding table, its address and
    its interfaces for ever, and has, on a host, an empty TCP stack that knows the
    node's address and, on a router, none.  And a well-formed configuration whose RIP
    neighbours are reached over its interfaces does come up in both programs from the
    file it is written as, with one RIP request queued for each RIP neighbour, on its
    interface, and nothing else sent. *)
Theorem programs_start `{NS : Netstack} `{MI : MapIter} `{ML : !MapIterLaws} (lnxPath : string)
    (file : option (list string)) (c : IPConfig) :
  (forall s, vhost_main lnxPath file = Ret s -> main_result true lnxPath file s) /\
  (forall s, vrouter_main lnxPath file = Ret s -> main_result false lnxPath file s) /\
  (lnxPath <> EmptyString -> config_wf c -> names_ok c -> rip_wired (initial_node c) (c_RipNeighbors c) ->
   exists out, Forall2 (rip_request (initial_node c)) (c_RipNeighbors c) out /\
     vhost_main lnxPath (Some (print_config c)) =
       Ret (Running (initial_node c) (Some (Initialize_stack (initial_node c))) out) /\
     vrouter_main lnxPath (Some (print_config c)) = Ret (Running (initial_node c) None out)).
Proof.
  split; [by intros s; apply start_result|]. split; [by intros s; apply start_result|].
  intros Hp Hwf Hno Hrip. destruct (initial_requests_sent (initial_node c) (c_RipNeighbors c)) as (out & Ho & HF); [|by apply initial_chan|done|].
  { apply (reachable_addrs c); [done|constructor]. }
  exists out. split; [done|]. unfold vhost_main, vrouter_main, start. rewrite bool_decide_false by done.
  rewrite (parse_print c Hwf Hno). cbn [mbind outcome_bind]. unfold Initialize. cbv zeta. rewrite Ho. done.
Qed.
