(* ===== verification/TcpExamples.v ===== *)
(** * Concrete connections and sessions

    Instances of the theorems about the TCP stack, the file transfer and the command
    line: a client on the router of
    [Routing.ex_config], a server on its neighbour [Packets.ex_router], segments
    computed with the reference netstack. *)
From S2P Require Import Prelude Rip Netip Ipv4Header Netstack Utils Config Node Routing RipProto Packets Pq TcpTypes TcpSegments TcpRing TcpReceiver TcpReassembly TcpStack TcpClose TcpSender TcpFaults TcpTimer TcpWindow TcpSliding TcpStream TcpWindowFaults LnxConfig FileTransfer Printing Repl.
Local Open Scope Z_scope.

#[local] Existing Instance ref_netstack.
#[local] Existing Instance ref_netstack_laws.
#[local] Existing Instance ref_iter.
#[local] Existing Instance ref_iter_laws.

Definition server_addr : Addr := ip4 10 1 0 2.
Definition client_addr : Addr := ip4 10 0 0 1.
Definition client_stack : TCPStack := Initialize_stack ex_node.
Definition server_stack : TCPStack := Initialize_stack ex_router.
Definition server_listen : ListenSocket := mkListen 80 0.

(** The client's side after a handshake from port 20001, and the server's. *)
Definition client_key : SocketTableKey := mkKey client_addr 20001 server_addr 80.
Definition client_sock : NormalSocket :=
  connected_socket 0 client_key
    (mkTCPInfo (flipSocketKeyFields client_key) SYNACK 6000 5001 65535 []).
Definition server_sock : NormalSocket :=
  accepted_socket 1 (flipSocketKeyFields client_key)
    (mkTCPInfo client_key TCPFlagSyn 5000 0 65535 []) ESTABLISHED 65535.

Lemma zlen_marshall_nil p : payload p = [] -> zlen (marshallTCPPacket p) = 20.
Proof. intros E. by rewrite zlen_marshall, E. Qed.

(** Both nodes can send to each other. *)
Lemma client_sends p : payload p = [] -> destIp p = server_addr -> exists e, send_segment ex_node p = Ret e.
Proof.
  intros E Hd. unfold send_segment. rewrite Hd.
  destruct (HandleSend_ok ex_node server_addr (marshallTCPPacket p) 6 server_addr
    (mkAddrPort (ip4 127 0 0 1) 5002) (new_interface ex_if1)) as (b & _ & H & _).
  - apply initial_node_named.
  - vm_compute; reflexivity.
  - vm_compute; reflexivity.
  - vm_compute; reflexivity.
  - unfold sendable, HeaderLen. rewrite zlen_marshall_nil by done. vm_compute. repeat split; discriminate.
  - eexists. exact H.
Qed.

Lemma server_sends p : payload p = [] -> destIp p = client_addr -> exists e, send_segment ex_router p = Ret e.
Proof.
  intros E Hd. unfold send_segment. rewrite Hd.
  destruct (HandleSend_ok ex_router client_addr (marshallTCPPacket p) 6 (ip4 10 1 0 1)
    (mkAddrPort (ip4 127 0 0 1) 5001) (new_interface (mkInterfaceConfig "if0" (ip4 10 1 0 2)
      (mkPrefix (ip4 10 1 0 0) 24) (mkAddrPort (ip4 127 0 0 1) 5002)))) as (b & _ & H & _).
  - apply initial_node_named.
  - vm_compute; reflexivity.
  - vm_compute; reflexivity.
  - vm_compute; reflexivity.
  - unfold sendable, HeaderLen. rewrite zlen_marshall_nil by done. vm_compute. repeat split; discriminate.
  - eexists. exact H.
Qed.

(** ** Segments *)
Definition ex_segment : TCPPacket :=
  mkSeg server_addr client_addr hello TCPFlagAck 80 20001 6001 5001 65535.

Lemma segment_delivered_witness :
  exists b, makePacket server_addr client_addr 6 16 (marshallTCPPacket ex_segment) = Ret b /\
    handlePackets 0 ex_node (recv_buffer b) = Ret (ex_node, [ETCP (seg_info (IpAddr ex_node) ex_segment)]).
Proof.
  apply (segment_delivered 0 ex_node ex_segment 16).
  - vm_compute. repeat split; discriminate.
  - vm_compute; discriminate.
  - lia.
  - vm_compute; reflexivity.
  - vm_compute; reflexivity.
  - vm_compute; discriminate.
Defined.

(** ** Reading and reassembly *)
Definition reading_sock : NormalSocket :=
  set_read client_sock (mkRead (zcopy zero_buffer 1 hello) 0 3).

Lemma VRead_fifo_witness :
  exists r', VRead reading_sock 1 None = Ret (inr [Byte.x68], set_read reading_sock r') /\
    readable r' = [Byte.x69].
Proof.
  pose proof (VRead_fifo reading_sock 1) as H.
  replace (readable (readBuffer reading_sock)) with hello in H by (vm_compute; reflexivity).
  destruct H as (r' & H1 & _ & H2 & _).
  - vm_compute. repeat split; discriminate || reflexivity.
  - lia.
  - reflexivity.
  - discriminate.
  - discriminate.
  - discriminate.
  - exists r'. split; [exact H1|exact H2].
Defined.

Definition ex_chunks : list (list byte) := [[Byte.x61]; [Byte.x62; Byte.x63]; [Byte.x64]].
Definition ex_info (k : nat) : TCPInfo :=
  mkTCPInfo (flipSocketKeyFields client_key) TCPFlagAck (off ex_chunks 6001 k) 5001 65535 (chunk ex_chunks k).

Lemma client_rx_inv : rx_inv client_sock.
Proof.
  split; [exact new_read_wf|]. split; [vm_compute; split; [discriminate|reflexivity]|].
  split; [vm_compute; reflexivity|exact pq_inv_nil].
Qed.

Lemma reassembly_witness :
  exists s', receive_all client_sock (map ex_info [2%nat; 0%nat; 1%nat]) = Ret s' /\
    readable (readBuffer s') = [Byte.x61; Byte.x62; Byte.x63; Byte.x64] /\ cumReadNXT s' = 6005.
Proof.
  destruct (reassembly client_sock ex_chunks ex_info [2%nat; 0%nat; 1%nat]) as (s' & H1 & H2 & _ & H3 & _).
  - exact client_rx_inv.
  - reflexivity.
  - reflexivity.
  - repeat constructor; discriminate.
  - vm_compute; discriminate.
  - vm_compute; reflexivity.
  - intros k Hk. split; [reflexivity|]. split; [reflexivity|]. split; [reflexivity|].
    change (unackedFINs client_sock) with (∅ : gset Z). apply not_elem_of_empty.
  - apply (bool_decide_unpack _). vm_compute. exact I.
  - exists s'. split; [exact H1|]. split; [rewrite H2; vm_compute; reflexivity|exact H3].
Defined.

(** ** The handshake and the tables *)
Lemma handshake_witness :
  exists c s tc' ts' e1 e2,
    VConnect ex_node client_stack server_addr 80 [1]
      [WSegment (seg_info client_addr (synack_segment (seg_info server_addr
         (syn_segment client_stack server_addr 80 20001))))] = Ret (inr c, tc', e1) /\
    VAccept ex_router server_stack server_listen
      [seg_info server_addr (syn_segment client_stack server_addr 80 20001);
       seg_info server_addr (final_ack client_stack server_addr 80 20001 (seg_info client_addr
         (synack_segment (seg_info server_addr (syn_segment client_stack server_addr 80 20001)))))] =
      Ret (s, ts', [], e2) /\
    state c = ESTABLISHED /\ state s = ESTABLISHED /\ cumReadNXT c = cumWriteUNA s.
Proof.
  destruct (client_sends (syn_segment client_stack server_addr 80 20001)) as [e1 H1]; [reflexivity..|].
  destruct (server_sends (synack_segment (seg_info server_addr (syn_segment client_stack server_addr 80 20001))))
    as [e2 H2]; [reflexivity..|].
  destruct (client_sends (final_ack client_stack server_addr 80 20001 (seg_info client_addr
    (synack_segment (seg_info server_addr (syn_segment client_stack server_addr 80 20001)))))) as [e3 H3];
    [reflexivity..|].
  destruct (handshake ex_node ex_router client_stack server_stack server_listen server_addr 1 e1 e2 e3)
    as (c & s & tc' & ts' & V1 & V2 & _ & _ & _ & E1 & E2 & _ & _ & E3 & _).
  - vm_compute; reflexivity.
  - exact H1.
  - exact H2.
  - exact H3.
  - exists c, s, tc', ts', (e1 ++ e3), e2. split; [exact V1|]. split; [exact V2|].
    split; [exact E1|]. split; [exact E2|exact E3].
Defined.

Lemma VConnect_terminates_witness :
  exists t' evs, VConnect ex_node client_stack server_addr 80 [1] [WTimeout; WTimeout; WTimeout] =
    Ret (inl "could not connect", t', evs) /\ SocketTable t' = ∅.
Proof.
  destruct (VConnect_terminates ex_node client_stack server_addr 80 1 [WTimeout; WTimeout; WTimeout])
    as (r & t' & evs & H & Hr).
  - vm_compute; reflexivity.
  - vm_compute; reflexivity.
  - vm_compute; reflexivity.
  - apply le_n.
  - intros p H1 H2. apply client_sends; assumption.
  - exists t', evs. destruct r as [e|s].
    + destruct Hr as (-> & _ & Ht & _). split; [exact H|exact Ht].
    + destruct Hr as ((ci & Hin & _) & _). exfalso.
      repeat (apply elem_of_cons in Hin as [Hin|Hin]; [discriminate Hin|]). by apply not_elem_of_nil in Hin.
Defined.

Definition listening_stack : TCPStack := (VListen client_stack 80).2.

Lemma dispatch_correct_witness :
  dispatch listening_stack (mkTCPInfo (mkKey server_addr 20001 client_addr 80) TCPFlagSyn 5000 0 65535 []) =
    Ret (ToListen (listen_key 80)).
Proof.
  destruct (dispatch_correct ex_node listening_stack
    (mkTCPInfo (mkKey server_addr 20001 client_addr 80) TCPFlagSyn 5000 0 65535 [])) as (tg & H & Hs).
  - unfold stack_reachable. apply rtc_once.
    apply (step_listen client_stack 80 (VListen client_stack 80).1). unfold listening_stack.
    apply surjective_pairing.
  - vm_compute. split; [discriminate|reflexivity].
  - rewrite H. destruct tg as [k|k|].
    + destruct Hs as [-> (s & Hs & _)]. vm_compute in Hs. discriminate Hs.
    + destruct Hs as [-> _]. reflexivity.
    + destruct Hs as [Hs _]. vm_compute in Hs. discriminate Hs.
Defined.

(** ** Closing *)
Lemma connection_states_witness :
  exists s', rtc conn_step client_sock s' /\ state s' = FIN_WAIT_1 /\ rtc edge ESTABLISHED (state s') /\ fin_inv s' /\
    forall t t' s'', closer_finish t s' = Ret (t', s'') -> state s'' <> state s' -> state s'' = FIN_WAIT_2.
Proof.
  destruct (client_sends (fin_segment client_sock)) as [e He]; [reflexivity..|].
  destruct (VClose_ok ex_node client_sock FIN_WAIT_1 e) as (_ & s' & Hc & Es);
    [discriminate|reflexivity..|vm_compute; split; [discriminate|reflexivity]|reflexivity|exact He|].
  assert (Hr : rtc conn_step client_sock s') by (apply rtc_once; exact (c_close ex_node _ _ _ _ Hc)).
  destruct (connection_states client_sock s' eq_refl eq_refl eq_refl Hr) as (H1 & H2 & _ & _ & _ & _ & H3 & _).
  exists s'. split; [exact Hr|]. split; [rewrite Es; reflexivity|]. split; [exact H1|]. split; [exact H2|].
  intros t t' s'' Hf Hn. exact (proj2 (H3 t t' s'' Hf Hn)).
Defined.

Lemma client_quiet : quiet client_sock.
Proof. repeat split; vm_compute; discriminate || reflexivity. Qed.
Lemma server_quiet : quiet server_sock.
Proof. repeat split; vm_compute; discriminate || reflexivity. Qed.

(** The server's stack with the accepted connection. *)
Definition server_tables : TCPStack := add_socket (mkStack ∅ server_addr ∅ 1) (sk server_sock) (Normal server_sock).

Lemma orderly_close_witness :
  exists a1 e1 b1 ack1 tb' b4 b5,
    VClose ex_node client_sock = Ret (None, a1, e1) /\ state a1 = FIN_WAIT_1 /\
    ReceiverThread_body server_sock (seg_info server_addr (fin_segment client_sock)) = Ret (b1, Reply ack1) /\
    state b1 = CLOSE_WAIT /\
    closer_finish server_tables b4 = Ret (tb', b5) /\ SocketTable tb' !! sk server_sock = None.
Proof.
  destruct (orderly_close ex_node ex_router client_stack server_tables client_sock server_sock) as [H _].
  - exact client_quiet.
  - exact server_quiet.
  - reflexivity.
  - reflexivity.
  - split; [reflexivity|]. split; vm_compute; reflexivity.
  - intros p Hp Hd. apply client_sends; assumption.
  - intros p Hp Hd. apply server_sends; assumption.
  - vm_compute; reflexivity.
  - destruct H as (a1 & a2 & a3 & a4 & a5 & b1 & b2 & b3 & b4 & b5 & tb' & ack1 & ack2 & e1 & e2 &
        H1 & H2 & H3 & H4 & _ & _ & _ & _ & _ & _ & _ & _ & _ & _ & _ & H5 & H6);
      [vm_compute; reflexivity|vm_compute; reflexivity|].
    exists a1, e1, b1, ack1, tb', b4, b5. split; [exact H1|]. split; [exact H2|]. split; [exact H3|].
    split; [exact H4|]. split; [exact H5|exact H6].
Defined.

(** ** Faults *)
(** The server has sent two bytes that the client has acknowledged. *)
Definition server_after_data : NormalSocket := set_unackedNums server_sock {[6003 := 1]}.
Definition client_fin : TCPInfo := mkTCPInfo client_key FINACK 5001 6003 65535 [].

Lemma fin_swallowed_witness :
  exists s', ReceiverThread_body server_after_data client_fin = Ret (s', NoReply) /\ state s' = ESTABLISHED.
Proof.
  destruct (fin_swallowed server_after_data client_fin) as (s' & H1 & _ & H2 & _).
  - reflexivity.
  - reflexivity.
  - reflexivity.
  - apply not_elem_of_empty.
  - exists 1. vm_compute; reflexivity.
  - apply Nat.ltb_lt. reflexivity.
  - exists s'. split; [exact H1|exact H2].
Defined.

(** A FIN repeated in CLOSE_WAIT. *)
Definition server_close_wait : NormalSocket := set_cumReadNXT (set_state server_sock CLOSE_WAIT) 5002.
Definition repeated_fin : TCPInfo := mkTCPInfo client_key FINACK 5001 6001 65535 [].

Lemma fin_locks_socket_witness :
  exists s' r, ReceiverThread_body server_close_wait repeated_fin = Ret (s', r) /\
    VClose ex_router s' = Block "stateMtx".
Proof.
  assert (Hrun : match ReceiverThread_body server_close_wait repeated_fin with
    | Ret (s', _) => bool_decide (state s' = SYN_SENT) = false | _ => False end) by (vm_compute; reflexivity).
  destruct (ReceiverThread_body server_close_wait repeated_fin) as [[s' r]|e|e] eqn:E; [|destruct Hrun..].
  exists s', r. split; [reflexivity|].
  apply (fin_locks_socket server_close_wait s' s' repeated_fin r).
  - reflexivity.
  - reflexivity.
  - reflexivity.
  - right. left. reflexivity.
  - reflexivity.
  - apply not_elem_of_empty.
  - vm_compute; reflexivity.
  - vm_compute; discriminate.
  - exact E.
  - apply rtc_refl.
  - apply bool_decide_eq_false in Hrun. exact Hrun.
Defined.

(** The client has the ACK of its FIN in hand when the server's FIN repeats it. *)
Definition client_got : NormalSocket :=
  set_closer (set_unackedFINs (set_state client_sock FIN_WAIT_1) {[5002]}) (Got 5002).
Definition server_fin : TCPInfo := mkTCPInfo (flipSocketKeyFields client_key) FINACK 6001 5002 65535 [].

Lemma fin_ack_deadlock_witness :
  exists s', ReceiverThread_body client_got server_fin = Ret (s', StuckFin) /\
    closer_delete s' = Block "unackedMtx".
Proof.
  destruct (fin_ack_deadlock client_got server_fin 5002) as (s' & H1 & H2 & _).
  - reflexivity.
  - reflexivity.
  - reflexivity.
  - vm_compute; reflexivity.
  - reflexivity.
  - exists s'. split; [exact H1|exact H2].
Defined.

(** The client has received two bytes from 6001 on, the first one arrives again. *)
Definition client_received : NormalSocket := store_payload client_sock 6001 hello.
Definition old_byte : TCPInfo := mkTCPInfo (flipSocketKeyFields client_key) TCPFlagAck 6001 5001 65535 [Byte.x68].
Definition new_byte : TCPInfo := mkTCPInfo (flipSocketKeyFields client_key) TCPFlagAck 6003 5001 65535 [Byte.x21].

Lemma stale_segment_regresses_witness :
  exists s1 s2 ack, ReceiverThread_body client_received old_byte = Ret (s1, Reply ack) /\ ackNum ack = 6002 /\
    ReceiverThread_body s1 new_byte = Ret (s2, NoReply).
Proof.
  destruct (stale_segment_regresses client_received old_byte new_byte)
    as (s1 & s2 & ack & H1 & H2 & H3 & H4 & _).
  - apply (store_in_order client_sock hello client_rx_inv). vm_compute. discriminate.
  - reflexivity.
  - reflexivity.
  - vm_compute; discriminate.
  - reflexivity.
  - reflexivity.
  - discriminate.
  - discriminate.
  - apply not_elem_of_empty.
  - apply not_elem_of_empty.
  - vm_compute; discriminate.
  - vm_compute; reflexivity.
  - vm_compute; reflexivity.
  - exists s1, s2, ack. split; [exact H1|]. split; [rewrite H3, H2; reflexivity|exact H4].
Defined.

(** ** The sliding window *)
Definition new_timer : Timer := mkTimer rto_init (Some RTO_MIN) false.
Definition ex_window : SW := slidingWindow_start client_sock new_timer false TCPFlagAck hello.

Lemma client_start_ready : start_ready client_sock hello.
Proof.
  repeat split; try (vm_compute; congruence); try (vm_compute; reflexivity).
  - intros k [v Hv]. discriminate Hv.
  - constructor.
Qed.

Lemma sliding_window_stream_witness :
  exists o w, sw_exec open_window ex_window o w /\ pc w = Done /\ concat (map payload (fresh o)) = hello.
Proof.
  destruct (sliding_window_run client_sock TCPFlagAck hello new_timer client_start_ready eq_refl eq_refl eq_refl)
    as (o & w & X & D).
  apply own_exec_exec in X. destruct D as [D _]. exists o, w. split; [exact X|]. split; [exact D|].
  destruct (sliding_window_stream client_sock new_timer false TCPFlagAck hello o w client_start_ready X)
    as (_ & _ & sent & acked & _ & _ & _ & _ & _ & _ & _ & F).
  exact (proj2 (F D)).
Defined.

Lemma sliding_window_completes_witness :
  exists o w, sw_exec open_window ex_window o w /\ pc w = Done /\
    concat (map payload (fresh o)) = hello /\ cumWriteUNA (sock w) = 5003.
Proof.
  destruct (sliding_window_completes client_sock TCPFlagAck hello new_timer client_start_ready eq_refl eq_refl eq_refl)
    as (o & w & X & D & E & F).
  exists o, w. split; [exact X|]. split; [exact D|]. split; [exact E|exact F].
Defined.

(** ** The send stream *)
(** The client at rest, and its sender waiting. *)
Definition idle_sender : sender := Idle client_sock new_timer false.

Lemma client_sender_ready : sender_ready idle_sender 5001 [].
Proof.
  split; [vm_compute; repeat split; discriminate || reflexivity|]. split; [|vm_compute; reflexivity].
  apply (sender_idle client_sock new_timer false).
  split; [vm_compute; discriminate|]. split; [vm_compute; reflexivity|]. split; [vm_compute; reflexivity|].
  split; [vm_compute; reflexivity|]. split; [|constructor]. intros k [v Hv]. discriminate Hv.
Qed.

(** One round and the sender's cut. *)
Definition write_start : wstate := mkW idle_sender true 0 None [] [].
Definition after_write : wstate := write_round hello write_start.
Definition after_take : wstate :=
  mkW (Call (slidingWindow_start (ws_sock after_write) new_timer false TCPFlagAck hello)) false 2 None hello [].

Lemma after_take_steps : rtc (wstep hello) write_start after_take.
Proof.
  apply (rtc_l _ _ after_write); [apply wstep_write; reflexivity|].
  apply rtc_once. apply (wstep_take hello after_write 2); [vm_compute; reflexivity|].
  unfold take_payload. change (at_rest (ws_sender after_write)) with (Some (ws_sock after_write, new_timer, false)).
  cbv iota.
  replace (sender_payload (writeBuffer (ws_sock after_write)) 2) with (Some hello) by (vm_compute; reflexivity).
  reflexivity.
Qed.

Lemma vwrite_stream_witness :
  ws_cut after_take = hello /\ exists unsent, [] ++ unsent = hello.
Proof.
  destruct (vwrite_stream idle_sender 5001 [] hello write_start after_take) as (rest & unsent & H1 & H2 & H3 & _).
  - exact client_sender_ready.
  - vm_compute; reflexivity.
  - reflexivity.
  - exact after_take_steps.
  - split; [exact (H2 eq_refl eq_refl)|]. exists unsent. exact H3.
Defined.

Lemma vwrite_completes_witness :
  exists st, rtc (wstep (replicate 3000 Byte.x61)) write_start st /\ ws_cut st = replicate 3000 Byte.x61 /\
    cumWriteUNA (ws_sock st) = 8001.
Proof.
  destruct (vwrite_completes idle_sender 5001 [] (replicate 3000 Byte.x61) write_start)
    as (st & H1 & _ & _ & H2 & _ & _ & H3).
  - exact client_sender_ready.
  - vm_compute; reflexivity.
  - reflexivity.
  - vm_compute; reflexivity.
  - split; [split; [reflexivity|split; reflexivity]|reflexivity].
  - exists st. split; [exact H1|]. split; [exact H2|]. rewrite H3. vm_compute. reflexivity.
Defined.

Definition hello_ack : TCPInfo := mkTCPInfo (flipSocketKeyFields client_key) TCPFlagAck 6001 5003 65535 [].
Definition waiting_window : SW :=
  with_pc (with_sock ex_window (set_unackedNums client_sock {[5003 := 0]})) AckLoop.

Lemma duplicate_ack_freezes_witness :
  exists w2, sw_exec open_window waiting_window [] w2 /\
    ReceiverThread_body (sock w2) hello_ack = Block "unackedMtx".
Proof.
  destruct (duplicate_ack_freezes open_window waiting_window hello_ack) as (w2 & X & F).
  - reflexivity.
  - reflexivity.
  - reflexivity.
  - change (unackedFINs (sock waiting_window)) with (∅ : gset Z). apply not_elem_of_empty.
  - vm_compute; reflexivity.
  - reflexivity.
  - reflexivity.
  - reflexivity.
  - exists w2. split; [exact X|]. apply (F [] w2); [constructor|reflexivity].
Defined.

Definition sent_node : WindowNode := mkWNode 0 5003 (data_segment client_sock hello TCPFlagAck 5001) 0 (Some 0) true.
Definition tired_window : SW :=
  with_thread (with_window ex_window [sent_node] (At 0)) (TExpired 0 9).

Lemma giving_up_hangs_witness :
  exists w', thread_retransmit 7 tired_window = Ret (w', []) /\
    forall o' w'', sw_exec open_window w' o' w'' -> o' = [] /\ pc w'' = LoopTest.
Proof.
  destruct (thread_retransmit 7 tired_window) as [[w' o]| |] eqn:E.
  - exists w'.
    assert (H : forall o', o = [] /\ forall w'', sw_exec open_window w' o' w'' -> o' = [] /\ pc w'' = LoopTest).
    { intros o'. apply (giving_up_hangs open_window 7 tired_window w' o o' 0 0 sent_node); try reflexivity.
      - discriminate.
      - by eexists.
      - exact E. }
    split; [by rewrite (proj1 (H []))|]. intros o'. apply H.
  - discriminate E.
  - discriminate E.
Defined.

Definition closed_sock : NormalSocket := set_ClientWindowSize client_sock 0.
Definition late_info : TCPInfo := mkTCPInfo (flipSocketKeyFields client_key) TCPFlagAck 6005 5001 100 [Byte.x61].
Definition opened_sock : NormalSocket := push_early (set_ClientWindowSize closed_sock 100) late_info.

Lemma late_window_stalls_witness :
  ClientWindowSize opened_sock = 100 /\
  forall o w,
    sw_exec open_window (with_sock (slidingWindow_start closed_sock new_timer false TCPFlagAck hello) opened_sock) o w ->
    o = [] /\ pc w <> Done.
Proof.
  split; [reflexivity|]. intros o w. apply (late_window_stalls closed_sock opened_sock new_timer false TCPFlagAck hello).
  - reflexivity.
  - discriminate.
  - intros k [v Hv]. discriminate Hv.
  - constructor.
  - apply env_receive with (ti := late_info) (r := NoReply); [reflexivity|]. reflexivity.
  - vm_compute; reflexivity.
Defined.

Definition ab_node : WindowNode := mkWNode 1360 5003 (data_segment client_sock hello TCPFlagAck 5001) 1 None false.
Definition first_node : WindowNode := mkWNode 0 5001 (data_segment client_sock [Byte.x61] TCPFlagAck 5000) 0 (Some 0) false.
Definition probing_window : SW :=
  mkSW closed_sock new_timer [first_node; ab_node] (At 1) [] 3 2 false 1 false ProbeTest (TSelect 0 1) false.

Lemma probe_shifts_stream_witness :
  exists probe w1 w2 w3,
    sw_advance 0 probing_window = Ret (w1, [Probe probe]) /\ seqNum probe = 5001 /\
    sw_advance 0 (with_sock w1 (set_ackChan (sock w1) [mkTCPInfo (flipSocketKeyFields client_key) TCPFlagAck 6001 5002 100 []])) =
      Ret (w2, []) /\
    sw_advance 0 w2 = Ret (w3, [Fresh (packet ab_node)]) /\ pc w3 = AfterSend 5004 /\
    unackedNums (sock w3) !! 5003 = None.
Proof.
  destruct (probe_shifts_stream probing_window first_node ab_node
    (mkTCPInfo (flipSocketKeyFields client_key) TCPFlagAck 6001 5002 100 []) 0)
    as (probe & w1 & w2 & w3 & H1 & H2 & H3 & H4 & H5 & _ & H6).
  - repeat split; vm_compute; congruence.
  - reflexivity.
  - reflexivity.
  - exists probe, w1, w2, w3. split; [exact H1|]. split; [exact H2|]. split; [exact H3|]. split; [exact H4|].
    split; [exact H5|exact H6].
Defined.

(** ** File transfer *)
Definition hello_fin (a : Z) : TCPInfo := mkTCPInfo client_key FINACK 5003 a 65535 [].

Lemma server_rx_inv : rx_inv server_sock.
Proof.
  split; [exact new_read_wf|]. split; [vm_compute; split; [discriminate|reflexivity]|].
  split; [vm_compute; reflexivity|exact pq_inv_nil].
Qed.

Lemma no_fins (segs : list TCPPacket) : Forall (fun p => ackNum p ∉ unackedFINs server_sock) segs.
Proof. apply list.Forall_forall. intros p _. change (unackedFINs server_sock) with (∅ : gset Z). apply not_elem_of_empty. Qed.

(** A step of the loop, then the segments in reverse order. *)
Definition reverse_sched (k : nat) : list (option nat) := None :: map Some (rev (seq 0 k)).

Lemma delivered_reverse k : delivered (reverse_sched k) ≡ₚ seq 0 k.
Proof.
  change (delivered (reverse_sched k)) with (omap id (map Some (rev (seq 0 k)))).
  assert (H : forall l : list nat, omap id (map Some l) = l) by (induction l as [|x l IH]; [done|]; cbn; by f_equal).
  rewrite H. symmetry. apply Permutation_rev.
Qed.

Lemma ex_in_window a segs s2 :
  sender_run client_sock hello segs s2 ->
  in_window a (map payload segs) (cumReadNXT server_sock) (seg_infos server_addr segs)
    (reverse_sched (length segs)) (mkRF server_sock [] RfCheck).
Proof.
  intros X. destruct (sender_run_chain _ _ _ _ X ltac:(vm_compute; reflexivity)) as (C & Hcat & _).
  apply (in_window_small _ _ _ [] ∅ ∅ _ [] _ 0 []).
  - by eapply chain_nonempty.
  - by vm_compute.
  - rewrite Hcat. by vm_compute.
  - intros k Hk. apply seg_infos_segment; [exact C|apply no_fins|exact Hk].
  - split; [|split; [apply not_elem_of_nil|exact I]].
    exact (progress_start server_sock (map payload segs) server_rx_inv eq_refl eq_refl).
  - rewrite off_all, Hcat. by vm_compute.
  - cbn [app]. rewrite app_nil_r, Nat.sub_0_r, length_map. apply delivered_reverse.
Qed.

Lemma file_transfer_witness :
  exists segs r k r', concat (map payload segs) = hello /\
    rf_run ex_router (rf_sched (seg_infos server_addr segs) (reverse_sched (length segs)))
      (mkRF server_sock [] RfCheck) = Ret r /\
    rf_run ex_router (repeat (Reader None) 6 ++ [Deliver (hello_fin 6001)] ++ repeat (Reader None) k) r = Ret r' /\
    rf_pc r' = RfClose /\ rf_file r' = hello.
Proof.
  destruct (sliding_window_run client_sock TCPFlagAck hello new_timer client_start_ready eq_refl eq_refl eq_refl)
    as (o & w & X & D). apply own_exec_exec in X. destruct D as [D _].
  assert (Hrun : sender_run client_sock (hello ++ []) (fresh o ++ []) (sock w))
    by (apply (sr_call client_sock new_timer false hello o w [] []); [exact client_start_ready|exact X|exact D|constructor]).
  rewrite !app_nil_r in Hrun. set (segs := fresh o) in *.
  destruct (sender_run_chain _ _ _ _ Hrun ltac:(vm_compute; reflexivity)) as (_ & Hcat & Hcum & _).
  destruct (file_transfer ex_router server_addr client_sock (sock w) server_sock hello segs
    (reverse_sched (length segs)) []) as (r & H1 & _ & H2).
  - exact Hrun.
  - exact server_rx_inv.
  - vm_compute; reflexivity.
  - reflexivity.
  - reflexivity.
  - reflexivity.
  - reflexivity.
  - reflexivity.
  - apply no_fins.
  - exact (ex_in_window _ _ _ Hrun).
  - rewrite app_nil_r. apply delivered_reverse.
  - destruct (H2 eq_refl (hello_fin 6001)) as (k & r' & H3 & H4 & H5).
    + reflexivity.
    + rewrite Hcum. reflexivity.
    + change (unackedFINs server_sock) with (∅ : gset Z). apply not_elem_of_empty.
    + reflexivity.
    + exists segs, r, k, r'. split; [exact Hcat|]. split; [exact H1|]. split; [exact H3|]. split; [exact H4|exact H5].
Defined.

(** The FIN is early; the data before it arrives and is never read. *)
Definition early_fin_sock : NormalSocket := push_early server_sock (hello_fin 6001).
Definition hello_segment : TCPInfo := mkTCPInfo client_key TCPFlagAck 5001 6001 65535 hello.

Definition received_view (o : outcome (NormalSocket * rx_end)) : option (tcp_state * bool * list byte) :=
  match o with Ret (s, _) => Some (state s, stateMtx s, readable (readBuffer s)) | _ => None end.

Lemma fin_truncates_file_witness :
  exists k r', rf_run ex_router (Deliver hello_segment :: repeat (Reader None) k) (mkRF early_fin_sock [] RfCheck) = Ret r' /\
    rf_pc r' = RfClose /\ rf_file r' = [] /\ readable (readBuffer (rf_sock r')) = hello.
Proof.
  assert (V : received_view (ReceiverThread_body early_fin_sock hello_segment) = Some (CLOSE_WAIT, false, hello))
    by (vm_compute; reflexivity).
  destruct (ReceiverThread_body early_fin_sock hello_segment) as [[s' rx]|w|w] eqn:E; [|discriminate V|discriminate V].
  injection V as V1 V2 V3.
  destruct (fin_truncates_file ex_router (mkRF early_fin_sock [] RfCheck) hello_segment s' rx) as (_ & _ & H).
  - exact E.
  - exact V1.
  - destruct H as (k & r' & _ & H1 & H2 & H3 & H4); [exact V2|left; reflexivity|].
    exists k, r'. split; [exact H1|]. split; [exact H2|]. split; [exact H3|]. rewrite H4. exact V3.
Defined.

Definition ex_synack : TCPInfo :=
  seg_info client_addr (synack_segment (seg_info server_addr (syn_segment client_stack server_addr 80 20001))).

(** The file is said to have four bytes and the read returns two. *)
Definition four_bytes : list byte := hello ++ [Byte.x00; Byte.x00].

Definition sent_view (o : outcome ((string + NormalSocket * list byte) * TCPStack * list event)) : option (list byte * Z * Z) :=
  match o with
  | Ret (inr (s, bs), _, _) => Some (bs, cumWriteUNA s, ClientWindowSize s)
  | _ => None
  end.

Lemma ex_send_file :
  sent_view (SendFile ex_node client_stack (inr 4) (inr hello) server_addr 80 [1] [WSegment ex_synack]) =
    Some (four_bytes, 5001, 65535).
Proof.
  destruct (client_sends (syn_segment client_stack server_addr 80 20001)) as [e1 H1]; [reflexivity..|].
  destruct (client_sends (final_ack client_stack server_addr 80 20001 ex_synack)) as [e2 H2]; [reflexivity..|].
  unfold SendFile, VConnect. change (pick_port client_stack [1]) with (Some 20001). cbv iota zeta.
  cbn [connect_loop]. rewrite H1. cbn [mbind outcome_bind].
  change (bool_decide (Flag ex_synack = SYNACK)) with true. cbv iota. cbn [mbind outcome_bind].
  rewrite H2. cbn [mbind outcome_bind]. vm_compute. reflexivity.
Qed.

(** The close can come before the sender's first transmission. *)
Lemma sendfile_stream_witness :
  exists s t' evs st,
    SendFile ex_node client_stack (inr 4) (inr hello) server_addr 80 [1] [WSegment ex_synack] =
      Ret (inr (s, four_bytes), t', evs) /\
    rtc (wstep four_bytes) (mkW (Idle s new_timer false) true 0 None [] []) st /\
    ws_sent st = 4 /\ seqNum (fin_segment (ws_sock st)) = 5001.
Proof.
  pose proof ex_send_file as V.
  destruct (SendFile ex_node client_stack (inr 4) (inr hello) server_addr 80 [1] [WSegment ex_synack])
    as [[[[e|[s bs]] t'] evs]|w|w] eqn:E; try discriminate V.
  injection V as -> V1 V2. exists s, t', evs.
  destruct (sendfile_stream ex_node client_stack t' 4 hello server_addr 80 [1] [WSegment ex_synack] s four_bytes
    new_timer false evs) as (_ & _ & _ & H).
  - vm_compute; discriminate.
  - exact E.
  - rewrite V2. reflexivity.
  - rewrite V1. discriminate.
  - rewrite V1. reflexivity.
  - destruct H as (st & H1 & H2 & _ & _ & H3); [vm_compute; split; [reflexivity|discriminate]|].
    exists st. split; [reflexivity|]. split; [exact H1|]. split; [exact H2|]. rewrite H3. exact V1.
Defined.

(** ** The command line *)
Definition ex_world : world := mkWorld [1] [WSegment ex_synack] (fun _ => inl "no such file").
Definition connected_stack : TCPStack := add_socket client_stack client_key (Normal client_sock).
Definition ex_iter (m : gmap SocketTableKey Socket) : list (SocketTableKey * Socket) := map_to_list m.

Lemma typed_message_witness :
  (exists evs, HandleSend ex_node server_addr (bytes_of "hi  there") 0 = Ret evs /\
     REPL ex_iter ex_node None ex_world "send 10.1.0.2 Hi  There" = Ret (Prompt None evs [])) /\
  REPL ex_iter ex_node (Some connected_stack) ex_world "s 0 Hi  There" =
    Ret (InWrite connected_stack client_sock (bytes_of "hi  there")).
Proof.
  assert (Hm : ends_ok "Hi  There") by (split; [discriminate|reflexivity]).
  destruct (typed_message ex_iter ex_node None connected_stack ex_world server_addr 0 client_key client_sock
    "Hi  There" Hm) as [H1 H2]. split.
  - destruct (HandleSend_ok ex_node server_addr (bytes_of "hi  there") 0 server_addr
      (mkAddrPort (ip4 127 0 0 1) 5002) (new_interface ex_if1)) as (b & _ & H & _).
    + apply initial_node_named.
    + vm_compute; reflexivity.
    + vm_compute; reflexivity.
    + vm_compute; reflexivity.
    + vm_compute. repeat split; discriminate.
    + assert (Hf : FindNext ex_node server_addr <> None) by (vm_compute; discriminate).
      assert (Ha : Addr_wf server_addr) by (vm_compute; split; [discriminate|reflexivity]).
      specialize (H1 Ha Hf). replace (ToLower "Hi  There") with "hi  there" in H1 by reflexivity.
      rewrite H in H1. eexists. split; [exact H|].
      replace "send 10.1.0.2 Hi  There" with
        ("send" +:+ (" " +:+ (Addr_String server_addr +:+ (" " +:+ "Hi  There")))) by (vm_compute; reflexivity).
      rewrite H1. reflexivity.
  - specialize (H2 ltac:(lia) eq_refl eq_refl). replace (ToLower "Hi  There") with "hi  there" in H2 by reflexivity.
    replace "s 0 Hi  There" with ("s" +:+ (" " +:+ (fmt_d 0 +:+ (" " +:+ "Hi  There")))) by (vm_compute; reflexivity).
    rewrite H2. reflexivity.
Defined.

Lemma repl_refines_stack_witness :
  exists t', REPL ex_iter ex_node (Some client_stack) ex_world " RF Out.txt 9000 " =
      Ret (Prompt (Some t') [] [GReceiveFile "out.txt" (mkListen 9000 0)]) /\ stack_reachable ex_node t' /\ tables_ok t'.
Proof.
  assert (E : exists t', REPL ex_iter ex_node (Some client_stack) ex_world " RF Out.txt 9000 " =
    Ret (Prompt (Some t') [] [GReceiveFile "out.txt" (mkListen 9000 0)])) by (eexists; vm_compute; reflexivity).
  destruct E as [t' E]. exists t'. split; [exact E|].
  destruct (repl_refines_stack ex_iter ex_node ex_node client_stack ex_world " RF Out.txt 9000 " _ (rtc_refl _ _) E)
    as (t2 & H1 & _ & _ & H2 & H3).
  injection H1 as <-. split; [exact H2|exact H3].
Defined.

(** An interface of the node switched, on a host whose stack is new. *)
Lemma repl_panics_iff_witness :
  panics (REPL ex_iter (initial_node ex_parsed) (Some (Initialize_stack (initial_node ex_parsed))) ex_world "up if0").
Proof.
  destruct (repl_panics_iff ex_iter ex_parsed (initial_node ex_parsed) (initial_node ex_parsed)
    (Some (Initialize_stack (initial_node ex_parsed))) ex_world "up if0") as [H _].
  - exact ex_parsed_wf.
  - constructor.
  - apply rtc_refl.
  - apply H. vm_compute. eexists. reflexivity.
Defined.

Lemma ex_started :
  exists out, vhost_main "net.lnx" (Some ex_file) =
    Ret (Running (initial_node ex_parsed) (Some (Initialize_stack (initial_node ex_parsed))) out).
Proof.
  unfold vhost_main, start. rewrite bool_decide_false by done. rewrite ex_parsed_file. cbn [mbind outcome_bind].
  unfold Initialize. destruct (initial_requests _ _) as [evs|e|e] eqn:E; [by eexists|vm_compute in E; discriminate..].
Qed.

Lemma programs_start_witness :
  (exists out, vhost_main "net.lnx" (Some ex_file) =
      Ret (Running (initial_node ex_parsed) (Some (Initialize_stack (initial_node ex_parsed))) out) /\
    forall n, reachable ex_parsed n -> table_ok (forwardingTable n) /\ IpAddr n = ip4 10 0 0 1) /\
  exists e, rip_request (initial_node ex_parsed) (ip4 10 0 0 2) e /\
    vrouter_main "net.lnx" (Some (print_config ex_parsed)) = Ret (Running (initial_node ex_parsed) None [e]).
Proof.
  destruct (programs_start "net.lnx" (Some ex_file) ex_parsed) as (P1 & _ & P3). split.
  - destruct ex_started as [out H]. exists out. split; [exact H|].
    destruct (P1 _ H) as (c & _ & Hc & _ & _ & _ & _ & Hn).
    intros n Hr. assert (c = ex_parsed) as -> by (rewrite ex_parsed_file in Hc; injection Hc as <-; reflexivity).
    destruct (Hn n Hr) as (H1 & H2 & _). split; [exact H1|]. rewrite H2. reflexivity.
  - destruct P3 as (out & H1 & _ & H2).
    + discriminate.
    + exact ex_parsed_wf.
    + split; repeat constructor; discriminate.
    + change (c_RipNeighbors ex_parsed) with [ip4 10 0 0 2]. constructor; [|constructor].
      split; [vm_compute; split; [discriminate|reflexivity]|]. vm_compute. eexists. reflexivity.
    + change (c_RipNeighbors ex_parsed) with [ip4 10 0 0 2] in H1.
      inversion H1 as [|r e rs es He Hes E1 E2]. subst. inversion Hes. subst.
      exists e. split; [exact He|exact H2].
Defined.

(** Two clients, one after the other. *)
Definition ex_client (port : Z) : TCPInfo * TCPInfo :=
  (mkTCPInfo (mkKey client_addr port server_addr 80) TCPFlagSyn 5000 0 65535 [],
   mkTCPInfo (mkKey client_addr port server_addr 80) TCPFlagAck 5001 6001 65535 []).

Lemma listen_accepts_all_witness :
  exists s1 s2 t' evs, listenAndAccept ex_router (Some server_stack) 80 (handshakes [ex_client 20001; ex_client 20002]) =
      Ret (inr ([s1; s2], t', evs)) /\
    RemotePort (sk s1) = 20001 /\ RemotePort (sk s2) = 20002 /\ state s2 = ESTABLISHED.
Proof.
  destruct (listen_accepts_all ex_router server_stack 80 [ex_client 20001; ex_client 20002])
    as (ss & t' & evs & l & H & HF & _).
  - reflexivity.
  - repeat constructor.
  - apply (bool_decide_unpack _). vm_compute. exact I.
  - repeat constructor; discriminate.
  - repeat constructor; apply server_sends; reflexivity.
  - inversion HF as [|c1 s1 cs1 ss1 [S1 _] HF1 E1 E2]. subst. inversion HF1 as [|c2 s2 cs2 ss2 [S2 _] HF2 E3 E4]. subst.
    inversion HF2. subst. destruct S1 as (K1 & _). destruct S2 as (K2 & St2 & _).
    exists s1, s2, t', evs. split; [exact H|]. rewrite K1, K2. split; [reflexivity|]. split; [reflexivity|exact St2].
Defined.
